(* ===== verification/_CoqProject ===== *)
-Q . S2P
Prelude.v
Bytes.v
GoStrings.v
Base64.v
AuthBinding.v
NetAddr.v
Settings.v
Types.v
Stream.v
Structures.v
MatchTypes.v
Rmc.v
Crypto.v
Sha256.v
Kerberos.v
PrudpLite.v
PrudpUdp.v
PrudpUdpProps.v
WireProps.v
TicketGranting.v
Connection.v
Endpoint.v
Handlers.v
Stations.v
NatBridge.v
Utility.v
Relay.v
StationProps.v
RelayProps.v
RelayRegistry.v
NatTraversal.v
Eagle.v
Ranking2.v
Ranking2Props.v
EndpointProps.v
Frame.v
Delivery.v
Transport.v
Switches.v
Login.v
Matchmaking.v
Tournament.v
TournamentFacts.v
Ranking.v
RankingNames.v
RankingProps.v
Dashboard.v
MatchHandlers.v
DataStore.v
DataStoreProps.v
Saves.v
Referee.v
RefereeProps.v
SessionURLs.v
MatchDispatch.v
MatchFacts.v
Lobby.v
Process.v
ProcessFrames.v
ProcessProps.v
Pieces.v
Departures.v
SessionProps.v
Pushes.v
Introduction.v
MatchProps.v
Answers.v
MatchScenario.v
ProcessScenario.v
