(* ===== verification/Prelude.v ===== *)
(** * nextendo-nex: a verification development

    nextendo-nex is a game server library in Go: it speaks Nintendo's NEX protocols to the
    consoles of several titles, so that one process per title can log players in, match them,
    introduce them to each other and keep their scores.  This development models the program
    in [src/*.go] and proves what makes it correct.

    ** The program

    A console logs in on the authentication endpoint (ticketgranting.go), which answers with a
    Kerberos ticket (kerberos.go); it then connects to the secure endpoint with that ticket
    (endpoint.go), over PRUDP-Lite packets in a WebSocket (prudp_lite.go) or, for one title,
    over raw PRUDP V1 packets in UDP (prudp_udp.go, prudp_udp_server.go).  The endpoint
    acknowledges, reorders nothing, drops duplicates, reassembles fragments and hands complete
    RMC requests (rmc.go) to the handler registered for their protocol.  Bodies are structures
    (types.go) over byte streams (stream.go).

    The handlers share the process: the secure connection protocol keeps the stations a console
    may be reached at (secureconnection.go); the matchmaker keeps gatherings, picks lobbies and
    pushes notifications (matchmaking*.go, notification.go, messagedelivery.go, tournament.go,
    solo_isolate.go); GetSessionURLs introduces a joiner to a host through the NAT bridge
    (natbridge.go, matchmaking_local.go) or the relay by pairs (relay*.go); NAT traversal
    reports feed the relay's registry of need (nattraversal.go, relaybesoin.go); rankings,
    the referee, the data store and the settings tables answer the rest (ranking*.go,
    referee*.go, datastore_smm2*.go, utility.go).  A background reaper closes idle connections
    (reaper.go).

    ** The files

    The prelude and the language:
    - Prelude: results and errors, tactics, hint databases, lists, the iteration order of Go
      maps and the unspecified part of [sort.Slice] as classes ([MapOrder], [SliceSort]), and
      [Substate], the interface of a component's state inside the process state.
    - Bytes, GoStrings, Base64, NetAddr, Crypto, Sha256: what the code uses of Go's standard
      library (machine integers with their wrap-around, [strings], [strconv], UTF-8,
      [encoding/hex], [encoding/base64], [net], MD5, SHA-256, HMAC, RC4), executable and tried
      on known vectors.

    The wire:
    - Settings (settings.go, resultcodes.go); Types (types.go: results, dates, station URLs);
      Stream (stream.go); Structures (types.go: levels, variants, data holders); MatchTypes
      (matchmaking.go, matchmaking_acnh.go, matchmaking_criteria.go, notification.go and the
      structures of the handlers); Rmc (rmc.go); Kerberos (kerberos.go); PrudpLite
      (prudp_lite.go); PrudpUdp (prudp_udp.go and the server of prudp_udp_server.go).
    - WireProps, PrudpUdpProps: what one side writes the other reads; who is heard over UDP.

    The endpoint and the login:
    - TicketGranting (ticketgranting.go), AuthBinding (authbinding.go), Connection and Endpoint
      (endpoint.go, reaper.go), EndpointProps, Delivery (a message from one end to the other),
      Frame (what the endpoint's operations leave alone), Login (the two endpoints together),
      Transport (server.go, proxyproto.go and the reaper's loop, as runs of the endpoint's
      steps), Switches (what is read from the environment, and the operations too small for a
      place of their own).
    - Handlers: what every protocol's handlers share.

    The players' addresses:
    - Stations (secureconnection.go), NatBridge (natbridge.go, matchmaking_local.go), Relay
      (relaybesoin.go, relayvu.go, relayvolontaires.go, relaypair.go), NatTraversal
      (nattraversal.go), SessionURLs (GetSessionURLs and protocol 0x15 of
      matchmaking_handlers.go).
    - StationProps, RelayProps, RelayRegistry, SessionProps, Introduction (GetSessionURLs and
      the relay together).

    The matchmaker:
    - Matchmaking (the store and the shared operations), Tournament (tournament.go),
      MatchHandlers (one definition per handler), MatchDispatch (protocols 0x6D, 0x32 and the
      relay of messages, and the steps of the matchmaker), Dashboard (dashboard_data.go),
      Eagle (eagle_handoff.go).
    - TournamentFacts, MatchFacts, MatchProps, MatchScenario.

    Scores, records and profiles:
    - Utility (utility.go), Ranking (ranking.go, ranking_board.go), RankingNames
      (ranking_names.go), Ranking2 (ranking2.go, ranking2_scores.go), Referee (referee.go, referee_stats.go), DataStore
      (datastore_smm2.go, datastore_smm2_persist.go).
    - RankingProps, Ranking2Props, RefereeProps, DataStoreProps, Saves (the goroutines that
      save the profiles).

    The process:
    - Lobby: the lobbies as an abstract machine, rooms and the moves a player may make in
      them, and the matchmaker's store seen as such.
    - Process: the state of a game server with every component's part in it, the table of
      handlers a title may register, and the steps of the whole; ProcessFrames (what each
      handler leaves alone, and that it plays by the rules of Lobby), ProcessProps, Departures
      (evictions and the lobbies), Pieces (the requests that announce something, cut where they
      release the lock), Pushes (what a handler sends besides its answer), Answers,
      ProcessScenario (one session from the SYN to the departure, and the witnesses).

    ** How the code is modelled

    A Go function is a Rocq function of the same name.  Numbers are [Z] with [u8], [u16], [u32],
    [u64] and the signed readings written where Go converts; slices of bytes are lists of
    bytes; maps are [gmap]s, ranged over in the order a [MapOrder] gives, so that a theorem
    holds for every order, and a finding can exhibit two.  A connection is a [Ref] into a heap,
    because the registry, the transport and the handlers share it; the same goes for the UDP
    sessions.  A handler is a state transformer of the whole [Net] and returns [option
    RMCMessage], [None] when the code answers nothing.  Errors are values of [result]; a Go
    panic is the error [Panic].  Time is a number of nanoseconds in the state; random bytes,
    the content of a file as decoded from its JSON, and whether a port can be opened are
    arguments.  Goroutines that wait (retransmission, timers, joiners, the UDP datagrams, the
    reapers) are steps of their own, so that they interleave in every order; what a lock
    protects is one step.  A whole packet is one step of its connection, the request it
    completes and the pushes of its handler included, and so is the end of a connection; but
    the process may also take a request, a departure or a change of host in two steps, what is
    done under the matchmaker's lock and what is announced after it (Pieces), with anything in
    between; the fragments of an answer are steps of the goroutine that sends them.  In the
    referee and Ranking a whole request is one step, the write of the file included; Ranking2's
    write of the file is two, because the code releases its lock between, which its handler
    takes one after the other; the saves of the data store are one step in
    DataStore and goroutines of many steps in Saves.
    A few calls that let go of a lock and take one again, or write a field without one, are one
    step: PairRelayFor between the registry of ports and the pair's own lock, appliquerResultat
    between finding a record and changing it, RecallAuthPID between finding an expired login
    and deleting it, and the end of the UDP server's CONNECT.
    Between sending a fragment and entering it in the pool of retransmission the code holds no
    lock: an acknowledgement that comes in between leaves the fragment in the pool, to be sent
    again until the next one; the model sends and enters it in one step.

    Recursion is structural but for the parsers.  Their fuel is the length of the input, and
    each turn takes at least a byte: a lemma of each file says the fuel is never what stops
    them ([decode_options_no_fuel], [decode_loop_fuel], [decode_udp_loop_fuel], and so on).
    The one loop of the program that does not end is modelled as such
    ([MatchProps.modifyCurrentGameAttribute_spec]); in the process, where it holds the
    matchmaker's lock for ever, it has no further effect.

    ** What the theorems show

    - The process: with every handler of the package at once, and whatever the title's own
      handlers and callbacks do within their interface ([Polite], [callbacks_idle],
      [callbacks_push]), the registry and the gatherings stay consistent, an identity comes
      from an accepted CONNECT only, everybody a gathering lists was let in, every step is a
      turn of one player in the abstract machine of the lobbies, nobody with a connection is
      put out of a lobby by others than its owner, every request is answered once on its
      connection under its call identifier, and who is evicted is in no gathering any more.
    - The wire: packets survive any cutting of the stream, V1 datagrams decode to what was
      encoded, RMC messages, sessions, settings tables and station URLs are read back, Kerberos
      decryption accepts exactly what encryption produced.
    - Identity: a login's ticket, or a recent login from the same address, and nothing else, gives
      a connection its PID; a login the lookup refuses leaves no trace; over UDP only ticket
      holders are heard.
    - The endpoint: the connection registry is sound in every reachable state; a message sent
      on one end reaches the other's handler once and whole, whatever cuts the stream and
      whichever recent fragments come again, before its end or after, and its acknowledgements
      empty the sender's pool; the duplicate
      window implements its specification.
    - The matchmaker: an invariant of every reachable state, the lobby AutoMatchmake picks, the
      capacity, departures, what browsing reveals, tournaments.
    - Addresses: Register stores what it answers, ReplaceURL renews one station or keeps the
      identity Register gave, the bridge gives two candidates of one socket, every joiner is
      answered once.
    - The relay: ports and pairs are one to one in every reachable state, a relay is given only
      to those who may have it and need it, the two players of a pair of two networks reach
      each other and nobody else does, such players introduced through the relay meet there,
      silent pairs are closed, the counters of need implement their declarative reading.
    - Scores and records: boards keep the best scores and one order, ranks agree between
      queries, referee records are what the results make them, files give back what was
      written when every write goes through and none overlaps another, and the profiles' file
      whatever overlaps.
    - Findings: theorems on concrete inputs that show where the code departs from what it means
      to do (truncated messages, leaked identifiers, lost scores, half-read profiles, lobbies
      whose owner is not their owner, and others); their doc comments say what happens.

    ** Not modelled

    The listeners of server.go and proxyproto.go (TLS, net/http and the WebSocket library) are
    I/O over third-party code; what the code does with their events is in Transport.  The JSON
    object of the account claim and Go's table of graphic characters are parameters of the
    definitions that use them.  Log lines are left out everywhere, and with them natBridgeSkip,
    logCommonDataNames and TraceCall, which do nothing else.  The UDP sockets themselves are
    I/O: a datagram received is an argument or a step, a datagram sent an event. *)

From stdpp Require Export base decidable numbers list gmap countable sets option sorting strings.
From Stdlib Require Export ZArith Lia.

#[global] Set Default Proof Using "Type".

(** ** Go's error values and the (value, error) results of the code.

    An error is compared to nil and printed, never inspected further, so a formatted error
    is its constant prefix.  [Panic] is no error value: it marks a call that does not return
    because Go panics (a nil dereference, an index out of range). *)
Inductive error : Type :=
  | ErrUnexpectedEOF
  | Panic
  | ErrMsg (what : string).

Inductive result (A : Type) : Type :=
  | Ok (a : A)
  | Err (e : error).
Arguments Ok {A} a.
Arguments Err {A} e.

#[export] Instance error_eq_dec : EqDecision error.
Proof. solve_decision. Defined.

#[export] Instance Ok_inj {A} : Inj (=) (=) (@Ok A).
Proof. by intros a b [= ->]. Qed.

Definition is_ok {A} (r : result A) : bool :=
  match r with Ok _ => true | Err _ => false end.

(** ** Notations of the development *)
Declare Scope nex_scope.
Delimit Scope nex_scope with nex.

(** The error monad of the functions that return early on an error. *)
Definition result_bind {A B} (r : result A) (k : A → result B) : result B :=
  match r with Ok a => k a | Err e => Err e end.

Notation "'try!' x := r 'in' k" := (result_bind r (λ x, k))
  (at level 10, x name, r at level 100, k at level 200) : nex_scope.
Notation "'try!' ' p := r 'in' k" := (result_bind r (λ p, k))
  (at level 10, p strict pattern, r at level 100, k at level 200) : nex_scope.
Open Scope nex_scope.

(** ** Automation *)

(** Case analysis on the [if]s, [match]es and decisions of a goal, then [simplify_eq]. *)
Ltac case_all :=
  repeat (first [case_match | case_decide | case_bool_decide]; simplify_eq/=).

(** Destructs every conjunction and existential of the context. *)
Ltac destruct_hyps :=
  repeat match goal with
  | H : _ ∧ _ |- _ => destruct H
  | H : ∃ _, _ |- _ => destruct H
  end.

(** Databases: [nex] resolves the side conditions of the components' lemmas, [nex_rw]
    rewrites with their equations, [wire] composes the encoders' round trips. *)
Create HintDb nex discriminated.
Create HintDb wire discriminated.
Create Rewrite HintDb nex_rw.
#[export] Hint Extern 1 (_ ≤ _) => lia : nex.
#[export] Hint Extern 1 (_ < _) => lia : nex.
#[export] Hint Extern 1 (_ ≤ _)%Z => lia : nex.
#[export] Hint Extern 1 (_ < _)%Z => lia : nex.

(** ** Lists *)
Section lists.
Context {A : Type}.
Implicit Types (l k : list A).

Lemma drop_app_exact l k n : n = length l → drop n (l ++ k) = k.
Proof. intros ->. apply drop_app_length. Qed.

Lemma take_app_exact l k n : n = length l → take n (l ++ k) = l.
Proof. intros ->. apply take_app_length. Qed.

Lemma take_drop_lt n l : (0 < n)%nat → l ≠ [] → (length (drop n l) < length l)%nat.
Proof. intros Hn Hl. rewrite length_drop. destruct l; simpl; [done|lia]. Qed.

(** The last [n] elements, most recent last. *)
Definition last_n (n : nat) l : list A := drop (length l - n) l.

Lemma last_n_length n l : length (last_n n l) = (n `min` length l)%nat.
Proof. unfold last_n. rewrite length_drop. lia. Qed.

Lemma last_n_all n l : (length l ≤ n)%nat → last_n n l = l.
Proof. intros H. unfold last_n. by replace (length l - n)%nat with 0%nat by lia. Qed.

Lemma last_n_snoc n l (x : A) : (0 < n)%nat → last_n n (l ++ [x]) = last_n (n - 1) l ++ [x].
Proof.
  intros Hn. unfold last_n. rewrite length_app. simpl.
  rewrite drop_app_le by lia. f_equal. f_equal. lia.
Qed.

Lemma filter_id (P : A → Prop) `{∀ x, Decision (P x)} l : (∀ x, x ∈ l → P x) → filter P l = l.
Proof.
  induction l as [|x l IH]; intros HP; [done|].
  rewrite filter_cons_True by (apply HP; by left). f_equal. apply IH. intros y Hy. apply HP. by right.
Qed.
Lemma filter_none (P : A → Prop) `{∀ x, Decision (P x)} l : (∀ x, x ∈ l → ¬ P x) → filter P l = [].
Proof.
  induction l as [|x l IH]; intros HP; [done|].
  rewrite filter_cons_False by (apply HP; by left). apply IH. intros y Hy. apply HP. by right.
Qed.
End lists.

(** ** Options *)
Lemma is_Some_bool {A} (o : option A) : is_Some o ↔ bool_decide (is_Some o) = true.
Proof. by rewrite bool_decide_eq_true. Qed.

(** ** Iteration over a Go map.

    Go visits the entries of a map in an unspecified order.  A definition that ranges over
    a map takes the order as a [MapOrder]; its theorems hold for every instance. *)
Class MapOrder := {
  range : ∀ {K A : Type} `{Countable K}, gmap K A → list (K * A);
  range_perm : ∀ {K A : Type} `{Countable K} (m : gmap K A), range m ≡ₚ map_to_list m
}.

(** The order of [map_to_list], to run the definitions. *)
Definition canonical_order : MapOrder :=
  {| range := λ K A _ _ m, map_to_list m; range_perm := λ K A _ _ m, reflexivity _ |}.

(** Another order, to show that a result depends on it. *)
Definition reversed_order : MapOrder.
Proof.
  refine {| range := λ K A _ _ m, reverse (map_to_list m) |}.
  intros. apply reverse_Permutation.
Defined.

Section map_order.
Context `{MO : MapOrder} {K A : Type} `{Countable K}.
Implicit Types m : gmap K A.

Lemma elem_of_range m k a : (k, a) ∈ range m ↔ m !! k = Some a.
Proof. rewrite range_perm. apply elem_of_map_to_list. Qed.

Lemma NoDup_fst_range m : NoDup (range m).*1.
Proof. rewrite range_perm. apply NoDup_fst_map_to_list. Qed.

Lemma NoDup_range m : NoDup (range m).
Proof. rewrite range_perm. apply NoDup_map_to_list. Qed.

Lemma length_range m : length (range m) = size m.
Proof. rewrite range_perm. apply length_map_to_list. Qed.

Lemma range_empty : range (∅ : gmap K A) = [].
Proof.
  apply Permutation_nil_r. rewrite range_perm. by rewrite map_to_list_empty.
Qed.

Lemma list_to_map_range m : list_to_map (range m) = m.
Proof.
  rewrite (list_to_map_proper (range m) (map_to_list m)).
  - apply list_to_map_to_list.
  - apply NoDup_fst_range.
  - apply range_perm.
Qed.

(** A loop over a map that replaces, or drops, each entry by itself comes to the same map in
    any order. *)
Lemma range_pointwise {St} (G : St → gmap K A) (f : St → K * A → St) (h : K → A → option A) st :
  (∀ st e k, G st !! e.1 = Some e.2 → G (f st e) !! k = if decide (k = e.1) then h e.1 e.2 else G st !! k) →
  ∀ k, G (foldl f st (range (G st))) !! k = G st !! k ≫= h k.
Proof.
  intros Hf. assert (∀ l st', NoDup l.*1 → (∀ k a, (k, a) ∈ l → G st' !! k = Some a) →
    ∀ k, G (foldl f st' l) !! k = match (list_to_map l : gmap K A) !! k with
                                 | Some a => h k a | None => G st' !! k end) as Hl.
  { induction l as [|[k0 a0] l IH]; intros st' Hnd Hin k; [by rewrite list_to_map_nil, lookup_empty|].
    cbn [foldl fmap list_fmap fst] in *. apply NoDup_cons in Hnd as [Hni Hnd].
    assert (∀ k, G (f st' (k0, a0)) !! k = if decide (k = k0) then h k0 a0 else G st' !! k) as Hstep.
    { intros k'. apply (Hf st' (k0, a0)). apply Hin. by left. }
    rewrite list_to_map_cons, IH; [|done|].
    - destruct (decide (k = k0)) as [->|Hne].
      + rewrite lookup_insert_eq, (not_elem_of_list_to_map_1 l) by done.
        rewrite Hstep. by rewrite decide_True.
      + rewrite lookup_insert_ne by done. destruct (list_to_map l !! k); [done|].
        rewrite Hstep. by rewrite decide_False.
    - intros k' a' Hka. rewrite Hstep. rewrite decide_False.
      + apply Hin. by right.
      + intros ->. apply Hni. by apply (list_elem_of_fmap_2 fst l (k0, a')). }
  intros k. rewrite Hl; [|apply NoDup_fst_range|by intros ?? ?%elem_of_range].
  rewrite list_to_map_range. by destruct (G st !! k).
Qed.
End map_order.

#[export] Hint Rewrite @length_range @range_empty @list_to_map_range : nex_rw.

(** ** [sort.Slice]

    Go's sort orders a slice by a strict weak order; the order of what the comparison does not
    tell apart is unspecified.  A definition that sorts takes the algorithm as a
    [SliceSort]; its theorems hold for every instance. *)
Definition strict_weak {A} (less : A → A → bool) : Prop :=
  (∀ x y, less x y = true → less y x = false) ∧
  (∀ x y z, less x y = true → less x z = true ∨ less z y = true).

Definition not_after {A} (less : A → A → bool) (x y : A) : Prop := less y x = false.

Class SliceSort := {
  sort_slice : ∀ {A : Type}, (A → A → bool) → list A → list A;
  sort_slice_perm : ∀ {A : Type} (less : A → A → bool) l, sort_slice less l ≡ₚ l;
  sort_slice_sorted : ∀ {A : Type} (less : A → A → bool) l,
    strict_weak less → Sorted (not_after less) (sort_slice less l)
}.

#[local] Instance not_after_dec {A} (less : A → A → bool) : RelDecision (not_after less).
Proof. unfold not_after. intros x y. apply _. Defined.

(** Merge sort, to run the definitions. *)
Definition merge_slices : SliceSort.
Proof.
  refine {| sort_slice := λ A less l, merge_sort (not_after less) l |}.
  - intros. apply merge_sort_Permutation.
  - intros A less l [Hasym _]. apply Sorted_merge_sort. intros x y. unfold not_after.
    destruct (less y x) eqn:E; [right; by apply Hasym|by left].
Defined.

Lemma StronglySorted_weaken {A} (R R' : A → A → Prop) l :
  (∀ x y, R x y → R' x y) → StronglySorted R l → StronglySorted R' l.
Proof.
  intros HR. induction 1 as [|x l _ IH Hx]; constructor; [done|]. eapply Forall_impl; [done|]. auto.
Qed.

Section sorting.
Context `{SS : SliceSort} {A : Type} (less : A → A → bool) (Hless : strict_weak less).

#[local] Instance not_after_trans : Transitive (not_after less).
Proof using Hless.
  intros x y z Hxy Hyz. unfold not_after in *. destruct (less z x) eqn:E; [|done].
  destruct (proj2 Hless _ _ y E); congruence.
Qed.

Lemma sort_slice_strongly l : StronglySorted (not_after less) (sort_slice less l).
Proof using Hless. apply Sorted_StronglySorted; [apply _|by apply sort_slice_sorted]. Qed.

(** When the comparison tells the elements apart, there is one way to sort them. *)
Lemma sort_slice_unique l k :
  (∀ x y, x ∈ l → y ∈ l → less x y = false → less y x = false → x = y) →
  Sorted (not_after less) k → k ≡ₚ l → sort_slice less l = k.
Proof using Hless.
  intros Hl Hk Hp. apply (Sorted_unique_strong (not_after less)).
  - intros x y. rewrite sort_slice_perm, Hp. intros Hx Hy H1 H2. by apply Hl.
  - by apply sort_slice_sorted.
  - done.
  - by rewrite sort_slice_perm.
Qed.

Lemma elem_of_sort_slice l x : x ∈ sort_slice less l ↔ x ∈ l.
Proof. by rewrite sort_slice_perm. Qed.
Lemma length_sort_slice l : length (sort_slice less l) = length l.
Proof. by rewrite sort_slice_perm. Qed.
End sorting.

(** ** Components of a larger state

    The state [S] of one component inside the state [App] of the process: the component's
    operations and theorems are stated against this interface. *)
Class Substate (S App : Type) := {
  get : App → S;
  put : S → App → App;
  get_put : ∀ s a, get (put s a) = s;
  put_put : ∀ s t a, put s (put t a) = put s a;
  put_get : ∀ a, put (get a) a = a
}.
#[export] Hint Rewrite @get_put @put_put @put_get : nex_rw.

#[export] Program Instance Substate_self S : Substate S S := {| get := λ s, s; put := λ s _, s |}.
Solve All Obligations with done.

(** Two components that do not overlap. *)
Class Independent (S T App : Type) `{!Substate S App} `{!Substate T App} :=
  get_other : ∀ (t : T) (a : App), get (S := S) (put t a) = get a.

(** A process with two components. *)
#[export] Program Instance Substate_fst {S T} : Substate S (S * T) := {| get := fst; put := λ s a, (s, a.2) |}.
Solve All Obligations with by intros; repeat (match goal with a : _ * _ |- _ => destruct a end).
#[export] Program Instance Substate_snd {S T} : Substate T (S * T) := {| get := snd; put := λ t a, (a.1, t) |}.
Solve All Obligations with by intros; repeat (match goal with a : _ * _ |- _ => destruct a end).
#[export] Instance Independent_pair {S T} : Independent S T (S * T).
Proof. done. Qed.
