(* ===== verification/Bytes.v ===== *)
(** * Bytes and machine integers

    Go's [byte]s and byte slices, the fixed-width integers with their wrap-around, and the
    little- and big-endian layouts of [encoding/binary]. *)

From S2P Require Export Prelude.
From Stdlib Require Export Strings.Byte.

Open Scope Z_scope.

Abbreviation bytes := (list byte).

#[export] Instance byte_eq_dec_inst : EqDecision byte := Byte.byte_eq_dec.
#[export] Instance byte_inhabited : Inhabited byte := populate x00.
#[export] Program Instance byte_countable : Countable byte :=
  inj_countable Byte.to_N Byte.of_N _.
Next Obligation. intros b. apply Byte.of_to_N. Qed.

(** A Go string literal. *)
Definition str (s : string) : bytes := String.list_byte_of_string s.

(** ** Unsigned integers of width [w], and their signed readings *)
Definition wrap (w : Z) (z : Z) : Z := z mod 2 ^ w.
Abbreviation u8 := (wrap 8).
Abbreviation u16 := (wrap 16).
Abbreviation u32 := (wrap 32).
Abbreviation u64 := (wrap 64).

Definition signed (w : Z) (z : Z) : Z :=
  let u := wrap w z in if u <? 2 ^ (w - 1) then u else u - 2 ^ w.
Abbreviation s8 := (signed 8).
Abbreviation s16 := (signed 16).
Abbreviation s32 := (signed 32).
Abbreviation s64 := (signed 64).

Definition is_u (w z : Z) : Prop := 0 ≤ z < 2 ^ w.
Abbreviation is_u8 := (is_u 8).
Abbreviation is_u16 := (is_u 16).
Abbreviation is_u32 := (is_u 32).
Abbreviation is_u64 := (is_u 64).
Definition is_s (w z : Z) : Prop := - 2 ^ (w - 1) ≤ z < 2 ^ (w - 1).
Abbreviation is_s32 := (is_s 32).
Abbreviation is_s64 := (is_s 64).

#[export] Instance is_u_dec w z : Decision (is_u w z).
Proof. unfold is_u. apply _. Defined.
#[export] Instance is_s_dec w z : Decision (is_s w z).
Proof. unfold is_s. apply _. Defined.

Lemma pow_pos w : 0 ≤ w → 0 < 2 ^ w.
Proof. intros. apply Z.pow_pos_nonneg; lia. Qed.

Lemma wrap_is_u w z : 0 ≤ w → is_u w (wrap w z).
Proof. intros Hw. unfold is_u, wrap. apply Z.mod_pos_bound, pow_pos, Hw. Qed.

Lemma wrap_small w z : is_u w z → wrap w z = z.
Proof. unfold is_u, wrap. intros. by apply Z.mod_small. Qed.

Lemma wrap_wrap w z : 0 ≤ w → wrap w (wrap w z) = wrap w z.
Proof. intros. apply wrap_small, wrap_is_u. done. Qed.

Lemma signed_wrap w z : 0 < w → is_s w z → signed w (wrap w z) = z.
Proof.
  intros Hw Hz. unfold signed, is_s in *. rewrite wrap_wrap by lia. unfold wrap.
  assert (2 ^ w = 2 * 2 ^ (w - 1)) as E.
  { rewrite <- Z.pow_succ_r by lia. f_equal. lia. }
  pose proof (pow_pos (w - 1) ltac:(lia)).
  rewrite E. destruct (decide (0 ≤ z)).
  - rewrite Z.mod_small by lia. case_match; lia.
  - replace (z mod (2 * 2 ^ (w - 1))) with (z + 2 * 2 ^ (w - 1)).
    + case_match; lia.
    + apply (Z.mod_unique_pos _ _ (-1)); lia.
Qed.

Lemma signed_is_s w z : 0 < w → is_s w (signed w z).
Proof.
  intros Hw. unfold is_s, signed.
  pose proof (wrap_is_u w z ltac:(lia)) as Hu. unfold is_u in Hu.
  assert (2 ^ w = 2 * 2 ^ (w - 1)).
  { rewrite <- Z.pow_succ_r by lia. f_equal. lia. }
  case_match; lia.
Qed.

(** A width is a bound on the bits that can be set. *)
Lemma is_u_bits w z : 0 ≤ w → is_u w z ↔ ∀ n, w ≤ n → Z.testbit z n = false.
Proof.
  intros Hw. split.
  - intros Hz n Hn. rewrite <- (wrap_small w z Hz). unfold wrap.
    by apply Z.mod_pow2_bits_high; lia.
  - intros H. replace z with (wrap w z); [by apply wrap_is_u|].
    apply Z.bits_inj'. intros n Hn. unfold wrap. destruct (decide (n < w)).
    + apply Z.mod_pow2_bits_low. lia.
    + rewrite H by lia. apply Z.mod_pow2_bits_high. lia.
Qed.

Lemma is_u_lor w a b : 0 ≤ w → is_u w a → is_u w b → is_u w (Z.lor a b).
Proof.
  intros Hw. rewrite !is_u_bits by done. intros Ha Hb n Hn.
  by rewrite Z.lor_spec, Ha, Hb.
Qed.

Lemma is_u_land w a b : 0 ≤ w → is_u w a → is_u w (Z.land a b).
Proof. intros Hw. rewrite !is_u_bits by done. intros Ha n Hn. by rewrite Z.land_spec, Ha. Qed.

Lemma is_u_ldiff w a b : 0 ≤ w → is_u w a → is_u w (Z.ldiff a b).
Proof. intros Hw. rewrite !is_u_bits by done. intros Ha n Hn. by rewrite Z.ldiff_spec, Ha. Qed.

Lemma is_u_mono w v z : w ≤ v → is_u w z → is_u v z.
Proof.
  unfold is_u. intros Hw [H0 H1]. split; [done|].
  apply (Z.lt_le_trans _ _ _ H1). apply Z.pow_le_mono_r; lia.
Qed.

#[export] Hint Resolve wrap_is_u signed_is_s is_u_lor is_u_land is_u_ldiff : nex.

(** ** Bytes as numbers *)
Definition Z_of_byte (b : byte) : Z := Z.of_N (Byte.to_N b).

(** Go's conversion [byte(v)] keeps the low eight bits. *)
Definition byte_of_Z (z : Z) : byte :=
  match Byte.of_N (Z.to_N (z mod 256)) with Some b => b | None => x00 end.

Lemma Z_of_byte_range b : 0 ≤ Z_of_byte b < 256.
Proof. unfold Z_of_byte. pose proof (Byte.to_N_bounded b). lia. Qed.

Lemma byte_of_Z_of_byte b : byte_of_Z (Z_of_byte b) = b.
Proof.
  unfold byte_of_Z. pose proof (Z_of_byte_range b).
  rewrite Z.mod_small by done. unfold Z_of_byte. by rewrite N2Z.id, Byte.of_to_N.
Qed.

Lemma Z_of_byte_of_Z z : Z_of_byte (byte_of_Z z) = z mod 256.
Proof.
  unfold byte_of_Z. destruct (Byte.of_N _) as [b|] eqn:E.
  - apply Byte.to_of_N in E. unfold Z_of_byte. rewrite E.
    apply Z2N.id. by apply Z.mod_pos_bound.
  - apply Byte.of_N_None_iff in E. pose proof (Z.mod_pos_bound z 256 ltac:(lia)). lia.
Qed.

Lemma byte_of_Z_mod z : byte_of_Z (z mod 256) = byte_of_Z z.
Proof. unfold byte_of_Z. by rewrite Z.mod_mod. Qed.

Lemma Z_of_byte_inj b c : Z_of_byte b = Z_of_byte c → b = c.
Proof. intros E. by rewrite <- (byte_of_Z_of_byte b), E, byte_of_Z_of_byte. Qed.

(** ** Little endian: [binary.LittleEndian] *)
Fixpoint le_bytes (n : nat) (v : Z) : bytes :=
  match n with
  | O => []
  | S n => byte_of_Z v :: le_bytes n (Z.shiftr v 8)
  end.

Fixpoint le_val (bs : bytes) : Z :=
  match bs with
  | [] => 0
  | b :: bs => Z.lor (Z_of_byte b) (Z.shiftl (le_val bs) 8)
  end.

(** Big endian, for the port of a connection signature: [binary.BigEndian.PutUint16]. *)
Definition be_bytes16 (v : Z) : bytes := [byte_of_Z (Z.shiftr v 8); byte_of_Z v].

Lemma length_le_bytes n v : length (le_bytes n v) = n.
Proof. revert v. induction n; intros; simpl; [done|by f_equal]. Qed.

Lemma le_val_nonneg bs : 0 ≤ le_val bs.
Proof.
  induction bs as [|b bs IH]; simpl; [done|].
  pose proof (Z_of_byte_range b). apply Z.lor_nonneg.
  split; [lia|]. by apply Z.shiftl_nonneg.
Qed.

(** The disjunction of the code is a sum: the shifted part has no low bits. *)
Lemma le_val_cons b bs : le_val (b :: bs) = Z_of_byte b + 256 * le_val bs.
Proof.
  simpl. pose proof (Z_of_byte_range b).
  pose proof (Z.add_lor_land (Z_of_byte b) (Z.shiftl (le_val bs) 8)) as E.
  assert (Z.land (Z_of_byte b) (Z.shiftl (le_val bs) 8) = 0) as L.
  { apply Z.bits_inj'. intros i Hi. rewrite Z.land_spec, Z.bits_0.
    destruct (decide (i < 8)).
    - rewrite Z.shiftl_spec_low by done. apply andb_false_r.
    - rewrite <- (Z.mod_small (Z_of_byte b) (2 ^ 8)) by done.
      rewrite Z.mod_pow2_bits_high by lia. done. }
  rewrite L in E. rewrite Z.shiftl_mul_pow2 in * by done. change (2 ^ 8) with 256 in *. lia.
Qed.

Lemma le_val_le_bytes n v : le_val (le_bytes n v) = v mod 256 ^ Z.of_nat n.
Proof.
  revert v. induction n as [|n IH]; intros v.
  - simpl. by rewrite Z.mod_1_r.
  - change (le_bytes (S n) v) with (byte_of_Z v :: le_bytes n (v ≫ 8)).
    rewrite le_val_cons, IH, Z_of_byte_of_Z, Z.shiftr_div_pow2 by done.
    change (2 ^ 8) with 256. rewrite Nat2Z.inj_succ, Z.pow_succ_r by lia.
    rewrite Z.rem_mul_r; [lia|lia|]. apply Z.pow_pos_nonneg; lia.
Qed.

Lemma le_val_bound bs : is_u (8 * Z.of_nat (length bs)) (le_val bs).
Proof.
  unfold is_u. induction bs as [|b bs IH]; [simpl; lia|].
  rewrite le_val_cons. pose proof (Z_of_byte_range b).
  change (length (b :: bs)) with (S (length bs)).
  replace (8 * Z.of_nat (S (length bs))) with (8 + 8 * Z.of_nat (length bs)) by lia.
  rewrite Z.pow_add_r by lia. change (2 ^ 8) with 256. lia.
Qed.

Lemma le_bytes_le_val bs : le_bytes (length bs) (le_val bs) = bs.
Proof.
  induction bs as [|b bs IH]; [done|].
  change (le_bytes (length (b :: bs))) with
    (λ v, byte_of_Z v :: le_bytes (length bs) (Z.shiftr v 8)).
  cbv beta. rewrite le_val_cons. pose proof (Z_of_byte_range b). f_equal.
  - rewrite <- byte_of_Z_mod, Z.mul_comm, Z_mod_plus_full.
    rewrite Z.mod_small by done. apply byte_of_Z_of_byte.
  - rewrite Z.shiftr_div_pow2 by done. change (2 ^ 8) with 256.
    rewrite Z.mul_comm, Z.div_add, Z.div_small by lia. apply IH.
Qed.

(** The width-indexed forms the readers use. *)
Lemma le_val_u8 v : is_u8 v → le_val (le_bytes 1 v) = v.
Proof. intros. rewrite le_val_le_bytes. by apply Z.mod_small. Qed.
Lemma le_val_u16 v : is_u16 v → le_val (le_bytes 2 v) = v.
Proof. intros. rewrite le_val_le_bytes. by apply Z.mod_small. Qed.
Lemma le_val_u32 v : is_u32 v → le_val (le_bytes 4 v) = v.
Proof. intros. rewrite le_val_le_bytes. by apply Z.mod_small. Qed.
Lemma le_val_u64 v : is_u64 v → le_val (le_bytes 8 v) = v.
Proof. intros. rewrite le_val_le_bytes. by apply Z.mod_small. Qed.

#[export] Hint Rewrite length_le_bytes : nex_rw.

(** ** Slices: [b[i:j]], for in-range bounds *)
Definition slice (i j : nat) (b : bytes) : bytes := take (j - i) (drop i b).

Lemma length_slice i j b :
  (i ≤ j)%nat → (j ≤ length b)%nat → length (slice i j b) = (j - i)%nat.
Proof. intros. unfold slice. rewrite length_take, length_drop. lia. Qed.

(** [b[i]], for an in-range index. *)
Definition at_byte (i : nat) (b : bytes) : Z := Z_of_byte (nth i b x00).

Lemma at_byte_is_u8 i b : is_u8 (at_byte i b).
Proof. unfold is_u, at_byte. apply Z_of_byte_range. Qed.
#[export] Hint Resolve at_byte_is_u8 : nex.

(** [equalBytes] of endpoint.go, [bytes.Equal] and [hmac.Equal]: equality of the contents. *)
Definition bytes_eqb (a b : bytes) : bool := bool_decide (a = b).

Definition replicate_zero (n : nat) : bytes := replicate n x00.

(** The length of a slice as Go's [int]. *)
Definition zlen {A} (l : list A) : Z := Z.of_nat (length l).

Lemma zlen_app {A} (l k : list A) : zlen (l ++ k) = zlen l + zlen k.
Proof. unfold zlen. rewrite length_app. lia. Qed.
Lemma zlen_nonneg {A} (l : list A) : 0 ≤ zlen l.
Proof. unfold zlen. lia. Qed.
