(* ===== verification/GoStrings.v ===== *)
(** * Go's [strings], [strconv] and [encoding/hex], as far as the code uses them

    A Go string is its byte sequence.  The functions follow the documented behaviour of the
    standard library, the error cases included. *)

From S2P Require Export Bytes.

(** ** Searching and splitting *)

(** [strings.HasPrefix]. *)
Fixpoint has_prefix (p s : bytes) : bool :=
  match p, s with
  | [], _ => true
  | _, [] => false
  | a :: p, b :: s => bool_decide (a = b) && has_prefix p s
  end.

(** [strings.Index] and [bytes.Index]: the first occurrence, or [None] for -1. *)
Fixpoint index_of (sub s : bytes) : option nat :=
  if has_prefix sub s then Some O
  else match s with
       | [] => None
       | _ :: s => S <$> index_of sub s
       end.

(** [strings.Split] on a one-byte separator: n separators give n+1 pieces. *)
Fixpoint split_on (sep : byte) (s : bytes) : list bytes :=
  match s with
  | [] => [[]]
  | c :: s =>
      if bool_decide (c = sep) then [] :: split_on sep s
      else match split_on sep s with
           | [] => [[c]]
           | p :: ps => (c :: p) :: ps
           end
  end.

(** [strings.Cut] on a one-byte separator; [SplitN(s, sep, 2)] has two pieces exactly when
    it succeeds, and they are these. *)
Fixpoint cut_on (sep : byte) (s : bytes) : option (bytes * bytes) :=
  match s with
  | [] => None
  | c :: s =>
      if bool_decide (c = sep) then Some ([], s)
      else match cut_on sep s with
           | Some (a, b) => Some (c :: a, b)
           | None => None
           end
  end.

(** [strings.Join] with a one-byte separator. *)
Fixpoint join_with (sep : byte) (ps : list bytes) : bytes :=
  match ps with
  | [] => []
  | [p] => p
  | p :: ps => p ++ sep :: join_with sep ps
  end.

Lemma has_prefix_app p s : has_prefix p (p ++ s) = true.
Proof. induction p as [|a p IH]; simpl; [done|]. by rewrite bool_decide_true. Qed.

(** Splitting what was joined gives the pieces back. *)
Lemma split_on_no_sep sep p : sep ∉ p → split_on sep p = [p].
Proof.
  induction p as [|c p IH]; intros Hp; simpl; [done|].
  apply not_elem_of_cons in Hp as [Hc Hp].
  rewrite bool_decide_false by congruence. by rewrite IH.
Qed.

Lemma split_on_app sep p s : sep ∉ p → split_on sep (p ++ sep :: s) = p :: split_on sep s.
Proof.
  induction p as [|c p IH]; intros Hp; simpl.
  - by rewrite bool_decide_true.
  - apply not_elem_of_cons in Hp as [Hc Hp].
    rewrite bool_decide_false by congruence. by rewrite IH.
Qed.

Lemma split_on_join sep ps :
  ps ≠ [] → Forall (λ p, sep ∉ p) ps → split_on sep (join_with sep ps) = ps.
Proof.
  induction ps as [|p ps IH]; intros Hne Hall; [done|].
  apply Forall_cons in Hall as [Hp Hall]. destruct ps as [|q ps].
  - simpl. by apply split_on_no_sep.
  - change (join_with sep (p :: q :: ps)) with (p ++ sep :: join_with sep (q :: ps)).
    rewrite split_on_app by done. by rewrite IH.
Qed.

Lemma cut_on_app sep a b : sep ∉ a → cut_on sep (a ++ sep :: b) = Some (a, b).
Proof.
  induction a as [|c a IH]; intros Ha; simpl.
  - by rewrite bool_decide_true.
  - apply not_elem_of_cons in Ha as [Hc Ha].
    rewrite bool_decide_false by congruence. by rewrite IH.
Qed.

(** ** Decimal numbers *)
Inductive num_error := ErrSyntax | ErrRange.

#[export] Instance num_error_eq_dec : EqDecision num_error.
Proof. solve_decision. Defined.

Definition digit_val (c : byte) : option Z :=
  let v := Z_of_byte c in
  if (48 <=? v) && (v <=? 57) then Some (v - 48) else None.

Definition digit_byte (d : Z) : byte := byte_of_Z (48 + d).

Definition max_u64 : Z := 2 ^ 64 - 1.

(** The digit loop of [strconv.ParseUint(s, 10, 64)]: the range check comes before the
    next digit is looked at, and the value returned with [ErrRange] is the maximum. *)
Fixpoint parse_uint_loop (s : bytes) (n : Z) : Z * option num_error :=
  match s with
  | [] => (n, None)
  | c :: s =>
      match digit_val c with
      | None => (0, Some ErrSyntax)
      | Some d =>
          if max_u64 / 10 + 1 <=? n then (max_u64, Some ErrRange)
          else let n1 := n * 10 + d in
               if max_u64 <? n1 then (max_u64, Some ErrRange)
               else parse_uint_loop s n1
      end
  end.

Definition ParseUint (s : bytes) : Z * option num_error :=
  match s with
  | [] => (0, Some ErrSyntax)
  | _ => parse_uint_loop s 0
  end.

(** [strconv.ParseInt(s, 10, 64)], hence [strconv.Atoi] on a 64-bit platform. *)
Definition ParseInt (s : bytes) : Z * option num_error :=
  let '(neg, s') :=
    match s with
    | c :: t => if bool_decide (c = "+"%byte) then (false, t)
                else if bool_decide (c = "-"%byte) then (true, t) else (false, s)
    | [] => (false, s)
    end in
  match ParseUint s' with
  | (_, Some ErrSyntax) => (0, Some ErrSyntax)
  | (un, e) =>
      if negb neg && (2 ^ 63 <=? un) then (2 ^ 63 - 1, Some ErrRange)
      else if neg && (2 ^ 63 <? un) then (- 2 ^ 63, Some ErrRange)
      else ((if neg then - un else un), e)
  end.
Definition Atoi := ParseInt.

(** [strconv.FormatUint(n, 10)]; twenty digits hold every uint64. *)
Fixpoint dec_loop (fuel : nat) (n : Z) (acc : bytes) : bytes :=
  match fuel with
  | O => acc
  | S fuel =>
      let acc := digit_byte (n mod 10) :: acc in
      if n <? 10 then acc else dec_loop fuel (n / 10) acc
  end.
Definition FormatUint (n : Z) : bytes := dec_loop 20 n [].

(** [strconv.Itoa]. *)
Definition Itoa (n : Z) : bytes :=
  if n <? 0 then "-"%byte :: FormatUint (- n) else FormatUint n.

Lemma digit_val_byte d : 0 ≤ d < 10 → digit_val (digit_byte d) = Some d.
Proof.
  intros Hd. unfold digit_val, digit_byte. rewrite Z_of_byte_of_Z, Z.mod_small by lia.
  destruct ((48 <=? 48 + d) && (48 + d <=? 57)) eqn:E; [f_equal; lia|lia].
Qed.

Lemma parse_dec_loop fuel n acc :
  0 ≤ n ≤ max_u64 → n < 10 ^ Z.of_nat fuel → (0 < fuel)%nat →
  parse_uint_loop (dec_loop fuel n acc) 0 = parse_uint_loop acc n.
Proof.
  revert n acc. induction fuel as [|fuel IH]; intros n acc Hn Hb Hf; [lia|].
  simpl dec_loop. pose proof (Z.mod_pos_bound n 10 ltac:(lia)).
  pose proof (Z.div_mod n 10 ltac:(lia)) as Hdm.
  assert (max_u64 / 10 + 1 = 1844674407370955162) as Hc by reflexivity.
  assert (max_u64 = 18446744073709551615) as Hm by reflexivity.
  assert (parse_uint_loop (digit_byte (n mod 10) :: acc) (n / 10) = parse_uint_loop acc n)
    as Hstep.
  { cbn [parse_uint_loop]. rewrite digit_val_byte by done.
    rewrite (proj2 (Z.leb_gt _ _)) by lia.
    replace (n / 10 * 10 + n mod 10) with n by lia.
    by rewrite (proj2 (Z.ltb_ge _ _)) by lia. }
  destruct (Z.ltb_spec n 10).
  - rewrite <- Hstep. by rewrite (Z.div_small n 10) by lia.
  - assert (n / 10 < 10 ^ Z.of_nat fuel).
    { apply Z.div_lt_upper_bound; [lia|].
      rewrite Nat2Z.inj_succ, Z.pow_succ_r in Hb by lia. lia. }
    rewrite IH; [done| |done|].
    + split; [apply Z.div_pos; lia|]. lia.
    + destruct fuel; [simpl in *; lia|lia].
Qed.

Lemma FormatUint_nonempty n : FormatUint n ≠ [].
Proof.
  assert (∀ f m a, a ≠ [] → dec_loop f m a ≠ []) as H.
  { induction f as [|f IH]; intros m a Ha; simpl; [done|]. case_match; [done|]. by apply IH. }
  unfold FormatUint. cbn [dec_loop]. case_match; [done|]. by apply (H 19%nat).
Qed.

(** What [FormatUint] prints, [ParseUint] reads. *)
Lemma ParseUint_FormatUint n : is_u64 n → ParseUint (FormatUint n) = (n, None).
Proof.
  intros Hn. unfold is_u in Hn. unfold ParseUint.
  pose proof (FormatUint_nonempty n). destruct (FormatUint n) eqn:E; [done|].
  rewrite <- E. unfold FormatUint. rewrite parse_dec_loop; [done| | |lia].
  - unfold max_u64. lia.
  - change (10 ^ Z.of_nat 20) with 100000000000000000000. lia.
Qed.

Lemma dec_loop_digits fuel n acc :
  Forall (λ c, is_Some (digit_val c)) acc →
  Forall (λ c, is_Some (digit_val c)) (dec_loop fuel n acc).
Proof.
  revert n acc. induction fuel as [|fuel IH]; intros n acc Ha; simpl; [done|].
  assert (Forall (λ c, is_Some (digit_val c)) (digit_byte (n mod 10) :: acc)).
  { constructor; [|done]. rewrite digit_val_byte; [by eexists|].
    apply Z.mod_pos_bound. lia. }
  case_match; [done|]. by apply IH.
Qed.

Lemma FormatUint_digits n : Forall (λ c, is_Some (digit_val c)) (FormatUint n).
Proof. by apply dec_loop_digits. Qed.

(** Two integers are not printed alike. *)
Lemma FormatUint_inj a b : is_u64 a → is_u64 b → FormatUint a = FormatUint b → a = b.
Proof.
  intros Ha Hb E. apply (f_equal ParseUint) in E. rewrite !ParseUint_FormatUint in E by done. congruence.
Qed.

(** What [Itoa] prints, [Atoi] reads, on the whole range of [int]. *)
Lemma Atoi_Itoa n : is_s64 n → Atoi (Itoa n) = (n, None).
Proof.
  unfold is_s. change (64 - 1) with 63. intros Hn. unfold Atoi, Itoa.
  destruct (Z.ltb_spec n 0) as [Hneg|Hpos].
  - unfold ParseInt. rewrite bool_decide_false by done. rewrite bool_decide_true by done.
    rewrite ParseUint_FormatUint by (unfold is_u; lia). cbn [negb andb].
    rewrite (proj2 (Z.ltb_ge _ _)) by lia. f_equal. lia.
  - pose proof (FormatUint_nonempty n) as Hne. pose proof (FormatUint_digits n) as Hd.
    unfold ParseInt. destruct (FormatUint n) as [|c t] eqn:E; [done|].
    apply Forall_cons in Hd as [Hc _].
    rewrite bool_decide_false by (intros ->; by destruct Hc).
    rewrite bool_decide_false by (intros ->; by destruct Hc).
    rewrite <- E, ParseUint_FormatUint by (unfold is_u; lia). cbn [negb andb].
    by rewrite (proj2 (Z.leb_gt _ _)) by lia.
Qed.

(** ** [hex.EncodeToString] *)
Definition hex_digit (v : Z) : byte :=
  if v <? 10 then byte_of_Z (48 + v) else byte_of_Z (87 + v).
Definition hex_encode (b : bytes) : bytes :=
  concat ((λ c, [hex_digit (Z_of_byte c / 16); hex_digit (Z_of_byte c mod 16)]) <$> b).

(** [hex.DecodeString], for the constant key of prudp_lite.go; [hex_val] also reads the
    groups of an IPv6 address. *)
Definition hex_val (c : byte) : option Z :=
  let v := Z_of_byte c in
  if (48 <=? v) && (v <=? 57) then Some (v - 48)
  else if (97 <=? v) && (v <=? 102) then Some (v - 87)
  else if (65 <=? v) && (v <=? 70) then Some (v - 55)
  else None.
Fixpoint hex_decode (s : bytes) : option bytes :=
  match s with
  | [] => Some []
  | a :: b :: s =>
      match hex_val a, hex_val b, hex_decode s with
      | Some h, Some l, Some r => Some (byte_of_Z (16 * h + l) :: r)
      | _, _, _ => None
      end
  | [_] => None
  end.

Example Itoa_ex : Itoa (-1234) = str "-1234".
Proof. reflexivity. Qed.
Example Atoi_range_ex : Atoi (str "99999999999999999999") = (2 ^ 63 - 1, Some ErrRange).
Proof. reflexivity. Qed.
Example hex_ex : hex_decode (hex_encode (str "NEX")) = Some (str "NEX").
Proof. reflexivity. Qed.

(** ** [strings.TrimSpace]

    The spaces are those of [unicode.IsSpace], as their UTF-8 encodings: a rune is one of
    them exactly when its bytes are one of these. *)
Definition spaces : list bytes :=
  [ [x09]; [x0a]; [x0b]; [x0c]; [x0d]; [x20]; [xc2; x85]; [xc2; xa0]; [xe1; x9a; x80];
    [xe2; x80; x80]; [xe2; x80; x81]; [xe2; x80; x82]; [xe2; x80; x83]; [xe2; x80; x84];
    [xe2; x80; x85]; [xe2; x80; x86]; [xe2; x80; x87]; [xe2; x80; x88]; [xe2; x80; x89];
    [xe2; x80; x8a]; [xe2; x80; xa8]; [xe2; x80; xa9]; [xe2; x80; xaf]; [xe2; x81; x9f];
    [xe3; x80; x80] ].

(** Removes from the front while one of [sps] is there; each takes a byte, so [length s]
    turns are enough. *)
Fixpoint trim_front (fuel : nat) (sps : list bytes) (s : bytes) : bytes :=
  match fuel with
  | O => s
  | S fuel =>
      match find (λ sp, has_prefix sp s) sps with
      | Some sp => trim_front fuel sps (drop (length sp) s)
      | None => s
      end
  end.

Definition TrimSpace (s : bytes) : bytes :=
  let s := trim_front (length s) spaces s in
  reverse (trim_front (length s) (reverse <$> spaces) (reverse s)).

Lemma trim_front_id fuel sps s :
  Forall (λ sp, has_prefix sp s = false) sps → trim_front fuel sps s = s.
Proof.
  intros H. destruct fuel; [done|]. cbn [trim_front].
  destruct (find _ sps) as [sp|] eqn:E; [|done].
  apply find_some in E as [Hin E]. apply list_elem_of_In in Hin.
  rewrite Forall_forall in H. by rewrite (H sp Hin) in E.
Qed.

(** Nothing to trim in a number. *)
Lemma TrimSpace_digits s : Forall (λ c, is_Some (digit_val c)) s → TrimSpace s = s.
Proof.
  intros Hs.
  assert (∀ t, Forall (λ c, is_Some (digit_val c)) t →
    Forall (λ sp, has_prefix sp t = false) spaces ∧
    Forall (λ sp, has_prefix sp t = false) (reverse <$> spaces)) as H.
  { intros t Ht. destruct Ht as [|c t Hc _]; [split; by repeat constructor|].
    unfold digit_val in Hc. destruct Hc as [d Hc].
    split; repeat constructor; destruct c; vm_compute in Hc; try done. }
  unfold TrimSpace. rewrite (trim_front_id _ spaces) by by apply H.
  rewrite trim_front_id; [apply reverse_involutive|]. apply H. by apply Forall_reverse.
Qed.

Example TrimSpace_ex : TrimSpace (str "  a b" ++ [x09; xc2; xa0]) = str "a b".
Proof. reflexivity. Qed.

(** ** [strings.Fields] *)

(** The runs between spaces; a step takes a byte at least. *)
Fixpoint fields_loop (fuel : nat) (cur s : bytes) : list bytes :=
  let flush l := if bool_decide (cur = []) then l else cur :: l in
  match fuel, s with
  | S fuel, c :: r =>
      match find (λ sp, has_prefix sp s) spaces with
      | Some sp => flush (fields_loop fuel [] (drop (length sp) s))
      | None => fields_loop fuel (cur ++ [c]) r
      end
  | _, _ => flush []
  end.
Definition Fields (s : bytes) : list bytes := fields_loop (length s) [] s.

(** A visible ASCII character. *)
Definition visible (c : byte) : bool := (0x21 <=? Z_of_byte c) && (Z_of_byte c <=? 0x7E).

Lemma visible_no_space c s : visible c = true → find (λ sp, has_prefix sp (c :: s)) spaces = None.
Proof. intros H. destruct c; try (by vm_compute in H); reflexivity. Qed.

Lemma fields_loop_word w cur fuel s :
  Forall (λ c, visible c = true) w →
  fields_loop (length w + fuel) cur (w ++ s) = fields_loop fuel (cur ++ w) s.
Proof.
  intros Hw. revert cur. induction Hw as [|c w Hc _ IH]; intros cur; [by rewrite app_nil_r|].
  cbn [length app Nat.add fields_loop]. rewrite visible_no_space by done. rewrite IH, <- app_assoc. done.
Qed.

Lemma fields_loop_nil fuel cur : fields_loop fuel cur [] = if bool_decide (cur = []) then [] else [cur].
Proof. by destruct fuel. Qed.

(** Words of visible characters with a space between them. *)
Lemma Fields_join ws :
  Forall (λ w, w ≠ [] ∧ Forall (λ c, visible c = true) w) ws → Fields (join_with " "%byte ws) = ws.
Proof.
  intros Hws. unfold Fields. induction Hws as [|w ws [Hne Hw] Hws IH]; [done|].
  destruct ws as [|w2 ws].
  - simpl. rewrite <- (app_nil_r w) at 2. rewrite <- (Nat.add_0_r (length w)), fields_loop_word by done.
    rewrite fields_loop_nil. by rewrite bool_decide_false.
  - change (join_with " "%byte (w :: w2 :: ws)) with (w ++ " "%byte :: join_with " "%byte (w2 :: ws)).
    rewrite length_app, fields_loop_word by done. cbn [length app fields_loop].
    change (find (λ sp, has_prefix sp (" "%byte :: join_with " "%byte (w2 :: ws))) spaces) with (Some [x20]).
    cbv iota. rewrite bool_decide_false by done. cbn [length drop]. f_equal. exact IH.
Qed.

(** ** UTF-8 *)
Definition cont (lo hi : Z) (c : byte) : bool := (lo <=? Z_of_byte c) && (Z_of_byte c <=? hi).

(** The length of the rune a string starts with, [None] when it does not start with one. *)
Definition rune_len (s : bytes) : option nat :=
  match s with
  | [] => None
  | c0 :: s =>
      let b := Z_of_byte c0 in
      if b <? 0x80 then Some 1%nat
      else if (0xC2 <=? b) && (b <=? 0xDF) then
        match s with c1 :: _ => if cont 0x80 0xBF c1 then Some 2%nat else None | _ => None end
      else if (0xE0 <=? b) && (b <=? 0xEF) then
        let lo := if b =? 0xE0 then 0xA0 else 0x80 in
        let hi := if b =? 0xED then 0x9F else 0xBF in
        match s with
        | c1 :: c2 :: _ => if cont lo hi c1 && cont 0x80 0xBF c2 then Some 3%nat else None
        | _ => None
        end
      else if (0xF0 <=? b) && (b <=? 0xF4) then
        let lo := if b =? 0xF0 then 0x90 else 0x80 in
        let hi := if b =? 0xF4 then 0x8F else 0xBF in
        match s with
        | c1 :: c2 :: c3 :: _ => if cont lo hi c1 && cont 0x80 0xBF c2 && cont 0x80 0xBF c3 then Some 4%nat else None
        | _ => None
        end
      else None
  end.

(** The rune of [rune_len] bytes. *)
Definition rune_value (s : bytes) : Z :=
  match s with
  | [] => 0
  | [c] => Z_of_byte c
  | c :: t =>
      let lead := if (length t =? 1)%nat then Z.land (Z_of_byte c) 0x1F
                  else if (length t =? 2)%nat then Z.land (Z_of_byte c) 0x0F else Z.land (Z_of_byte c) 0x07 in
      foldl (λ v d, Z.lor (Z.shiftl v 6) (Z.land (Z_of_byte d) 0x3F)) lead t
  end.

(** [string(r)] for a rune: what is not a Unicode scalar value becomes U+FFFD. *)
Definition rune_bytes (r : Z) : bytes :=
  if (r <? 0) || (0x10FFFF <? r) || ((0xD800 <=? r) && (r <=? 0xDFFF)) then [xef; xbf; xbd]
  else if r <? 0x80 then [byte_of_Z r]
  else if r <? 0x800 then [byte_of_Z (Z.lor 0xC0 (Z.shiftr r 6)); byte_of_Z (Z.lor 0x80 (Z.land r 0x3F))]
  else if r <? 0x10000 then
    [byte_of_Z (Z.lor 0xE0 (Z.shiftr r 12)); byte_of_Z (Z.lor 0x80 (Z.land (Z.shiftr r 6) 0x3F));
     byte_of_Z (Z.lor 0x80 (Z.land r 0x3F))]
  else
    [byte_of_Z (Z.lor 0xF0 (Z.shiftr r 18)); byte_of_Z (Z.lor 0x80 (Z.land (Z.shiftr r 12) 0x3F));
     byte_of_Z (Z.lor 0x80 (Z.land (Z.shiftr r 6) 0x3F)); byte_of_Z (Z.lor 0x80 (Z.land r 0x3F))].

Lemma rune_len_bounds s k : rune_len s = Some k → (1 ≤ k ≤ 4)%nat ∧ (k ≤ length s)%nat.
Proof. unfold rune_len. repeat case_match; try done; intros [= <-]; simpl; lia. Qed.

(** Past ASCII, every byte of a rune is a high one. *)
Lemma rune_len_high s k :
  rune_len s = Some k → (2 ≤ k)%nat → Forall (λ c, 0x80 ≤ Z_of_byte c) (take k s).
Proof.
  unfold rune_len, cont. intros H Hk.
  repeat case_match; try done; injection H as <-; try lia; cbn [take];
    repeat constructor; rewrite ?andb_true_iff, ?Z.leb_le in *; try case_match; lia.
Qed.

Lemma rune_len_ascii s k : rune_len s = Some k → (k < 2)%nat → ∃ c t, s = c :: t ∧ k = 1%nat ∧ Z_of_byte c < 0x80.
Proof.
  unfold rune_len. intros H Hk. destruct s as [|c t]; [done|]. exists c, t.
  repeat case_match; try done; injection H as <-; try lia. split_and!; [done..|lia].
Qed.

Example rune_ex : rune_len [xe2; x82; xac; x41] = Some 3%nat ∧ rune_value [xe2; x82; xac] = 0x20AC ∧ rune_bytes 0x20AC = [xe2; x82; xac].
Proof. done. Qed.

(** Trimming takes a prefix and a suffix away. *)
Lemma trim_front_drop fuel sps s : ∃ k, trim_front fuel sps s = drop k s.
Proof.
  revert s. induction fuel as [|fuel IH]; intros s; [by exists 0%nat|]. cbn [trim_front].
  destruct (find _ sps) as [sp|]; [|by exists 0%nat]. destruct (IH (drop (length sp) s)) as [k ->].
  exists (length sp + k)%nat. by rewrite drop_drop.
Qed.

Lemma elem_of_drop {A} n (l : list A) x : x ∈ drop n l → x ∈ l.
Proof. intros H. rewrite <- (take_drop n l), elem_of_app. by right. Qed.

Lemma TrimSpace_sub s c : c ∈ TrimSpace s → c ∈ s.
Proof.
  unfold TrimSpace. destruct (trim_front_drop (length s) spaces s) as [k ->].
  destruct (trim_front_drop (length (drop k s)) (reverse <$> spaces) (reverse (drop k s))) as [j ->].
  by intros H%elem_of_reverse%elem_of_drop%elem_of_reverse%elem_of_drop.
Qed.

Lemma length_TrimSpace s : (length (TrimSpace s) ≤ length s)%nat.
Proof.
  unfold TrimSpace. destruct (trim_front_drop (length s) spaces s) as [k ->].
  destruct (trim_front_drop (length (drop k s)) (reverse <$> spaces) (reverse (drop k s))) as [j ->].
  rewrite length_reverse, length_drop, length_reverse, length_drop. lia.
Qed.
