(* ===== verification/Base64.v ===== *)
(** * Go's [encoding/base64] and [fmt.Sscanf], as far as the code uses them

    The standard alphabet, with padding and without; decoding skips the line breaks and
    ignores the unused bits of the last character, as Go's does. *)

From S2P Require Export GoStrings.

(** ** Alphabets *)
Definition std_alphabet : bytes := str "ABCDEFGHIJKLMNOPQRSTUVWXYZabcdefghijklmnopqrstuvwxyz0123456789+/".
Definition url_alphabet : bytes := str "ABCDEFGHIJKLMNOPQRSTUVWXYZabcdefghijklmnopqrstuvwxyz0123456789-_".

Section base64.
Context (alphabet : bytes).

Definition b64_char (v : Z) : byte := nth (Z.to_nat v) alphabet x00.
Definition b64_val (c : byte) : option Z :=
  (λ p, Z.of_nat p.1) <$> list_find (λ x, x = c) alphabet.

(** ** Encoding *)
Definition sextets3 (a b c : byte) : Z := Z_of_byte a * 65536 + Z_of_byte b * 256 + Z_of_byte c.
Definition sextet (k v : Z) : byte := b64_char (v / 64 ^ k mod 64).

Fixpoint b64_encode (pad : bool) (s : bytes) : bytes :=
  match s with
  | a :: b :: c :: r =>
      let v := sextets3 a b c in sextet 3 v :: sextet 2 v :: sextet 1 v :: sextet 0 v :: b64_encode pad r
  | [a; b] =>
      let v := sextets3 a b x00 in
      [sextet 3 v; sextet 2 v; sextet 1 v] ++ (if pad then ["="%byte] else [])
  | [a] =>
      let v := sextets3 a x00 x00 in
      [sextet 3 v; sextet 2 v] ++ (if pad then ["="%byte; "="%byte] else [])
  | [] => []
  end.

(** ** Decoding *)
Definition b64_bytes (n : nat) (v : Z) : bytes :=
  take n [byte_of_Z (v / 65536); byte_of_Z (v / 256); byte_of_Z v].

Definition b64_quad (n : nat) (ds : list byte) : option bytes :=
  match mapM b64_val ds with
  | Some vs => Some (b64_bytes n (foldl (λ acc v, acc * 64 + v) 0 vs))
  | None => None
  end.

Fixpoint b64_loop (pad : bool) (s : bytes) : option bytes :=
  match s with
  | [] => Some []
  | [_] => None
  | [a; b] => if pad then None else b64_quad 1 [a; b; b64_char 0; b64_char 0]
  | [a; b; c] => if pad then None else b64_quad 2 [a; b; c; b64_char 0]
  | a :: b :: c :: d :: r =>
      if pad && bool_decide (d = "="%byte) && bool_decide (r = []) then
        if bool_decide (c = "="%byte) then b64_quad 1 [a; b; b64_char 0; b64_char 0]
        else b64_quad 2 [a; b; c; b64_char 0]
      else
        match b64_quad 3 [a; b; c; d], b64_loop pad r with
        | Some x, Some y => Some (x ++ y)
        | _, _ => None
        end
  end.

Definition b64_decode (pad : bool) (s : bytes) : option bytes :=
  b64_loop pad (filter (λ c, c ≠ x0a ∧ c ≠ x0d) s).
End base64.

(** [base64.StdEncoding] and [base64.RawURLEncoding]. *)
Definition StdEncode : bytes → bytes := b64_encode std_alphabet true.
Definition StdDecode : bytes → option bytes := b64_decode std_alphabet true.
Definition RawURLEncode : bytes → bytes := b64_encode url_alphabet false.
Definition RawURLDecode : bytes → option bytes := b64_decode url_alphabet false.

Example b64_ex1 : StdEncode (str "Many hands") = str "TWFueSBoYW5kcw==".
Proof. reflexivity. Qed.
Example b64_ex2 : StdDecode (str "TWFueSBoYW5kcw==") = Some (str "Many hands").
Proof. reflexivity. Qed.
Example b64_ex3 : StdDecode (str "TWFueSBoYW5kcw=") = None.
Proof. reflexivity. Qed.

(** ** The round trip *)

(** The alphabets: sixty-four different characters, none of them the padding or a line
    break. *)
Definition alphabet_ok (alphabet : bytes) : Prop :=
  length alphabet = 64%nat ∧ NoDup alphabet ∧
  "="%byte ∉ alphabet ∧ x0a ∉ alphabet ∧ x0d ∉ alphabet.

#[export] Instance alphabet_ok_dec a : Decision (alphabet_ok a).
Proof. unfold alphabet_ok. apply _. Defined.

Lemma std_alphabet_ok : alphabet_ok std_alphabet.
Proof. apply (bool_decide_unpack _). vm_compute. done. Qed.
Lemma url_alphabet_ok : alphabet_ok url_alphabet.
Proof. apply (bool_decide_unpack _). vm_compute. done. Qed.

Section round_trip.
Context (alphabet : bytes) (Halpha : alphabet_ok alphabet).

Lemma b64_char_in v : 0 ≤ v < 64 → b64_char alphabet v ∈ alphabet.
Proof using Halpha.
  destruct Halpha as (Hl & _). intros Hv. unfold b64_char.
  apply list_elem_of_In, nth_In. lia.
Qed.

Lemma b64_val_char v : 0 ≤ v < 64 → b64_val alphabet (b64_char alphabet v) = Some v.
Proof using Halpha.
  destruct Halpha as (Hl & Hnd & _). intros Hv. unfold b64_val, b64_char.
  assert (alphabet !! Z.to_nat v = Some (nth (Z.to_nat v) alphabet x00)) as Hn.
  { rewrite list_lookup_lookup_total_lt by lia. f_equal. by rewrite nth_lookup, list_lookup_lookup_total_lt by lia. }
  rewrite (proj2 (list_find_Some _ _ (Z.to_nat v) (nth (Z.to_nat v) alphabet x00))).
  - cbn. f_equal. lia.
  - split_and!; [done|done|]. intros j y Hj Hlt Hy. subst y.
    pose proof (NoDup_lookup _ _ _ _ Hnd Hj Hn). lia.
Qed.

Lemma b64_char_plain v c : 0 ≤ v < 64 → c ∉ alphabet → b64_char alphabet v ≠ c.
Proof using Halpha. intros Hv Hc <-. by apply Hc, b64_char_in. Qed.

Lemma sextet_range v k : 0 ≤ v / 64 ^ k mod 64 < 64.
Proof. apply Z.mod_pos_bound. lia. Qed.

Lemma sextets_sum v :
  0 ≤ v < 2 ^ 24 →
  ((v / 64 ^ 3 mod 64 * 64 + v / 64 ^ 2 mod 64) * 64 + v / 64 ^ 1 mod 64) * 64 + v / 64 ^ 0 mod 64 = v.
Proof.
  intros Hv. change (64 ^ 3) with (64 * 64 * 64). change (64 ^ 2) with (64 * 64). change (64 ^ 1) with 64.
  change (64 ^ 0) with 1. rewrite Z.div_1_r, <- !Z.div_div by lia.
  Z.div_mod_to_equations. lia.
Qed.

Lemma sextets3_range a b c : 0 ≤ sextets3 a b c < 2 ^ 24.
Proof.
  unfold sextets3. pose proof (Z_of_byte_range a). pose proof (Z_of_byte_range b). pose proof (Z_of_byte_range c). lia.
Qed.

Lemma b64_bytes_sextets a b c : b64_bytes 3 (sextets3 a b c) = [a; b; c].
Proof.
  unfold b64_bytes, sextets3. cbn [take].
  pose proof (Z_of_byte_range a). pose proof (Z_of_byte_range b). pose proof (Z_of_byte_range c).
  f_equal; [|f_equal; [|f_equal]]; apply Z_of_byte_inj; rewrite Z_of_byte_of_Z; Z.div_mod_to_equations; lia.
Qed.

Lemma b64_quad_sextets n v :
  0 ≤ v < 2 ^ 24 →
  b64_quad alphabet n [sextet alphabet 3 v; sextet alphabet 2 v; sextet alphabet 1 v; sextet alphabet 0 v] =
    Some (b64_bytes n v).
Proof using Halpha.
  intros Hv. unfold b64_quad, sextet. cbn [mapM].
  rewrite !b64_val_char by apply sextet_range. cbn [mbind option_bind mret option_ret foldl].
  do 2 f_equal. rewrite <- (sextets_sum v Hv) at 5. lia.
Qed.

Lemma sextet_zero k v : 0 ≤ k → v mod 64 ^ (k + 1) = 0 → sextet alphabet k v = b64_char alphabet 0.
Proof.
  intros Hk Hv. unfold sextet. f_equal. rewrite Z.pow_add_r, Z.pow_1_r in Hv by lia.
  pose proof (Z.pow_pos_nonneg 64 k ltac:(lia) Hk). rewrite Z.rem_mul_r in Hv by lia.
  pose proof (Z.mod_pos_bound v (64 ^ k)). pose proof (Z.mod_pos_bound (v / 64 ^ k) 64). nia.
Qed.

Lemma b64_bytes_take n v : (n ≤ 3)%nat → b64_bytes n v = take n (b64_bytes 3 v).
Proof. intros Hn. unfold b64_bytes. by rewrite take_take, Nat.min_l. Qed.

#[local] Ltac decide_padding :=
  repeat (cbn [andb]; first [rewrite bool_decide_true by done | rewrite bool_decide_false by auto]); cbn [andb].

Lemma b64_loop_encode pad s : b64_loop alphabet pad (b64_encode alphabet pad s) = Some s.
Proof using Halpha.
  destruct Halpha as (_ & _ & Heq & _).
  assert (∀ k v, sextet alphabet k v ≠ "="%byte) as Hplain.
  { intros k v. by apply b64_char_plain; [apply sextet_range|]. }
  induction s as [s IH] using (induction_ltof1 _ (@length byte)). unfold ltof in IH.
  destruct s as [|a [|b [|c s]]]; [done| | |].
  - cbn [b64_encode]. pose proof (b64_quad_sextets 1 _ (sextets3_range a x00 x00)) as H.
    rewrite (sextet_zero 1), (sextet_zero 0) in H
      by (done || unfold sextets3; cbn; Z.div_mod_to_equations; lia).
    rewrite b64_bytes_take, b64_bytes_sextets in H by lia. destruct pad; cbn [b64_loop app andb]; [|exact H].
    decide_padding. exact H.
  - cbn [b64_encode]. pose proof (b64_quad_sextets 2 _ (sextets3_range a b x00)) as H.
    rewrite (sextet_zero 0) in H by (done || unfold sextets3; cbn; Z.div_mod_to_equations; lia).
    rewrite b64_bytes_take, b64_bytes_sextets in H by lia. destruct pad; cbn [b64_loop app andb]; [|exact H].
    decide_padding. exact H.
  - cbn [b64_encode b64_loop]. rewrite bool_decide_false by apply Hplain. rewrite andb_false_r. cbn [andb].
    rewrite b64_quad_sextets, b64_bytes_sextets by apply sextets3_range.
    by rewrite IH by (cbn; lia).
Qed.

Lemma b64_encode_plain pad s : Forall (λ c, c ∈ alphabet ∨ c = "="%byte) (b64_encode alphabet pad s).
Proof using Halpha.
  assert (∀ k v, sextet alphabet k v ∈ alphabet ∨ sextet alphabet k v = "="%byte) as H.
  { intros k v. left. apply b64_char_in, sextet_range. }
  induction s as [s IH] using (induction_ltof1 _ (@length byte)). unfold ltof in IH.
  destruct s as [|a [|b [|c s]]]; cbn [b64_encode]; [constructor| | |].
  1,2: destruct pad; cbn [app]; repeat (constructor; [by auto|]); constructor.
  repeat (constructor; [by auto|]). apply IH. cbn. lia.
Qed.

(** Without padding, the characters of the alphabet only. *)
Lemma b64_encode_raw s : Forall (λ c, c ∈ alphabet) (b64_encode alphabet false s).
Proof using Halpha.
  assert (∀ k v, sextet alphabet k v ∈ alphabet) as H by (intros k v; apply b64_char_in, sextet_range).
  induction s as [s IH] using (induction_ltof1 _ (@length byte)). unfold ltof in IH.
  destruct s as [|a [|b [|c s]]]; cbn [b64_encode app]; repeat (constructor; [by auto|]); try constructor.
  apply IH. cbn. lia.
Qed.

(** What is encoded is decoded. *)
Lemma b64_decode_encode pad s : b64_decode alphabet pad (b64_encode alphabet pad s) = Some s.
Proof using Halpha.
  pose proof Halpha as (_ & _ & _ & Hn & Hr). unfold b64_decode. rewrite filter_id; [apply b64_loop_encode|].
  intros c Hc. pose proof (b64_encode_plain pad s) as Hp. rewrite Forall_forall in Hp.
  destruct (Hp c Hc) as [Hin| ->]; [split; by intros ->|done].
Qed.
End round_trip.

Lemma StdDecode_StdEncode s : StdDecode (StdEncode s) = Some s.
Proof. apply b64_decode_encode, std_alphabet_ok. Qed.
Lemma RawURLDecode_RawURLEncode s : RawURLDecode (RawURLEncode s) = Some s.
Proof. apply b64_decode_encode, url_alphabet_ok. Qed.

(** ** [fmt.Sscanf(s, "%d", &v)] for a uint64

    Leading spaces are skipped, a line break is an error; the longest run of digits is the
    number and what follows it is left unread. *)
Fixpoint leading_digits (s : bytes) : bytes :=
  match s with
  | [] => []
  | c :: r => match digit_val c with Some _ => c :: leading_digits r | None => [] end
  end.

Definition SscanfUint (s : bytes) : option Z :=
  let s := trim_front (length s) (filter (λ sp, sp ≠ [x0a]) spaces) s in
  match ParseUint (leading_digits s) with
  | (v, None) => Some v
  | (_, Some _) => None
  end.

Lemma leading_digits_all s : Forall (λ c, is_Some (digit_val c)) s → leading_digits s = s.
Proof. induction 1 as [|c s [d Hd] _ IH]; [done|]. cbn. by rewrite Hd, IH. Qed.

Lemma SscanfUint_FormatUint n : is_u64 n → SscanfUint (FormatUint n) = Some n.
Proof.
  intros Hn. unfold SscanfUint. pose proof (FormatUint_digits n) as Hd.
  rewrite trim_front_id; [by rewrite leading_digits_all, ParseUint_FormatUint|].
  destruct Hd as [|c s [d Hc] _]; [by repeat constructor|].
  apply Forall_forall. intros sp [_ Hsp]%list_elem_of_filter. revert sp Hsp. apply Forall_forall.
  unfold digit_val in Hc. repeat constructor; destruct c; vm_compute in Hc; try done.
Qed.
