(* ===== verification/AuthBinding.v ===== *)
(** * The account claim of a login (src/authbinding.go)

    The token an emulator puts in a login's extra data is found by scanning for a JWT.
    [Unmarshal] stands for [encoding/json] on a structure of one string field: the field's
    value, empty when the object has none, or [None] for an error. *)

From S2P Require Export Base64.

Definition isJWTByte (b : byte) : bool :=
  bool_decide (b = "."%byte) || bool_decide (b = "-"%byte) || bool_decide (b = "_"%byte) ||
  ((48 <=? Z_of_byte b) && (Z_of_byte b <=? 57)) ||
  ((65 <=? Z_of_byte b) && (Z_of_byte b <=? 90)) ||
  ((97 <=? Z_of_byte b) && (Z_of_byte b <=? 122)).

(** The run of such bytes: [extraData[i:j]]. *)
Fixpoint jwt_run (s : bytes) : bytes :=
  match s with
  | c :: s => if isJWTByte c then c :: jwt_run s else []
  | [] => []
  end.

(** [bytes.TrimRight(s, "=")]. *)
Fixpoint trim_padding (s : bytes) : bytes :=
  match s with
  | [] => []
  | c :: s => match trim_padding s with
              | [] => if bool_decide (c = "="%byte) then [] else [c]
              | t => c :: t
              end
  end.

Definition decodeLoginJWTPayload (extraData : bytes) : option bytes :=
  match index_of (str "eyJ") extraData with
  | None => None
  | Some i =>
      match split_on "."%byte (jwt_run (drop i extraData)) with
      | _ :: payload :: _ => RawURLDecode (trim_padding payload)
      | _ => None
      end
  end.

Section claims.
Context (Unmarshal : bytes → bytes → option bytes).

(** The claim of that name in the token's payload. *)
Definition login_claim (name extraData : bytes) : option bytes :=
  match decodeLoginJWTPayload extraData with
  | None => None
  | Some payload =>
      match Unmarshal name payload with
      | None | Some [] => None
      | Some v => Some v
      end
  end.

Definition NexTokenFromLoginExtraData : bytes → option bytes := login_claim (str "nnex").
Definition TitleVersionFromLoginExtraData : bytes → option bytes := login_claim (str "tv").
End claims.

(** ** The payload of a token is found wherever the token is *)
Lemma jwt_run_app s t : Forall (λ c, isJWTByte c = true) s → jwt_run (s ++ t) = s ++ jwt_run t.
Proof. induction 1 as [|c s Hc _ IH]; [done|]. cbn [app jwt_run]. by rewrite Hc, IH. Qed.

Lemma trim_padding_id s : "="%byte ∉ s → trim_padding s = s.
Proof.
  induction s as [|c s IH]; intros H; [done|]. apply not_elem_of_cons in H as [Hc H].
  cbn [trim_padding]. rewrite IH by done. destruct s; [by rewrite bool_decide_false|done].
Qed.

Lemma url_char_jwt c : c ∈ url_alphabet → isJWTByte c = true ∧ c ≠ "."%byte ∧ c ≠ "="%byte.
Proof.
  intros H.
  assert (forallb (λ c, isJWTByte c && negb (bool_decide (c = "."%byte)) && negb (bool_decide (c = "="%byte))) url_alphabet = true)
    as Hall by (vm_compute; reflexivity).
  rewrite forallb_forall in Hall. specialize (Hall c (proj1 (list_elem_of_In _ _) H)).
  apply andb_true_iff in Hall as [[Hj Hd]%andb_true_iff He]. rewrite negb_true_iff, bool_decide_eq_false in Hd, He. done.
Qed.

(** A token anywhere in the extra data, as long as it is the first thing that begins like one:
    its payload is decoded, whatever the framing around it, padding included. *)
Theorem payload_found pre hdr payload sig post :
  let token := hdr ++ "."%byte :: RawURLEncode payload ++ sig in
  index_of (str "eyJ") (pre ++ token ++ post) = Some (length pre) →
  Forall (λ c, isJWTByte c = true) hdr → "."%byte ∉ hdr →
  match sig ++ post with [] => True | c :: _ => isJWTByte c = false ∨ c = "."%byte end →
  decodeLoginJWTPayload (pre ++ token ++ post) = Some payload.
Proof.
  intros token Hi Hh Hd Hs. pose proof (b64_encode_raw _ url_alphabet_ok payload) as Hc. fold RawURLEncode in Hc.
  change (b64_encode url_alphabet false payload) with (RawURLEncode payload) in Hc. rewrite Forall_forall in Hc.
  assert (Forall (λ c, isJWTByte c = true) (RawURLEncode payload)) as Hj
    by (apply Forall_forall; intros c Hin; by apply url_char_jwt, Hc).
  assert ("."%byte ∉ RawURLEncode payload) as Hdot by (intros Hin; by apply Hc, url_char_jwt in Hin as (_ & ? & _)).
  assert ("="%byte ∉ RawURLEncode payload) as Heq by (intros Hin; by apply Hc, url_char_jwt in Hin as (_ & _ & ?)).
  unfold decodeLoginJWTPayload. rewrite Hi, drop_app_length. subst token.
  replace ((hdr ++ "."%byte :: RawURLEncode payload ++ sig) ++ post)
    with (hdr ++ ["."%byte] ++ RawURLEncode payload ++ (sig ++ post)) by (rewrite <- !app_assoc; cbn; by rewrite <- app_assoc).
  rewrite jwt_run_app by done. cbn [app jwt_run]. change (isJWTByte "."%byte) with true. cbv iota.
  rewrite jwt_run_app, split_on_app by done.
  assert (∃ rest, split_on "."%byte (RawURLEncode payload ++ jwt_run (sig ++ post)) = RawURLEncode payload :: rest) as [rest ->].
  { destruct (sig ++ post) as [|c t]; [|destruct Hs as [Hf| ->]].
    - simpl. rewrite app_nil_r, split_on_no_sep by done. by eexists.
    - cbn [jwt_run]. rewrite Hf, app_nil_r, split_on_no_sep by done. by eexists.
    - cbn [jwt_run]. change (isJWTByte "."%byte) with true. cbv iota. rewrite split_on_app by done. by eexists. }
  rewrite trim_padding_id by done. apply RawURLDecode_RawURLEncode.
Qed.
