(* ===== verification/NetAddr.v ===== *)
(** * Go's [net] package, as far as the code uses it

    [SplitHostPort], [ParseIP] and [To4], with the grammar of [net/netip].  An address is
    its sixteen bytes, an IPv4 address the mapped form Go keeps it in. *)

From S2P Require Export GoStrings.

(** The position of the last [c]. *)
Fixpoint last_index_byte (c : byte) (s : bytes) : option nat :=
  match s with
  | [] => None
  | x :: s =>
      match last_index_byte c s with
      | Some i => Some (S i)
      | None => if bool_decide (x = c) then Some O else None
      end
  end.

Definition index_byte (c : byte) (s : bytes) : option nat := index_of [c] s.
Definition contains_byte (c : byte) (s : bytes) : bool := bool_decide (c ∈ s).

(** [net.SplitHostPort]; [None] for every error. *)
Definition SplitHostPort (hostport : bytes) : option (bytes * bytes) :=
  match last_index_byte ":"%byte hostport with
  | None => None
  | Some i =>
      let port := drop (i + 1) hostport in
      if bool_decide (head hostport = Some "["%byte) then
        match index_byte "]"%byte hostport with
        | None => None
        | Some e =>
            if negb (e + 1 =? i)%nat then None
            else if contains_byte "["%byte (drop 1 hostport) then None
            else if contains_byte "]"%byte (drop (e + 1) hostport) then None
            else Some (slice 1 e hostport, port)
        end
      else
        let host := take i hostport in
        if contains_byte ":"%byte host then None
        else if contains_byte "["%byte hostport then None
        else if contains_byte "]"%byte hostport then None
        else Some (host, port)
  end.

(** [ipHost] of ticketgranting.go. *)
Definition ipHost (addr : bytes) : bytes :=
  match SplitHostPort addr with Some (h, _) => h | None => addr end.

(** ** [ParseIP] *)
Definition is_digit (c : byte) : bool := (48 <=? Z_of_byte c) && (Z_of_byte c <=? 57).

(** One decimal octet, without leading zero. *)
Definition parse_octet (f : bytes) : option byte :=
  let v := foldl (λ v c, v * 10 + (Z_of_byte c - 48)) 0 f in
  if bool_decide (f = []) || negb (forallb is_digit f) then None
  else if bool_decide (head f = Some "0"%byte) && (1 <? zlen f) then None
  else if 255 <? v then None
  else Some (byte_of_Z v).

Definition parseIPv4 (s : bytes) : option bytes :=
  let fs := split_on "."%byte s in
  if (length fs =? 4)%nat then mapM parse_octet fs else None.

(** The hexadecimal digits in front of [s]: their value, how many, what follows. *)
Fixpoint hex_group (acc : Z) (n : nat) (s : bytes) : Z * nat * bytes :=
  match s with
  | [] => (acc, n, [])
  | c :: s' =>
      match hex_val c with
      | Some d => hex_group (acc * 16 + d) (S n) s'
      | None => (acc, n, s)
      end
  end.

(** The groups of an IPv6 address; [ell] is where the ellipsis stands in [ip].  A group
    consumes a character, so the fuel [length s] is enough. *)
Fixpoint ipv6_groups (fuel : nat) (ip : bytes) (ell : option nat) (s : bytes)
    : option (bytes * option nat) :=
  match fuel with
  | O => None
  | S fuel =>
      if (16 <=? length ip)%nat then None
      else
        let '(acc, off, rest) := hex_group 0 0 s in
        if (off =? 0)%nat || (4 <? off)%nat then None
        else if bool_decide (head rest = Some "."%byte) then
          if bool_decide (ell = None) && negb (length ip =? 12)%nat then None
          else if (16 <? length ip + 4)%nat then None
          else match parseIPv4 s with
               | None => None
               | Some v4 => Some (ip ++ v4, ell)
               end
        else
          let ip := ip ++ [byte_of_Z (Z.shiftr acc 8); byte_of_Z acc] in
          match rest with
          | [] => Some (ip, ell)
          | c :: rest =>
              if negb (bool_decide (c = ":"%byte)) then None
              else match rest with
                   | [] => None
                   | c :: rest' =>
                       if bool_decide (c = ":"%byte) then
                         if bool_decide (is_Some ell) then None
                         else match rest' with
                              | [] => Some (ip, Some (length ip))
                              | _ => ipv6_groups fuel ip (Some (length ip)) rest'
                              end
                       else ipv6_groups fuel ip ell rest
                   end
          end
  end.

(** A zone ('%') makes [net.ParseIP] fail. *)
Definition parseIPv6 (s : bytes) : option bytes :=
  if contains_byte "%"%byte s then None
  else
    let '(ell, t) :=
      if has_prefix (str "::") s then (Some O, drop 2 s) else (None, s) in
    if bool_decide (ell = Some O) && bool_decide (t = []) then Some (replicate_zero 16)
    else
      match ipv6_groups (S (length t)) [] ell t with
      | None => None
      | Some (ip, ell) =>
          if (length ip <? 16)%nat then
            match ell with
            | None => None
            | Some e => Some (take e ip ++ replicate_zero (16 - length ip) ++ drop e ip)
            end
          else if bool_decide (is_Some ell) then None
          else Some ip
      end.

(** [netip.ParseAddr] looks for the first of '.', ':' and '%'. *)
Fixpoint addr_kind (s : bytes) : option byte :=
  match s with
  | [] => None
  | c :: s =>
      if bool_decide (c = "."%byte) || bool_decide (c = ":"%byte) || bool_decide (c = "%"%byte)
      then Some c else addr_kind s
  end.

Definition v4_prefix : bytes := replicate_zero 10 ++ [xff; xff].

Definition ParseIP (s : bytes) : option bytes :=
  match addr_kind s with
  | Some c =>
      if bool_decide (c = "."%byte) then (λ v4, v4_prefix ++ v4) <$> parseIPv4 s
      else if bool_decide (c = ":"%byte) then parseIPv6 s
      else None
  | None => None
  end.

(** [ip.To4()]; [None] for nil. *)
Definition To4 (ip : bytes) : option bytes :=
  if bool_decide (take 12 ip = v4_prefix) && (length ip =? 16)%nat then Some (drop 12 ip) else None.

(** The IPv4 address of a host, as the two calls in a row give it. *)
Definition host_ipv4 (host : bytes) : option bytes :=
  match ParseIP host with Some ip => To4 ip | None => None end.

(** The source of a datagram on a udp4 socket: four bytes and a port. *)
Record UDPAddr := mkUDP { u_IP : bytes; u_Port : Z }.
#[export] Instance UDPAddr_eq_dec : EqDecision UDPAddr.
Proof. solve_decision. Defined.

Definition IPString (ip : bytes) : bytes := join_with "."%byte ((λ b, FormatUint (Z_of_byte b)) <$> ip).
Definition UDPString (a : UDPAddr) : bytes := IPString (u_IP a) ++ ":"%byte :: Itoa (u_Port a).

(** [To4] of any [net.IP]. *)
Definition IP_To4 (ip : bytes) : option bytes := if (length ip =? 4)%nat then Some ip else To4 ip.

Example SplitHostPort_ex1 : SplitHostPort (str "192.168.1.20:60000") = Some (str "192.168.1.20", str "60000").
Proof. reflexivity. Qed.
Example SplitHostPort_ex2 : SplitHostPort (str "[fe80::1]:80") = Some (str "fe80::1", str "80").
Proof. reflexivity. Qed.
Example SplitHostPort_ex3 : SplitHostPort (str "fe80::1:80") = None.
Proof. reflexivity. Qed.
Example ParseIP_ex1 : host_ipv4 (str "10.0.0.255") = Some [x0a; x00; x00; xff].
Proof. reflexivity. Qed.
Example ParseIP_ex2 : host_ipv4 (str "::ffff:1.2.3.4") = Some [x01; x02; x03; x04].
Proof. reflexivity. Qed.
Example ParseIP_ex3 : ParseIP (str "2001:db8::8:800:200C:417A") =
  Some [x20; x01; x0d; xb8; x00; x00; x00; x00; x00; x08; x08; x00; x20; x0c; x41; x7a].
Proof. reflexivity. Qed.
Example ParseIP_ex4 : ParseIP (str "1.2.3.04") = None ∧ ParseIP (str "1:2:3:4:5:6:7:8::") = None.
Proof. split; reflexivity. Qed.

(** ** What the clients use *)
Lemma To4_length ip v4 : To4 ip = Some v4 → length v4 = 4%nat.
Proof.
  unfold To4. destruct (Nat.eqb_spec (length ip) 16) as [E|]; [|by rewrite andb_false_r].
  case_bool_decide; [|done]. simpl. intros [= <-]. rewrite length_drop. lia.
Qed.

Lemma mapM_length {A B} (f : A → option B) l k : mapM f l = Some k → length k = length l.
Proof.
  revert k. induction l as [|x l IH]; intros k; simpl; [by intros [= <-]|].
  destruct (f x); simpl; [|done]. destruct (mapM f l); simpl; [|done].
  intros [= <-]. simpl. f_equal. by apply IH.
Qed.

(** A dotted quad always has an IPv4 form. *)
Lemma host_ipv4_quad s v4 :
  addr_kind s = Some "."%byte → parseIPv4 s = Some v4 → host_ipv4 s = Some v4.
Proof.
  intros Hk Hp. unfold host_ipv4, ParseIP. rewrite Hk. simpl. rewrite Hp. simpl. unfold To4.
  assert (length v4 = 4%nat) as L.
  { unfold parseIPv4 in Hp. destruct (Nat.eqb_spec (length (split_on "."%byte s)) 4); [|done].
    apply mapM_length in Hp. lia. }
  destruct v4 as [|a [|b [|c [|d [|]]]]]; try done.
Qed.
