(* ===== verification/Settings.v ===== *)
(** * Settings: the wire configuration (src/settings.go) and result codes (src/resultcodes.go)

    [PIDPublic] and [PIDInterne] are functions the game server installs; they are [option]
    fields, [None] for nil.  The two float64 time-outs ([ResendTimeout], [PingTimeout]) are
    read by no code and have no field. *)

From S2P Require Export GoStrings.

Definition TransportUDP : Z := 0.
Definition TransportTCP : Z := 1.
Definition TransportWebSocket : Z := 2.
Definition CompressionNone : Z := 0.
Definition CompressionZlib : Z := 1.
Definition EncryptionNone : Z := 0.
Definition EncryptionRC4 : Z := 1.
Definition KeyDerivationOld : Z := 0.
Definition KeyDerivationNew : Z := 1.

Record Settings := mkSettings {
  NexVersion : Z;
  ClientVersion : Z;
  StructHeader : bool;
  PIDSize : Z;
  AccessKey : bytes;
  PrudpVersion : Z;
  PrudpMinorVersion : Z;
  SupportedFunctions : Z;
  Transport : Z;
  Compression : Z;
  Encryption : Z;
  ResendLimit : Z;
  FragmentSize : Z;
  MaxSubstreamID : Z;
  KerberosKeySize : Z;
  KerberosKeyDerivation : Z;
  KerberosTicketVersion : Z;
  PIDPublic : option (Z → Z);
  PIDInterne : option (Z → Z)
}.

(** [Publique] and [Interne]: the PID the console sees, and back. *)
Definition Publique (s : Settings) (pid : Z) : Z :=
  match PIDPublic s with None => pid | Some f => f pid end.
Definition Interne (s : Settings) (pid : Z) : Z :=
  match PIDInterne s with None => pid | Some f => f pid end.

(** [NewSwitchSettings]: the fields the literal leaves out keep Go's zero value. *)
Definition NewSwitchSettings (accessKey : bytes) (nexVersion : Z) : Settings :=
  {| NexVersion := nexVersion; ClientVersion := 0; StructHeader := true; PIDSize := 8;
     AccessKey := accessKey; PrudpVersion := 2; PrudpMinorVersion := 5;
     SupportedFunctions := 0; Transport := TransportWebSocket;
     Compression := CompressionNone; Encryption := EncryptionNone; ResendLimit := 0;
     FragmentSize := 1300; MaxSubstreamID := 0; KerberosKeySize := 32;
     KerberosKeyDerivation := KeyDerivationNew; KerberosTicketVersion := 1;
     PIDPublic := None; PIDInterne := None |}.

(** What the comment of [PIDPublic]/[PIDInterne] asks of the two functions ("PIDInterne
    fait l'inverse"), on one PID, and that the public PID fits the wire field. *)
Definition pid_ok (s : Settings) (pid : Z) : Prop :=
  Interne s (Publique s pid) = pid ∧
  (if PIDSize s =? 8 then is_u64 (Publique s pid) else is_u32 (Publique s pid)).

Lemma pid_ok_plain s pid :
  PIDPublic s = None → PIDInterne s = None →
  is_u (if PIDSize s =? 8 then 64 else 32) pid → pid_ok s pid.
Proof. unfold pid_ok, Publique, Interne. intros -> -> H. split; [done|]. by case_match. Qed.

(** ** Result codes *)
Definition ResultCoreUnknown : Z := 0x00010001.
Definition ResultCoreNotImplemented : Z := 0x00010002.
Definition ResultCoreAccessDenied : Z := 0x00010006.
Definition ResultCoreInvalidArgument : Z := 0x0001000A.
Definition ResultRendezVousInvalidPID : Z := 0x0003006B.
Definition ResultRendezVousSessionVoid : Z := 0x00030073.
Definition ResultRendezVousSessionFull : Z := 0x000300C8.
Definition ResultRendezVousPermissionDenied : Z := 0x000300D9.
Definition ResultAuthTokenParseError : Z := 0x00680002.
Definition ResultAuthUnsupportedVersion : Z := 0x0068000C.
Definition ResultAuthUnknown : Z := 0x0068000E.
Definition ResultAuthClientVersionIsOld : Z := 0x0068000F.
Definition ResultAuthApplicationVersionIsOld : Z := 0x00680013.
