(* ===== verification/Types.v ===== *)
(** * Result, DateTime and StationURL (src/types.go)

    The value types of the wire that need no stream: result codes with their error bit, the
    packed date, and station URLs with their ordered parameters. *)

From S2P Require Export Settings.

(** ** Result *)
Module Result.

Definition ResultErrorMask : Z := Z.shiftl 1 31.

Record Result := mkResult { Code : Z }.

Definition SuccessResult (code : Z) : Result := mkResult (Z.ldiff code ResultErrorMask).
Definition ErrorResult (code : Z) : Result := mkResult (Z.lor code ResultErrorMask).
Definition IsSuccess (r : Result) : bool := Z.land (Code r) ResultErrorMask =? 0.
Definition IsError (r : Result) : bool := negb (Z.land (Code r) ResultErrorMask =? 0).

Lemma land_mask_testbit c : (Z.land c ResultErrorMask =? 0) = negb (Z.testbit c 31).
Proof.
  apply eq_true_iff_eq. rewrite Z.eqb_eq, negb_true_iff. unfold ResultErrorMask. split.
  - intros H. apply (f_equal (λ z, Z.testbit z 31)) in H.
    rewrite Z.land_spec, Z.bits_0 in H. by rewrite andb_true_r in H.
  - intros H. apply Z.bits_inj'. intros n Hn. rewrite Z.land_spec, Z.bits_0.
    rewrite Z.shiftl_spec by done. destruct (decide (n = 31)) as [->|Hne]; [by rewrite H|].
    replace (Z.testbit 1 (n - 31)) with false; [apply andb_false_r|].
    symmetry. destruct (decide (n < 31)).
    + apply Z.testbit_neg_r. lia.
    + apply (Z.bits_above_log2 1); [lia|]. simpl. lia.
Qed.

(** Setting and clearing the error bit: the two constructors give the two flavours of one
    code, neither touches the other bits, and both keep the code a uint32. *)
Lemma error_bit_correct code :
  is_u32 code →
  IsError (ErrorResult code) = true ∧ IsSuccess (SuccessResult code) = true ∧
  SuccessResult (Code (ErrorResult code)) = SuccessResult code ∧
  ErrorResult (Code (SuccessResult code)) = ErrorResult code ∧
  is_u32 (Code (ErrorResult code)) ∧ is_u32 (Code (SuccessResult code)).
Proof.
  intros Hc. unfold IsError, IsSuccess. rewrite !land_mask_testbit.
  assert (is_u32 ResultErrorMask) by done.
  cbn [Code ErrorResult SuccessResult]. split_and!; [| | | |auto with nex..].
  - rewrite Z.lor_spec. by rewrite orb_true_r.
  - rewrite Z.ldiff_spec. by rewrite andb_false_r.
  - unfold SuccessResult. f_equal. apply Z.bits_inj'. intros n Hn.
    rewrite !Z.ldiff_spec, Z.lor_spec.
    by destruct (Z.testbit code n), (Z.testbit ResultErrorMask n).
  - unfold ErrorResult. f_equal. apply Z.bits_inj'. intros n Hn.
    rewrite !Z.lor_spec, Z.ldiff_spec.
    by destruct (Z.testbit code n), (Z.testbit ResultErrorMask n).
Qed.

End Result.

(** ** DateTime *)
Module DateTime.

(** A [DateTime] is a uint64. *)
Definition Value (d : Z) : Z := u64 d.
Definition Second (d : Z) : Z := Z.land d 63.
Definition Minute (d : Z) : Z := Z.land (Z.shiftr d 6) 63.
Definition Hour (d : Z) : Z := Z.land (Z.shiftr d 12) 31.
Definition Day (d : Z) : Z := Z.land (Z.shiftr d 17) 31.
Definition Month (d : Z) : Z := Z.land (Z.shiftr d 22) 15.
Definition Year (d : Z) : Z := Z.shiftr d 26.

(** [MakeDateTime]; each [uint64(x)<<k] drops what leaves the 64 bits. *)
Definition MakeDateTime (year month day hour minute second : Z) : Z :=
  Z.lor (Z.lor (Z.lor (Z.lor (Z.lor (u64 second)
    (u64 (Z.shiftl (u64 minute) 6)))
    (u64 (Z.shiftl (u64 hour) 12)))
    (u64 (Z.shiftl (u64 day) 17)))
    (u64 (Z.shiftl (u64 month) 22)))
    (u64 (Z.shiftl (u64 year) 26)).

(** The civil date of a day count from 1970-01-01, in the proleptic Gregorian calendar of
    [time.Time]. *)
Definition civil (days : Z) : Z * Z * Z :=
  let z := days + 719468 in
  let era := z `div` 146097 in
  let doe := z `mod` 146097 in
  let yoe := (doe - doe `div` 1460 + doe `div` 36524 - doe `div` 146096) `div` 365 in
  let doy := doe - (365 * yoe + yoe `div` 4 - yoe `div` 100) in
  let mp := (5 * doy + 2) `div` 153 in
  let d := doy - (153 * mp + 2) `div` 5 + 1 in
  let m := if mp <? 10 then mp + 3 else mp - 9 in
  (yoe + era * 400 + (if m <=? 2 then 1 else 0), m, d).

(** [NowDateTime], of the clock in nanoseconds since the epoch. *)
Definition NowDateTime (clock : Z) : Z :=
  let secs := clock `div` 1000000000 in
  let '(y, m, d) := civil (secs `div` 86400) in
  let t := secs `mod` 86400 in
  MakeDateTime y m d (t `div` 3600) (t `mod` 3600 `div` 60) (t `mod` 60).

Example NowDateTime_ex :
  NowDateTime (1788352496 * 1000000000) = MakeDateTime 2026 9 2 12 34 56 ∧
  NowDateTime (951782400 * 1000000000) = MakeDateTime 2000 2 29 0 0 0.
Proof. split; reflexivity. Qed.

(** Disjoint bit fields add up. *)
Lemma lor_shiftl_add a b k : 0 ≤ k → 0 ≤ a < 2 ^ k → 0 ≤ b → Z.lor a (Z.shiftl b k) = a + b * 2 ^ k.
Proof.
  intros Hk Ha Hb. pose proof (Z.add_lor_land a (Z.shiftl b k)) as E.
  assert (Z.land a (Z.shiftl b k) = 0) as L.
  { apply Z.bits_inj'. intros i Hi. rewrite Z.land_spec, Z.bits_0.
    destruct (decide (i < k)).
    - rewrite Z.shiftl_spec_low by done. apply andb_false_r.
    - rewrite <- (Z.mod_small a (2 ^ k)) by done.
      by rewrite Z.mod_pow2_bits_high by lia. }
  rewrite L in E. rewrite Z.shiftl_mul_pow2 in * by done. lia.
Qed.

Lemma land_ones_mod a k : 0 ≤ k → Z.land a (2 ^ k - 1) = a mod 2 ^ k.
Proof. intros. rewrite <- Z.land_ones by done. by rewrite Z.ones_equiv, Z.sub_1_r. Qed.

Definition valid (year month day hour minute second : Z) : Prop :=
  0 ≤ year < 2 ^ 38 ∧ 0 ≤ month < 16 ∧ 0 ≤ day < 32 ∧ 0 ≤ hour < 32 ∧
  0 ≤ minute < 64 ∧ 0 ≤ second < 64.

Lemma MakeDateTime_sum y mo d h mi s :
  valid y mo d h mi s →
  MakeDateTime y mo d h mi s =
  s + mi * 2 ^ 6 + h * 2 ^ 12 + d * 2 ^ 17 + mo * 2 ^ 22 + y * 2 ^ 26.
Proof.
  unfold valid. intros H. unfold MakeDateTime.
  assert (∀ v k, 0 ≤ k ≤ 26 → 0 ≤ v → v * 2 ^ k < 2 ^ 64 →
          u64 (Z.shiftl (u64 v) k) = Z.shiftl v k) as Hs.
  { intros v k Hk Hv Hlt. assert (1 ≤ 2 ^ k) by (pose proof (pow_pos k); lia).
    rewrite (wrap_small 64 v) by (unfold is_u; nia).
    rewrite Z.shiftl_mul_pow2 by lia. apply wrap_small. unfold is_u. nia. }
  rewrite (wrap_small 64 s) by (unfold is_u; lia).
  rewrite !Hs by lia.
  rewrite (lor_shiftl_add s) by lia.
  rewrite (lor_shiftl_add (s + _)) by lia.
  rewrite (lor_shiftl_add (s + _ + _)) by lia.
  rewrite (lor_shiftl_add (s + _ + _ + _)) by lia.
  rewrite (lor_shiftl_add (s + _ + _ + _ + _)) by lia. done.
Qed.

(** Unpacking what was packed gives the fields back. *)
Lemma fields_of_MakeDateTime y mo d h mi s :
  valid y mo d h mi s →
  let t := MakeDateTime y mo d h mi s in
  Second t = s ∧ Minute t = mi ∧ Hour t = h ∧ Day t = d ∧ Month t = mo ∧ Year t = y.
Proof.
  intros Hv t. subst t. rewrite (MakeDateTime_sum _ _ _ _ _ _ Hv). unfold valid in Hv.
  unfold Second, Minute, Hour, Day, Month, Year.
  rewrite !Z.shiftr_div_pow2 by lia.
  change 63 with (2 ^ 6 - 1). change 31 with (2 ^ 5 - 1). change 15 with (2 ^ 4 - 1).
  rewrite !land_ones_mod by lia.
  split_and!; Z.to_euclidean_division_equations; lia.
Qed.

(** The packed integer orders dates as the calendar does, most significant field first. *)
Theorem MakeDateTime_order y mo d h mi s y' mo' d' h' mi' s' :
  valid y mo d h mi s → valid y' mo' d' h' mi' s' →
  (MakeDateTime y mo d h mi s < MakeDateTime y' mo' d' h' mi' s' ↔
   y < y' ∨ y = y' ∧ (mo < mo' ∨ mo = mo' ∧ (d < d' ∨ d = d' ∧
   (h < h' ∨ h = h' ∧ (mi < mi' ∨ mi = mi' ∧ s < s'))))).
Proof.
  intros H H'. rewrite !MakeDateTime_sum by done. unfold valid in *. lia.
Qed.

Lemma MakeDateTime_order_witness :
  valid 2024 12 31 23 59 59 ∧ valid 2025 1 1 0 0 0 ∧
  MakeDateTime 2024 12 31 23 59 59 < MakeDateTime 2025 1 1 0 0 0.
Proof.
  assert (valid 2024 12 31 23 59 59) as H by (unfold valid; lia).
  assert (valid 2025 1 1 0 0 0) as H' by (unfold valid; lia).
  split; [exact H|]. split; [exact H'|]. apply (MakeDateTime_order _ _ _ _ _ _ _ _ _ _ _ _ H H'). lia.
Defined.

End DateTime.

(** ** StationURL *)
Module StationURL.

(** The parameters in first-seen order ([keys]) and by name ([params]). *)
Record StationURL := mkURL {
  Scheme : bytes;
  keys : list bytes;
  params : gmap bytes bytes
}.

#[export] Instance StationURL_eq_dec : EqDecision StationURL.
Proof. solve_decision. Defined.

Definition NewStationURL (scheme : bytes) : StationURL :=
  mkURL (if bool_decide (scheme = []) then str "prudp" else scheme) [] ∅.

Definition Set_ (k v : bytes) (u : StationURL) : StationURL :=
  mkURL (Scheme u)
    (match params u !! k with Some _ => keys u | None => keys u ++ [k] end)
    (<[k := v]> (params u)).

Definition SetInt (k : bytes) (v : Z) (u : StationURL) : StationURL := Set_ k (Itoa v) u.

Definition Get (u : StationURL) (k : bytes) : bytes := default [] (params u !! k).
Definition GetInt (u : StationURL) (k : bytes) : Z := fst (Atoi (Get u k)).
Definition Has (u : StationURL) (k : bytes) : bool := bool_decide (is_Some (params u !! k)).

(** The first occurrence of [k] leaves the key order. *)
Fixpoint remove_first (k : bytes) (l : list bytes) : list bytes :=
  match l with
  | [] => []
  | x :: l => if bool_decide (x = k) then l else x :: remove_first k l
  end.

Definition Remove (k : bytes) (u : StationURL) : StationURL :=
  match params u !! k with
  | None => u
  | Some _ => mkURL (Scheme u) (remove_first k (keys u)) (delete k (params u))
  end.

(** [Copy]: equal contents in fresh storage. *)
Definition Copy (u : StationURL) : StationURL := u.

Definition String_ (u : StationURL) : bytes :=
  let parts := (λ k, k ++ "="%byte :: Get u k) <$> keys u in
  let joined := join_with ";"%byte parts in
  if bool_decide (Scheme u = []) then joined else Scheme u ++ str ":/" ++ joined.

(** One "k=v" field of [ParseStationURL]. *)
Definition parse_field (u : StationURL) (f : bytes) : StationURL :=
  match cut_on "="%byte f with
  | Some (k, v) => Set_ k v u
  | None => u
  end.

Definition ParseStationURL (s : bytes) : StationURL :=
  match index_of (str ":/") s with
  | None => mkURL [] [] ∅
  | Some i =>
      let u := mkURL (take i s) [] ∅ in
      let fields := drop (i + 2) s in
      if bool_decide (fields = []) then u
      else foldl parse_field u (split_on ";"%byte fields)
  end.

(** The invariant of the type: the key order lists every parameter, once. *)
Definition wf (u : StationURL) : Prop :=
  NoDup (keys u) ∧ ∀ k, k ∈ keys u ↔ is_Some (params u !! k).

Lemma wf_empty (sch : bytes) : wf (mkURL sch [] ∅).
Proof.
  split; simpl; [constructor|]. intros k. rewrite lookup_empty.
  split; [by intros ?%elem_of_nil|by intros []].
Qed.

Lemma wf_Set k v u : wf u → wf (Set_ k v u).
Proof.
  intros [Hnd Hk]. unfold Set_. split; simpl.
  - destruct (params u !! k) eqn:E; [done|]. apply NoDup_app. split_and!; [done| |apply NoDup_singleton].
    intros x Hx ->%list_elem_of_singleton. apply Hk in Hx. rewrite E in Hx. by destruct Hx.
  - intros k'. destruct (decide (k = k')) as [->|Hne].
    + rewrite lookup_insert_eq. split; [by eexists|]. intros _.
      destruct (params u !! k') eqn:E; [apply Hk; by rewrite E|set_solver].
    + rewrite lookup_insert_ne by done. rewrite <- Hk.
      destruct (params u !! k); [done|]. set_solver.
Qed.

Lemma elem_of_remove_first k x l : NoDup l → x ∈ remove_first k l ↔ x ∈ l ∧ x ≠ k.
Proof.
  induction l as [|y l IH]; intros Hnd; simpl; [set_solver|].
  apply NoDup_cons in Hnd as [Hy Hnd]. case_bool_decide as E.
  - subst. set_solver.
  - rewrite !elem_of_cons, IH by done. split; [|naive_solver].
    intros [->|[]]; naive_solver.
Qed.

Lemma NoDup_remove_first k l : NoDup l → NoDup (remove_first k l).
Proof.
  induction l as [|y l IH]; intros Hnd; simpl; [done|].
  pose proof Hnd as [Hy Hnd']%NoDup_cons. case_bool_decide; [done|].
  constructor; [|by apply IH]. rewrite elem_of_remove_first by done. naive_solver.
Qed.

Lemma wf_Remove k u : wf u → wf (Remove k u).
Proof.
  intros [Hnd Hk]. unfold Remove. destruct (params u !! k) eqn:E; [|done].
  split; simpl; [by apply NoDup_remove_first|]. intros k'.
  rewrite elem_of_remove_first, Hk by done. destruct (decide (k' = k)) as [->|Hne].
  - rewrite lookup_delete_eq. split; [naive_solver|by intros []].
  - rewrite lookup_delete_ne by congruence. naive_solver.
Qed.

Lemma wf_foldl_parse fs u : wf u → wf (foldl parse_field u fs).
Proof.
  revert u. induction fs as [|f fs IH]; intros u Hu; simpl; [done|]. apply IH.
  unfold parse_field. destruct (cut_on _ f) as [[]|]; [by apply wf_Set|done].
Qed.

Lemma wf_Parse s : wf (ParseStationURL s).
Proof.
  unfold ParseStationURL. destruct (index_of _ s); [|apply wf_empty].
  case_bool_decide; [apply wf_empty|]. apply wf_foldl_parse, wf_empty.
Qed.
#[export] Hint Resolve wf_empty wf_Set wf_Remove wf_Parse : nex.

(** What a URL must look like to be read back: the delimiters are not escaped. *)
Definition printable (u : StationURL) : Prop :=
  Scheme u ≠ [] ∧ ":"%byte ∉ Scheme u ∧
  Forall (λ k, "="%byte ∉ k ∧ ";"%byte ∉ k ∧ ";"%byte ∉ Get u k) (keys u).

Lemma index_of_scheme (sch rest : bytes) :
  ":"%byte ∉ sch → index_of (str ":/") (sch ++ str ":/" ++ rest) = Some (length sch).
Proof.
  induction sch as [|c sch IH]; intros Hs.
  - by destruct rest.
  - apply not_elem_of_cons in Hs as [Hc Hs].
    change (index_of (str ":/") (c :: (sch ++ str ":/" ++ rest)) = Some (S (length sch))).
    cbn [index_of]. rewrite IH by done. simpl. by rewrite bool_decide_false by congruence.
Qed.

Lemma foldl_parse_print (sch : bytes) (ks : list bytes) (m : gmap bytes bytes) :
  NoDup ks → Forall (λ k, is_Some (m !! k) ∧ "="%byte ∉ k) ks →
  foldl parse_field (mkURL sch [] ∅) ((λ k, k ++ "="%byte :: default [] (m !! k)) <$> ks)
  = mkURL sch ks (list_to_map ((λ k, (k, default [] (m !! k))) <$> reverse ks)).
Proof.
  induction ks as [|k ks IH] using rev_ind; intros Hnd Hall; [done|].
  apply NoDup_app in Hnd as (Hnd & Hk & _). apply Forall_app in Hall as [Hall Hx].
  apply Forall_singleton in Hx as [_ Hx].
  rewrite fmap_app, foldl_app, IH, reverse_app by done. simpl.
  unfold parse_field. rewrite cut_on_app by done. unfold Set_. simpl.
  rewrite (not_elem_of_list_to_map_1 _ k); [done|].
  rewrite <- list_fmap_compose. rewrite list_elem_of_fmap. intros (y & -> & Hy).
  rewrite elem_of_reverse in Hy. by apply (Hk _ Hy), list_elem_of_singleton.
Qed.

(** Printing then parsing is the identity, key order included. *)
Lemma Parse_String u : wf u → printable u → ParseStationURL (String_ u) = u.
Proof.
  intros [Hnd Hk] (Hs & Hcol & Hall). unfold String_. rewrite bool_decide_false by done.
  unfold ParseStationURL. rewrite index_of_scheme by done.
  rewrite take_app_exact by done.
  rewrite app_assoc, drop_app_exact by (rewrite length_app; done).
  rewrite Forall_forall in Hall. destruct u as [sch ks m]. simpl in *. unfold Get in *. simpl in *.
  destruct (decide (ks = [])) as [->|Hne].
  { simpl. f_equal. symmetry. apply map_eq. intros k. rewrite lookup_empty.
    apply eq_None_not_Some. rewrite <- Hk. apply not_elem_of_nil. }
  set (parts := _ <$> ks). assert (parts ≠ []) by (subst parts; by destruct ks).
  assert (join_with ";"%byte parts ≠ []).
  { subst parts. destruct ks as [|k [|k' ks]]; [done|by destruct k..]. }
  rewrite bool_decide_false by done. rewrite split_on_join; [|done|].
  2:{ apply Forall_fmap, Forall_forall. intros k Hin. simpl.
      destruct (Hall k Hin) as (? & ? & ?).
      rewrite elem_of_app, elem_of_cons. naive_solver. }
  subst parts. rewrite foldl_parse_print; [f_equal| done |].
  - apply map_eq. intros k. destruct (m !! k) as [v|] eqn:E.
    + apply elem_of_list_to_map_1.
      * rewrite <- list_fmap_compose. simpl. rewrite list_fmap_id.
        by rewrite reverse_Permutation.
      * apply list_elem_of_fmap. exists k. rewrite E. split; [done|].
        apply elem_of_reverse, Hk. by rewrite E.
    + apply not_elem_of_list_to_map_1. rewrite <- list_fmap_compose, list_elem_of_fmap.
      intros (y & Hy' & Hy). simpl in Hy'. subst y.
      apply elem_of_reverse, Hk in Hy. rewrite E in Hy. by destruct Hy.
  - apply Forall_forall. intros k Hin. split; [by apply Hk|]. by destruct (Hall k Hin).
Qed.

(** Lookups after the updates. *)
Lemma Get_Set k v k' u : Get (Set_ k v u) k' = if decide (k = k') then v else Get u k'.
Proof. unfold Get, Set_. simpl. rewrite lookup_insert. by case_decide. Qed.

Lemma Has_Remove k k' u : Has (Remove k u) k' = if decide (k = k') then false else Has u k'.
Proof.
  unfold Has, Remove. destruct (params u !! k) eqn:E; simpl.
  - rewrite lookup_delete. case_decide; [by rewrite bool_decide_false by (by intros [])|done].
  - case_decide; [subst; rewrite E; by rewrite bool_decide_false by (by intros [])|done].
Qed.

Lemma Get_Remove k k' u : Get (Remove k u) k' = if decide (k = k') then [] else Get u k'.
Proof.
  unfold Get, Remove. destruct (params u !! k) eqn:E; simpl.
  - rewrite lookup_delete. by case_decide.
  - case_decide; [subst; by rewrite E|done].
Qed.
#[export] Hint Rewrite Get_Set Has_Remove Get_Remove : nex_rw.

Example parse_ex :
  String_ (Set_ (str "port") (str "7") (Remove (str "type")
    (ParseStationURL (str "prudps:/address=1.2.3.4;port=1;type=3")))) =
  str "prudps:/address=1.2.3.4;port=7".
Proof. vm_compute. reflexivity. Qed.

End StationURL.
