(* ===== verification/Stream.v ===== *)
(** * Streams (src/stream.go)

    [StreamOut] appends to a buffer; [StreamIn] reads with a cursor and a sticky error.  A
    write is a state transformer ([Writer]), a read a state-passing function ([Reader]).
    The relation [rt] says that a writer and a reader agree on a value; it composes along
    the sequences of calls the structures are made of. *)

From S2P Require Export Types.
Export StationURL.

(** ** StreamOut *)
Record StreamOut := mkOut { so_settings : Settings; so_buf : bytes }.

Definition Writer : Type := StreamOut → StreamOut.

Definition NewStreamOut (s : Settings) : StreamOut := mkOut s [].
Definition Bytes_ (o : StreamOut) : bytes := so_buf o.
Definition Write (b : bytes) : Writer := λ o, mkOut (so_settings o) (so_buf o ++ b).

(** Two calls in a row. *)
Definition wseq (w1 w2 : Writer) : Writer := λ o, w2 (w1 o).
Notation "w1 ;;; w2" := (wseq w1 w2) (at level 60, right associativity) : nex_scope.

Definition wU8 (v : Z) : Writer := Write (le_bytes 1 v).
Definition wU16 (v : Z) : Writer := Write (le_bytes 2 v).
Definition wU32 (v : Z) : Writer := Write (le_bytes 4 v).
Definition wU64 (v : Z) : Writer := Write (le_bytes 8 v).
Definition wS8 (v : Z) : Writer := wU8 (u8 v).
Definition wS16 (v : Z) : Writer := wU16 (u16 v).
Definition wS32 (v : Z) : Writer := wU32 (u32 v).
Definition wS64 (v : Z) : Writer := wU64 (u64 v).

(** Floats travel as their IEEE-754 bits, and a float value of the model is its bits. *)
Definition wFloat (bits : Z) : Writer := wU32 bits.
Definition wDouble (bits : Z) : Writer := wU64 bits.
Definition wBool (b : bool) : Writer := if b then wU8 1 else wU8 0.

Definition wPID (v : Z) : Writer := λ o,
  let v := Publique (so_settings o) v in
  if PIDSize (so_settings o) =? 8 then wU64 v o else wU32 (u32 v) o.

(** [uint16(len(data))] wraps. *)
Definition wString (s : bytes) : Writer :=
  let data := s ++ [x00] in
  wU16 (u16 (zlen data)) ;;; Write data.

Definition wStringVideZero (s : bytes) : Writer :=
  if bool_decide (s = []) then wU16 0 else wString s.

Definition wBuffer (b : bytes) : Writer := wU32 (u32 (zlen b)) ;;; Write b.
Definition wQBuffer (b : bytes) : Writer := wU16 (u16 (zlen b)) ;;; Write b.
Definition wResult (code : Z) : Writer := wU32 code.
Definition wDateTime (v : Z) : Writer := wU64 v.
Definition wStationURL (u : StationURL) : Writer := wString (String_ u).

Definition wforeach {A} (f : A → Writer) (l : list A) : Writer :=
  λ o, foldl (λ o x, f x o) o l.

Definition WriteList {A} (l : list A) (f : A → Writer) : Writer :=
  wU32 (u32 (zlen l)) ;;; wforeach f l.

Definition WriteMap `{MO : MapOrder} {K A} `{Countable K} (m : gmap K A)
    (kf : K → Writer) (vf : A → Writer) : Writer :=
  wU32 (u32 (Z.of_nat (size m))) ;;; wforeach (λ kv, kf kv.1 ;;; vf kv.2) (range m).

(** ** StreamIn *)
Record StreamIn := mkIn {
  si_settings : Settings;
  si_data : bytes;
  si_pos : nat;
  si_err : option error
}.

Definition Reader (A : Type) : Type := StreamIn → A * StreamIn.

Definition rret {A} (a : A) : Reader A := λ i, (a, i).
Definition rbind {A B} (r : Reader A) (k : A → Reader B) : Reader B :=
  λ i, let '(a, i) := r i in k a i.
Notation "'read!' x := r 'in' k" := (rbind r (λ x, k))
  (at level 10, x name, r at level 100, k at level 200) : nex_scope.
Notation "'skip!' r 'in' k" := (rbind r (λ _, k))
  (at level 10, r at level 100, k at level 200) : nex_scope.

(** The settings the stream carries. *)
Definition rask : Reader Settings := λ i, (si_settings i, i).

Definition NewStreamIn (data : bytes) (s : Settings) : StreamIn := mkIn s data 0 None.

Definition EOF (i : StreamIn) : bool := (length (si_data i) <=? si_pos i)%nat.
Definition Remaining (i : StreamIn) : Z := zlen (si_data i) - Z.of_nat (si_pos i).

Definition Read (n : Z) : Reader bytes := λ i,
  if bool_decide (si_err i ≠ None) || (n <? 0) ||
     (zlen (si_data i) <? Z.of_nat (si_pos i) + n)
  then ([], mkIn (si_settings i) (si_data i) (si_pos i)
              (match si_err i with
               | None => if n =? 0 then None else Some ErrUnexpectedEOF
               | e => e
               end))
  else (take (Z.to_nat n) (drop (si_pos i) (si_data i)),
        mkIn (si_settings i) (si_data i) (si_pos i + Z.to_nat n) (si_err i)).

Definition ReadAll : Reader bytes := λ i, Read (Remaining i) i.

(** A fixed-width read: zero when the bytes are missing. *)
Definition rUint (n : nat) : Reader Z :=
  read! b := Read (Z.of_nat n) in
  rret (if (length b <? n)%nat then 0 else le_val b).

Definition rU8 : Reader Z := rUint 1.
Definition rU16 : Reader Z := rUint 2.
Definition rU32 : Reader Z := rUint 4.
Definition rU64 : Reader Z := rUint 8.
Definition rS8 : Reader Z := read! v := rU8 in rret (s8 v).
Definition rS16 : Reader Z := read! v := rU16 in rret (s16 v).
Definition rS32 : Reader Z := read! v := rU32 in rret (s32 v).
Definition rS64 : Reader Z := read! v := rU64 in rret (s64 v).
Definition rFloat : Reader Z := rU32.
Definition rDouble : Reader Z := rU64.
Definition rBool : Reader bool := read! v := rU8 in rret (negb (v =? 0)).

Definition rPID : Reader Z :=
  read! s := rask in
  if PIDSize s =? 8 then read! v := rU64 in rret (Interne s v)
  else read! v := rU32 in rret (Interne s v).

(** One trailing zero is dropped. *)
Definition strip_zero (b : bytes) : bytes :=
  match reverse b with
  | c :: r => if bool_decide (c = x00) then reverse r else b
  | [] => b
  end.

Definition rString : Reader bytes :=
  read! len := rU16 in
  if len =? 0 then rret []
  else read! b := Read len in
       rret (if zlen b <? len then [] else strip_zero b).

Definition rBuffer : Reader bytes := read! n := rU32 in Read n.
Definition rQBuffer : Reader bytes := read! n := rU16 in Read n.
Definition rResult : Reader Z := rU32.
Definition rDateTime : Reader Z := rU64.
Definition rStationURL : Reader StationURL := read! s := rString in rret (ParseStationURL s).

Definition rSubstream : Reader StreamIn :=
  read! s := rask in read! b := rBuffer in rret (NewStreamIn b s).

Definition rError {A} (dflt : A) : Reader A := λ i,
  (dflt, mkIn (si_settings i) (si_data i) (si_pos i)
           (match si_err i with None => Some ErrUnexpectedEOF | e => e end)).

Fixpoint rrepeat {A} (n : nat) (f : Reader A) : Reader (list A) :=
  match n with
  | O => rret []
  | S n => read! x := f in read! xs := rrepeat n f in rret (x :: xs)
  end.

Definition ReadList {A} (f : Reader A) : Reader (list A) :=
  read! n := rU32 in
  λ i, if Remaining i <? n then rError [] i else rrepeat (Z.to_nat n) f i.

Fixpoint rrepeat_map {K A} `{Countable K} (n : nat) (kf : Reader K) (vf : Reader A)
    (m : gmap K A) : Reader (gmap K A) :=
  match n with
  | O => rret m
  | S n => read! k := kf in read! v := vf in rrepeat_map n kf vf (<[k := v]> m)
  end.

Definition ReadMap {K A} `{Countable K} (kf : Reader K) (vf : Reader A) : Reader (gmap K A) :=
  read! n := rU32 in
  λ i, if Remaining i <? n then rError ∅ i else rrepeat_map (Z.to_nat n) kf vf ∅ i.

(** ** Encoding and decoding agree

    [rt s w r a]: under the settings [s] the writer [w] appends a fixed run of bytes,
    whatever the buffer holds, and the reader [r], started anywhere in front of that run
    without an error, returns [a] and stops right after it, without an error.  [rt1] says in
    addition that the run is not empty, which [ReadList] relies on. *)
Definition at_ (s : Settings) (pre rest : bytes) : StreamIn :=
  mkIn s (pre ++ rest) (length pre) None.

Definition writes (s : Settings) (w : Writer) (bs : bytes) : Prop :=
  ∀ buf, w (mkOut s buf) = mkOut s (buf ++ bs).

Definition reads {A} (s : Settings) (r : Reader A) (bs : bytes) (a : A) : Prop :=
  ∀ pre rest, r (at_ s pre (bs ++ rest)) = (a, at_ s (pre ++ bs) rest).

Definition rt {A} (s : Settings) (w : Writer) (r : Reader A) (a : A) : Prop :=
  ∃ bs, writes s w bs ∧ reads s r bs a.

Definition rt1 {A} (s : Settings) (w : Writer) (r : Reader A) (a : A) : Prop :=
  ∃ bs, bs ≠ [] ∧ writes s w bs ∧ reads s r bs a.

Section round_trips.
Context {A B : Type} (s : Settings).
Implicit Types (w : Writer).

Lemma rt1_rt w (r : Reader A) a : rt1 s w r a → rt s w r a.
Proof. intros (bs & _ & H). by exists bs. Qed.

Lemma writes_seq w1 w2 b1 b2 : writes s w1 b1 → writes s w2 b2 → writes s (w1 ;;; w2) (b1 ++ b2).
Proof. intros H1 H2 buf. unfold wseq. by rewrite H1, H2, app_assoc. Qed.

Lemma reads_bind (r : Reader A) (k : A → Reader B) b1 b2 a b :
  reads s r b1 a → reads s (k a) b2 b → reads s (rbind r k) (b1 ++ b2) b.
Proof.
  intros H1 H2 pre rest. unfold rbind. rewrite <- app_assoc, H1, H2. by rewrite app_assoc.
Qed.

Lemma rt_bind w1 w2 (r : Reader A) (k : A → Reader B) a b :
  rt s w1 r a → rt s w2 (k a) b → rt s (w1 ;;; w2) (rbind r k) b.
Proof.
  intros (b1 & W1 & R1) (b2 & W2 & R2). exists (b1 ++ b2).
  split; [by apply writes_seq|by eapply reads_bind].
Qed.

Lemma rt1_bind w1 w2 (r : Reader A) (k : A → Reader B) a b :
  rt1 s w1 r a → rt s w2 (k a) b → rt1 s (w1 ;;; w2) (rbind r k) b.
Proof.
  intros (b1 & N & W1 & R1) (b2 & W2 & R2). exists (b1 ++ b2).
  split; [by destruct b1|]. split; [by apply writes_seq|by eapply reads_bind].
Qed.

Lemma reads_map (r : Reader A) (k : A → Reader B) bs a b :
  reads s r bs a → k a = rret b → reads s (rbind r k) bs b.
Proof. intros H E pre rest. unfold rbind. by rewrite H, E. Qed.

Lemma rt_map w (r : Reader A) (k : A → Reader B) a b :
  rt s w r a → k a = rret b → rt s w (rbind r k) b.
Proof. intros (bs & W & R) E. exists bs. split; [done|by eapply reads_map]. Qed.

Lemma rt1_map w (r : Reader A) (k : A → Reader B) a b :
  rt1 s w r a → k a = rret b → rt1 s w (rbind r k) b.
Proof. intros (bs & N & W & R) E. exists bs. split; [done|]. split; [done|by eapply reads_map]. Qed.

Lemma rt_done (a : A) : rt s (λ o, o) (rret a) a.
Proof.
  exists []. split; [intros buf; by rewrite app_nil_r|].
  intros pre rest. by rewrite app_nil_r.
Qed.

(** Reading the settings consumes nothing. *)
Lemma rt_ask w (k : Settings → Reader A) a : rt s w (k s) a → rt s w (rbind rask k) a.
Proof. intros (bs & W & R). exists bs. split; [done|]. intros pre rest. by apply R. Qed.

Lemma rt1_ask w (k : Settings → Reader A) a : rt1 s w (k s) a → rt1 s w (rbind rask k) a.
Proof.
  intros (bs & N & W & R). exists bs. split; [done|]. split; [done|].
  intros pre rest. by apply R.
Qed.

(** The whole message: what was written from an empty buffer is read back, the cursor is
    at the end and no error is set. *)
Lemma rt_whole w (r : Reader A) a :
  rt s w r a →
  ∃ i, r (NewStreamIn (Bytes_ (w (NewStreamOut s))) s) = (a, i) ∧
       EOF i = true ∧ si_err i = None.
Proof.
  intros (bs & W & R). unfold NewStreamOut. rewrite W. unfold NewStreamIn. simpl.
  specialize (R [] []). rewrite app_nil_r in R. unfold at_ in R. simpl in R.
  rewrite R. eexists. split; [done|]. split; [|done].
  unfold EOF. cbn. rewrite app_nil_r. apply Nat.leb_refl.
Qed.
End round_trips.

(** *** The primitives *)
Section primitives.
Context (s : Settings).

Lemma writes_Write bs : writes s (Write bs) bs.
Proof. done. Qed.

Lemma reads_Read n bs : n = zlen bs → reads s (Read n) bs bs.
Proof.
  intros -> pre rest. unfold Read, at_. simpl.
  rewrite !zlen_app. unfold zlen.
  destruct (Z.ltb_spec (Z.of_nat (length bs)) 0); [lia|]. simpl.
  destruct (Z.ltb_spec (Z.of_nat (length pre) + (Z.of_nat (length bs) + Z.of_nat (length rest)))
                       (Z.of_nat (length pre) + Z.of_nat (length bs))); [lia|].
  rewrite Nat2Z.id, drop_app_exact, take_app_exact by done.
  by rewrite length_app, app_assoc.
Qed.

Lemma rt1_Write_Read bs : bs ≠ [] → rt1 s (Write bs) (Read (zlen bs)) bs.
Proof. exists bs. split; [done|]. split; [done|by apply reads_Read]. Qed.

Lemma rt1_uint n v :
  (0 < n)%nat → is_u (8 * Z.of_nat n) v → rt1 s (Write (le_bytes n v)) (rUint n) v.
Proof.
  intros Hn Hv. exists (le_bytes n v).
  split; [destruct n; [lia|done]|]. split; [done|].
  unfold rUint. eapply reads_map.
  - apply reads_Read. unfold zlen. by rewrite length_le_bytes.
  - rewrite length_le_bytes, Nat.ltb_irrefl. rewrite le_val_le_bytes.
    rewrite Z.mod_small; [done|]. unfold is_u in Hv.
    by rewrite Z.pow_mul_r in Hv by lia.
Qed.

Lemma rt1_U8 v : is_u8 v → rt1 s (wU8 v) rU8 v.
Proof. apply (rt1_uint 1); lia. Qed.
Lemma rt1_U16 v : is_u16 v → rt1 s (wU16 v) rU16 v.
Proof. apply (rt1_uint 2); lia. Qed.
Lemma rt1_U32 v : is_u32 v → rt1 s (wU32 v) rU32 v.
Proof. apply (rt1_uint 4); lia. Qed.
Lemma rt1_U64 v : is_u64 v → rt1 s (wU64 v) rU64 v.
Proof. apply (rt1_uint 8); lia. Qed.

Lemma rt1_S32 v : is_s32 v → rt1 s (wS32 v) rS32 v.
Proof.
  intros Hv. eapply rt1_map; [apply rt1_U32; auto with nex|].
  by rewrite signed_wrap.
Qed.
Lemma rt1_S64 v : is_s64 v → rt1 s (wS64 v) rS64 v.
Proof.
  intros Hv. eapply rt1_map; [apply rt1_U64; auto with nex|].
  by rewrite signed_wrap.
Qed.

Lemma rt1_Bool b : rt1 s (wBool b) rBool b.
Proof. destruct b; (eapply rt1_map; [apply rt1_U8|]); done. Qed.

Lemma rt1_Double v : is_u64 v → rt1 s (wDouble v) rDouble v.
Proof. apply rt1_U64. Qed.
Lemma rt1_Float v : is_u32 v → rt1 s (wFloat v) rFloat v.
Proof. apply rt1_U32. Qed.
Lemma rt1_DateTime v : is_u64 v → rt1 s (wDateTime v) rDateTime v.
Proof. apply rt1_U64. Qed.
Lemma rt1_Result v : is_u32 v → rt1 s (wResult v) rResult v.
Proof. apply rt1_U32. Qed.

Lemma writes_ext w w' bs : (∀ buf, w (mkOut s buf) = w' (mkOut s buf)) → writes s w' bs → writes s w bs.
Proof. intros E H buf. by rewrite E. Qed.

Lemma rt1_PID v : pid_ok s v → rt1 s (wPID v) rPID v.
Proof.
  intros [Hi Hr]. unfold rPID. apply rt1_ask. unfold wPID.
  destruct (PIDSize s =? 8) eqn:E.
  - destruct (rt1_map s (wU64 (Publique s v)) rU64 (λ x, rret (Interne s x)) (Publique s v) v)
      as (bs & N & W & R); [by apply rt1_U64|by rewrite Hi|].
    exists bs. split; [done|]. split; [|done].
    intros buf. simpl. rewrite E. apply W.
  - destruct (rt1_map s (wU32 (u32 (Publique s v))) rU32 (λ x, rret (Interne s x)) (Publique s v) v)
      as (bs & N & W & R).
    + rewrite wrap_small by done. by apply rt1_U32.
    + by rewrite Hi.
    + exists bs. split; [done|]. split; [|done].
      intros buf. simpl. rewrite E. apply W.
Qed.

Lemma strip_zero_snoc b : strip_zero (b ++ [x00]) = b.
Proof. unfold strip_zero. rewrite reverse_app. simpl. by rewrite reverse_involutive. Qed.

(** A string and its terminator must fit the u16 length. *)
Definition str_ok (b : bytes) : Prop := zlen b < 65535.

Lemma rt1_String b : str_ok b → rt1 s (wString b) rString b.
Proof.
  intros Hb. unfold str_ok in Hb. unfold wString, rString.
  assert (zlen (b ++ [x00]) = zlen b + 1) as E by (rewrite zlen_app; done).
  pose proof (zlen_nonneg b).
  rewrite wrap_small by (unfold is_u; lia).
  eapply rt1_bind; [apply rt1_U16; unfold is_u; lia|].
  destruct (Z.eqb_spec (zlen (b ++ [x00])) 0); [lia|].
  apply rt1_rt. eapply rt1_map; [apply rt1_Write_Read; by destruct b|].
  rewrite Z.ltb_irrefl. by rewrite strip_zero_snoc.
Qed.

Lemma rt1_StringVideZero b : str_ok b → rt1 s (wStringVideZero b) rString b.
Proof.
  intros Hb. unfold wStringVideZero. case_bool_decide as E; [|by apply rt1_String].
  rewrite E. unfold rString. eapply rt1_map; [by apply rt1_U16|done].
Qed.

Definition buf_ok (b : bytes) : Prop := is_u32 (zlen b).

Lemma rt_Write_Read bs : rt s (Write bs) (Read (zlen bs)) bs.
Proof. exists bs. split; [done|by apply reads_Read]. Qed.

Lemma rt1_Buffer b : buf_ok b → rt1 s (wBuffer b) rBuffer b.
Proof.
  intros Hb. unfold wBuffer, rBuffer. rewrite wrap_small by done.
  eapply rt1_bind; [by apply rt1_U32|]. apply rt_Write_Read.
Qed.

Lemma rt1_QBuffer b : is_u16 (zlen b) → rt1 s (wQBuffer b) rQBuffer b.
Proof.
  intros Hb. unfold wQBuffer, rQBuffer. rewrite wrap_small by done.
  eapply rt1_bind; [by apply rt1_U16|]. apply rt_Write_Read.
Qed.

Lemma rt1_StationURL u :
  wf u → printable u → str_ok (String_ u) → rt1 s (wStationURL u) rStationURL u.
Proof.
  intros Hw Hp Hs. eapply rt1_map; [by apply rt1_String|]. by rewrite Parse_String.
Qed.

Lemma rU32_range i : is_u32 (rU32 i).1.
Proof.
  unfold rU32, rUint, rbind, Read. destruct (_ || _); [done|]. cbn [rret fst].
  set (b := take _ _). destruct (Nat.ltb_spec (length b) 4); [done|].
  pose proof (le_val_bound b) as Hb. replace (length b) with 4%nat in Hb; [done|].
  subst b. rewrite length_take in *. lia.
Qed.
End primitives.

(** *** Lists and maps *)
Lemma wforeach_cons {A} (f : A → Writer) x l : wforeach f (x :: l) = (f x ;;; wforeach f l).
Proof. done. Qed.

Section collections.
Context {A : Type} (s : Settings).

Lemma rt_foreach (f : A → Writer) (r : Reader A) l :
  Forall (λ x, rt s (f x) r x) l → rt s (wforeach f l) (rrepeat (length l) r) l.
Proof.
  induction 1 as [|x l Hx _ IH]; [apply rt_done|].
  rewrite wforeach_cons. cbn [rrepeat length].
  eapply rt_bind; [done|]. by eapply rt_map.
Qed.

(** Each element takes a byte, so the count passes the guard of [ReadList]. *)
Lemma foreach_length (f : A → Writer) (r : Reader A) l :
  Forall (λ x, rt1 s (f x) r x) l →
  ∃ bs, writes s (wforeach f l) bs ∧ reads s (rrepeat (length l) r) bs l ∧
        (length l ≤ length bs)%nat.
Proof.
  induction 1 as [|x l Hx _ IH].
  { destruct (rt_done s (@nil A)) as (bs & W & R). exists bs. split_and!; [done..|simpl; lia]. }
  destruct Hx as (b1 & N & W1 & R1). destruct IH as (b2 & W2 & R2 & L).
  exists (b1 ++ b2). rewrite wforeach_cons. cbn [rrepeat length].
  split_and!; [by apply writes_seq| |].
  - eapply reads_bind; [done|]. by eapply reads_map.
  - rewrite length_app. destruct b1; [done|]. simpl. lia.
Qed.

Lemma guarded_reads {B} (r : Reader B) (d : B) bs n a :
  n ≤ zlen bs → reads s r bs a →
  reads s (λ i, if Remaining i <? n then rError d i else r i) bs a.
Proof.
  intros Hn R pre rest. unfold Remaining, at_. simpl.
  rewrite !zlen_app. unfold zlen in *.
  destruct (Z.ltb_spec (Z.of_nat (length pre) + (Z.of_nat (length bs) + Z.of_nat (length rest))
    - Z.of_nat (length pre)) n); [lia|]. apply R.
Qed.

Lemma rt1_List (f : A → Writer) (r : Reader A) l :
  is_u32 (zlen l) → Forall (λ x, rt1 s (f x) r x) l → rt1 s (WriteList l f) (ReadList r) l.
Proof.
  intros Hl Hall. unfold WriteList, ReadList. rewrite wrap_small by done.
  eapply rt1_bind; [by apply rt1_U32|].
  destruct (foreach_length f r l Hall) as (bs & W & R & L). exists bs. split; [done|].
  apply guarded_reads; [unfold zlen; lia|]. unfold zlen. by rewrite Nat2Z.id.
Qed.

Context `{Countable K}.

Lemma rrepeat_map_reads (kf : K → Writer) (vf : A → Writer) rk rv (l : list (K * A)) m :
  Forall (λ kv, rt1 s (kf kv.1) rk kv.1 ∧ rt1 s (vf kv.2) rv kv.2) l →
  ∃ bs, writes s (wforeach (λ kv, kf kv.1 ;;; vf kv.2) l) bs ∧
        reads s (rrepeat_map (length l) rk rv m) bs (foldl (λ m kv, <[kv.1 := kv.2]> m) m l) ∧
        (length l ≤ length bs)%nat.
Proof.
  intros Hall. revert m. induction Hall as [|[k v] l [Hk Hv] _ IH]; intros m.
  { destruct (rt_done s m) as (bs & W & R). exists bs. split_and!; [done..|simpl; lia]. }
  destruct (IH (<[k := v]> m)) as (b2 & W2 & R2 & L). clear IH.
  destruct Hk as (bk & Nk & Wk & Rk), Hv as (bv & Nv & Wv & Rv). simpl in *.
  exists ((bk ++ bv) ++ b2). split_and!.
  - rewrite wforeach_cons. by repeat apply writes_seq.
  - rewrite <- app_assoc. eapply reads_bind; [done|]. eapply reads_bind; done.
  - rewrite !length_app. destruct bk; [done|]. simpl. lia.
Qed.
End collections.

Lemma foldl_insert_nodup {K A} `{Countable K} (l : list (K * A)) (m : gmap K A) :
  NoDup l.*1 → foldl (λ m kv, <[kv.1 := kv.2]> m) m l = list_to_map l ∪ m.
Proof.
  revert m. induction l as [|[k v] l IH]; intros m Hnd; simpl.
  { by rewrite (left_id_L ∅ (∪)). }
  apply NoDup_cons in Hnd as [Hk Hnd]. rewrite IH by done.
  rewrite <- insert_union_l, <- insert_union_r; [done|].
  by apply not_elem_of_list_to_map_1.
Qed.

(** A map comes back whatever the order it was visited in. *)
Lemma rt1_Map `{MO : MapOrder} {K A} `{Countable K} s (m : gmap K A)
    (kf : K → Writer) (vf : A → Writer) rk rv :
  is_u32 (Z.of_nat (size m)) →
  map_Forall (λ k v, rt1 s (kf k) rk k ∧ rt1 s (vf v) rv v) m →
  rt1 s (WriteMap m kf vf) (ReadMap rk rv) m.
Proof.
  intros Hs Hall. unfold WriteMap, ReadMap. rewrite wrap_small by done.
  eapply rt1_bind; [by apply rt1_U32|].
  destruct (rrepeat_map_reads s kf vf rk rv (range m) ∅) as (bs & W & R & L).
  { apply Forall_forall. intros [k v] Hkv. apply elem_of_range in Hkv. by apply Hall. }
  exists bs. split; [done|]. apply guarded_reads.
  - unfold zlen. autorewrite with nex_rw in L. lia.
  - autorewrite with nex_rw in R. rewrite Nat2Z.id.
    rewrite foldl_insert_nodup, list_to_map_range, (right_id_L ∅ (∪)) in R; [done|].
    apply NoDup_fst_range.
Qed.

#[export] Hint Resolve rt1_U8 rt1_U16 rt1_U32 rt1_U64 rt1_S32 rt1_S64 rt1_Bool rt1_Double
  rt1_Float rt1_DateTime rt1_Result rt1_PID rt1_String rt1_StringVideZero rt1_Buffer rt1_QBuffer rt1_StationURL
  rt1_List rt_done : wire.
#[export] Hint Resolve rt1_rt | 2 : wire.

(** One field of a structure after the other: a message of reads and writes in the same
    order is a [bind] per field, the last one building the value. *)
Ltac rt_fields :=
  repeat (first
    [ eapply rt1_bind; [solve [eauto with wire]|]
    | eapply rt_bind; [solve [eauto with wire]|]
    | eapply rt1_map; [solve [eauto with wire]|reflexivity]
    | eapply rt_map; [solve [eauto with wire]|reflexivity] ]; cbv beta).

(** ** Errors are sticky

    A reader is [sticky] when, started with the error set, it keeps the error, consumes
    nothing, and so can only answer a value computed from zeroes. *)
Definition sticky {A} (r : Reader A) : Prop :=
  ∀ i e, si_err i = Some e → (r i).2 = i.

Section stickiness.
Lemma sticky_ret {A} (a : A) : sticky (rret a).
Proof. done. Qed.
Lemma sticky_bind {A B} (r : Reader A) (k : A → Reader B) :
  sticky r → (∀ a, sticky (k a)) → sticky (rbind r k).
Proof.
  intros Hr Hk i e He. unfold rbind. specialize (Hr i e He).
  destruct (r i) as [a i']. simpl in Hr. subst i'. by eapply Hk.
Qed.
Lemma sticky_Read n : sticky (Read n).
Proof.
  intros [st d p e'] e. simpl. intros ->. unfold Read. simpl.
  done.
Qed.
Lemma sticky_ask : sticky rask.
Proof. done. Qed.
Lemma sticky_if {A} (b : bool) (r1 r2 : Reader A) :
  sticky r1 → sticky r2 → sticky (if b then r1 else r2).
Proof. by destruct b. Qed.
Lemma sticky_rError {A} (d : A) : sticky (rError d).
Proof. intros [st dt p e'] e. simpl. by intros ->. Qed.
Lemma sticky_guard {A} (c : StreamIn → bool) (r1 r2 : Reader A) :
  sticky r1 → sticky r2 → sticky (λ i, if c i then r1 i else r2 i).
Proof. intros H1 H2 i e He. destruct (c i); [by eapply H1|by eapply H2]. Qed.
Lemma sticky_repeat {A} n (r : Reader A) : sticky r → sticky (rrepeat n r).
Proof. intros Hr. induction n; simpl; repeat (apply sticky_bind; intros); auto using sticky_ret. Qed.
Lemma sticky_ReadAll : sticky ReadAll.
Proof. intros i e He. unfold ReadAll. by eapply sticky_Read. Qed.
End stickiness.
Create HintDb sticky discriminated.
#[export] Hint Resolve sticky_ret sticky_bind sticky_Read sticky_ask sticky_if sticky_rError
  sticky_guard sticky_repeat sticky_ReadAll : sticky.

Lemma sticky_rUint n : sticky (rUint n).
Proof. unfold rUint. auto with sticky. Qed.
Lemma sticky_rString : sticky rString.
Proof. unfold rString, rU16. auto using sticky_rUint with sticky. Qed.
Lemma sticky_rBuffer : sticky rBuffer.
Proof. unfold rBuffer, rU32. auto using sticky_rUint with sticky. Qed.
Lemma sticky_rPID : sticky rPID.
Proof. unfold rPID, rU64, rU32. auto 8 using sticky_rUint with sticky. Qed.
Lemma sticky_ReadList {A} (r : Reader A) : sticky r → sticky (ReadList r).
Proof. intros. unfold ReadList, rU32. auto 8 using sticky_rUint with sticky. Qed.
#[export] Hint Resolve sticky_rUint sticky_rString sticky_rBuffer sticky_rPID sticky_ReadList : sticky.

(** ** Strings too long for their length field *)

(** From 65535 bytes on, [uint16(len(data))] is not the length of what follows: a string of
    65535 bytes is written under length 0, so that the empty string is read back, without an
    error, and the reader is left in front of the 65536 bytes of the first. *)
Theorem wString_overflow s b :
  zlen b = 65535 →
  writes s (wString b) (le_bytes 2 0 ++ b ++ [x00]) ∧
  ∃ i, rString (NewStreamIn (Bytes_ (wString b (NewStreamOut s))) s) = ([], i) ∧
       Remaining i = 65536 ∧ si_err i = None.
Proof.
  intros Hb. assert (writes s (wString b) (le_bytes 2 0 ++ b ++ [x00])) as W.
  { unfold wString. rewrite zlen_app, Hb. apply writes_seq; done. }
  split; [done|]. unfold NewStreamOut. rewrite W. cbn [Bytes_ so_buf app].
  unfold rString, rU16, rUint, NewStreamIn.
  assert (reads s (read! len := rUint 2 in if len =? 0 then rret [] else
     read! b := Read len in rret (if zlen b <? len then [] else strip_zero b)) (le_bytes 2 0) []) as R.
  { unfold rUint. apply (reads_map s (rUint 2) _ _ 0); [|done].
    destruct (rt1_uint s 2 0) as (bs & _ & W' & R'); [lia|done|].
    assert (bs = le_bytes 2 0) as ->; [|done].
    specialize (W' []). unfold Write in W'. simpl in W'. by injection W'. }
  specialize (R [] (b ++ [x00])). unfold at_ in R. simpl in R.
  eexists. split; [apply R|]. split; [|done].
  unfold Remaining. cbn [si_data si_pos length].
  unfold zlen in *. simpl. rewrite length_app. simpl. lia.
Qed.

Lemma wString_overflow_witness :
  zlen (replicate (N.to_nat 65535) x61) = 65535 ∧
  ∃ i, rString (NewStreamIn (Bytes_ (wString (replicate (N.to_nat 65535) x61)
         (NewStreamOut (NewSwitchSettings [] 40302)))) (NewSwitchSettings [] 40302)) = ([], i) ∧ Remaining i = 65536.
Proof.
  assert (zlen (replicate (N.to_nat 65535) x61) = 65535) as H
    by (unfold zlen; rewrite length_replicate; lia).
  split; [exact H|].
  destruct (wString_overflow (NewSwitchSettings [] 40302) _ H) as (_ & i & Hi & Hr & _).
  exists i. split; [exact Hi|exact Hr].
Defined.
