(* ===== verification/Structures.v ===== *)
(** * Structures, Variant, ResultRange and DataHolder (src/types.go)

    A structure lists its class levels, base class first.  A level saves and loads its own
    fields; with struct headers each level travels as a version byte and a length-prefixed
    body of its own. *)

From S2P Require Export Stream.

(** [Save] and [Load] are [None] for Go's nil.  A [Load] closure assigns fields of the
    structure: it takes the current value and returns the next one. *)
Record Level (T : Type) := mkLevel {
  Version : Z;
  Save : option Writer;
  Load : option (T → Reader T)
}.
Arguments mkLevel {T}.
Arguments Version {T}.
Arguments Save {T}.
Arguments Load {T}.

(** The interface [Structure]. *)
Class Structure (T : Type) := Levels : T → list (Level T).

Definition writeLevel {T} (lvl : Level T) : Writer := λ o,
  if StructHeader (so_settings o) then
    let sub := NewStreamOut (so_settings o) in
    let sub := match Save lvl with Some f => f sub | None => sub end in
    (wU8 (Version lvl) ;;; wBuffer (Bytes_ sub)) o
  else match Save lvl with Some f => f o | None => o end.

Definition WriteStructure `{Structure T} (st : T) : Writer := wforeach writeLevel (Levels st).

(** The body of a level is read from a stream of its own, dropped afterwards. *)
Definition readLevel {T} (lvl : Level T) (st : T) : Reader T :=
  read! s := rask in
  if StructHeader s then
    skip! rU8 in
    read! sub := rSubstream in
    rret (match Load lvl with Some f => (f st sub).1 | None => st end)
  else match Load lvl with Some f => f st | None => rret st end.

Fixpoint readLevels {T} (lvls : list (Level T)) (st : T) : Reader T :=
  match lvls with
  | [] => rret st
  | lvl :: lvls => read! st := readLevel lvl st in readLevels lvls st
  end.

Definition ReadStructure `{Structure T} (st : T) : Reader T := readLevels (Levels st) st.

(** [Add] and [Extract] of stream.go. *)
Definition wAdd `{Structure T} (st : T) : Writer := WriteStructure st.
Definition rExtract `{Structure T} (st : T) : Reader T := ReadStructure st.

(** ** Round trip of a structure, level by level *)

(** What [Save] leaves in an empty buffer. *)
Definition body (s : Settings) (w : Writer) : bytes := Bytes_ (w (NewStreamOut s)).

(** The level [lw] written and the level [lr] reading it take [a] to [b]. *)
Definition level_rt {T} (s : Settings) (lw lr : Level T) (a b : T) : Prop :=
  is_u8 (Version lw) ∧
  match Save lw, Load lr with
  | Some w, Some r => rt s w (r a) b ∧ buf_ok (body s w)
  | None, None => a = b
  | _, _ => False
  end.

Fixpoint levels_rt {T} (s : Settings) (lws lrs : list (Level T)) (a b : T) : Prop :=
  match lws, lrs with
  | [], [] => a = b
  | lw :: lws, lr :: lrs => ∃ m, level_rt s lw lr a m ∧ levels_rt s lws lrs m b
  | _, _ => False
  end.

Section structures.
Context {T : Type} (s : Settings).
Implicit Types (lw lr : Level T).

Lemma body_writes w bs : writes s w bs → body s w = bs.
Proof. intros W. unfold body, NewStreamOut. by rewrite W. Qed.

Lemma rSubstream_reads w bs :
  writes s w bs → buf_ok bs →
  rt1 s (wBuffer bs) rSubstream (NewStreamIn bs s).
Proof.
  intros W Hb. unfold rSubstream. apply rt1_ask.
  eapply rt1_map; [by apply rt1_Buffer|done].
Qed.

Lemma rt1_ext {A} w w' (r : Reader A) a :
  (∀ buf, w (mkOut s buf) = w' (mkOut s buf)) → rt1 s w' r a → rt1 s w r a.
Proof. intros E (bs & N & W & R). exists bs. split; [done|]. split; [|done]. by eapply writes_ext. Qed.

Lemma rt_ext {A} w w' (r : Reader A) a :
  (∀ buf, w (mkOut s buf) = w' (mkOut s buf)) → rt s w' r a → rt s w r a.
Proof. intros E (bs & W & R). exists bs. split; [|done]. by eapply writes_ext. Qed.

(** With a header the level always takes bytes. *)
Lemma rt1_level_header lw lr a b :
  StructHeader s = true → level_rt s lw lr a b → rt1 s (writeLevel lw) (readLevel lr a) b.
Proof.
  intros Hh [Hv Hsl]. unfold readLevel. apply rt1_ask. rewrite Hh.
  eapply rt1_ext.
  { intros buf. unfold writeLevel. cbn [so_settings]. rewrite Hh. reflexivity. }
  eapply rt1_bind; [by apply rt1_U8|].
  destruct (Save lw) as [w|], (Load lr) as [r|]; try done.
  - destruct Hsl as [(bs & W & R) Hb]. rewrite (body_writes _ _ W) in Hb.
    unfold NewStreamOut. rewrite W. cbn [Bytes_ so_buf app].
    apply rt1_rt. eapply rt1_map; [by eapply rSubstream_reads|].
    specialize (R [] []). rewrite app_nil_r in R. unfold at_ in R. simpl in R.
    unfold NewStreamIn. by rewrite R.
  - subst. apply rt1_rt. eapply rt1_map; [|done].
    by apply (rSubstream_reads (λ o, o) []); [intros buf; rewrite app_nil_r|].
Qed.

Lemma rt_level lw lr a b : level_rt s lw lr a b → rt s (writeLevel lw) (readLevel lr a) b.
Proof.
  destruct (StructHeader s) eqn:Hh; [intros; apply rt1_rt; by apply rt1_level_header|].
  intros [_ Hsl]. unfold readLevel. apply rt_ask. rewrite Hh.
  destruct (Save lw) as [w|] eqn:Ew, (Load lr) as [r|]; try done.
  - eapply (rt_ext _ w); [|apply Hsl]. intros buf. unfold writeLevel. cbn. by rewrite Hh, Ew.
  - subst. eapply (rt_ext _ (λ o, o)); [|apply rt_done].
    intros buf. unfold writeLevel. cbn. by rewrite Hh, Ew.
Qed.

Lemma rt_levels (lws lrs : list (Level T)) (a b : T) :
  levels_rt s lws lrs a b → rt s (wforeach writeLevel lws) (readLevels lrs a) b.
Proof.
  revert lrs a. induction lws as [|lw lws IH]; intros [|lr lrs] a; simpl; try done.
  { intros ->. apply rt_done. }
  intros (m & Hl & Hls). rewrite wforeach_cons.
  eapply rt_bind; [by apply rt_level|]. by apply IH.
Qed.

Context `{Structure T}.

(** A structure written and extracted into a fresh value [a]. *)
Lemma rt_structure (a b : T) :
  levels_rt s (Levels b) (Levels a) a b → rt s (wAdd b) (rExtract a) b.
Proof. apply rt_levels. Qed.

(** One level whose writer takes at least a byte. *)
Lemma rt1_structure (a b : T) lw lr w r :
  Levels b = [lw] → Levels a = [lr] → is_u8 (Version lw) →
  Save lw = Some w → Load lr = Some r →
  rt1 s w (r a) b → buf_ok (body s w) →
  rt1 s (wAdd b) (rExtract a) b.
Proof.
  intros Hb Ha Hv Ew Er Hrt Hbuf.
  unfold wAdd, rExtract, WriteStructure, ReadStructure. rewrite Ha, Hb.
  cbn [readLevels]. change (wforeach writeLevel [lw]) with (writeLevel lw).
  eapply rt1_map; [|done]. destruct (StructHeader s) eqn:Hh.
  - apply rt1_level_header; [done|]. split; [done|]. rewrite Ew, Er. by split; [apply rt1_rt|].
  - unfold readLevel. apply rt1_ask. rewrite Hh, Er.
    eapply (rt1_ext _ w); [|done]. intros buf. unfold writeLevel. cbn. by rewrite Hh, Ew.
Qed.
End structures.

(** ** Errors inside a framed level do not reach the message *)

(** With struct headers a [Load] runs on a stream of its own: whatever it does with it, and
    whether or not it runs past its end, the parent stream ends up after the frame with no
    other error than those of the frame itself. *)
Theorem readLevel_parent {T} (lvl : Level T) (st : T) (i : StreamIn) :
  StructHeader (si_settings i) = true →
  (readLevel lvl st i).2 = (rSubstream (rU8 i).2).2.
Proof.
  intros Hh. unfold readLevel, rbind, rask. rewrite Hh.
  destruct (rU8 i) as [v j]. simpl. by destruct (rSubstream j).
Qed.

(** A level that wants more than its frame holds. *)
Lemma readLevel_parent_witness :
  let s := NewSwitchSettings [] 40302 in
  let i := NewStreamIn [x00; x01; x00; x00; x00; xaa] s in
  StructHeader (si_settings i) = true ∧
  si_err (readLevel (mkLevel 0 None (Some (λ _ : Z, rU64))) 0 i).2 = None.
Proof.
  cbv zeta. split; [reflexivity|].
  rewrite (readLevel_parent (mkLevel 0 None (Some (λ _ : Z, rU64))) 0
    (NewStreamIn [x00; x01; x00; x00; x00; xaa] (NewSwitchSettings [] 40302)) eq_refl).
  reflexivity.
Defined.

(** ** ResultRange *)
Record ResultRange := mkResultRange { rr_Offset : Z; rr_Size : Z }.

#[export] Instance ResultRange_Structure : Structure ResultRange := λ r,
  [ {| Version := 0;
       Save := Some (wU32 (rr_Offset r) ;;; wU32 (rr_Size r));
       Load := Some (λ _, read! o := rU32 in read! n := rU32 in rret (mkResultRange o n)) |} ].

(** ** Variant *)
Definition VariantNil : Z := 0.
Definition VariantInt64 : Z := 1.
Definition VariantDouble : Z := 2.
Definition VariantBool : Z := 3.
Definition VariantString : Z := 4.
Definition VariantDateTime : Z := 5.
Definition VariantUint64 : Z := 6.

(** [Double] is its IEEE-754 bits. *)
Record Variant := mkVariant {
  v_Type : Z;
  v_Int : Z;
  v_Double : Z;
  v_Bool : bool;
  v_String : bytes;
  v_Date : Z;
  v_Uint : Z
}.

#[export] Instance Variant_eq_dec : EqDecision Variant.
Proof. solve_decision. Defined.

Definition zero_variant (t : Z) : Variant := mkVariant t 0 0 false [] 0 0.

(** [StreamOut.Variant]. *)
Definition wVariant (v : Variant) : Writer :=
  wU8 (v_Type v) ;;;
  if v_Type v =? VariantInt64 then wS64 (v_Int v)
  else if v_Type v =? VariantDouble then wDouble (v_Double v)
  else if v_Type v =? VariantBool then wBool (v_Bool v)
  else if v_Type v =? VariantString then wString (v_String v)
  else if v_Type v =? VariantDateTime then wDateTime (v_Date v)
  else if v_Type v =? VariantUint64 then wU64 (v_Uint v)
  else λ o, o.

(** [StreamIn.Variant]: the fields of the other types stay zero. *)
Definition rVariant : Reader Variant :=
  read! t := rU8 in
  if t =? VariantInt64 then read! x := rS64 in rret (mkVariant t x 0 false [] 0 0)
  else if t =? VariantDouble then read! x := rDouble in rret (mkVariant t 0 x false [] 0 0)
  else if t =? VariantBool then read! x := rBool in rret (mkVariant t 0 0 x [] 0 0)
  else if t =? VariantString then read! x := rString in rret (mkVariant t 0 0 false x 0 0)
  else if t =? VariantDateTime then read! x := rDateTime in rret (mkVariant t 0 0 false [] x 0)
  else if t =? VariantUint64 then read! x := rU64 in rret (mkVariant t 0 0 false [] 0 x)
  else rret (zero_variant t).

(** A variant carries its tag's value, in range, and nothing else. *)
Definition variant_ok (v : Variant) : Prop :=
  is_u8 (v_Type v) ∧ is_s64 (v_Int v) ∧ is_u64 (v_Double v) ∧ str_ok (v_String v) ∧
  is_u64 (v_Date v) ∧ is_u64 (v_Uint v) ∧
  (v_Type v ≠ VariantInt64 → v_Int v = 0) ∧
  (v_Type v ≠ VariantDouble → v_Double v = 0) ∧
  (v_Type v ≠ VariantBool → v_Bool v = false) ∧
  (v_Type v ≠ VariantString → v_String v = []) ∧
  (v_Type v ≠ VariantDateTime → v_Date v = 0) ∧
  (v_Type v ≠ VariantUint64 → v_Uint v = 0).

Lemma rt1_Variant s v : variant_ok v → rt1 s (wVariant v) rVariant v.
Proof.
  destruct v as [t i d b str0 dt u]. intros (Ht & Hi & Hd & Hs & Hdt & Hu & Zi & Zd & Zb & Zs & Zt & Zu).
  unfold wVariant, rVariant. simpl in *.
  eapply rt1_bind; [by apply rt1_U8|].
  repeat (match goal with |- context [?x =? ?y] => destruct (Z.eqb_spec x y) as [->|] end;
    [ try (rewrite ?Zi, ?Zd, ?Zb, ?Zs, ?Zt, ?Zu by done);
      rt_fields | ]).
  rewrite Zi, Zd, Zb, Zs, Zt, Zu by done. apply rt_done.
Qed.
#[export] Hint Resolve rt1_Variant : wire.

(** ** DataHolder *)

(** The body of an "any data" holder: the structure's serialisation, [None] for nil. *)
Definition wAnyData (Name : bytes) (Data : option Writer) : Writer := λ o,
  let sub := NewStreamOut (so_settings o) in
  let sub := match Data with Some add => add sub | None => sub end in
  let b := Bytes_ sub in
  (wString Name ;;; wU32 (u32 (zlen b + 4)) ;;; wBuffer b) o.
