(* ===== verification/MatchTypes.v ===== *)
(** * Matchmaking structures (src/matchmaking.go, matchmaking_acnh.go, matchmaking_criteria.go,
    notification.go, and the structures of matchmaking_handlers.go)

    The wire types of matchmaking and notifications, the search criteria, and the two
    compatibility tests of the matchmaker (NAT classes, passwords). *)

From S2P Require Export Structures.

(** ** Gathering *)
Record Gathering := mkGathering {
  g_ID : Z;
  OwnerPID : Z;
  HostPID : Z;
  MinParticipants : Z;
  MaxParticipants : Z;
  ParticipationPolicy : Z;
  PolicyArgument : Z;
  g_Flags : Z;
  g_State : Z;
  Description : bytes
}.

Definition zero_Gathering : Gathering := mkGathering 0 0 0 0 0 0 0 0 0 [].

Definition save_gathering (g : Gathering) : Writer :=
  wU32 (g_ID g) ;;; wPID (OwnerPID g) ;;; wPID (HostPID g) ;;;
  wU16 (MinParticipants g) ;;; wU16 (MaxParticipants g) ;;;
  wU32 (ParticipationPolicy g) ;;; wU32 (PolicyArgument g) ;;; wU32 (g_Flags g) ;;;
  wU32 (g_State g) ;;; wString (Description g).

Definition load_gathering : Reader Gathering :=
  read! id := rU32 in read! o := rPID in read! h := rPID in
  read! mi := rU16 in read! ma := rU16 in
  read! pp := rU32 in read! pa := rU32 in read! fl := rU32 in
  read! st := rU32 in read! d := rString in
  rret (mkGathering id o h mi ma pp pa fl st d).

#[export] Instance Gathering_Structure : Structure Gathering := λ g,
  [ mkLevel 0 (Some (save_gathering g)) (Some (λ _, load_gathering)) ].

(** ** MatchmakeParam *)

(** A nil map serialises as an empty one. *)
Record MatchmakeParam := mkParam { Params : gmap bytes Variant }.

#[export] Instance MatchmakeParam_Structure `{MO : MapOrder} : Structure MatchmakeParam := λ p,
  [ mkLevel 0 (Some (WriteMap (Params p) wString wVariant))
      (Some (λ _, read! m := ReadMap rString rVariant in rret (mkParam m))) ].

Record MatchmakeBlockListParam := mkBlockList { bl_Options : Z }.

#[export] Instance MatchmakeBlockListParam_Structure : Structure MatchmakeBlockListParam := λ p,
  [ mkLevel 0 (Some (wU32 (bl_Options p)))
      (Some (λ _, read! o := rU32 in rret (mkBlockList o))) ].

(** ** MatchmakeSession *)
Record MatchmakeSession := mkSession {
  ms_Gathering : Gathering;
  GameMode : Z;
  Attribs : list Z;
  OpenParticipation : bool;
  MatchmakeSystem : Z;
  ApplicationData : bytes;
  NumParticipants : Z;
  ProgressScore : Z;
  ms_SessionKey : bytes;
  Option_ : Z;
  Param : MatchmakeParam;
  StartedTime : Z;
  UserPassword : bytes;
  ReferGID : Z;
  UserPasswordEnabled : bool;
  SystemPasswordEnabled : bool;
  Codeword : bytes
}.
Definition set_ms_Gathering (v : Gathering) (x : MatchmakeSession) : MatchmakeSession :=
  mkSession v (GameMode x) (Attribs x) (OpenParticipation x) (MatchmakeSystem x)
    (ApplicationData x) (NumParticipants x) (ProgressScore x) (ms_SessionKey x) (Option_ x)
    (Param x) (StartedTime x) (UserPassword x) (ReferGID x) (UserPasswordEnabled x)
    (SystemPasswordEnabled x) (Codeword x).
Definition set_GameMode (v : Z) (x : MatchmakeSession) : MatchmakeSession :=
  mkSession (ms_Gathering x) v (Attribs x) (OpenParticipation x) (MatchmakeSystem x)
    (ApplicationData x) (NumParticipants x) (ProgressScore x) (ms_SessionKey x) (Option_ x)
    (Param x) (StartedTime x) (UserPassword x) (ReferGID x) (UserPasswordEnabled x)
    (SystemPasswordEnabled x) (Codeword x).
Definition set_Attribs (v : list Z) (x : MatchmakeSession) : MatchmakeSession :=
  mkSession (ms_Gathering x) (GameMode x) v (OpenParticipation x) (MatchmakeSystem x)
    (ApplicationData x) (NumParticipants x) (ProgressScore x) (ms_SessionKey x) (Option_ x)
    (Param x) (StartedTime x) (UserPassword x) (ReferGID x) (UserPasswordEnabled x)
    (SystemPasswordEnabled x) (Codeword x).
Definition set_OpenParticipation (v : bool) (x : MatchmakeSession) : MatchmakeSession :=
  mkSession (ms_Gathering x) (GameMode x) (Attribs x) v (MatchmakeSystem x) (ApplicationData
    x) (NumParticipants x) (ProgressScore x) (ms_SessionKey x) (Option_ x) (Param x)
    (StartedTime x) (UserPassword x) (ReferGID x) (UserPasswordEnabled x)
    (SystemPasswordEnabled x) (Codeword x).
Definition set_ApplicationData (v : bytes) (x : MatchmakeSession) : MatchmakeSession :=
  mkSession (ms_Gathering x) (GameMode x) (Attribs x) (OpenParticipation x) (MatchmakeSystem
    x) v (NumParticipants x) (ProgressScore x) (ms_SessionKey x) (Option_ x) (Param x)
    (StartedTime x) (UserPassword x) (ReferGID x) (UserPasswordEnabled x)
    (SystemPasswordEnabled x) (Codeword x).
Definition set_NumParticipants (v : Z) (x : MatchmakeSession) : MatchmakeSession :=
  mkSession (ms_Gathering x) (GameMode x) (Attribs x) (OpenParticipation x) (MatchmakeSystem
    x) (ApplicationData x) v (ProgressScore x) (ms_SessionKey x) (Option_ x) (Param x)
    (StartedTime x) (UserPassword x) (ReferGID x) (UserPasswordEnabled x)
    (SystemPasswordEnabled x) (Codeword x).
Definition set_ms_SessionKey (v : bytes) (x : MatchmakeSession) : MatchmakeSession :=
  mkSession (ms_Gathering x) (GameMode x) (Attribs x) (OpenParticipation x) (MatchmakeSystem
    x) (ApplicationData x) (NumParticipants x) (ProgressScore x) v (Option_ x) (Param x)
    (StartedTime x) (UserPassword x) (ReferGID x) (UserPasswordEnabled x)
    (SystemPasswordEnabled x) (Codeword x).
Definition set_Param (v : MatchmakeParam) (x : MatchmakeSession) : MatchmakeSession :=
  mkSession (ms_Gathering x) (GameMode x) (Attribs x) (OpenParticipation x) (MatchmakeSystem
    x) (ApplicationData x) (NumParticipants x) (ProgressScore x) (ms_SessionKey x) (Option_
    x) v (StartedTime x) (UserPassword x) (ReferGID x) (UserPasswordEnabled x)
    (SystemPasswordEnabled x) (Codeword x).
Definition set_StartedTime (v : Z) (x : MatchmakeSession) : MatchmakeSession :=
  mkSession (ms_Gathering x) (GameMode x) (Attribs x) (OpenParticipation x) (MatchmakeSystem
    x) (ApplicationData x) (NumParticipants x) (ProgressScore x) (ms_SessionKey x) (Option_
    x) (Param x) v (UserPassword x) (ReferGID x) (UserPasswordEnabled x)
    (SystemPasswordEnabled x) (Codeword x).
Definition set_UserPassword (v : bytes) (x : MatchmakeSession) : MatchmakeSession :=
  mkSession (ms_Gathering x) (GameMode x) (Attribs x) (OpenParticipation x) (MatchmakeSystem
    x) (ApplicationData x) (NumParticipants x) (ProgressScore x) (ms_SessionKey x) (Option_
    x) (Param x) (StartedTime x) v (ReferGID x) (UserPasswordEnabled x)
    (SystemPasswordEnabled x) (Codeword x).
Definition set_UserPasswordEnabled (v : bool) (x : MatchmakeSession) : MatchmakeSession :=
  mkSession (ms_Gathering x) (GameMode x) (Attribs x) (OpenParticipation x) (MatchmakeSystem
    x) (ApplicationData x) (NumParticipants x) (ProgressScore x) (ms_SessionKey x) (Option_
    x) (Param x) (StartedTime x) (UserPassword x) (ReferGID x) v (SystemPasswordEnabled x)
    (Codeword x).
Definition set_SystemPasswordEnabled (v : bool) (x : MatchmakeSession) : MatchmakeSession :=
  mkSession (ms_Gathering x) (GameMode x) (Attribs x) (OpenParticipation x) (MatchmakeSystem
    x) (ApplicationData x) (NumParticipants x) (ProgressScore x) (ms_SessionKey x) (Option_
    x) (Param x) (StartedTime x) (UserPassword x) (ReferGID x) (UserPasswordEnabled x) v
    (Codeword x).
Definition set_Codeword (v : bytes) (x : MatchmakeSession) : MatchmakeSession :=
  mkSession (ms_Gathering x) (GameMode x) (Attribs x) (OpenParticipation x) (MatchmakeSystem
    x) (ApplicationData x) (NumParticipants x) (ProgressScore x) (ms_SessionKey x) (Option_
    x) (Param x) (StartedTime x) (UserPassword x) (ReferGID x) (UserPasswordEnabled x)
    (SystemPasswordEnabled x) v.

(** The fields of the embedded [Gathering]. *)
Definition ms_ID (x : MatchmakeSession) : Z := g_ID (ms_Gathering x).
Definition ms_OwnerPID (x : MatchmakeSession) : Z := OwnerPID (ms_Gathering x).
Definition ms_HostPID (x : MatchmakeSession) : Z := HostPID (ms_Gathering x).
Definition ms_MinParticipants (x : MatchmakeSession) : Z := MinParticipants (ms_Gathering x).
Definition ms_MaxParticipants (x : MatchmakeSession) : Z := MaxParticipants (ms_Gathering x).
Definition ms_Flags (x : MatchmakeSession) : Z := g_Flags (ms_Gathering x).

Definition set_identity (id owner host : Z) (x : MatchmakeSession) : MatchmakeSession :=
  let g := ms_Gathering x in
  set_ms_Gathering (mkGathering id owner host (MinParticipants g) (MaxParticipants g)
    (ParticipationPolicy g) (PolicyArgument g) (g_Flags g) (g_State g) (Description g)) x.
Definition set_limits (mi ma : Z) (x : MatchmakeSession) : MatchmakeSession :=
  let g := ms_Gathering x in
  set_ms_Gathering (mkGathering (g_ID g) (OwnerPID g) (HostPID g) mi ma
    (ParticipationPolicy g) (PolicyArgument g) (g_Flags g) (g_State g) (Description g)) x.
Definition set_State (st : Z) (x : MatchmakeSession) : MatchmakeSession :=
  let g := ms_Gathering x in
  set_ms_Gathering (mkGathering (g_ID g) (OwnerPID g) (HostPID g) (MinParticipants g)
    (MaxParticipants g) (ParticipationPolicy g) (PolicyArgument g) (g_Flags g) st (Description g)) x.

Definition zero_Session : MatchmakeSession :=
  mkSession zero_Gathering 0 [] false 0 [] 0 0 [] 0 (mkParam ∅) 0 [] 0 false false [].

Section session.
Context `{MO : MapOrder}.

Definition save_session (m : MatchmakeSession) : Writer :=
  wU32 (GameMode m) ;;; WriteList (Attribs m) wU32 ;;; wBool (OpenParticipation m) ;;;
  wU32 (MatchmakeSystem m) ;;; wBuffer (ApplicationData m) ;;; wU32 (NumParticipants m) ;;;
  wU8 (ProgressScore m) ;;; wBuffer (ms_SessionKey m) ;;; wU32 (Option_ m) ;;;
  wAdd (Param m) ;;; wDateTime (DateTime.Value (StartedTime m)) ;;;
  wString (UserPassword m) ;;; wU32 (ReferGID m) ;;; wBool (UserPasswordEnabled m) ;;;
  wBool (SystemPasswordEnabled m) ;;; wString (Codeword m).

Definition load_session (m : MatchmakeSession) : Reader MatchmakeSession :=
  read! gm := rU32 in read! at_ := ReadList rU32 in read! op := rBool in
  read! sy := rU32 in read! ad := rBuffer in read! np := rU32 in
  read! ps := rU8 in read! sk := rBuffer in read! opt := rU32 in
  read! pa := rExtract (Param m) in read! st := rDateTime in
  read! pw := rString in read! rg := rU32 in read! ue := rBool in
  read! se := rBool in read! cw := rString in
  rret (mkSession (ms_Gathering m) gm at_ op sy ad np ps sk opt pa st pw rg ue se cw).

#[export] Instance MatchmakeSession_Structure : Structure MatchmakeSession := λ m,
  [ mkLevel 0 (Some (save_gathering (ms_Gathering m)))
      (Some (λ m, read! g := load_gathering in rret (set_ms_Gathering g m)));
    mkLevel 0 (Some (save_session m)) (Some load_session) ].
End session.

(** ** MatchmakeSessionSearchCriteria *)
Record MatchmakeSessionSearchCriteria := mkCriteria {
  c_Attribs : list bytes;
  c_GameMode : bytes;
  c_MinParticipants : bytes;
  c_MaxParticipants : bytes;
  c_MatchmakeSystem : bytes;
  VacantOnly : bool;
  ExcludeLocked : bool;
  ExcludeNonHostPID : bool;
  SelectionMethod : Z;
  VacantParticipants : Z;
  c_Param : MatchmakeParam;
  ExcludeUserPassword : bool;
  ExcludeSysPassword : bool;
  c_ReferGID : Z;
  c_Codeword : bytes;
  c_Range : ResultRange
}.

Definition zero_Criteria : MatchmakeSessionSearchCriteria :=
  mkCriteria [] [] [] [] [] false false false 0 0 (mkParam ∅) false false 0 [] (mkResultRange 0 0).

Section criteria.
Context `{MO : MapOrder}.

(** A block of fields the settings' version decides on. *)
Definition wwhen (c : Settings → bool) (w : Writer) : Writer := λ o, if c (so_settings o) then w o else o.

Definition save_criteria (c : MatchmakeSessionSearchCriteria) : Writer :=
  WriteList (c_Attribs c) wString ;;; wString (c_GameMode c) ;;; wString (c_MinParticipants c) ;;;
  wString (c_MaxParticipants c) ;;; wString (c_MatchmakeSystem c) ;;; wBool (VacantOnly c) ;;;
  wBool (ExcludeLocked c) ;;; wBool (ExcludeNonHostPID c) ;;; wU32 (SelectionMethod c) ;;;
  wwhen (λ s, 30500 <=? NexVersion s) (wU16 (VacantParticipants c)) ;;;
  wwhen (λ s, 40000 <=? NexVersion s)
    (wAdd (c_Param c) ;;; wBool (ExcludeUserPassword c) ;;; wBool (ExcludeSysPassword c) ;;;
     wU32 (c_ReferGID c) ;;; wString (c_Codeword c) ;;; wAdd (c_Range c)).

Definition load_criteria (c : MatchmakeSessionSearchCriteria) : Reader MatchmakeSessionSearchCriteria :=
  read! s := rask in
  read! at_ := ReadList rString in read! gm := rString in read! mi := rString in
  read! ma := rString in read! sy := rString in read! vo := rBool in
  read! el := rBool in read! en := rBool in read! sm := rU32 in
  read! vp := (if 30500 <=? NexVersion s then rU16 else rret (VacantParticipants c)) in
  if 40000 <=? NexVersion s then
    read! pa := rExtract (c_Param c) in read! eu := rBool in read! es := rBool in
    read! rg := rU32 in read! cw := rString in read! ra := rExtract (c_Range c) in
    rret (mkCriteria at_ gm mi ma sy vo el en sm vp pa eu es rg cw ra)
  else
    rret (mkCriteria at_ gm mi ma sy vo el en sm vp (c_Param c) (ExcludeUserPassword c)
            (ExcludeSysPassword c) (c_ReferGID c) (c_Codeword c) (c_Range c)).

#[export] Instance Criteria_Structure : Structure MatchmakeSessionSearchCriteria := λ c,
  [ mkLevel 0 (Some (save_criteria c)) (Some load_criteria) ].
End criteria.

(** ** AutoMatchmakeParam *)
Record AutoMatchmakeParam := mkAuto {
  Session : MatchmakeSession;
  Criteria : list MatchmakeSessionSearchCriteria
}.

Definition zero_Auto : AutoMatchmakeParam := mkAuto zero_Session [].

Section auto.
Context `{MO : MapOrder}.

(** The fields after the session are only kept when they read without an error. *)
Definition load_auto (a : AutoMatchmakeParam) : Reader AutoMatchmakeParam :=
  read! ses := rExtract (Session a) in
  λ i,
    if negb (StructHeader (si_settings i)) || EOF i then (mkAuto ses (Criteria a), i)
    else
      let '(criteria, i) :=
        (skip! ReadList rPID in skip! rU32 in skip! rU32 in skip! rString in skip! rU16 in
         ReadList (rExtract zero_Criteria)) i in
      (mkAuto ses (match si_err i with None => criteria | Some _ => Criteria a end), i).

#[export] Instance AutoMatchmakeParam_Structure : Structure AutoMatchmakeParam := λ a,
  [ mkLevel 0 (Some (wAdd (Session a))) (Some load_auto) ].
End auto.

(** ** The other parameters *)
Record FindMatchmakeSessionByParticipantParam := mkFindParam {
  PrincipalIDs : list Z;
  Options : Z;
  BlockList : MatchmakeBlockListParam
}.

#[export] Instance FindParam_Structure : Structure FindMatchmakeSessionByParticipantParam := λ p,
  [ mkLevel 0
      (Some (WriteList (PrincipalIDs p) wPID ;;; wU32 (Options p) ;;; wAdd (BlockList p)))
      (Some (λ p, read! l := ReadList rPID in read! o := rU32 in read! b := rExtract (BlockList p) in
                  rret (mkFindParam l o b))) ].

Record FindMatchmakeSessionByParticipantResult := mkFindResult {
  fr_PrincipalID : Z;
  fr_Session : MatchmakeSession
}.

#[export] Instance FindResult_Structure `{MO : MapOrder} :
    Structure FindMatchmakeSessionByParticipantResult := λ r,
  [ mkLevel 0 (Some (wPID (fr_PrincipalID r) ;;; wAdd (fr_Session r)))
      (Some (λ r, read! p := rPID in read! m := rExtract (fr_Session r) in rret (mkFindResult p m))) ].

Record UpdateMatchmakeSessionParam := mkUpdate {
  u_GID : Z;
  ModificationFlags : Z;
  Attributes : list Z;
  u_OpenParticipation : bool;
  ApplicationBuffer : bytes;
  u_ProgressScore : Z;
  u_Param : MatchmakeParam;
  u_StartedTime : Z;
  u_UserPassword : bytes;
  u_GameMode : Z;
  u_Description : bytes;
  u_MinParticipants : Z;
  u_MaxParticipants : Z;
  u_MatchmakeSystem : Z;
  u_ParticipationPolicy : Z;
  u_PolicyArgument : Z;
  u_Codeword : bytes
}.

Definition zero_Update : UpdateMatchmakeSessionParam :=
  mkUpdate 0 0 [] false [] 0 (mkParam ∅) 0 [] 0 [] 0 0 0 0 0 [].

Section update.
Context `{MO : MapOrder}.

Definition save_update (p : UpdateMatchmakeSessionParam) : Writer :=
  wU32 (u_GID p) ;;; wU32 (ModificationFlags p) ;;; WriteList (Attributes p) wU32 ;;;
  wBool (u_OpenParticipation p) ;;; wBuffer (ApplicationBuffer p) ;;; wU8 (u_ProgressScore p) ;;;
  wAdd (u_Param p) ;;; wDateTime (DateTime.Value (u_StartedTime p)) ;;; wString (u_UserPassword p) ;;;
  wU32 (u_GameMode p) ;;; wString (u_Description p) ;;; wU16 (u_MinParticipants p) ;;;
  wU16 (u_MaxParticipants p) ;;; wU32 (u_MatchmakeSystem p) ;;; wU32 (u_ParticipationPolicy p) ;;;
  wU32 (u_PolicyArgument p) ;;; wString (u_Codeword p).

Definition load_update (p : UpdateMatchmakeSessionParam) : Reader UpdateMatchmakeSessionParam :=
  read! g := rU32 in read! f := rU32 in read! at_ := ReadList rU32 in
  read! op := rBool in read! ab := rBuffer in read! ps := rU8 in
  read! pa := rExtract (u_Param p) in read! st := rDateTime in read! pw := rString in
  read! gm := rU32 in read! d := rString in read! mi := rU16 in
  read! ma := rU16 in read! sy := rU32 in read! pp := rU32 in
  read! pg := rU32 in read! cw := rString in
  rret (mkUpdate g f at_ op ab ps pa st pw gm d mi ma sy pp pg cw).

#[export] Instance Update_Structure : Structure UpdateMatchmakeSessionParam := λ p,
  [ mkLevel 0 (Some (save_update p)) (Some load_update) ].
End update.

Record SimplePlayingSession := mkPlaying {
  sp_PrincipalID : Z;
  sp_GatheringID : Z;
  sp_GameMode : Z;
  sp_Attribute0 : Z
}.

#[export] Instance SimplePlayingSession_Structure : Structure SimplePlayingSession := λ s,
  [ mkLevel 0
      (Some (wPID (sp_PrincipalID s) ;;; wU32 (sp_GatheringID s) ;;; wU32 (sp_GameMode s) ;;;
             wU32 (sp_Attribute0 s)))
      (Some (λ _, read! p := rPID in read! g := rU32 in read! m := rU32 in read! a := rU32 in
                  rret (mkPlaying p g m a))) ].

Record ParticipantDetails := mkDetails {
  IDParticipant : Z;
  pd_Name : bytes;
  pd_Message : bytes;
  pd_Participants : Z
}.

#[export] Instance ParticipantDetails_Structure : Structure ParticipantDetails := λ p,
  [ mkLevel 0
      (Some (wPID (IDParticipant p) ;;; wString (pd_Name p) ;;; wString (pd_Message p) ;;;
             wU16 (pd_Participants p)))
      (Some (λ _, read! i := rPID in read! n := rString in read! m := rString in read! k := rU16 in
                  rret (mkDetails i n m k))) ].

(** ** NotificationEvent *)
Definition ProtocolNotifications : Z := 0x0E.
Definition MethodProcessNotificationEvent : Z := 0x1.
Definition NotificationParticipate : Z := 3001.
Definition NotificationParticipantDisconnected : Z := 3007.
Definition NotificationEndParticipation : Z := 3008.
Definition NotificationOwnershipChanged : Z := 4000.
Definition NotificationRefereeRoundStarted : Z := 116000.
Definition NotificationAddedToGathering : Z := 122000.
Definition NotificationGatheringUnregistered : Z := 109000.
Definition NotificationHostChanged : Z := 110000.

Record NotificationEvent := mkEvent {
  PIDSource : Z;
  n_Type : Z;
  Param1 : Z;
  Param2 : Z;
  StrParam : bytes;
  Param3 : Z
}.

#[export] Instance NotificationEvent_eq_dec : EqDecision NotificationEvent.
Proof. solve_decision. Defined.

Definition type_names_pid (ty : Z) : bool :=
  (ty =? NotificationParticipate) || (ty =? NotificationParticipantDisconnected) ||
  (ty =? NotificationEndParticipation) || (ty =? NotificationOwnershipChanged) ||
  (ty =? NotificationHostChanged).
Definition param2EstUnPID (n : NotificationEvent) : bool := type_names_pid (n_Type n).

(** [strVide0] is the environment switch NEX_NOTIF_STRVIDE0. *)
Definition save_event (strVide0 : bool) (n : NotificationEvent) : Writer := λ o,
  (wPID (PIDSource n) ;;; wU32 (n_Type n) ;;; wU64 (Param1 n) ;;;
   wU64 (if param2EstUnPID n then Publique (so_settings o) (Param2 n) else Param2 n) ;;;
   (if strVide0 then wStringVideZero (StrParam n) else wString (StrParam n)) ;;;
   wU64 (Param3 n)) o.

Definition load_event : Reader NotificationEvent :=
  read! s := rask in
  read! p := rPID in read! t := rU32 in read! p1 := rU64 in read! p2 := rU64 in
  let p2 := if type_names_pid t then Interne s p2 else p2 in
  read! str := rString in read! p3 := rU64 in
  rret (mkEvent p t p1 p2 str p3).

Definition NotificationEvent_Levels (strVide0 : bool) : Structure NotificationEvent := λ n,
  [ mkLevel 0 (Some (save_event strVide0 n)) (Some (λ _, load_event)) ].

(** ** Search criteria (matchmaking_criteria.go) *)

(** [filterAccepts]: "" any value, "N" that value, "min,max" a range; what does not parse
    accepts. *)
Definition filterAccepts (filter : bytes) (v : Z) : bool :=
  let filter := TrimSpace filter in
  if bool_decide (filter = []) then true
  else
    let '(lo, hi, isRange) :=
      match cut_on ","%byte filter with Some (a, b) => (a, b, true) | None => (filter, [], false) end in
    match ParseUint (TrimSpace lo) with
    | (_, Some _) => true
    | (mi, None) =>
        if negb isRange then v =? mi
        else match ParseUint (TrimSpace hi) with
             | (_, Some _) => mi <=? v
             | (ma, None) => (mi <=? v) && (v <=? ma)
             end
    end.

(** The loop over [c.Attribs], from index [i] of the session's attributes. *)
Fixpoint attribs_accept (fs : list bytes) (vs : list Z) : bool :=
  match fs with
  | [] => true
  | f :: fs =>
      if bool_decide (TrimSpace f = []) then attribs_accept fs (drop 1 vs)
      else match vs with
           | [] => false
           | v :: vs => filterAccepts f v && attribs_accept fs vs
           end
  end.

Definition criterionAccepts (c : MatchmakeSessionSearchCriteria) (s : MatchmakeSession) (members : Z)
    : bool :=
  filterAccepts (c_GameMode c) (GameMode s) &&
  filterAccepts (c_MinParticipants c) (ms_MinParticipants s) &&
  filterAccepts (c_MaxParticipants c) (ms_MaxParticipants s) &&
  filterAccepts (c_MatchmakeSystem c) (MatchmakeSystem s) &&
  attribs_accept (c_Attribs c) (Attribs s) &&
  negb (VacantOnly c &&
        (ms_MaxParticipants s - members <? (if VacantParticipants c <? 1 then 1 else VacantParticipants c))) &&
  negb (ExcludeLocked c && negb (OpenParticipation s)) &&
  negb (ExcludeUserPassword c && UserPasswordEnabled s) &&
  negb (ExcludeSysPassword c && SystemPasswordEnabled s) &&
  negb (negb (bool_decide (c_Codeword c = [])) && negb (bool_decide (c_Codeword c = Codeword s))).

Definition criteriaAccept (criteria : list MatchmakeSessionSearchCriteria) (s : MatchmakeSession)
    (members : Z) : bool :=
  if bool_decide (criteria = []) then true
  else existsb (λ c, criterionAccepts c s members) criteria.

(** ** NAT classes (matchmaking_handlers.go) *)
Inductive natClass := natUnknown | natOpen | natModerate | natStrict.

#[export] Instance natClass_eq_dec : EqDecision natClass.
Proof. solve_decision. Defined.

Definition classifyNAT (natMap natFilter : Z) : natClass :=
  if (natMap =? 0) && (natFilter =? 0) then natUnknown
  else if (natMap <=? 1) && (natFilter <=? 1) then natOpen
  else if natMap <=? 1 then natModerate
  else natStrict.

Definition natCompatible (a b : natClass) : bool :=
  if bool_decide (a = natUnknown) || bool_decide (b = natUnknown) then true
  else if bool_decide (a = natStrict) && (bool_decide (b = natStrict) || bool_decide (b = natModerate)) then false
  else if bool_decide (b = natStrict) && (bool_decide (a = natStrict) || bool_decide (a = natModerate)) then false
  else true.

(** ** Passwords *)
Definition motDePasseCompatible (cand src : MatchmakeSession) : bool :=
  if negb (UserPasswordEnabled cand) then true
  else if negb (UserPasswordEnabled src) || bool_decide (UserPassword src = []) ||
          bool_decide (UserPassword cand = []) then false
  else bytes_eqb (UserPassword cand) (UserPassword src).

(** ** Round trips *)
Definition gathering_ok (s : Settings) (g : Gathering) : Prop :=
  is_u32 (g_ID g) ∧ pid_ok s (OwnerPID g) ∧ pid_ok s (HostPID g) ∧
  is_u16 (MinParticipants g) ∧ is_u16 (MaxParticipants g) ∧
  is_u32 (ParticipationPolicy g) ∧ is_u32 (PolicyArgument g) ∧ is_u32 (g_Flags g) ∧
  is_u32 (g_State g) ∧ str_ok (Description g).

Lemma rt1_gathering s g : gathering_ok s g → rt1 s (save_gathering g) load_gathering g.
Proof. destruct g. intros (? & ? & ? & ? & ? & ? & ? & ? & ? & ?). simpl in *. rt_fields. Qed.
#[export] Hint Resolve rt1_gathering : wire.

Section round_trips.
Context `{MO : MapOrder}.

Definition params_ok (s : Settings) (p : MatchmakeParam) : Prop :=
  is_u32 (Z.of_nat (size (Params p))) ∧
  map_Forall (λ k v, str_ok k ∧ variant_ok v) (Params p) ∧
  buf_ok (body s (WriteMap (Params p) wString wVariant)).

Lemma rt1_params s p0 p : params_ok s p → rt1 s (wAdd p) (rExtract p0) p.
Proof.
  intros (Hs & Hall & Hb). eapply rt1_structure; [done..| |done].
  destruct p as [m]. eapply rt1_map; [|done]. apply rt1_Map; [done|].
  intros k v Hkv. destruct (Hall k v Hkv). auto with wire.
Qed.

Definition session_ok (s : Settings) (m : MatchmakeSession) : Prop :=
  gathering_ok s (ms_Gathering m) ∧ is_u32 (GameMode m) ∧
  is_u32 (zlen (Attribs m)) ∧ Forall (is_u 32) (Attribs m) ∧ is_u32 (MatchmakeSystem m) ∧
  buf_ok (ApplicationData m) ∧ is_u32 (NumParticipants m) ∧ is_u8 (ProgressScore m) ∧
  buf_ok (ms_SessionKey m) ∧ is_u32 (Option_ m) ∧ params_ok s (Param m) ∧
  is_u64 (StartedTime m) ∧ str_ok (UserPassword m) ∧ is_u32 (ReferGID m) ∧ str_ok (Codeword m) ∧
  buf_ok (body s (save_gathering (ms_Gathering m))) ∧ buf_ok (body s (save_session m)).

Lemma rt1_list_u32 s l : is_u32 (zlen l) → Forall (is_u 32) l → rt1 s (WriteList l wU32) (ReadList rU32) l.
Proof. intros. apply rt1_List; [done|]. eapply Forall_impl; [done|]. intros. by apply rt1_U32. Qed.

Lemma rt1_save_session s m m0 :
  session_ok s m → ms_Gathering m0 = ms_Gathering m → rt1 s (save_session m) (load_session m0) m.
Proof.
  destruct m. intros (? & ? & ? & ? & ? & ? & ? & ? & ? & ? & Hp & ? & ? & ? & ? & _) E.
  unfold save_session, load_session, DateTime.Value. simpl in *. rewrite E, wrap_small by done.
  pose proof (rt1_list_u32 s Attribs0). pose proof (rt1_params s (Param m0) _ Hp). rt_fields.
Qed.

(** A session of two class levels, framed or not. *)
Lemma rt_session s m m0 : session_ok s m → rt s (wAdd m) (rExtract m0) m.
Proof.
  intros Hm. pose proof Hm as (Hg & _ & _ & _ & _ & _ & _ & _ & _ & _ & _ & _ & _ & _ & _ & B1 & B2).
  apply rt_structure. eexists. split; [split; [done|]|].
  - cbn [Save Load]. split; [|done]. eapply rt_map; [by apply rt1_rt, rt1_gathering|reflexivity].
  - eexists. split; [split; [done|]|reflexivity].
    cbn [Save Load]. split; [|done]. apply rt1_rt. by apply rt1_save_session.
Qed.
End round_trips.

(** The event of the notifications, under the form the consoles accept. *)
Definition event_ok (s : Settings) (n : NotificationEvent) : Prop :=
  pid_ok s (PIDSource n) ∧ is_u32 (n_Type n) ∧ is_u64 (Param1 n) ∧
  (if param2EstUnPID n then is_u64 (Publique s (Param2 n)) ∧ Interne s (Publique s (Param2 n)) = Param2 n
   else is_u64 (Param2 n)) ∧
  str_ok (StrParam n) ∧ is_u64 (Param3 n).

Lemma rt_event s strVide0 n :
  event_ok s n → buf_ok (body s (save_event strVide0 n)) →
  rt s (WriteStructure (H := NotificationEvent_Levels strVide0) n)
       (ReadStructure (H := NotificationEvent_Levels strVide0) (mkEvent 0 0 0 0 [] 0)) n.
Proof.
  intros (Hp & Ht & H1 & H2 & Hstr & H3) Hb. apply (rt_levels s).
  exists n. split; [|done]. split; [done|]. cbn [Save Load]. split; [|done].
  unfold load_event. apply rt_ask.
  assert (is_u64 (if param2EstUnPID n then Publique s (Param2 n) else Param2 n)) as Hw.
  { by destruct (param2EstUnPID n); [destruct H2|]. }
  assert (rt1 s (if strVide0 then wStringVideZero (StrParam n) else wString (StrParam n)) rString (StrParam n)) as Hs.
  { destruct strVide0; [by apply rt1_StringVideZero|by apply rt1_String]. }
  apply rt1_rt. eapply rt1_ext.
  { intros buf. unfold save_event. cbn [so_settings]. reflexivity. }
  destruct n as [src ty p1 p2 str p3]. unfold param2EstUnPID in *. cbn [PIDSource n_Type Param1 Param2 StrParam Param3] in *.
  do 4 (eapply rt1_bind; [solve [eauto with wire]|]; cbv beta; apply rt1_rt). cbv zeta.
  eapply rt1_bind; [exact Hs|]. cbv beta. apply rt1_rt.
  eapply rt1_map; [by apply rt1_U64|]. unfold rret.
  by destruct (type_names_pid ty); [destruct H2 as [_ ->]|].
Qed.

(** ** What the filters mean *)

(** Printed bounds filter as the numbers they print. *)
Lemma digits_no_comma n : ","%byte ∉ FormatUint n.
Proof.
  intros Hin. pose proof (FormatUint_digits n) as Hd. rewrite Forall_forall in Hd.
  destruct (Hd _ Hin). done.
Qed.

Lemma TrimSpace_FormatUint n : TrimSpace (FormatUint n) = FormatUint n.
Proof. apply TrimSpace_digits, FormatUint_digits. Qed.

Lemma cut_on_None sep s : sep ∉ s → cut_on sep s = None.
Proof.
  induction s as [|c s IH]; intros H; [done|]. apply not_elem_of_cons in H as [Hc Hs].
  cbn [cut_on]. rewrite bool_decide_false by congruence. by rewrite IH.
Qed.

Lemma filterAccepts_exact n v : is_u64 n → filterAccepts (FormatUint n) v = (v =? n).
Proof.
  intros Hn. unfold filterAccepts. rewrite TrimSpace_FormatUint.
  rewrite bool_decide_false by apply FormatUint_nonempty.
  rewrite cut_on_None by apply digits_no_comma. rewrite TrimSpace_FormatUint.
  by rewrite ParseUint_FormatUint.
Qed.

(** The comma is no space, and the ends of the filter are digits. *)
Lemma TrimSpace_range a b :
  TrimSpace (FormatUint a ++ ","%byte :: FormatUint b) = FormatUint a ++ ","%byte :: FormatUint b.
Proof.
  assert (∀ x t sps, (sps = spaces ∨ sps = reverse <$> spaces) →
    Forall (λ sp, has_prefix sp (x :: t) = false) sps ∨ digit_val x = None) as H.
  { intros x t sps Hs. destruct (digit_val x) as [d|] eqn:E; [left|by right].
    destruct Hs as [-> | ->]; repeat constructor; destruct x; vm_compute in E; try done. }
  assert (∀ n t sps fuel, (sps = spaces ∨ sps = reverse <$> spaces) →
    trim_front fuel sps (FormatUint n ++ t) = FormatUint n ++ t ∧
    trim_front fuel sps (reverse (FormatUint n) ++ t) = reverse (FormatUint n) ++ t) as Htr.
  { intros n t sps fuel Hs. pose proof (FormatUint_digits n) as Hd.
    pose proof (FormatUint_nonempty n) as Hne.
    split; apply trim_front_id.
    - destruct (FormatUint n) as [|x r]; [done|]. apply Forall_cons in Hd as [[d Hd] _].
      cbn [app]. destruct (H x (r ++ t) sps Hs) as [|]; [done|congruence].
    - assert (Forall (λ c, is_Some (digit_val c)) (reverse (FormatUint n))) as Hr by by apply Forall_reverse.
      destruct (reverse (FormatUint n)) as [|x r] eqn:E.
      + apply (f_equal reverse) in E. rewrite reverse_involutive in E. done.
      + apply Forall_cons in Hr as [[d Hr] _]. cbn [app].
        destruct (H x (r ++ t) sps Hs) as [|]; [done|congruence]. }
  unfold TrimSpace. rewrite (proj1 (Htr a _ _ _ (or_introl eq_refl))).
  rewrite reverse_app, reverse_cons, <- app_assoc.
  rewrite (proj2 (Htr b _ _ _ (or_intror eq_refl))).
  rewrite !reverse_app, !reverse_involutive. cbn. by rewrite <- app_assoc.
Qed.

Lemma filterAccepts_range a b v :
  is_u64 a → is_u64 b →
  filterAccepts (FormatUint a ++ ","%byte :: FormatUint b) v = (a <=? v) && (v <=? b).
Proof.
  intros Ha Hb. unfold filterAccepts. rewrite TrimSpace_range.
  rewrite bool_decide_false by (by destruct (FormatUint a)).
  rewrite cut_on_app by apply digits_no_comma. rewrite !TrimSpace_FormatUint.
  by rewrite !ParseUint_FormatUint.
Qed.

(** ** What the compatibility tests mean *)

(** Hole-punching is symmetric, and only fails between two known classes one of which is
    strict and neither open. *)
Lemma natCompatible_spec a b :
  natCompatible a b = natCompatible b a ∧
  (natCompatible a b = false ↔
     a ≠ natUnknown ∧ b ≠ natUnknown ∧ a ≠ natOpen ∧ b ≠ natOpen ∧ (a = natStrict ∨ b = natStrict)).
Proof. by destruct a, b; split; try done; naive_solver. Qed.

(** A protected lobby takes only who presents its own, non-empty, password. *)
Lemma motDePasseCompatible_spec cand src :
  motDePasseCompatible cand src = true ↔
  UserPasswordEnabled cand = false ∨
  (UserPasswordEnabled cand = true ∧ UserPasswordEnabled src = true ∧
   UserPassword cand ≠ [] ∧ UserPassword src = UserPassword cand).
Proof.
  unfold motDePasseCompatible, bytes_eqb.
  destruct (UserPasswordEnabled cand); cbn [negb]; [|naive_solver].
  destruct (UserPasswordEnabled src); cbn [negb orb]; [|naive_solver].
  repeat case_bool_decide; cbn [orb]; naive_solver congruence.
Qed.
