(* ===== verification/Rmc.v ===== *)
(** * RMC messages (src/rmc.go)

    The request and response envelope of every remote call: its constructors, its encoder
    and its parser, and the round trip between the two. *)

From S2P Require Export Structures.

Definition RMCRequest : Z := 0.
Definition RMCResponse : Z := 1.

Record RMCMessage := mkRMC {
  m_Settings : Settings;
  Mode : Z;
  Protocol : Z;
  Method : Z;
  CallID : Z;
  m_Result : Z;
  Body : bytes;
  m_IsError : bool
}.

Definition NewRMCRequest (s : Settings) (protocol method callID : Z) (body : bytes) : RMCMessage :=
  mkRMC s RMCRequest protocol method callID 0 body false.
Definition NewRMCSuccess (s : Settings) (protocol method callID : Z) (body : bytes) : RMCMessage :=
  mkRMC s RMCResponse protocol method callID 0 body false.
Definition NewRMCError (s : Settings) (protocol callID errorCode : Z) : RMCMessage :=
  mkRMC s RMCResponse protocol 0 callID (Z.lor errorCode Result.ResultErrorMask) [] true.

(** The protocol byte, with its escape for the identifiers that do not fit seven bits. *)
Definition wProtocol (m : RMCMessage) : Writer :=
  let flag := if Mode m =? RMCRequest then 0x80 else 0 in
  if Protocol m <? 0x80 then wU8 (Z.lor (u8 (Protocol m)) flag)
  else wU8 (Z.lor 0x7F flag) ;;; wU16 (Protocol m).

Definition wContent (m : RMCMessage) : Writer :=
  if Mode m =? RMCRequest then
    wU32 (CallID m) ;;; wU32 (Method m) ;;; Write (Body m)
  else if m_IsError m then
    wBool false ;;; wU32 (Z.lor (m_Result m) Result.ResultErrorMask) ;;; wU32 (CallID m)
  else
    wBool true ;;; wU32 (CallID m) ;;; wU32 (Z.lor (Method m) 0x8000) ;;; Write (Body m).

Definition Encode (m : RMCMessage) : bytes :=
  let payload := Bytes_ ((wProtocol m ;;; wContent m) (NewStreamOut (m_Settings m))) in
  le_bytes 4 (u32 (zlen payload)) ++ payload.

(** What follows the length and the protocol of a message. *)
Definition rContent (s : Settings) (request : bool) (protocol : Z) : Reader RMCMessage :=
  if request then
    read! c := rU32 in read! me := rU32 in read! b := ReadAll in
    rret (mkRMC s RMCRequest protocol me c 0 b false)
  else
    read! ok := rBool in
    if ok then
      read! c := rU32 in read! me := rU32 in read! b := ReadAll in
      rret (mkRMC s RMCResponse protocol (Z.ldiff me 0x8000) c 0 b false)
    else
      read! r := rU32 in read! c := rU32 in
      rret (mkRMC s RMCResponse protocol 0 c r [] true).

Definition rMessage (s : Settings) : Reader RMCMessage :=
  read! proto := rU8 in
  let short := Z.ldiff proto 0x80 in
  let request := negb (Z.land proto 0x80 =? 0) in
  if short =? 0x7F then read! p := rU16 in rContent s request p
  else rContent s request short.

(** [ParseRMC]; the message comes with the stream's error, [nil] on a size mismatch. *)
Definition ParseRMC (s : Settings) (data : bytes) : option RMCMessage * option error :=
  let '(length, i) := rU32 (NewStreamIn data s) in
  if negb (length =? zlen data - 4) then (None, Some (ErrMsg "rmc: size mismatch"))
  else let '(m, i) := rMessage s i in (Some m, si_err i).

(** [notImplemented] of rmc.go; [s] is the connection's settings. *)
Definition notImplemented (s : Settings) (proto : Z) (req : RMCMessage) : RMCMessage :=
  NewRMCError s proto (CallID req) ResultCoreNotImplemented.

(** ** The round trip *)

(** A message the code can hold: the integers at their width, the fields its mode does not
    carry left zero, an error with its bit, a success without the response bit 15. *)
Definition message_ok (m : RMCMessage) : Prop :=
  is_u16 (Protocol m) ∧ is_u32 (Method m) ∧ is_u32 (CallID m) ∧ is_u32 (m_Result m) ∧
  zlen (Body m) < 2 ^ 32 - 12 ∧
  (if Mode m =? RMCRequest then m_Result m = 0 ∧ m_IsError m = false
   else Mode m = RMCResponse ∧
     if m_IsError m then Method m = 0 ∧ Body m = [] ∧ Z.testbit (m_Result m) 31 = true
     else m_Result m = 0 ∧ Z.testbit (Method m) 15 = false).

(** A writer and a reader that agree when the message ends where the run ends, as
    [ReadAll] needs. *)
Definition rt_end {A} (s : Settings) (w : Writer) (r : Reader A) (a : A) : Prop :=
  ∃ bs, writes s w bs ∧ ∀ pre, r (at_ s pre bs) = (a, at_ s (pre ++ bs) []).

Lemma rt_end_of {A} s w (r : Reader A) a : rt s w r a → rt_end s w r a.
Proof.
  intros (bs & W & R). exists bs. split; [done|]. intros pre.
  specialize (R pre []). by rewrite app_nil_r in R.
Qed.

Lemma rt_end_bind {A B} s w1 w2 (r : Reader A) (k : A → Reader B) a b :
  rt s w1 r a → rt_end s w2 (k a) b → rt_end s (w1 ;;; w2) (rbind r k) b.
Proof.
  intros (b1 & W1 & R1) (b2 & W2 & R2). exists (b1 ++ b2).
  split; [by apply writes_seq|]. intros pre. unfold rbind. by rewrite R1, R2, app_assoc.
Qed.

Lemma rt_end_ReadAll s bs : rt_end s (Write bs) ReadAll bs.
Proof.
  exists bs. split; [done|]. intros pre. unfold ReadAll.
  assert (Remaining (at_ s pre bs) = zlen bs) as ->.
  { unfold Remaining, at_. cbn. rewrite zlen_app. unfold zlen. lia. }
  pose proof (reads_Read s (zlen bs) bs eq_refl pre []) as R. by rewrite app_nil_r in R.
Qed.

Lemma rt_end_map {A B} s w (r : Reader A) (k : A → Reader B) a b :
  rt_end s w r a → k a = rret b → rt_end s w (rbind r k) b.
Proof.
  intros (bs & W & R) E. exists bs. split; [done|]. intros pre. unfold rbind. by rewrite R, E.
Qed.

Lemma lor_testbit_id a n : 0 ≤ n → Z.testbit a n = true → Z.lor a (2 ^ n) = a.
Proof.
  intros Hn H. apply Z.bits_inj'. intros i Hi. rewrite Z.lor_spec, Z.pow2_bits_eqb by done.
  destruct (Z.eqb_spec n i) as [->|]; [by rewrite H|apply orb_false_r].
Qed.

Lemma ldiff_lor_bit a n : 0 ≤ n → Z.testbit a n = false → Z.ldiff (Z.lor a (2 ^ n)) (2 ^ n) = a.
Proof.
  intros Hn H. apply Z.bits_inj'. intros i Hi.
  rewrite Z.ldiff_spec, Z.lor_spec, Z.pow2_bits_eqb by done.
  destruct (Z.eqb_spec n i) as [->|]; [by rewrite H|]. by rewrite orb_false_r, andb_true_r.
Qed.

Lemma rt_end_content (m : RMCMessage) :
  message_ok m →
  rt_end (m_Settings m) (wContent m) (rContent (m_Settings m) (Mode m =? RMCRequest) (Protocol m)) m.
Proof.
  destruct m as [s mo p me c r b e]. intros (Hp & Hme & Hc & Hr & _ & H). unfold wContent, rContent.
  cbn [m_Settings Mode Protocol Method CallID m_Result Body m_IsError] in *.
  assert (is_u32 (Z.lor me 0x8000)) by (apply is_u_lor; done).
  destruct (Z.eqb_spec mo RMCRequest) as [->|].
  - destruct H as [-> ->].
    do 2 (eapply rt_end_bind; [eauto with wire|]). eapply rt_end_map; [apply rt_end_ReadAll|done].
  - destruct H as [-> H]. destruct e.
    + destruct H as (-> & -> & H). change Result.ResultErrorMask with (2 ^ 31).
      rewrite lor_testbit_id by done. apply rt_end_of, rt1_rt.
      eapply rt1_bind; [apply rt1_Bool|]. cbv beta iota. apply rt1_rt. rt_fields.
    + destruct H as [-> H]. change 0x8000 with (2 ^ 15) in *.
      do 3 (eapply rt_end_bind; [eauto with wire|]; cbv beta; cbv iota).
      rewrite ldiff_lor_bit by done. eapply rt_end_map; [apply rt_end_ReadAll|done].
Qed.

(** The seven low bits of the protocol byte and its request bit separate. *)
Lemma proto_byte q (req : bool) :
  0 ≤ q < 0x80 →
  let b := Z.lor q (if req then 0x80 else 0) in
  is_u8 b ∧ Z.ldiff b 0x80 = q ∧ negb (Z.land b 0x80 =? 0) = req.
Proof.
  intros Hq b. subst b.
  assert (∀ n, 7 ≤ n → Z.testbit q n = false) as Hb by (apply (is_u_bits 7); done).
  change 0x80 with (2 ^ 7). split_and!.
  - apply is_u_lor; [done| |by destruct req]. unfold is_u; lia.
  - destruct req; [apply ldiff_lor_bit; [done|by apply Hb]|].
    rewrite Z.lor_0_r. apply Z.bits_inj'. intros i Hi.
    rewrite Z.ldiff_spec, Z.pow2_bits_eqb by done.
    destruct (Z.eqb_spec 7 i) as [<-|]; [by rewrite Hb|]. by rewrite andb_true_r.
  - rewrite Z.land_lor_distr_l.
    assert (Z.land q (2 ^ 7) = 0) as ->; [|by destruct req].
    apply Z.bits_inj'. intros i Hi. rewrite Z.land_spec, Z.pow2_bits_eqb, Z.bits_0 by done.
    destruct (Z.eqb_spec 7 i) as [<-|]; [by rewrite Hb|apply andb_false_r].
Qed.

Lemma rt_end_message (m : RMCMessage) :
  message_ok m → Protocol m ≠ 0x7F →
  rt_end (m_Settings m) (wProtocol m ;;; wContent m) (rMessage (m_Settings m)) m.
Proof.
  intros Hm Hne. pose proof (rt_end_content m Hm) as Hc.
  destruct Hm as (Hp & _). unfold wProtocol, rMessage, is_u in *.
  destruct (Z.ltb_spec (Protocol m) 0x80).
  - rewrite wrap_small by (unfold is_u; lia).
    destruct (proto_byte (Protocol m) (Mode m =? RMCRequest)) as (Hb & Hd & Hr); [lia|].
    eapply rt_end_bind; [apply rt1_rt, rt1_U8, Hb|]. cbv beta zeta.
    rewrite Hd, Hr. by destruct (Z.eqb_spec (Protocol m) 0x7F).
  - destruct (proto_byte 0x7F (Mode m =? RMCRequest)) as (Hb & Hd & Hr); [lia|].
    destruct Hc as (bs & W & R).
    destruct (rt1_U8 (m_Settings m) _ Hb) as (b1 & _ & W1 & R1).
    destruct (rt1_U16 (m_Settings m) (Protocol m) ltac:(done)) as (b2 & _ & W2 & R2).
    exists ((b1 ++ b2) ++ bs). split; [by repeat apply writes_seq|].
    intros pre. unfold rbind at 1. rewrite <- !app_assoc, R1. cbv zeta. rewrite Hd, Hr.
    change (0x7F =? 0x7F) with true. cbv iota. unfold rbind. rewrite R2, R.
    by rewrite <- !app_assoc.
Qed.

(** The payload is at most eleven bytes longer than the body. *)
Lemma payload_length (m : RMCMessage) :
  message_ok m →
  zlen (Bytes_ ((wProtocol m ;;; wContent m) (NewStreamOut (m_Settings m)))) ≤ zlen (Body m) + 12.
Proof.
  intros _. unfold wProtocol, wContent. pose proof (zlen_nonneg (Body m)).
  destruct (Protocol m <? 0x80), (Mode m =? RMCRequest), (m_IsError m);
    unfold wseq, wU8, wU16, wU32, wBool, wU8, Write, Bytes_, NewStreamOut;
    cbn [so_buf so_settings]; rewrite ?zlen_app;
    unfold zlen; rewrite ?length_app, ?length_le_bytes; simpl; lia.
Qed.

(** The prefix is the size of what follows, for every message. *)
Lemma Encode_prefix (m : RMCMessage) :
  message_ok m → le_val (take 4 (Encode m)) = zlen (Encode m) - 4.
Proof.
  intros Hm. pose proof (payload_length m Hm) as L. destruct Hm as (_ & _ & _ & _ & Hb & _).
  unfold Encode. cbv zeta. set (p := Bytes_ _) in *.
  rewrite take_app_exact by done. pose proof (zlen_nonneg p).
  rewrite wrap_small by (unfold is_u; lia).
  rewrite le_val_u32 by (unfold is_u; lia).
  rewrite zlen_app. unfold zlen. rewrite length_le_bytes. lia.
Qed.

(** C38: Every remote call and every answer is parsed back as it was sent, the error bit, the
    response bit and the escape of long protocol identifiers included — but for protocol
    0x7F. *)
Theorem ParseRMC_Encode (m : RMCMessage) :
  message_ok m → Protocol m ≠ 0x7F →
  ParseRMC (m_Settings m) (Encode m) = (Some m, None).
Proof.
  intros Hm Hne. pose proof (payload_length m Hm) as L.
  destruct (rt_end_message m Hm Hne) as (bs & W & R).
  pose proof (body_writes _ _ _ W) as E. unfold body in E.
  unfold Encode, ParseRMC. rewrite !E in *.
  destruct Hm as (_ & _ & _ & _ & Hb & _). pose proof (zlen_nonneg bs).
  rewrite wrap_small by (unfold is_u; lia).
  destruct (rt1_U32 (m_Settings m) (zlen bs)) as (b & _ & W' & R'); [unfold is_u; lia|].
  assert (b = le_bytes 4 (zlen bs)) as ->.
  { specialize (W' []). unfold wU32, Write in W'. simpl in W'. by injection W'. }
  specialize (R' [] bs). unfold at_ in R'. cbn [app length] in R'.
  unfold NewStreamIn. rewrite R', zlen_app. cbv beta iota.
  replace (zlen (le_bytes 4 (zlen bs)) + zlen bs - 4) with (zlen bs)
    by (unfold zlen; rewrite length_le_bytes; lia).
  rewrite Z.eqb_refl. cbn [negb].
  specialize (R (le_bytes 4 (zlen bs))). unfold at_ in R. rewrite R. done.
Qed.

Lemma ParseRMC_Encode_witness :
  let s := NewSwitchSettings (str "12345678") 40302 in
  let m := NewRMCError s 0x6D 7 ResultRendezVousSessionVoid in
  message_ok m ∧ ParseRMC s (Encode m) = (Some m, None).
Proof.
  cbv zeta. assert (message_ok (NewRMCError (NewSwitchSettings (str "12345678") 40302) 0x6D 7 ResultRendezVousSessionVoid))
    as Hm by (split_and!; vm_compute; done).
  split; [exact Hm|]. refine (ParseRMC_Encode _ Hm _). vm_compute. discriminate.
Defined.
