(* ===== verification/Crypto.v ===== *)
(** * The cryptographic primitives the code calls

    Go's [crypto/md5], [crypto/hmac] and [crypto/rc4], as their specifications (RFC 1321,
    RFC 2104) and the standard library define them, executable and checked on the published
    test vectors.  The last section has what the protocol needs of them: digests are 16
    bytes long, the RC4 state is always a permutation, and encrypting twice with one key is
    the identity. *)

From S2P Require Export Structures.

(** ** MD5 *)
Definition rotl32 (x c : Z) : Z :=
  Z.lor (u32 (Z.shiftl x c)) (Z.shiftr x (32 - c)).

Definition not32 (x : Z) : Z := Z.lxor x 0xffffffff.

(** floor(2^32 * |sin(i+1)|). *)
Definition md5_K : list Z :=
  [ 0xd76aa478; 0xe8c7b756; 0x242070db; 0xc1bdceee; 0xf57c0faf; 0x4787c62a;
    0xa8304613; 0xfd469501; 0x698098d8; 0x8b44f7af; 0xffff5bb1; 0x895cd7be;
    0x6b901122; 0xfd987193; 0xa679438e; 0x49b40821; 0xf61e2562; 0xc040b340;
    0x265e5a51; 0xe9b6c7aa; 0xd62f105d; 0x02441453; 0xd8a1e681; 0xe7d3fbc8;
    0x21e1cde6; 0xc33707d6; 0xf4d50d87; 0x455a14ed; 0xa9e3e905; 0xfcefa3f8;
    0x676f02d9; 0x8d2a4c8a; 0xfffa3942; 0x8771f681; 0x6d9d6122; 0xfde5380c;
    0xa4beea44; 0x4bdecfa9; 0xf6bb4b60; 0xbebfbc70; 0x289b7ec6; 0xeaa127fa;
    0xd4ef3085; 0x04881d05; 0xd9d4d039; 0xe6db99e5; 0x1fa27cf8; 0xc4ac5665;
    0xf4292244; 0x432aff97; 0xab9423a7; 0xfc93a039; 0x655b59c3; 0x8f0ccc92;
    0xffeff47d; 0x85845dd1; 0x6fa87e4f; 0xfe2ce6e0; 0xa3014314; 0x4e0811a1;
    0xf7537e82; 0xbd3af235; 0x2ad7d2bb; 0xeb86d391 ].

Definition md5_S : list Z :=
  [ 7; 12; 17; 22;  7; 12; 17; 22;  7; 12; 17; 22;  7; 12; 17; 22;
    5;  9; 14; 20;  5;  9; 14; 20;  5;  9; 14; 20;  5;  9; 14; 20;
    4; 11; 16; 23;  4; 11; 16; 23;  4; 11; 16; 23;  4; 11; 16; 23;
    6; 10; 15; 21;  6; 10; 15; 21;  6; 10; 15; 21;  6; 10; 15; 21 ].

Record md5_state := mkMD5 { md5_a : Z; md5_b : Z; md5_c : Z; md5_d : Z }.

(** One of the 64 steps on the sixteen words of a block. *)
Definition md5_step (words : list Z) (st : md5_state) (i : nat) : md5_state :=
  let '(mkMD5 a b c d) := st in
  let '(f, g) :=
    if (i <? 16)%nat then (Z.lor (Z.land b c) (Z.land (not32 b) d), i)
    else if (i <? 32)%nat then (Z.lor (Z.land d b) (Z.land (not32 d) c), (5 * i + 1) mod 16)%nat
    else if (i <? 48)%nat then (Z.lxor (Z.lxor b c) d, (3 * i + 5) mod 16)%nat
    else (Z.lxor c (Z.lor b (not32 d)), (7 * i) mod 16)%nat in
  let x := u32 (f + a + nth i md5_K 0 + nth g words 0) in
  mkMD5 d (u32 (b + rotl32 x (nth i md5_S 0))) b c.

Fixpoint words_of (n : nat) (bs : bytes) : list Z :=
  match n with
  | O => []
  | S n => le_val (take 4 bs) :: words_of n (drop 4 bs)
  end.

Definition md5_block (st : md5_state) (block : bytes) : md5_state :=
  let r := foldl (md5_step (words_of 16 block)) st (seq 0 64) in
  mkMD5 (u32 (md5_a st + md5_a r)) (u32 (md5_b st + md5_b r))
        (u32 (md5_c st + md5_c r)) (u32 (md5_d st + md5_d r)).

Fixpoint md5_blocks (n : nat) (st : md5_state) (bs : bytes) : md5_state :=
  match n with
  | O => st
  | S n => md5_blocks n (md5_block st (take 64 bs)) (drop 64 bs)
  end.

(** 0x80, zeroes up to 56 modulo 64, the length in bits. *)
Definition md5_pad (m : bytes) : bytes :=
  let zeros := ((119 - length m mod 64) mod 64)%nat in
  m ++ [x80] ++ replicate_zero zeros ++ le_bytes 8 (u64 (8 * zlen m)).

Definition md5_Sum (m : bytes) : bytes :=
  let p := md5_pad m in
  let r := md5_blocks (length p / 64) (mkMD5 0x67452301 0xefcdab89 0x98badcfe 0x10325476) p in
  le_bytes 4 (md5_a r) ++ le_bytes 4 (md5_b r) ++ le_bytes 4 (md5_c r) ++ le_bytes 4 (md5_d r).

(** ** HMAC over MD5 *)
Definition xor_byte (a : byte) (k : Z) : byte := byte_of_Z (Z.lxor (Z_of_byte a) k).

(** [hmac.New(md5.New, key)], [Write], [Sum(nil)]: keys longer than a block are hashed. *)
Definition hmac_md5 (key data : bytes) : bytes :=
  let key := if (64 <? length key)%nat then md5_Sum key else key in
  let key := key ++ replicate_zero (64 - length key) in
  md5_Sum (((λ b, xor_byte b 0x5c) <$> key) ++ md5_Sum (((λ b, xor_byte b 0x36) <$> key) ++ data)).

(** ** RC4 *)
Record Cipher := mkCipher { rc4_s : list Z; rc4_i : Z; rc4_j : Z }.

Definition swap (i j : nat) (s : list Z) : list Z :=
  <[i := nth j s 0]> (<[j := nth i s 0]> s).

Definition ksa_step (key : bytes) (sj : list Z * Z) (i : nat) : list Z * Z :=
  let '(s, j) := sj in
  let j := u8 (j + nth i s 0 + at_byte (i mod length key) key) in
  (swap i (Z.to_nat j) s, j).

(** The table before the key is mixed in. *)
Definition rc4_table : list Z := Z.of_nat <$> seq 0 256.

(** [NewCipher]; [None] for the key-size error. *)
Definition NewCipher (key : bytes) : option Cipher :=
  if (zlen key <? 1) || (256 <? zlen key) then None
  else Some (mkCipher (foldl (ksa_step key) (rc4_table, 0) (seq 0 256)).1 0 0).

(** One byte of the key stream. *)
Definition rc4_next (c : Cipher) : Z * Cipher :=
  let i := u8 (rc4_i c + 1) in
  let x := nth (Z.to_nat i) (rc4_s c) 0 in
  let j := u8 (rc4_j c + x) in
  let y := nth (Z.to_nat j) (rc4_s c) 0 in
  let s := swap (Z.to_nat i) (Z.to_nat j) (rc4_s c) in
  (nth (Z.to_nat (u8 (x + y))) s 0, mkCipher s i j).

Fixpoint rc4_stream (c : Cipher) (src : bytes) : bytes :=
  match src with
  | [] => []
  | v :: src => let '(k, c) := rc4_next c in xor_byte v k :: rc4_stream c src
  end.

(** [c.XORKeyStream(dst, src)] on a fresh cipher: a nil cipher is only dereferenced when
    there is something to encrypt. *)
Definition XORKeyStream (c : option Cipher) (src : bytes) : result bytes :=
  match src, c with
  | [], _ => Ok []
  | _, None => Err Panic
  | _, Some c => Ok (rc4_stream c src)
  end.

Example md5_empty : hex_encode (md5_Sum []) = str "d41d8cd98f00b204e9800998ecf8427e".
Proof. vm_compute. reflexivity. Qed.
Example md5_rfc1321 :
  hex_encode (md5_Sum (str "12345678901234567890123456789012345678901234567890123456789012345678901234567890"))
  = str "57edf4a22be3c955ac49da2e2107b67a".
Proof. vm_compute. reflexivity. Qed.
Example hmac_rfc2202 :
  hex_encode (hmac_md5 (replicate 16 x0b) (str "Hi There")) = str "9294727a3638bb1c13f48ef8158bfc9d".
Proof. vm_compute. reflexivity. Qed.
Example rc4_vector :
  (λ c, hex_encode (rc4_stream c (str "Plaintext"))) <$> NewCipher (str "Key")
  = Some (str "bbf316e8d940af0ad3").
Proof. vm_compute. reflexivity. Qed.

(** ** What the protocol relies on *)
Lemma length_md5_Sum m : length (md5_Sum m) = 16%nat.
Proof. unfold md5_Sum. cbv zeta. by rewrite !length_app, !length_le_bytes. Qed.

Lemma length_hmac_md5 k d : length (hmac_md5 k d) = 16%nat.
Proof. unfold hmac_md5. apply length_md5_Sum. Qed.
#[export] Hint Rewrite length_md5_Sum length_hmac_md5 : nex_rw.

Lemma xor_byte_involutive a k : xor_byte (xor_byte a k) k = a.
Proof.
  unfold xor_byte. rewrite Z_of_byte_of_Z. apply Z_of_byte_inj. rewrite Z_of_byte_of_Z.
  rewrite <- (Z.mod_small (Z_of_byte a) 256) at 2 by apply Z_of_byte_range.
  apply Z.bits_inj'. intros n Hn. change 256 with (2 ^ 8).
  destruct (decide (n < 8)).
  - rewrite !Z.mod_pow2_bits_low by done. rewrite Z.lxor_spec, Z.mod_pow2_bits_low by done.
    rewrite Z.lxor_spec. by destruct (Z.testbit _ n), (Z.testbit k n).
  - by rewrite !Z.mod_pow2_bits_high by lia.
Qed.

Lemma length_rc4_stream c src : length (rc4_stream c src) = length src.
Proof. revert c. induction src as [|v src IH]; intros c; simpl; [done|]. f_equal. apply IH. Qed.

(** The key stream depends on the cipher only: the second pass undoes the first. *)
Lemma rc4_stream_involutive c src : rc4_stream c (rc4_stream c src) = src.
Proof.
  revert c. induction src as [|v src IH]; intros c; [done|].
  cbn [rc4_stream]. destruct (rc4_next c) as [k c'] eqn:E. cbn [rc4_stream]. rewrite E.
  by rewrite xor_byte_involutive, IH.
Qed.

Lemma XORKeyStream_Some c src : XORKeyStream (Some c) src = Ok (rc4_stream c src).
Proof. by destruct src. Qed.

Lemma XORKeyStream_twice c src enc : XORKeyStream c src = Ok enc → XORKeyStream c enc = Ok src.
Proof.
  destruct c as [c|].
  - rewrite !XORKeyStream_Some. intros [= <-]. by rewrite rc4_stream_involutive.
  - destruct src; simpl; [|done]. by intros [= <-].
Qed.

Lemma XORKeyStream_length c src enc : XORKeyStream c src = Ok enc → length enc = length src.
Proof.
  destruct c as [c|].
  - rewrite XORKeyStream_Some. intros [= <-]. apply length_rc4_stream.
  - destruct src; simpl; [|done]. by intros [= <-].
Qed.

(** Swapping two cells permutes the table. *)
Lemma length_swap i j s : length (swap i j s) = length s.
Proof. unfold swap. by rewrite !length_insert. Qed.

Lemma swap_perm i j s : (i < length s)%nat → (j < length s)%nat → swap i j s ≡ₚ s.
Proof.
  intros Hi Hj. apply Permutation_inj. rewrite length_swap. split; [done|].
  exists (λ k, if decide (k = i) then j else if decide (k = j) then i else k). split.
  - intros k k'. repeat case_decide; congruence.
  - assert (∀ n, (n < length s)%nat → Some (nth n s 0) = s !! n) as Hnth.
    { intros n Hn. destruct (lookup_lt_is_Some_2 s n Hn) as [x Hx].
      by rewrite Hx, (nth_lookup_Some _ _ _ x). }
    intros k. unfold swap. destruct (decide (k = i)) as [->|]; [|destruct (decide (k = j)) as [->|]].
    + rewrite list_lookup_insert_eq by (by rewrite length_insert). by apply Hnth.
    + rewrite list_lookup_insert_ne, list_lookup_insert_eq by done. by apply Hnth.
    + by rewrite !list_lookup_insert_ne by done.
Qed.

(** The table of a cipher is a permutation of 0..255, so every index into it is in range. *)
Definition cipher_ok (c : Cipher) : Prop :=
  rc4_s c ≡ₚ rc4_table ∧ is_u8 (rc4_i c) ∧ is_u8 (rc4_j c).

Lemma length_rc4_table : length rc4_table = 256%nat.
Proof. unfold rc4_table. by rewrite length_fmap, length_seq. Qed.

Lemma elem_of_rc4_table z : z ∈ rc4_table → is_u8 z.
Proof.
  unfold rc4_table. intros (m & -> & Hm)%list_elem_of_fmap. apply elem_of_seq in Hm. unfold is_u. lia.
Qed.
#[local] Opaque rc4_table.

Lemma u8_index z : (Z.to_nat (u8 z) < 256)%nat.
Proof. pose proof (wrap_is_u 8 z ltac:(done)) as H. unfold is_u in H. lia. Qed.

Lemma swap_ok i j s :
  s ≡ₚ rc4_table → (i < 256)%nat → (j < 256)%nat →
  swap i j s ≡ₚ rc4_table.
Proof.
  intros Hs Hi Hj.
  assert (length s = 256%nat) by (rewrite (Permutation_length Hs); apply length_rc4_table).
  rewrite swap_perm; [done|lia..].
Qed.

Lemma NewCipher_ok key c : NewCipher key = Some c → cipher_ok c.
Proof.
  unfold NewCipher. case_match; [done|]. intros E%(inj Some). subst c.
  unfold cipher_ok. cbn [rc4_s rc4_i rc4_j].
  split; [|done].
  assert (∀ l sj, Forall (λ i, i < 256)%nat l → sj.1 ≡ₚ rc4_table →
    (foldl (ksa_step key) sj l).1 ≡ₚ rc4_table) as Hf.
  { induction l as [|i l IH]; intros [s j] Hl Hs; [done|].
    apply Forall_cons in Hl as [Hi Hl]. cbn [foldl]. apply IH; [done|].
    cbn [ksa_step fst]. apply swap_ok; [done..|apply u8_index]. }
  apply Hf; [|done]. apply Forall_forall. intros x. rewrite elem_of_seq. lia.
Qed.

Lemma rc4_next_ok c k c' : cipher_ok c → rc4_next c = (k, c') → cipher_ok c' ∧ is_u8 k.
Proof.
  intros (Hs & Hi & Hj) [= <- <-].
  assert (∀ s n, s ≡ₚ rc4_table → (n < 256)%nat → is_u8 (nth n s 0)) as Hn.
  { intros s n Hp Hn. assert (nth n s 0 ∈ s) as Hin.
    { apply list_elem_of_In, nth_In. rewrite (Permutation_length Hp), length_rc4_table. lia. }
    apply elem_of_rc4_table. eapply elem_of_Permutation_proper; [symmetry; apply Hp|done]. }
  split; [split_and!|]; cbn [rc4_s rc4_i rc4_j].
  - apply swap_ok; [done|apply u8_index..].
  - by apply wrap_is_u.
  - by apply wrap_is_u.
  - apply Hn; [|apply u8_index]. apply swap_ok; [done|apply u8_index..].
Qed.
