(* ===== verification/Sha256.v ===== *)
(** * SHA-256

    Go's [crypto/sha256] and HMAC over it, as FIPS 180-4 and RFC 2104 define them, executable
    and tried on the published vectors. *)

From S2P Require Export Crypto.

Definition rotr32 (x c : Z) : Z := Z.lor (Z.shiftr x c) (u32 (Z.shiftl x (32 - c))).

Definition be_val (bs : bytes) : Z := foldl (λ v b, 256 * v + Z_of_byte b) 0 bs.

Definition sha_words (n : nat) (b : bytes) : list Z := (λ i, be_val (slice (4 * i) (4 * i + 4) b)) <$> seq 0 n.

(** The round constants, as they are printed one after the other. *)
Definition sha256_hex : bytes := concat (str <$> [
  "428a2f9871374491b5c0fbcfe9b5dba53956c25b59f111f1923f82a4ab1c5ed5";
  "d807aa9812835b01243185be550c7dc372be5d7480deb1fe9bdc06a7c19bf174";
  "e49b69c1efbe47860fc19dc6240ca1cc2de92c6f4a7484aa5cb0a9dc76f988da";
  "983e5152a831c66db00327c8bf597fc7c6e00bf3d5a7914706ca635114292967";
  "27b70a852e1b21384d2c6dfc53380d13650a7354766a0abb81c2c92e92722c85";
  "a2bfe8a1a81a664bc24b8b70c76c51a3d192e819d6990624f40e3585106aa070";
  "19a4c1161e376c082748774c34b0bcb5391c0cb34ed8aa4a5b9cca4f682e6ff3";
  "748f82ee78a5636f84c878148cc7020890befffaa4506cebbef9a3f7c67178f2" ]%string).
Definition sha256_K : list Z := Eval vm_compute in sha_words 64 (default [] (hex_decode sha256_hex)).


(** The message schedule: forty-eight more words. *)
Definition sha_extend (w : list Z) (t : nat) : list Z :=
  let at_ i := nth i w 0 in
  let x := at_ (t - 15)%nat in
  let y := at_ (t - 2)%nat in
  let s0 := Z.lxor (Z.lxor (rotr32 x 7) (rotr32 x 18)) (Z.shiftr x 3) in
  let s1 := Z.lxor (Z.lxor (rotr32 y 17) (rotr32 y 19)) (Z.shiftr y 10) in
  w ++ [u32 (at_ (t - 16)%nat + s0 + at_ (t - 7)%nat + s1)].

Definition sha_round (w : list Z) (h : list Z) (t : nat) : list Z :=
  match h with
  | [a; b; c; d; e; f; g; hh] =>
      let s1 := Z.lxor (Z.lxor (rotr32 e 6) (rotr32 e 11)) (rotr32 e 25) in
      let ch := Z.lxor (Z.land e f) (Z.land (not32 e) g) in
      let t1 := u32 (hh + s1 + ch + nth t sha256_K 0 + nth t w 0) in
      let s0 := Z.lxor (Z.lxor (rotr32 a 2) (rotr32 a 13)) (rotr32 a 22) in
      let maj := Z.lxor (Z.lxor (Z.land a b) (Z.land a c)) (Z.land b c) in
      [u32 (t1 + u32 (s0 + maj)); a; b; c; u32 (d + t1); e; f; g]
  | _ => h
  end.

Definition sha_block (h : list Z) (block : bytes) : list Z :=
  let w := foldl sha_extend (sha_words 16 block) (seq 16 48) in
  zip_with (λ x y, u32 (x + y)) h (foldl (sha_round w) h (seq 0 64)).

Fixpoint sha_blocks (n : nat) (h : list Z) (b : bytes) : list Z :=
  match n with O => h | S n => sha_blocks n (sha_block h (take 64 b)) (drop 64 b) end.

Definition be_bytes (n : nat) (v : Z) : bytes := reverse (le_bytes n v).

Definition sha_pad (m : bytes) : bytes :=
  m ++ [x80] ++ replicate_zero ((119 - length m mod 64) mod 64) ++ be_bytes 8 (u64 (8 * zlen m)).

Definition sha256 (m : bytes) : bytes :=
  let p := sha_pad m in
  concat (be_bytes 4 <$> sha_blocks (length p / 64)
    [0x6a09e667; 0xbb67ae85; 0x3c6ef372; 0xa54ff53a; 0x510e527f; 0x9b05688c; 0x1f83d9ab; 0x5be0cd19] p).

(** [hmac.New(sha256.New, key)], [Write], [Sum(nil)]. *)
Definition hmac_sha256 (key data : bytes) : bytes :=
  let key := if (64 <? length key)%nat then sha256 key else key in
  let key := key ++ replicate_zero (64 - length key) in
  sha256 (((λ b, xor_byte b 0x5c) <$> key) ++ sha256 (((λ b, xor_byte b 0x36) <$> key) ++ data)).

Example sha256_abc :
  hex_encode (sha256 (str "abc")) = str "ba7816bf8f01cfea414140de5dae2223b00361a396177a9cb410ff61f20015ad".
Proof. vm_compute. reflexivity. Qed.
Example hmac_rfc4231 :
  hex_encode (hmac_sha256 (str "Jefe") (str "what do ya want for nothing?"))
  = str "5bdcc146bf60754e6a042426089575c75a003f089d2739839dec58b964ec3843".
Proof. vm_compute. reflexivity. Qed.
