(* ===== verification/Kerberos.v ===== *)
(** * Kerberos keys and tickets (src/kerberos.go)

    Key derivation, the RC4 + HMAC-MD5 envelope, and the two tickets of a login.  The bytes
    [rand.Read] delivers are an argument; [None] is its error. *)

From S2P Require Export Crypto.

(** ** Key derivation *)
Definition deriveKeyOld (password : bytes) (pid baseCount pidCount : Z) : bytes :=
  Nat.iter (Z.to_nat (baseCount + pid mod pidCount)) md5_Sum password.

Definition deriveKeyNew (password : bytes) (pid : Z) (baseCount pidCount : nat) : bytes :=
  let key := Nat.iter baseCount md5_Sum password in
  Nat.iter pidCount md5_Sum (key ++ le_bytes 8 pid).

Definition DeriveKey (s : Settings) (password : bytes) (pid : Z) : bytes :=
  if KerberosKeyDerivation s =? KeyDerivationNew then deriveKeyNew password pid 1 1
  else deriveKeyOld password pid 65000 1024.

(** ** The envelope *)
Definition hmacMD5 (key data : bytes) : bytes := hmac_md5 key data.
Definition md5Sum (b : bytes) : bytes := md5_Sum b.

(** The key-size error of [rc4.NewCipher] is dropped by the code: the nil cipher panics. *)
Definition kerberosEncrypt (key data : bytes) : result bytes :=
  try! enc := XORKeyStream (NewCipher key) data in
  Ok (enc ++ hmacMD5 key enc).

Definition kerberosDecrypt (key buffer : bytes) : result bytes :=
  if zlen buffer <? 16 then Err (ErrMsg "kerberos: buffer too short")
  else
    let data := take (length buffer - 16) buffer in
    let checksum := drop (length buffer - 16) buffer in
    if negb (bytes_eqb checksum (hmacMD5 key data))
    then Err (ErrMsg "kerberos: invalid checksum (wrong password)")
    else XORKeyStream (NewCipher key) data.

(** ** The client's ticket *)
Record ClientTicket := mkClientTicket {
  ct_SessionKey : bytes;
  ct_Target : Z;
  ct_Internal : bytes
}.

Definition wClientTicket (t : ClientTicket) : Writer :=
  Write (ct_SessionKey t) ;;; wPID (ct_Target t) ;;; wBuffer (ct_Internal t).

Definition ClientTicket_Encrypt (t : ClientTicket) (key : bytes) (s : Settings) : result bytes :=
  if negb (zlen (ct_SessionKey t) =? KerberosKeySize s)
  then Err (ErrMsg "kerberos: incorrect session key size")
  else kerberosEncrypt key (Bytes_ (wClientTicket t (NewStreamOut s))).

Definition rClientTicket (s : Settings) : Reader ClientTicket :=
  read! k := Read (KerberosKeySize s) in
  read! t := rPID in
  read! b := rBuffer in
  rret (mkClientTicket k t b).

(** A result whose error is the stream's. *)
Definition run {A} (r : Reader A) (i : StreamIn) : result A :=
  let '(a, i) := r i in match si_err i with None => Ok a | Some e => Err e end.

Definition DecryptClientTicket (data key : bytes) (s : Settings) : result ClientTicket :=
  try! dec := kerberosDecrypt key data in
  run (rClientTicket s) (NewStreamIn dec s).

(** ** The secure server's ticket *)
Record ServerTicket := mkServerTicket {
  st_Timestamp : Z;
  st_Source : Z;
  st_SessionKey : bytes
}.

Definition wServerTicket (t : ServerTicket) : Writer :=
  wDateTime (DateTime.Value (st_Timestamp t)) ;;; wPID (st_Source t) ;;; Write (st_SessionKey t).

(** [rnd]: what [rand.Read] puts in the sixteen bytes of the ticket key. *)
Definition ServerTicket_Encrypt (rnd : option bytes) (t : ServerTicket) (key : bytes) (s : Settings)
    : result bytes :=
  if negb (zlen (st_SessionKey t) =? KerberosKeySize s)
  then Err (ErrMsg "kerberos: incorrect session key size")
  else
    let data := Bytes_ (wServerTicket t (NewStreamOut s)) in
    if KerberosTicketVersion s =? 1 then
      match rnd with
      | None => Err (ErrMsg "rand")
      | Some ticketKey =>
          let finalKey := md5Sum (key ++ ticketKey) in
          try! enc := kerberosEncrypt finalKey data in
          Ok (Bytes_ ((wBuffer ticketKey ;;; wBuffer enc) (NewStreamOut s)))
      end
    else kerberosEncrypt key data.

Definition rServerTicket (s : Settings) : Reader ServerTicket :=
  read! d := rDateTime in
  read! p := rPID in
  read! k := Read (KerberosKeySize s) in
  rret (mkServerTicket d p k).

Definition DecryptServerTicket (data key : bytes) (s : Settings) : result ServerTicket :=
  try! '(key, data) :=
    (if KerberosTicketVersion s =? 1 then
       run (read! ticketKey := rBuffer in read! inner := rBuffer in
            rret (md5Sum (key ++ ticketKey), inner)) (NewStreamIn data s)
     else Ok (key, data)) in
  try! dec := kerberosDecrypt key data in
  run (rServerTicket s) (NewStreamIn dec s).

(** ** The envelope, forwards and back *)
Definition key_ok (key : bytes) : Prop := 1 ≤ zlen key ≤ 256.

Lemma NewCipher_Some key : key_ok key → is_Some (NewCipher key).
Proof.
  intros Hk. unfold key_ok in Hk. unfold NewCipher. case_match eqn:E; [lia|]. eauto.
Qed.

Lemma kerberosEncrypt_ok key data :
  key_ok key → ∃ enc, kerberosEncrypt key data = Ok enc ∧ zlen enc = zlen data + 16.
Proof.
  intros [c Hc]%NewCipher_Some. unfold kerberosEncrypt. rewrite Hc, XORKeyStream_Some.
  cbn [result_bind]. eexists. split; [done|].
  rewrite zlen_app. unfold zlen, hmacMD5. by rewrite length_rc4_stream, length_hmac_md5.
Qed.

Lemma kerberosDecrypt_split key data mac :
  length mac = 16%nat →
  kerberosDecrypt key (data ++ mac) =
    if bytes_eqb mac (hmacMD5 key data) then XORKeyStream (NewCipher key) data
    else Err (ErrMsg "kerberos: invalid checksum (wrong password)").
Proof.
  intros Hm. unfold kerberosDecrypt. rewrite zlen_app. unfold zlen. rewrite Hm.
  destruct (Z.ltb_spec (Z.of_nat (length data) + Z.of_nat 16) 16); [lia|].
  rewrite length_app, Hm, Nat.add_sub. rewrite take_app_exact, drop_app_exact by done.
  by destruct (bytes_eqb _ _).
Qed.

Lemma kerberosDecrypt_Encrypt key data enc :
  kerberosEncrypt key data = Ok enc → kerberosDecrypt key enc = Ok data.
Proof.
  unfold kerberosEncrypt. destruct (XORKeyStream _ _) as [c|] eqn:E; [|done].
  intros [= <-]. rewrite kerberosDecrypt_split by apply length_hmac_md5.
  unfold bytes_eqb. rewrite bool_decide_true by done. by eapply XORKeyStream_twice.
Qed.

(** What is accepted carries the HMAC of its own ciphertext under the key: nothing else is
    decrypted. *)
Lemma kerberosDecrypt_authentic key buffer dec :
  kerberosDecrypt key buffer = Ok dec →
  ∃ data, buffer = data ++ hmacMD5 key data ∧ length dec = length data.
Proof.
  unfold kerberosDecrypt. destruct (Z.ltb_spec (zlen buffer) 16); [done|].
  unfold bytes_eqb. case_bool_decide as E; [|done]. simpl. intros H'.
  exists (take (length buffer - 16) buffer). split.
  - by rewrite <- E, take_drop.
  - by eapply XORKeyStream_length.
Qed.

(** ** The tickets, forwards and back *)
Lemma run_whole {A} s w (r : Reader A) a :
  rt s w r a → run r (NewStreamIn (Bytes_ (w (NewStreamOut s))) s) = Ok a.
Proof. intros H. destruct (rt_whole s w r a H) as (i & E & _ & He). unfold run. by rewrite E, He. Qed.

Lemma rt_ClientTicket s t :
  zlen (ct_SessionKey t) = KerberosKeySize s → pid_ok s (ct_Target t) → buf_ok (ct_Internal t) →
  rt s (wClientTicket t) (rClientTicket s) t.
Proof.
  intros Hk Hp Hb. unfold wClientTicket, rClientTicket. rewrite <- Hk.
  eapply rt_bind; [apply rt_Write_Read|]. apply rt1_rt. destruct t. simpl in *. rt_fields.
Qed.

Lemma rt_ServerTicket s t :
  zlen (st_SessionKey t) = KerberosKeySize s → pid_ok s (st_Source t) → is_u64 (st_Timestamp t) →
  rt s (wServerTicket t) (rServerTicket s) t.
Proof.
  intros Hk Hp Hb. unfold wServerTicket, rServerTicket, DateTime.Value.
  rewrite wrap_small by done.
  destruct t as [d p k]. simpl in *. rewrite <- Hk.
  do 2 (eapply rt_bind; [eauto with wire|]; cbv beta).
  eapply rt_map; [apply rt_Write_Read|done].
Qed.

Lemma DecryptClientTicket_Encrypt t key s enc :
  pid_ok s (ct_Target t) → buf_ok (ct_Internal t) →
  ClientTicket_Encrypt t key s = Ok enc →
  DecryptClientTicket enc key s = Ok t.
Proof.
  intros Hp Hb. unfold ClientTicket_Encrypt, DecryptClientTicket.
  destruct (Z.eqb_spec (zlen (ct_SessionKey t)) (KerberosKeySize s)) as [Hk|]; [|done].
  cbn [negb]. intros ->%kerberosDecrypt_Encrypt. cbn [result_bind].
  by apply run_whole, rt_ClientTicket.
Qed.

Lemma kerberosEncrypt_length key data enc :
  kerberosEncrypt key data = Ok enc → zlen enc = zlen data + 16.
Proof.
  unfold kerberosEncrypt. destruct (XORKeyStream _ _) as [c|] eqn:Ex; [|done].
  intros [= <-]. apply XORKeyStream_length in Ex.
  rewrite zlen_app. unfold zlen, hmacMD5. by rewrite length_hmac_md5, Ex.
Qed.

Lemma wServerTicket_length t s :
  zlen (Bytes_ (wServerTicket t (NewStreamOut s))) ≤ zlen (st_SessionKey t) + 16.
Proof.
  unfold wServerTicket, wseq, wDateTime, wU64, wPID, Write, NewStreamOut. cbn [so_settings so_buf].
  case_match; unfold wU64, wU32, Write; cbn [so_settings so_buf Bytes_];
    unfold zlen; rewrite ?length_app, ?length_le_bytes; simpl; lia.
Qed.

(** The size of a server ticket. *)
Lemma ServerTicket_Encrypt_length rnd t key s enc :
  (∀ b, rnd = Some b → length b = 16%nat) → ServerTicket_Encrypt rnd t key s = Ok enc →
  zlen enc ≤ KerberosKeySize s + 64.
Proof.
  intros Hr. unfold ServerTicket_Encrypt.
  destruct (Z.eqb_spec (zlen (st_SessionKey t)) (KerberosKeySize s)) as [Hk|]; [|done].
  cbn [negb]. pose proof (wServerTicket_length t s). case_match.
  - destruct rnd as [tk|]; [|done]. specialize (Hr tk eq_refl).
    destruct (kerberosEncrypt _ _) as [e|] eqn:E; [|done]. cbn [result_bind].
    apply kerberosEncrypt_length in E. intros Henc%(inj Ok). subst enc.
    unfold wseq, wBuffer, wseq, wU32, Write, NewStreamOut, Bytes_. cbn [so_buf so_settings].
    rewrite !zlen_app. unfold zlen in *. rewrite !length_le_bytes, Hr. simpl length. lia.
  - intros E%kerberosEncrypt_length. lia.
Qed.

Lemma DecryptServerTicket_Encrypt rnd t key s enc :
  (∀ b, rnd = Some b → length b = 16%nat) →
  pid_ok s (st_Source t) → is_u64 (st_Timestamp t) →
  KerberosKeySize s < 2 ^ 31 →
  ServerTicket_Encrypt rnd t key s = Ok enc →
  DecryptServerTicket enc key s = Ok t.
Proof.
  intros Hr Hp Ht Hsz. unfold ServerTicket_Encrypt, DecryptServerTicket.
  destruct (Z.eqb_spec (zlen (st_SessionKey t)) (KerberosKeySize s)) as [Hk|]; [|done].
  cbn [negb]. pose proof (rt_ServerTicket s t Hk Hp Ht) as Hrt.
  destruct (KerberosTicketVersion s =? 1).
  - destruct rnd as [tk|]; [|done]. specialize (Hr tk eq_refl).
    destruct (kerberosEncrypt _ _) as [e|] eqn:E; [|done]. cbn [result_bind].
    intros Henc%(inj Ok). subst enc.
    assert (buf_ok e) as He.
    { apply kerberosEncrypt_length in E. pose proof (wServerTicket_length t s).
      pose proof (zlen_nonneg e). unfold buf_ok, is_u. lia. }
    assert (run (read! ticketKey := rBuffer in read! inner := rBuffer in
               rret (md5Sum (key ++ ticketKey), inner))
             (NewStreamIn (Bytes_ ((wBuffer tk ;;; wBuffer e) (NewStreamOut s))) s)
           = Ok (md5Sum (key ++ tk), e)) as ->.
    { apply run_whole, rt1_rt. assert (buf_ok tk) by (unfold buf_ok, zlen; by rewrite Hr). rt_fields. }
    cbn [result_bind]. apply kerberosDecrypt_Encrypt in E. rewrite E. cbn [result_bind].
    by apply run_whole.
  - intros E%kerberosDecrypt_Encrypt. cbn [result_bind]. rewrite E. by apply run_whole.
Qed.

(** The secure server's key always works: a digest is a valid RC4 key. *)
Lemma length_iter_md5 n b : (0 < n)%nat → length (Nat.iter n md5_Sum b) = 16%nat.
Proof. destruct n; [lia|]. intros _. apply length_md5_Sum. Qed.

Lemma DeriveKey_ok s password pid : key_ok (DeriveKey s password pid).
Proof.
  unfold key_ok, DeriveKey, deriveKeyNew, deriveKeyOld, zlen.
  pose proof (Z.mod_pos_bound pid 1024 ltac:(lia)).
  case_match; rewrite length_iter_md5; lia.
Qed.
