(* ===== verification/PrudpLite.v ===== *)
(** * PRUDP-Lite packets (src/prudp_lite.go)

    The packet codec of the WebSocket transport: encoding, the decoder of a byte stream cut
    anywhere, and the two signatures of the handshake. *)

From S2P Require Export Kerberos NetAddr.

Definition PacketSYN : Z := 0.
Definition PacketCONNECT : Z := 1.
Definition PacketDATA : Z := 2.
Definition PacketDISCONNECT : Z := 3.
Definition PacketPING : Z := 4.

Definition FlagACK : Z := 0x001.
Definition FlagReliable : Z := 0x002.
Definition FlagNeedACK : Z := 0x004.
Definition FlagHasSize : Z := 0x008.
Definition FlagMultiACK : Z := 0x200.

Definition optSupport : Z := 0.
Definition optConnectionSig : Z := 1.
Definition optConnectionSigLite : Z := 128.

Definition liteMagic : byte := x80.
Definition liteHeaderSize : nat := 12.
Definition liteConnSigKey : bytes := default [] (hex_decode (str "26c31f381e46d6eb38e1af6ab70d11")).

Record Packet := mkPacket {
  p_Type : Z;
  p_Flags : Z;
  SourceType : Z;
  SourcePort : Z;
  DestType : Z;
  DestPort : Z;
  FragmentID : Z;
  PacketID : Z;
  Signature : bytes;
  ConnectionSig : bytes;
  MinorVersion : Z;
  SupportedFunc : Z;
  Payload : bytes
}.

#[export] Instance Packet_eq_dec : EqDecision Packet.
Proof. solve_decision. Defined.

Definition HasFlag (p : Packet) (f : Z) : bool := negb (Z.land (p_Flags p) f =? 0).

(** ** Encoding *)

(** [put] of [encodeLiteOptions]. *)
Definition put_option (id : Z) (val : bytes) : bytes :=
  byte_of_Z id :: byte_of_Z (zlen val) :: val.

Definition encodeLiteOptions (p : Packet) : bytes :=
  (if (p_Type p =? PacketSYN) || (p_Type p =? PacketCONNECT)
   then put_option optSupport
          (le_bytes 4 (Z.lor (MinorVersion p) (u32 (Z.shiftl (SupportedFunc p) 8))))
   else []) ++
  (if (p_Type p =? PacketSYN) && HasFlag p FlagACK
   then put_option optConnectionSig (ConnectionSig p) else []) ++
  (if (p_Type p =? PacketCONNECT) && negb (HasFlag p FlagACK)
   then put_option optConnectionSigLite (Signature p) else []).

(** [uint16(p.Type&0xF)|(p.Flags<<4)]. *)
Definition type_flags (ty flags : Z) : Z :=
  Z.lor (Z.land ty 0xF) (u16 (Z.shiftl flags 4)).

Definition EncodePacket (p : Packet) : bytes :=
  let options := encodeLiteOptions p in
  [liteMagic; byte_of_Z (zlen options)] ++
  le_bytes 2 (u16 (zlen (Payload p))) ++
  [byte_of_Z (Z.lor (u8 (Z.shiftl (SourceType p) 4)) (Z.land (DestType p) 0xF))] ++
  [byte_of_Z (SourcePort p); byte_of_Z (DestPort p); byte_of_Z (FragmentID p)] ++
  le_bytes 2 (type_flags (p_Type p) (p_Flags p)) ++
  le_bytes 2 (PacketID p) ++
  options ++ Payload p.

(** ** Decoding *)

(** One option of the [switch] of [decodeLiteOptions]. *)
Definition set_option (p : Packet) (id : Z) (val : bytes) : Packet :=
  let '(mkPacket ty fl st sp dt dp fr pi sg cs mi sf pl) := p in
  if id =? optSupport then
    if zlen val =? 4 then
      let v := le_val val in
      mkPacket ty fl st sp dt dp fr pi sg cs (Z.land v 0xFF) (Z.shiftr v 8) pl
    else p
  else if id =? optConnectionSig then mkPacket ty fl st sp dt dp fr pi sg val mi sf pl
  else if id =? optConnectionSigLite then mkPacket ty fl st sp dt dp fr pi val cs mi sf pl
  else p.

(** The loop over [data[i:]]; an option takes at least two bytes, so [length data] turns
    are enough. *)
Fixpoint decode_options (fuel : nat) (p : Packet) (data : bytes) : result Packet :=
  match data with
  | [] => Ok p
  | [_] => Err (ErrMsg "prudp-lite: truncated option header")
  | id :: size :: data =>
      match fuel with
      | O => Err (ErrMsg "fuel")
      | S fuel =>
          let size := Z.to_nat (Z_of_byte size) in
          if (length data <? size)%nat then Err (ErrMsg "prudp-lite: truncated option value")
          else decode_options fuel (set_option p (Z_of_byte id) (take size data)) (drop size data)
      end
  end.

Definition decodeLiteOptions (p : Packet) (data : bytes) : result Packet :=
  decode_options (length data) p data.

(** What one turn of the loop of [DecodePackets] does with the buffer. *)
Inductive decoded :=
  | NeedMore
  | Bad (e : error)
  | Got (p : Packet) (rest : bytes).

Definition u16_at (i : nat) (buf : bytes) : Z := le_val (slice i (i + 2) buf).

Definition header_packet (buf : bytes) : Packet :=
  let tf := u16_at 8 buf in
  {| p_Type := Z.land tf 0xF; p_Flags := Z.shiftr tf 4;
     SourceType := Z.shiftr (at_byte 4 buf) 4; DestType := Z.land (at_byte 4 buf) 0xF;
     SourcePort := at_byte 5 buf; DestPort := at_byte 6 buf; FragmentID := at_byte 7 buf;
     PacketID := u16_at 10 buf;
     Signature := []; ConnectionSig := []; MinorVersion := 0; SupportedFunc := 0; Payload := [] |}.

Definition with_payload (p : Packet) (pl : bytes) : Packet :=
  let '(mkPacket ty fl st sp dt dp fr pi sg cs mi sf _) := p in
  mkPacket ty fl st sp dt dp fr pi sg cs mi sf pl.

Definition decode_one (buf : bytes) : decoded :=
  if (length buf <? liteHeaderSize)%nat then NeedMore
  else if negb (bool_decide (nth 0 buf x00 = liteMagic)) then
    Bad (ErrMsg "prudp-lite: invalid magic")
  else
    let optSize := Z.to_nat (at_byte 1 buf) in
    let payloadSize := Z.to_nat (u16_at 2 buf) in
    let total := (liteHeaderSize + optSize + payloadSize)%nat in
    if (length buf <? total)%nat then NeedMore
    else
      match decodeLiteOptions (header_packet buf)
              (slice liteHeaderSize (liteHeaderSize + optSize) buf) with
      | Err e => Bad e
      | Ok p => Got (with_payload p (slice (liteHeaderSize + optSize) total buf)) (drop total buf)
      end.

(** A packet takes at least a header: [length buf] turns are enough. *)
Fixpoint decode_loop (fuel : nat) (buf : bytes) : list Packet * bytes * option error :=
  match fuel with
  | O => ([], buf, None)
  | S fuel =>
      match decode_one buf with
      | NeedMore => ([], buf, None)
      | Bad e => ([], buf, Some e)
      | Got p rest =>
          let '(ps, rest, e) := decode_loop fuel rest in (p :: ps, rest, e)
      end
  end.

Definition DecodePackets (buf : bytes) : list Packet * bytes * option error :=
  decode_loop (length buf) buf.

(** ** Signatures *)

(** [rnd]: the sixteen random bytes of a peer without an IPv4 address. *)
Definition ConnectionSignature (rnd : bytes) (addr : bytes) : bytes :=
  match SplitHostPort addr with
  | Some (host, portStr) =>
      match host_ipv4 host with
      | Some ip =>
          match Atoi portStr with
          | (port, None) => hmacMD5 liteConnSigKey (ip ++ be_bytes16 port)
          | _ => rnd
          end
      | None => rnd
      end
  | None => rnd
  end.

(** [[]] is Go's nil. *)
Definition LitePacketSignature (accessKey : bytes) (p : Packet) (connectionSig : bytes) : bytes :=
  if (p_Type p =? PacketCONNECT) && HasFlag p FlagNeedACK then
    let key := md5Sum accessKey in
    hmacMD5 key (key ++ connectionSig)
  else [].

(** ** The decoder is a function of the bytes, not of their cutting *)
Lemma decode_options_fuel f f' p data :
  (length data ≤ f)%nat → (length data ≤ f')%nat → decode_options f p data = decode_options f' p data.
Proof.
  revert f' p data. induction f as [|f IH]; intros [|f'] p [|i [|sz data]] Hf Hf'; simpl in *;
    try lia; try done.
  case_match; [done|]. apply IH; rewrite length_drop; lia.
Qed.

(** The fuel of the option loop is never what stops it. *)
Lemma decode_options_no_fuel f p data :
  (length data ≤ f)%nat → decode_options f p data ≠ Err (ErrMsg "fuel").
Proof.
  revert p data. induction f as [|f IH]; intros p [|i [|sz data]] Hf; simpl in *; try lia; try done.
  case_match; [done|]. apply IH. rewrite length_drop. lia.
Qed.

Lemma decode_one_Got buf p rest :
  decode_one buf = Got p rest → (length rest < length buf)%nat.
Proof.
  unfold decode_one, liteHeaderSize. destruct (Nat.ltb_spec (length buf) 12); [done|].
  case_match; [done|]. cbv zeta. case_match eqn:E; [done|]. case_match; [|done].
  intros [= _ <-]. rewrite length_drop. apply Nat.ltb_ge in E. lia.
Qed.

Lemma decode_loop_fuel f f' buf :
  (length buf ≤ f)%nat → (length buf ≤ f')%nat → decode_loop f buf = decode_loop f' buf.
Proof.
  revert f' buf. induction f as [|f IH]; intros [|f'] buf Hf Hf'; simpl.
  - done.
  - destruct buf; [done|simpl in *; lia].
  - destruct buf; [done|simpl in *; lia].
  - destruct (decode_one buf) as [| |p rest] eqn:E; [done..|].
    apply decode_one_Got in E. by rewrite (IH f') by lia.
Qed.

Lemma decode_options_nil f p : decode_options f p [] = Ok p.
Proof. by destruct f. Qed.

Lemma DecodePackets_eq buf :
  DecodePackets buf =
    match decode_one buf with
    | NeedMore => ([], buf, None)
    | Bad e => ([], buf, Some e)
    | Got p rest => let '(ps, rest, e) := DecodePackets rest in (p :: ps, rest, e)
    end.
Proof.
  unfold DecodePackets. destruct buf as [|b buf]; [done|]. cbn [length decode_loop].
  destruct (decode_one (b :: buf)) as [| |p rest] eqn:E; [done..|].
  apply decode_one_Got in E. simpl in E. by rewrite (decode_loop_fuel _ (length rest)) by lia.
Qed.

Lemma slice_app i j (b c : bytes) : (j ≤ length b)%nat → slice i j (b ++ c) = slice i j b.
Proof.
  intros Hj. unfold slice. destruct (decide (i ≤ j)%nat) as [Hij|].
  - rewrite drop_app_le, take_app_le; [done|rewrite length_drop; lia|lia].
  - by replace (j - i)%nat with 0%nat by lia.
Qed.

Lemma at_byte_app i (b c : bytes) : (i < length b)%nat → at_byte i (b ++ c) = at_byte i b.
Proof. intros. unfold at_byte. by rewrite app_nth1. Qed.

(** More bytes after a packet, or after a bad one, change nothing to it. *)
Lemma decode_one_app buf more :
  decode_one buf ≠ NeedMore →
  decode_one (buf ++ more) =
    match decode_one buf with Got p rest => Got p (rest ++ more) | r => r end.
Proof.
  unfold decode_one, liteHeaderSize. destruct (Nat.ltb_spec (length buf) 12) as [|H12]; [done|].
  rewrite length_app. destruct (Nat.ltb_spec (length buf + length more) 12); [lia|].
  rewrite app_nth1 by lia. case_match; [done|]. cbv zeta.
  unfold u16_at, header_packet, u16_at. rewrite !at_byte_app, !slice_app by lia.
  set (o := Z.to_nat _). set (pl := Z.to_nat _).
  destruct (Nat.ltb_spec (length buf) (12 + o + pl)) as [|Ht]; [done|].
  destruct (Nat.ltb_spec (length buf + length more) (12 + o + pl)); [lia|].
  rewrite !slice_app by lia. intros _. case_match; [|done].
  by rewrite drop_app_le by lia.
Qed.

(** Appending to the buffer what arrives and decoding again delivers the packets that
    decoding everything at once would, and the same outcome. *)
Lemma DecodePackets_app a b ps rest :
  DecodePackets a = (ps, rest, None) →
  DecodePackets (a ++ b) = let '(ps', rest', e) := DecodePackets (rest ++ b) in (ps ++ ps', rest', e).
Proof.
  remember (length a) as n eqn:Hn. revert a ps rest Hn.
  induction n as [n IH] using lt_wf_ind. intros a ps rest Hn. rewrite DecodePackets_eq.
  destruct (decode_one a) as [|e|p r] eqn:E; [|done|].
  - intros [= <- <-]. by destruct (DecodePackets (a ++ b)) as [[]].
  - destruct (DecodePackets r) as [[ps1 r1] e1] eqn:Er. intros [= <- <- ->].
    rewrite (DecodePackets_eq (a ++ b)), decode_one_app, E by congruence.
    erewrite (IH (length r)); [|subst n; by eapply decode_one_Got|done|done].
    by destruct (DecodePackets (r1 ++ b)) as [[]].
Qed.

(** ** Decoding what was encoded *)

(** A packet the code can hold and the format can carry: fields at their wire width,
    options that the packet's type carries, payload and options under their length fields. *)
Definition packet_ok (p : Packet) : Prop :=
  is_u 4 (p_Type p) ∧ is_u 12 (p_Flags p) ∧ is_u 4 (SourceType p) ∧ is_u 4 (DestType p) ∧
  is_u8 (SourcePort p) ∧ is_u8 (DestPort p) ∧ is_u8 (FragmentID p) ∧ is_u16 (PacketID p) ∧
  is_u8 (MinorVersion p) ∧ is_u 24 (SupportedFunc p) ∧
  zlen (Payload p) < 65536 ∧ zlen (Signature p) < 248 ∧ zlen (ConnectionSig p) < 248 ∧
  ((p_Type p = PacketSYN ∨ p_Type p = PacketCONNECT) ∨ MinorVersion p = 0 ∧ SupportedFunc p = 0) ∧
  ((p_Type p = PacketSYN ∧ HasFlag p FlagACK = true) ∨ ConnectionSig p = []) ∧
  ((p_Type p = PacketCONNECT ∧ HasFlag p FlagACK = false) ∨ Signature p = []).

Lemma nibbles a b :
  is_u 4 a → is_u 4 b →
  let v := Z.lor (u8 (Z.shiftl a 4)) (Z.land b 0xF) in
  is_u8 v ∧ Z.shiftr v 4 = a ∧ Z.land v 0xF = b.
Proof.
  intros Ha Hb v. subst v. unfold is_u in *.
  rewrite wrap_small by (unfold is_u; rewrite Z.shiftl_mul_pow2 by lia; lia).
  change 0xF with (2 ^ 4 - 1). rewrite !DateTime.land_ones_mod by lia.
  rewrite (Z.mod_small b) by lia. rewrite Z.lor_comm, DateTime.lor_shiftl_add by lia.
  rewrite Z.shiftr_div_pow2 by lia. Z.to_euclidean_division_equations; lia.
Qed.

Lemma type_flags_fields ty fl :
  is_u 4 ty → is_u 12 fl →
  is_u16 (type_flags ty fl) ∧ Z.land (type_flags ty fl) 0xF = ty ∧ Z.shiftr (type_flags ty fl) 4 = fl.
Proof.
  unfold is_u, type_flags. intros Ha Hb.
  rewrite wrap_small by (unfold is_u; rewrite Z.shiftl_mul_pow2 by lia; lia).
  change 0xF with (2 ^ 4 - 1). rewrite (DateTime.land_ones_mod ty) by lia.
  rewrite (Z.mod_small ty) by lia. rewrite DateTime.lor_shiftl_add by lia.
  rewrite DateTime.land_ones_mod by lia.
  rewrite Z.shiftr_div_pow2 by lia. Z.to_euclidean_division_equations; lia.
Qed.

Lemma support_fields mi sf :
  is_u8 mi → is_u 24 sf →
  let v := Z.lor mi (u32 (Z.shiftl sf 8)) in
  is_u32 v ∧ Z.land v 0xFF = mi ∧ Z.shiftr v 8 = sf.
Proof.
  intros Ha Hb v. subst v. unfold is_u in *.
  rewrite wrap_small by (unfold is_u; rewrite Z.shiftl_mul_pow2 by lia; lia).
  rewrite DateTime.lor_shiftl_add by lia. change 0xFF with (2 ^ 8 - 1).
  rewrite DateTime.land_ones_mod by lia.
  rewrite Z.shiftr_div_pow2 by lia. Z.to_euclidean_division_equations; lia.
Qed.

Lemma decode_options_step f p id size data :
  decode_options (S f) p (id :: size :: data) =
    if (length data <? Z.to_nat (Z_of_byte size))%nat then Err (ErrMsg "prudp-lite: truncated option value")
    else decode_options f (set_option p (Z_of_byte id) (take (Z.to_nat (Z_of_byte size)) data))
           (drop (Z.to_nat (Z_of_byte size)) data).
Proof. done. Qed.

(** One option off the front. *)
Lemma decode_put_option p id val rest :
  is_u8 id → zlen val < 256 →
  decodeLiteOptions p (put_option id val ++ rest) = decodeLiteOptions (set_option p id val) rest.
Proof.
  intros Hid Hv. unfold is_u in Hid. unfold decodeLiteOptions, put_option.
  pose proof (zlen_nonneg val).
  cbn [app length]. rewrite decode_options_step, !Z_of_byte_of_Z, !Z.mod_small by (unfold zlen in *; lia).
  unfold zlen in *. rewrite Nat2Z.id, length_app.
  destruct (Nat.ltb_spec (length val + length rest) (length val)); [lia|].
  rewrite take_app_exact, drop_app_exact by done. apply decode_options_fuel; lia.
Qed.

Lemma encodeLiteOptions_length p : packet_ok p → zlen (encodeLiteOptions p) < 256.
Proof.
  intros (_ & _ & _ & _ & _ & _ & _ & _ & _ & _ & _ & Hs & Hc & _).
  unfold encodeLiteOptions, PacketSYN, PacketCONNECT, put_option, zlen in *. rewrite !length_app.
  destruct (Z.eqb_spec (p_Type p) 0), (HasFlag p FlagACK), (Z.eqb_spec (p_Type p) 1);
    simpl; lia.
Qed.

(** The options of a packet, decoded over its header, give the packet back. *)
Lemma decode_encoded_options p :
  packet_ok p →
  decodeLiteOptions (mkPacket (p_Type p) (p_Flags p) (SourceType p) (SourcePort p) (DestType p)
    (DestPort p) (FragmentID p) (PacketID p) [] [] 0 0 []) (encodeLiteOptions p)
  = Ok (with_payload p []).
Proof.
  intros (_ & _ & _ & _ & _ & _ & _ & _ & Hmi & Hsf & _ & Hs & Hc & Hsup & Hcs & Hsg).
  pose proof (support_fields _ _ Hmi Hsf) as Hv. cbv zeta in Hv.
  unfold encodeLiteOptions. set (v := Z.lor (MinorVersion p) _) in *. clearbody v.
  destruct Hv as (Hv & Hlo & Hhi).
  assert (∀ q rest, decodeLiteOptions q (put_option optSupport (le_bytes 4 v) ++ rest) =
     decodeLiteOptions (let '(mkPacket ty fl st sp dt dp fr pi sg cs _ _ pl) := q in
       mkPacket ty fl st sp dt dp fr pi sg cs (MinorVersion p) (SupportedFunc p) pl) rest) as Hput.
  { intros [] rest. rewrite decode_put_option by done. f_equal. unfold set_option.
    change (optSupport =? optSupport) with true. cbv iota.
    change (zlen (le_bytes 4 v) =? 4) with true. cbv iota zeta.
    by rewrite le_val_u32, Hlo, Hhi. }
  destruct (Z.eqb_spec (p_Type p) PacketSYN) as [E|NE].
  - destruct Hsg as [[E' _]|Hsg]; [rewrite E in E'; done|].
    rewrite E. cbn [orb andb Z.eqb PacketSYN PacketCONNECT]. rewrite app_nil_r, Hput.
    destruct (HasFlag p FlagACK) eqn:F.
    + rewrite <- (app_nil_r (put_option _ _)), decode_put_option by (done || lia).
      destruct p; simpl in *. by subst.
    + destruct Hcs as [[_ ?]|Hcs]; [congruence|]. destruct p; simpl in *. by subst.
  - destruct Hcs as [[? _]|Hcs]; [done|]. destruct (Z.eqb_spec (p_Type p) PacketCONNECT) as [E|NE'].
    + cbn [orb andb]. rewrite app_nil_l, Hput. destruct (HasFlag p FlagACK) eqn:F.
      * destruct Hsg as [[_ ?]|Hsg]; [congruence|]. destruct p; simpl in *. by subst.
      * cbn [negb]. rewrite <- (app_nil_r (put_option _ _)), decode_put_option by (done || lia).
        destruct p; simpl in *. by subst.
    + destruct Hsg as [[? _]|Hsg]; [done|]. destruct Hsup as [[]|[]]; [done..|].
      destruct p; simpl in *. by subst.
Qed.

(** The fixed-size header in front of the options. *)
Definition lite_header (p : Packet) : bytes :=
  liteMagic :: byte_of_Z (zlen (encodeLiteOptions p)) ::
  le_bytes 2 (u16 (zlen (Payload p))) ++
  byte_of_Z (Z.lor (u8 (Z.shiftl (SourceType p) 4)) (Z.land (DestType p) 0xF)) ::
  byte_of_Z (SourcePort p) :: byte_of_Z (DestPort p) :: byte_of_Z (FragmentID p) ::
  le_bytes 2 (type_flags (p_Type p) (p_Flags p)) ++ le_bytes 2 (PacketID p).

Lemma EncodePacket_header p : EncodePacket p = lite_header p ++ encodeLiteOptions p ++ Payload p.
Proof. done. Qed.

Lemma byte_of_small v : is_u8 v → Z_of_byte (byte_of_Z v) = v.
Proof. unfold is_u. intros. rewrite Z_of_byte_of_Z. by apply Z.mod_small. Qed.

(** What the decoder reads in that header. *)
Lemma lite_header_fields p :
  packet_ok p →
  at_byte 1 (lite_header p) = zlen (encodeLiteOptions p) ∧
  u16_at 2 (lite_header p) = zlen (Payload p) ∧
  header_packet (lite_header p) =
    mkPacket (p_Type p) (p_Flags p) (SourceType p) (SourcePort p) (DestType p)
      (DestPort p) (FragmentID p) (PacketID p) [] [] 0 0 [].
Proof.
  intros Hok. pose proof (encodeLiteOptions_length p Hok) as Ho.
  destruct Hok as (Hty & Hfl & Hst & Hdt & Hsp & Hdp & Hfr & Hpi & _ & _ & Hpl & _).
  destruct (nibbles _ _ Hst Hdt) as (Hn & Hn1 & Hn2).
  destruct (type_flags_fields _ _ Hty Hfl) as (Htf & Htf1 & Htf2).
  pose proof (zlen_nonneg (encodeLiteOptions p)). pose proof (zlen_nonneg (Payload p)).
  split_and!.
  - unfold at_byte, lite_header. cbn [nth]. apply byte_of_small. unfold is_u. lia.
  - change (u16_at 2 (lite_header p)) with (le_val (le_bytes 2 (u16 (zlen (Payload p))))).
    rewrite wrap_small by (unfold is_u; lia). apply le_val_u16. unfold is_u. lia.
  - unfold header_packet.
    change (u16_at 8 (lite_header p)) with (le_val (le_bytes 2 (type_flags (p_Type p) (p_Flags p)))).
    change (u16_at 10 (lite_header p)) with (le_val (le_bytes 2 (PacketID p))).
    change (at_byte 4 (lite_header p)) with
      (Z_of_byte (byte_of_Z (Z.lor (u8 (Z.shiftl (SourceType p) 4)) (Z.land (DestType p) 0xF)))).
    change (at_byte 5 (lite_header p)) with (Z_of_byte (byte_of_Z (SourcePort p))).
    change (at_byte 6 (lite_header p)) with (Z_of_byte (byte_of_Z (DestPort p))).
    change (at_byte 7 (lite_header p)) with (Z_of_byte (byte_of_Z (FragmentID p))).
    rewrite !byte_of_small, !le_val_u16 by done. cbv zeta. by rewrite Htf1, Htf2, Hn1, Hn2.
Qed.

Lemma slice_mid i j (a b c : bytes) :
  i = length a → j = (length a + length b)%nat → slice i j (a ++ b ++ c) = b.
Proof.
  intros -> ->. unfold slice. rewrite drop_app_exact by done.
  apply take_app_exact. lia.
Qed.

Lemma decode_one_Encode p rest : packet_ok p → decode_one (EncodePacket p ++ rest) = Got p rest.
Proof.
  intros Hok. destruct (lite_header_fields p Hok) as (H1 & H2 & H3).
  pose proof (decode_encoded_options p Hok) as Hd.
  assert (length (lite_header p) = 12%nat) as L12 by done.
  rewrite EncodePacket_header, <- !app_assoc.
  unfold decode_one, liteHeaderSize. rewrite !length_app, L12.
  destruct (Nat.ltb_spec (12 + (length (encodeLiteOptions p) + (length (Payload p) + length rest))) 12); [lia|].
  rewrite app_nth1 by lia. cbn [nth lite_header]. rewrite bool_decide_true by done. cbn [negb].
  cbv zeta. rewrite at_byte_app, H1 by lia.
  assert (u16_at 2 (lite_header p ++ encodeLiteOptions p ++ Payload p ++ rest) = zlen (Payload p)) as ->.
  { unfold u16_at. by rewrite slice_app by lia. }
  assert (header_packet (lite_header p ++ encodeLiteOptions p ++ Payload p ++ rest)
          = header_packet (lite_header p)) as ->.
  { unfold header_packet, u16_at. by rewrite !slice_app, !at_byte_app by lia. }
  unfold zlen. rewrite !Nat2Z.id.
  destruct (Nat.ltb_spec (12 + (length (encodeLiteOptions p) + (length (Payload p) + length rest)))
    (12 + length (encodeLiteOptions p) + length (Payload p))); [lia|].
  rewrite (slice_mid 12) by lia. rewrite H3, Hd.
  rewrite (app_assoc (lite_header p)). rewrite slice_mid by (rewrite length_app; lia).
  rewrite (app_assoc (lite_header p ++ _)).
  rewrite drop_app_exact by (rewrite !length_app; lia). by destruct p.
Qed.

(** A run of packets followed by the beginning of another. *)
Lemma DecodePackets_Encode ps rest :
  Forall packet_ok ps → decode_one rest = NeedMore →
  DecodePackets (concat (EncodePacket <$> ps) ++ rest) = (ps, rest, None).
Proof.
  intros Hps Hr. induction Hps as [|p ps Hp _ IH].
  - simpl. by rewrite DecodePackets_eq, Hr.
  - cbn [fmap list_fmap concat]. change (list_fmap Packet bytes EncodePacket ps) with (EncodePacket <$> ps).
    rewrite <- app_assoc, DecodePackets_eq, decode_one_Encode by done. by rewrite IH.
Qed.

(** An IPv4 peer's signature does not depend on the random bytes. *)
Lemma ConnectionSignature_deterministic r1 r2 addr host port ip n :
  SplitHostPort addr = Some (host, port) → host_ipv4 host = Some ip → Atoi port = (n, None) →
  ConnectionSignature r1 addr = ConnectionSignature r2 addr ∧
  length (ConnectionSignature r1 addr) = 16%nat.
Proof.
  intros H1 H2 H3. unfold ConnectionSignature. rewrite H1, H2, H3. split; [done|apply length_hmac_md5].
Qed.
