(* ===== verification/PrudpUdp.v ===== *)
(** * Raw PRUDP V1 over UDP (src/prudp_udp.go, src/prudp_udp_server.go)

    The V1 packet codec with its signature, and the UDP secure server: the sessions a SYN
    opens, the ticket a CONNECT carries, the payloads handed to [OnData].  Datagrams are
    handled by one goroutine each; a session is shared by pointer, so the state keeps the
    session objects in a store and the map of sessions holds references to them. *)

From S2P Require Export PrudpLite.

Definition udpConnSigKey : bytes := liteConnSigKey.
Definition udpMagic0 : byte := xea.
Definition udpMagic1 : byte := xd0.
Definition udpHeaderSize : nat := 12.
Definition udpSignatureSize : nat := 16.

Definition optFragmentID : Z := 2.
Definition optUnreliableSeqID : Z := 3.
Definition optMaxSubstreamID : Z := 4.

Record UDPPacket := mkUDPPacket {
  u_Type : Z;
  u_Flags : Z;
  u_SourceType : Z;
  u_SourcePort : Z;
  u_DestType : Z;
  u_DestPort : Z;
  u_SessionID : Z;
  u_SubstreamID : Z;
  u_PacketID : Z;
  u_Signature : bytes;
  u_ConnectionSig : bytes;
  u_MinorVersion : Z;
  u_SupportedFunc : Z;
  u_InitialUnreliableID : Z;
  u_MaxSubstreamID : Z;
  u_FragmentID : Z;
  u_Payload : bytes
}.
#[export] Instance UDPPacket_eq_dec : EqDecision UDPPacket.
Proof. solve_decision. Defined.

Definition UDPPacket_HasFlag (p : UDPPacket) (f : Z) : bool := negb (Z.land (u_Flags p) f =? 0).

(** ** Encoding *)

(** The [putU] of [encodeUDPOptions]. *)
Definition putU (id val : Z) (size : nat) : bytes := put_option id (take size (le_bytes 4 (u32 val))).

Definition encodeUDPOptions (p : UDPPacket) : bytes :=
  if (u_Type p =? PacketSYN) || (u_Type p =? PacketCONNECT) then
    putU optSupport (Z.lor (u_MinorVersion p) (u32 (Z.shiftl (u_SupportedFunc p) 8))) 4 ++
    put_option optConnectionSig (u_ConnectionSig p) ++
    (if u_Type p =? PacketCONNECT then putU optUnreliableSeqID (u_InitialUnreliableID p) 2 else []) ++
    putU optMaxSubstreamID (u_MaxSubstreamID p) 1
  else if u_Type p =? PacketDATA then putU optFragmentID (u_FragmentID p) 1
  else [].

(** [(port&0xF)|(type<<4)] on bytes. *)
Definition station_byte (port ty : Z) : Z := Z.lor (Z.land port 0xF) (u8 (Z.shiftl ty 4)).

Definition buildUDPHeader12 (p : UDPPacket) (optionSize : Z) : bytes :=
  [x01; byte_of_Z optionSize] ++ le_bytes 2 (u16 (zlen (u_Payload p))) ++
  [byte_of_Z (station_byte (u_SourcePort p) (u_SourceType p));
   byte_of_Z (station_byte (u_DestPort p) (u_DestType p))] ++
  le_bytes 2 (type_flags (u_Type p) (u_Flags p)) ++
  [byte_of_Z (u_SessionID p); byte_of_Z (u_SubstreamID p)] ++ le_bytes 2 (u_PacketID p).

Definition EncodeUDPPacket (p : UDPPacket) : bytes :=
  let options := encodeUDPOptions p in
  let sig := if (length (u_Signature p) =? udpSignatureSize)%nat then u_Signature p
             else replicate_zero udpSignatureSize in
  [udpMagic0; udpMagic1] ++ buildUDPHeader12 p (zlen options) ++ sig ++ options ++ u_Payload p.

(** ** Decoding *)

(** The [switch] of [decodeUDPOptions]. *)
Definition set_udp_option (p : UDPPacket) (id : Z) (val : bytes) : UDPPacket :=
  let '(mkUDPPacket ty fl st sp dt dp se su pi sg cs mi sf iu ms fr pl) := p in
  if id =? optSupport then
    if zlen val =? 4 then
      mkUDPPacket ty fl st sp dt dp se su pi sg cs (Z.land (le_val val) 0xFF) (Z.shiftr (le_val val) 8) iu ms fr pl
    else p
  else if id =? optConnectionSig then mkUDPPacket ty fl st sp dt dp se su pi sg val mi sf iu ms fr pl
  else if id =? optUnreliableSeqID then
    if zlen val =? 2 then mkUDPPacket ty fl st sp dt dp se su pi sg cs mi sf (le_val val) ms fr pl else p
  else if id =? optMaxSubstreamID then
    if 1 <=? zlen val then mkUDPPacket ty fl st sp dt dp se su pi sg cs mi sf iu (at_byte 0 val) fr pl else p
  else if id =? optFragmentID then
    if 1 <=? zlen val then mkUDPPacket ty fl st sp dt dp se su pi sg cs mi sf iu ms (at_byte 0 val) pl else p
  else p.

Fixpoint decode_udp_options (fuel : nat) (p : UDPPacket) (data : bytes) : result UDPPacket :=
  match data with
  | [] => Ok p
  | [_] => Err (ErrMsg "prudp-v1: truncated option header")
  | id :: size :: data =>
      match fuel with
      | O => Err (ErrMsg "fuel")
      | S fuel =>
          let size := Z.to_nat (Z_of_byte size) in
          if (length data <? size)%nat then Err (ErrMsg "prudp-v1: truncated option value")
          else decode_udp_options fuel (set_udp_option p (Z_of_byte id) (take size data)) (drop size data)
      end
  end.

(** An option takes at least two bytes. *)
Definition decodeUDPOptions (p : UDPPacket) (data : bytes) : result UDPPacket :=
  decode_udp_options (length data) p data.

(** The fields of the fixed part. *)
Definition udp_header_packet (buf : bytes) : UDPPacket :=
  let tf := u16_at 8 buf in
  {| u_Type := Z.land tf 0xF; u_Flags := Z.shiftr tf 4;
     u_SourceType := Z.shiftr (at_byte 6 buf) 4; u_SourcePort := Z.land (at_byte 6 buf) 0xF;
     u_DestType := Z.shiftr (at_byte 7 buf) 4; u_DestPort := Z.land (at_byte 7 buf) 0xF;
     u_SessionID := at_byte 10 buf; u_SubstreamID := at_byte 11 buf; u_PacketID := u16_at 12 buf;
     u_Signature := slice 14 (14 + udpSignatureSize) buf; u_ConnectionSig := [];
     u_MinorVersion := 0; u_SupportedFunc := 0; u_InitialUnreliableID := 0; u_MaxSubstreamID := 0;
     u_FragmentID := 0; u_Payload := [] |}.

Definition udp_with_payload (p : UDPPacket) (pl : bytes) : UDPPacket :=
  let '(mkUDPPacket ty fl st sp dt dp se su pi sg cs mi sf iu ms fr _) := p in
  mkUDPPacket ty fl st sp dt dp se su pi sg cs mi sf iu ms fr pl.

(** One turn of the loop on a buffer that is not empty: the packet and what follows it. *)
Definition decode_udp_one (buf : bytes) : result (UDPPacket * bytes) :=
  if (length buf <? 2 + udpHeaderSize + udpSignatureSize)%nat then Err (ErrMsg "prudp-v1: packet too short")
  else if negb (bool_decide (nth 0 buf x00 = udpMagic0)) || negb (bool_decide (nth 1 buf x00 = udpMagic1))
  then Err (ErrMsg "prudp-v1: invalid magic")
  else if negb (at_byte 2 buf =? 1) then Err (ErrMsg "prudp-v1: unsupported version")
  else
    let optSize := Z.to_nat (at_byte 3 buf) in
    let payloadSize := Z.to_nat (u16_at 4 buf) in
    let total := (2 + udpHeaderSize + udpSignatureSize + optSize + payloadSize)%nat in
    if (length buf <? total)%nat then Err (ErrMsg "prudp-v1: truncated packet")
    else
      let optStart := (14 + udpSignatureSize)%nat in
      try! p := decodeUDPOptions (udp_header_packet buf) (slice optStart (optStart + optSize) buf) in
      let payloadStart := (optStart + optSize)%nat in
      Ok (udp_with_payload p (slice payloadStart (payloadStart + payloadSize) buf), drop total buf).

Fixpoint decode_udp_loop (fuel : nat) (buf : bytes) : list UDPPacket * option error :=
  match buf, fuel with
  | [], _ => ([], None)
  | _, O => ([], Some (ErrMsg "fuel"))
  | _, S fuel =>
      match decode_udp_one buf with
      | Err e => ([], Some e)
      | Ok (p, rest) => let '(ps, e) := decode_udp_loop fuel rest in (p :: ps, e)
      end
  end.

(** A packet takes at least its header: [length buf] turns are enough. *)
Definition DecodeUDPPackets (buf : bytes) : list UDPPacket * option error := decode_udp_loop (length buf) buf.

(** ** Signatures *)

(** [rnd]: the random bytes of a peer without an IPv4 address. *)
Definition UDPConnectionSignature (rnd : bytes) (addr : UDPAddr) : bytes :=
  match IP_To4 (u_IP addr) with
  | None => rnd
  | Some ip4 => hmacMD5 udpConnSigKey (ip4 ++ be_bytes16 (u_Port addr))
  end.

Definition UDPPacketSignature (accessKey : bytes) (p : UDPPacket) (options sessionKey connectionSig : bytes) : bytes :=
  let header := buildUDPHeader12 p (zlen options) in
  let sum := foldl (λ s c, u32 (s + Z_of_byte c)) 0 accessKey in
  hmac_md5 (md5Sum accessKey)
    (drop 4 header ++ sessionKey ++ le_bytes 4 sum ++ connectionSig ++ options ++ u_Payload p).

(** The cipher error is dropped by the code. *)
Definition rc4Crypt (key data : bytes) : result bytes := XORKeyStream (NewCipher key) data.

(** ** The server *)
Record udpSession := mkUdpSession {
  connSig : bytes;
  sessionKey : option bytes;
  callerPID : Z;
  nextPacket : Z
}.

(** What the server does outside: a datagram written, a payload given to [OnData]. *)
Inductive UDPEvent :=
  | WriteToUDP (out : bytes) (remote : UDPAddr)
  | OnData (remote : UDPAddr) (payload : bytes).
#[export] Instance UDPEvent_eq_dec : EqDecision UDPEvent.
Proof. solve_decision. Defined.

Record UDPServer := mkUDPServer {
  udp_sessions : gmap bytes nat;
  udp_heap : gmap nat udpSession;
  udp_next : nat
}.
Definition new_udp_server : UDPServer := mkUDPServer ∅ ∅ 0.

Section server.
Context (s : Settings) (SecureKey : bytes).
Implicit Types (st : UDPServer) (p : UDPPacket) (remote : UDPAddr).

(** [reply]: the addresses exchanged and the signature put on the packet. *)
Definition udp_reply remote p (sessionKey : bytes) : UDPEvent :=
  let sig := UDPPacketSignature (AccessKey s) p (encodeUDPOptions p) sessionKey (u_ConnectionSig p) in
  let '(mkUDPPacket ty fl sty sp dt dp se su pi _ cs mi sf iu ms fr pl) := p in
  WriteToUDP (EncodeUDPPacket (mkUDPPacket ty fl sty sp dt dp se su pi sig cs mi sf iu ms fr pl)) remote.

(** The packet literals of the answers. *)
Definition answer_packet (ty : Z) p (connSig : bytes) (supported : Z) : UDPPacket :=
  {| u_Type := ty; u_Flags := FlagACK;
     u_SourceType := u_DestType p; u_SourcePort := u_DestPort p;
     u_DestType := u_SourceType p; u_DestPort := u_SourcePort p;
     u_SessionID := u_SessionID p; u_SubstreamID := 0; u_PacketID := u_PacketID p;
     u_Signature := []; u_ConnectionSig := connSig; u_MinorVersion := 0; u_SupportedFunc := supported;
     u_InitialUnreliableID := 0; u_MaxSubstreamID := 0; u_FragmentID := 0; u_Payload := [] |}.

(** [rnd]: the random signature of a peer without an IPv4 address. *)
Definition handleSYN (rnd : bytes) remote p st : UDPServer * list UDPEvent :=
  let sig := UDPConnectionSignature rnd remote in
  (mkUDPServer (<[UDPString remote := udp_next st]> (udp_sessions st))
     (<[udp_next st := mkUdpSession sig None 0 0]> (udp_heap st)) (S (udp_next st)),
   [udp_reply remote (answer_packet PacketSYN p sig 4) []]).

Definition heap_session st (r : nat) : udpSession := default (mkUdpSession [] None 0 0) (udp_heap st !! r).
Definition set_session st (r : nat) (x : udpSession) : UDPServer :=
  mkUDPServer (udp_sessions st) (<[r := x]> (udp_heap st)) (udp_next st).

(** What a CONNECT does to the session it found; the error is a panic of the decryption. *)
Definition connect_session p (x : udpSession) : result udpSession :=
  if 0 <? zlen (u_Payload p) then
    match DecryptServerTicket (u_Payload p) SecureKey s with
    | Ok t => Ok (mkUdpSession (connSig x) (Some (st_SessionKey t)) (st_Source t) (nextPacket x))
    | Err Panic => Err Panic
    | Err _ => Ok x
    end
  else Ok x.

(** [handleCONNECT] once the session is found. *)
Definition finish_CONNECT (r : nat) remote p st : result (UDPServer * list UDPEvent) :=
  try! x := connect_session p (heap_session st r) in
  Ok (set_session st r x,
      [udp_reply remote (answer_packet PacketCONNECT p (connSig x) 4) (default [] (sessionKey x))]).

(** [handleDATA] once the session is found. *)
Definition finish_DATA (r : nat) remote p st : result (UDPServer * list UDPEvent) :=
  match sessionKey (heap_session st r) with
  | None => Ok (st, [])
  | Some key =>
      try! plain := rc4Crypt key (u_Payload p) in
      Ok (st,
          (if UDPPacket_HasFlag p FlagNeedACK || UDPPacket_HasFlag p FlagReliable
           then [udp_reply remote (answer_packet PacketDATA p [] 0) []] else []) ++
          [OnData remote plain])
  end.

(** The packets that need the session of their address. *)
Definition needs_session p : bool := (u_Type p =? PacketCONNECT) || (u_Type p =? PacketDATA).

(** [handleCONNECT] and [handleDATA] are in two parts: the look-up under the lock, and the rest. *)
Definition finish_session (r : nat) remote p st : result (UDPServer * list UDPEvent) :=
  if u_Type p =? PacketCONNECT then finish_CONNECT r remote p st else finish_DATA r remote p st.

(** The other branches of [handleOne]. *)
Definition handle_plain (rnd : bytes) remote p st : UDPServer * list UDPEvent :=
  if u_Type p =? PacketSYN then handleSYN rnd remote p st
  else if u_Type p =? PacketPING then (st, [udp_reply remote (answer_packet PacketPING p [] 0) []])
  else if u_Type p =? PacketDISCONNECT then
    (mkUDPServer (delete (UDPString remote) (udp_sessions st)) (udp_heap st) (udp_next st), [])
  else (st, []).

(** [handleOne], when nothing runs between its two parts. *)
Definition handleOne (rnd : bytes) remote p st : result (UDPServer * list UDPEvent) :=
  if needs_session p then
    match udp_sessions st !! UDPString remote with
    | None => Ok (st, [])
    | Some r => finish_session r remote p st
    end
  else Ok (handle_plain rnd remote p st).

(** The loop of [handlePacket]: a datagram that does not decode to its end is dropped whole. *)
Fixpoint handle_packets (rnd : bytes) remote (ps : list UDPPacket) st : result (UDPServer * list UDPEvent) :=
  match ps with
  | [] => Ok (st, [])
  | p :: ps =>
      try! '(st, ev) := handleOne rnd remote p st in
      try! '(st, ev') := handle_packets rnd remote ps st in
      Ok (st, ev ++ ev')
  end.
Definition handlePacket (rnd : bytes) remote (data : bytes) st : result (UDPServer * list UDPEvent) :=
  match DecodeUDPPackets data with
  | (_, Some _) => Ok (st, [])
  | (ps, None) => handle_packets rnd remote ps st
  end.

(** *** Goroutines

    A goroutine has its peer, the packets left, and the session the first of them has found
    when it is between the two parts. *)
Record udpThread := mkUdpThread { ut_remote : UDPAddr; ut_packets : list UDPPacket; ut_held : option nat }.

(** The server, its goroutines, what was received and what was done, oldest first. *)
Record UDPWorld := mkUDPWorld {
  uw_server : UDPServer;
  uw_threads : list udpThread;
  uw_received : list (UDPAddr * bytes);
  uw_events : list UDPEvent
}.

Inductive udp_step : UDPWorld → UDPWorld → Prop :=
  | udp_receive st ts rs es remote data ps :
      DecodeUDPPackets data = (ps, None) →
      udp_step (mkUDPWorld st ts rs es)
               (mkUDPWorld st (ts ++ [mkUdpThread remote ps None]) (rs ++ [(remote, data)]) es)
  | udp_drop st ts rs es remote data ps e :
      DecodeUDPPackets data = (ps, Some e) →
      udp_step (mkUDPWorld st ts rs es) (mkUDPWorld st ts (rs ++ [(remote, data)]) es)
  | udp_plain st ts1 ts2 rs es remote p ps rnd st' ev :
      needs_session p = false → handle_plain rnd remote p st = (st', ev) →
      udp_step (mkUDPWorld st (ts1 ++ mkUdpThread remote (p :: ps) None :: ts2) rs es)
               (mkUDPWorld st' (ts1 ++ mkUdpThread remote ps None :: ts2) rs (es ++ ev))
  | udp_lookup st ts1 ts2 rs es remote p ps r :
      needs_session p = true → udp_sessions st !! UDPString remote = Some r →
      udp_step (mkUDPWorld st (ts1 ++ mkUdpThread remote (p :: ps) None :: ts2) rs es)
               (mkUDPWorld st (ts1 ++ mkUdpThread remote (p :: ps) (Some r) :: ts2) rs es)
  | udp_unknown st ts1 ts2 rs es remote p ps :
      needs_session p = true → udp_sessions st !! UDPString remote = None →
      udp_step (mkUDPWorld st (ts1 ++ mkUdpThread remote (p :: ps) None :: ts2) rs es)
               (mkUDPWorld st (ts1 ++ mkUdpThread remote ps None :: ts2) rs es)
  | udp_finish st ts1 ts2 rs es remote p ps r st' ev :
      finish_session r remote p st = Ok (st', ev) →
      udp_step (mkUDPWorld st (ts1 ++ mkUdpThread remote (p :: ps) (Some r) :: ts2) rs es)
               (mkUDPWorld st' (ts1 ++ mkUdpThread remote ps None :: ts2) rs (es ++ ev)).

Definition udp_start : UDPWorld := mkUDPWorld new_udp_server [] [] [].
End server.
