(* ===== verification/PrudpUdpProps.v ===== *)
(** * What raw PRUDP over UDP guarantees

    The V1 codec gives back the packets it encoded, and the UDP server hands to [OnData] only
    what a session opened with a genuine ticket decrypts. *)

From S2P Require Export PrudpUdp.

(** ** The option loop *)
Lemma decode_udp_options_fuel f f' p data :
  (length data ≤ f)%nat → (length data ≤ f')%nat → decode_udp_options f p data = decode_udp_options f' p data.
Proof.
  revert f' p data. induction f as [|f IH]; intros [|f'] p [|i [|sz data]] Hf Hf'; simpl in *;
    try lia; try done.
  case_match; [done|]. apply IH; rewrite length_drop; lia.
Qed.

Lemma decode_udp_options_step f p id size data :
  decode_udp_options (S f) p (id :: size :: data) =
    if (length data <? Z.to_nat (Z_of_byte size))%nat then Err (ErrMsg "prudp-v1: truncated option value")
    else decode_udp_options f (set_udp_option p (Z_of_byte id) (take (Z.to_nat (Z_of_byte size)) data))
           (drop (Z.to_nat (Z_of_byte size)) data).
Proof. done. Qed.

Lemma decode_put_udp_option p id val rest :
  is_u8 id → zlen val < 256 →
  decodeUDPOptions p (put_option id val ++ rest) = decodeUDPOptions (set_udp_option p id val) rest.
Proof.
  intros Hid Hv. unfold is_u in Hid. unfold decodeUDPOptions, put_option.
  pose proof (zlen_nonneg val).
  cbn [app length]. rewrite decode_udp_options_step, !Z_of_byte_of_Z, !Z.mod_small by (unfold zlen in *; lia).
  unfold zlen in *. rewrite Nat2Z.id, length_app.
  destruct (Nat.ltb_spec (length val + length rest) (length val)); [lia|].
  rewrite take_app_exact, drop_app_exact by done. apply decode_udp_options_fuel; lia.
Qed.

(** ** Packets the format can carry *)
Definition udp_packet_ok (p : UDPPacket) : Prop :=
  (is_u 4 (u_Type p) ∧ is_u 12 (u_Flags p)) ∧
  (is_u 4 (u_SourceType p) ∧ is_u 4 (u_SourcePort p) ∧ is_u 4 (u_DestType p) ∧ is_u 4 (u_DestPort p)) ∧
  (is_u8 (u_SessionID p) ∧ is_u8 (u_SubstreamID p) ∧ is_u16 (u_PacketID p) ∧ length (u_Signature p) = 16%nat) ∧
  (zlen (u_ConnectionSig p) < 241 ∧ is_u8 (u_MinorVersion p) ∧ is_u 24 (u_SupportedFunc p) ∧
   is_u16 (u_InitialUnreliableID p) ∧ is_u8 (u_MaxSubstreamID p) ∧ is_u8 (u_FragmentID p)) ∧
  zlen (u_Payload p) < 65536 ∧
  ((u_Type p = PacketSYN ∨ u_Type p = PacketCONNECT) ∨
   u_ConnectionSig p = [] ∧ u_MinorVersion p = 0 ∧ u_SupportedFunc p = 0 ∧ u_MaxSubstreamID p = 0) ∧
  (u_Type p = PacketCONNECT ∨ u_InitialUnreliableID p = 0) ∧
  (u_Type p = PacketDATA ∨ u_FragmentID p = 0).

#[export] Instance udp_packet_ok_dec p : Decision (udp_packet_ok p).
Proof. unfold udp_packet_ok. apply _. Defined.

Lemma zlen_putU id v n : (n ≤ 4)%nat → zlen (putU id v n) = 2 + Z.of_nat n.
Proof.
  intros Hn. unfold putU, put_option, zlen. cbn [length]. rewrite length_take, length_le_bytes. lia.
Qed.

Lemma encodeUDPOptions_length p : udp_packet_ok p → zlen (encodeUDPOptions p) < 256.
Proof.
  intros (_ & _ & _ & (Hc & _) & _). unfold encodeUDPOptions.
  repeat case_match; rewrite ?zlen_app, ?zlen_putU by lia; unfold put_option; unfold zlen in *; simpl; lia.
Qed.

Lemma le_val_putU v n : is_u (8 * Z.of_nat n) v → (n ≤ 4)%nat → le_val (take n (le_bytes 4 (u32 v))) = v.
Proof.
  intros Hv Hn. rewrite wrap_small by (eapply is_u_mono; [|done]; lia).
  assert (take n (le_bytes 4 v) = le_bytes n v) as ->.
  { do 5 (destruct n as [|n]; [done|]). lia. }
  rewrite le_val_le_bytes. apply Z.mod_small. unfold is_u in Hv.
  rewrite Z.pow_mul_r in Hv by lia. exact Hv.
Qed.

Lemma decode_putU p id v n rest :
  is_u8 id → (n ≤ 4)%nat →
  decodeUDPOptions p (putU id v n ++ rest) = decodeUDPOptions (set_udp_option p id (take n (le_bytes 4 (u32 v)))) rest.
Proof.
  intros Hid Hn. unfold putU. apply decode_put_udp_option; [done|].
  unfold zlen. rewrite length_take, length_le_bytes. lia.
Qed.

Lemma at_byte_putU v : is_u8 v → at_byte 0 (take 1 (le_bytes 4 (u32 v))) = v.
Proof.
  intros Hv. rewrite wrap_small by (eapply is_u_mono; [|done]; lia).
  change (at_byte 0 (take 1 (le_bytes 4 v))) with (Z_of_byte (byte_of_Z v)). by apply byte_of_small.
Qed.

(** What each option sets. *)
Section options.
Context (ty fl st sp dt dp se su pi : Z) (sg cs : bytes) (mi sf iu ms fr : Z) (pl rest : bytes).
#[local] Abbreviation pkt := (mkUDPPacket ty fl st sp dt dp se su pi sg).

Lemma decode_support m f :
  is_u8 m → is_u 24 f →
  decodeUDPOptions (pkt cs mi sf iu ms fr pl) (putU optSupport (Z.lor m (u32 (Z.shiftl f 8))) 4 ++ rest)
  = decodeUDPOptions (pkt cs m f iu ms fr pl) rest.
Proof.
  intros Hm Hf. destruct (support_fields _ _ Hm Hf) as (Hv & Hlo & Hhi). rewrite decode_putU by (done || lia).
  pose proof (le_val_putU _ 4 Hv ltac:(lia)) as Ev. unfold set_udp_option.
  rewrite Z.eqb_refl, Ev. by rewrite Hlo, Hhi.
Qed.

Lemma decode_connection_sig c :
  zlen c < 256 →
  decodeUDPOptions (pkt cs mi sf iu ms fr pl) (put_option optConnectionSig c ++ rest)
  = decodeUDPOptions (pkt c mi sf iu ms fr pl) rest.
Proof. intros Hc. by rewrite decode_put_udp_option. Qed.

Lemma decode_unreliable u :
  is_u16 u →
  decodeUDPOptions (pkt cs mi sf iu ms fr pl) (putU optUnreliableSeqID u 2 ++ rest)
  = decodeUDPOptions (pkt cs mi sf u ms fr pl) rest.
Proof.
  intros Hu. rewrite decode_putU by (done || lia). pose proof (le_val_putU u 2 Hu ltac:(lia)) as E.
  unfold set_udp_option. simpl Z.eqb. by rewrite E.
Qed.

Lemma decode_substream m :
  is_u8 m →
  decodeUDPOptions (pkt cs mi sf iu ms fr pl) (putU optMaxSubstreamID m 1 ++ rest)
  = decodeUDPOptions (pkt cs mi sf iu m fr pl) rest.
Proof.
  intros Hm. rewrite decode_putU by (done || lia). pose proof (at_byte_putU m Hm) as E.
  unfold set_udp_option. simpl Z.eqb. by rewrite E.
Qed.

Lemma decode_fragment m :
  is_u8 m →
  decodeUDPOptions (pkt cs mi sf iu ms fr pl) (putU optFragmentID m 1 ++ rest)
  = decodeUDPOptions (pkt cs mi sf iu ms m pl) rest.
Proof.
  intros Hm. rewrite decode_putU by (done || lia). pose proof (at_byte_putU m Hm) as E.
  unfold set_udp_option. simpl Z.eqb. by rewrite E.
Qed.
End options.

(** A packet with its options left out: what the decoder starts from. *)
Definition bare (p : UDPPacket) : UDPPacket :=
  let '(mkUDPPacket ty fl st sp dt dp se su pi sg _ _ _ _ _ _ _) := p in
  mkUDPPacket ty fl st sp dt dp se su pi sg [] 0 0 0 0 0 [].

Lemma decode_encoded_udp_options p :
  udp_packet_ok p → decodeUDPOptions (bare p) (encodeUDPOptions p) = Ok (udp_with_payload p []).
Proof.
  intros (_ & _ & _ & (Hcs & Hmi & Hsf & Hiu & Hms & Hfr) & _ & Hsup & Hi & Hf).
  destruct p as [ty fl st sp dt dp se su pi sg cs mi sf iu ms fr pl].
  unfold encodeUDPOptions, bare, udp_with_payload.
  cbn [u_Type u_ConnectionSig u_MinorVersion u_SupportedFunc u_InitialUnreliableID u_MaxSubstreamID u_FragmentID] in *.
  destruct (Z.eqb_spec ty PacketSYN) as [E|NE]; [|destruct (Z.eqb_spec ty PacketCONNECT) as [E|NE']].
  - subst ty. change (PacketSYN =? PacketCONNECT) with false. cbn [orb]. cbv iota. rewrite app_nil_l.
    destruct Hi as [|Hi]; [done|]. destruct Hf as [|Hf]; [done|]. subst.
    by rewrite decode_support, decode_connection_sig, <- (app_nil_r (putU optMaxSubstreamID _ _)), decode_substream
      by (done || lia).
  - subst ty. destruct Hf as [|Hf]; [done|]. subst. cbn [orb]. cbv iota.
    by rewrite decode_support, decode_connection_sig, decode_unreliable,
      <- (app_nil_r (putU optMaxSubstreamID _ _)), decode_substream by (done || lia).
  - destruct Hsup as [[?|?]|(-> & -> & -> & ->)]; [done..|]. destruct Hi as [|Hi]; [done|]. subst. cbn [orb]. cbv iota.
    destruct (Z.eqb_spec ty PacketDATA) as [E|NE''].
    + by rewrite <- (app_nil_r (putU _ _ _)), decode_fragment.
    + by destruct Hf as [done| ->].
Qed.

(** ** The fixed part *)
Definition udp_header (p : UDPPacket) : bytes :=
  [udpMagic0; udpMagic1] ++ buildUDPHeader12 p (zlen (encodeUDPOptions p)) ++ u_Signature p.

Lemma EncodeUDPPacket_header p :
  length (u_Signature p) = 16%nat → EncodeUDPPacket p = udp_header p ++ encodeUDPOptions p ++ u_Payload p.
Proof. intros H. unfold EncodeUDPPacket, udp_header, udpSignatureSize. rewrite H. cbv zeta. by rewrite <- !app_assoc. Qed.

Lemma length_udp_header p : length (u_Signature p) = 16%nat → length (udp_header p) = 30%nat.
Proof. intros H. unfold udp_header, buildUDPHeader12. rewrite !length_app, !length_le_bytes, H. done. Qed.

Lemma station_byte_fields port ty :
  is_u 4 port → is_u 4 ty →
  is_u8 (station_byte port ty) ∧ Z.shiftr (station_byte port ty) 4 = ty ∧ Z.land (station_byte port ty) 0xF = port.
Proof. intros Hp Ht. unfold station_byte. rewrite Z.lor_comm. by apply nibbles. Qed.

Lemma udp_header_fields p :
  udp_packet_ok p →
  at_byte 3 (udp_header p) = zlen (encodeUDPOptions p) ∧ u16_at 4 (udp_header p) = zlen (u_Payload p) ∧
  udp_header_packet (udp_header p) = bare p.
Proof.
  intros Hok. pose proof (encodeUDPOptions_length p Hok) as Ho.
  destruct Hok as ((Hty & Hfl) & (Hst & Hsp & Hdt & Hdp) & (Hse & Hsu & Hpi & Hsg) & _ & Hpl & _).
  destruct (station_byte_fields _ _ Hsp Hst) as (Hs & Hs1 & Hs2).
  destruct (station_byte_fields _ _ Hdp Hdt) as (Hd & Hd1 & Hd2).
  destruct (type_flags_fields _ _ Hty Hfl) as (Htf & Htf1 & Htf2).
  pose proof (zlen_nonneg (encodeUDPOptions p)). pose proof (zlen_nonneg (u_Payload p)).
  split_and!.
  - change (at_byte 3 (udp_header p)) with (Z_of_byte (byte_of_Z (zlen (encodeUDPOptions p)))).
    apply byte_of_small. unfold is_u. lia.
  - change (u16_at 4 (udp_header p)) with (le_val (le_bytes 2 (u16 (zlen (u_Payload p))))).
    rewrite wrap_small by (unfold is_u; lia). apply le_val_u16. unfold is_u. lia.
  - unfold udp_header_packet.
    change (u16_at 8 (udp_header p)) with (le_val (le_bytes 2 (type_flags (u_Type p) (u_Flags p)))).
    change (u16_at 12 (udp_header p)) with (le_val (le_bytes 2 (u_PacketID p))).
    change (at_byte 6 (udp_header p)) with (Z_of_byte (byte_of_Z (station_byte (u_SourcePort p) (u_SourceType p)))).
    change (at_byte 7 (udp_header p)) with (Z_of_byte (byte_of_Z (station_byte (u_DestPort p) (u_DestType p)))).
    change (at_byte 10 (udp_header p)) with (Z_of_byte (byte_of_Z (u_SessionID p))).
    change (at_byte 11 (udp_header p)) with (Z_of_byte (byte_of_Z (u_SubstreamID p))).
    change (slice 14 (14 + udpSignatureSize) (udp_header p)) with (take 16 (u_Signature p)).
    rewrite !byte_of_small, !le_val_u16, take_ge by (done || lia). cbv zeta.
    rewrite Htf1, Htf2, Hs1, Hs2, Hd1, Hd2. by destruct p.
Qed.

Lemma decode_udp_one_Encode p rest : udp_packet_ok p → decode_udp_one (EncodeUDPPacket p ++ rest) = Ok (p, rest).
Proof.
  intros Hok. destruct (udp_header_fields p Hok) as (H1 & H2 & H3).
  pose proof (decode_encoded_udp_options p Hok) as Hd.
  assert (length (u_Signature p) = 16%nat) as Hsig by apply Hok.
  pose proof (length_udp_header p Hsig) as L.
  rewrite EncodeUDPPacket_header, <- !app_assoc by done.
  set (h := udp_header p) in *. assert (∃ tl, h = [udpMagic0; udpMagic1; x01] ++ tl) as [tl Hh] by by eexists.
  unfold decode_udp_one, udpHeaderSize, udpSignatureSize. rewrite !length_app, L.
  set (o := encodeUDPOptions p) in *. set (pl := u_Payload p) in *.
  destruct (Nat.ltb_spec (30 + (length o + (length pl + length rest))) (2 + 12 + 16)); [lia|].
  rewrite !app_nth1 by lia.
  assert (nth 0 h x00 = udpMagic0 ∧ nth 1 h x00 = udpMagic1 ∧ at_byte 2 h = 1) as (-> & -> & Hv) by (rewrite Hh; done).
  rewrite !bool_decide_true by done. cbn [negb orb]. rewrite !at_byte_app, Hv, H1 by lia. cbn [negb Z.eqb Pos.eqb].
  cbv zeta.
  assert (u16_at 4 (h ++ o ++ pl ++ rest) = zlen pl) as -> by (unfold u16_at in *; by rewrite slice_app by lia).
  assert (udp_header_packet (h ++ o ++ pl ++ rest) = udp_header_packet h) as ->.
  { unfold udp_header_packet, u16_at, udpSignatureSize. by rewrite !slice_app, !at_byte_app by lia. }
  unfold zlen. rewrite !Nat2Z.id.
  destruct (Nat.ltb_spec (30 + (length o + (length pl + length rest))) (2 + 12 + 16 + length o + length pl)); [lia|].
  rewrite (slice_mid (14 + 16)) by lia. rewrite H3, Hd. cbn [result_bind].
  rewrite (app_assoc h). rewrite slice_mid by (rewrite length_app; lia).
  rewrite (app_assoc (h ++ o)). rewrite drop_app_exact by (rewrite !length_app; lia). subst pl. by destruct p.
Qed.

Lemma decode_udp_one_shorter buf p rest : decode_udp_one buf = Ok (p, rest) → (length rest < length buf)%nat.
Proof.
  unfold decode_udp_one. case_match eqn:E; [done|]. do 2 (case_match; [done|]). cbv zeta.
  case_match eqn:Et; [done|]. destruct (decodeUDPOptions _ _); [|done]. intros [= _ <-].
  rewrite length_drop. apply Nat.ltb_ge in E, Et. unfold udpHeaderSize in *. lia.
Qed.

Lemma decode_udp_loop_fuel f f' buf :
  (length buf ≤ f)%nat → (length buf ≤ f')%nat → decode_udp_loop f buf = decode_udp_loop f' buf.
Proof.
  revert f' buf. induction f as [|f IH]; intros [|f'] [|b buf] Hf Hf'; simpl in *; try done; try lia.
  destruct (decode_udp_one (b :: buf)) as [[p rest]|] eqn:E; [|done].
  apply decode_udp_one_shorter in E. simpl in E. by rewrite (IH f') by lia.
Qed.

Lemma DecodeUDPPackets_eq b buf :
  DecodeUDPPackets (b :: buf) =
    match decode_udp_one (b :: buf) with
    | Err e => ([], Some e)
    | Ok (p, rest) => let '(ps, e) := DecodeUDPPackets rest in (p :: ps, e)
    end.
Proof.
  unfold DecodeUDPPackets. cbn [decode_udp_loop length].
  destruct (decode_udp_one (b :: buf)) as [[p rest]|] eqn:E; [|done].
  apply decode_udp_one_shorter in E. simpl in E. by rewrite (decode_udp_loop_fuel _ (length rest)) by lia.
Qed.

(** C36: a run of V1 packets put end to end in one datagram decodes to those packets, every
    field of each, and no error; any remainder shorter than a header is an error that leaves
    the packets decoded but makes the server drop the datagram. *)
Theorem udp_packets_roundtrip ps rest :
  Forall udp_packet_ok ps → (length rest < 30)%nat →
  DecodeUDPPackets (concat (EncodeUDPPacket <$> ps) ++ rest) =
    (ps, if decide (rest = []) then None else Some (ErrMsg "prudp-v1: packet too short")).
Proof.
  intros Hps Hr. induction Hps as [|p ps Hp _ IH].
  - simpl. destruct rest as [|b rest]; [done|]. rewrite DecodeUDPPackets_eq.
    unfold decode_udp_one, udpHeaderSize, udpSignatureSize.
    by destruct (Nat.ltb_spec (length (b :: rest)) (2 + 12 + 16)); [|lia].
  - rewrite fmap_cons. cbn [concat]. rewrite <- app_assoc.
    pose proof (decode_udp_one_Encode p (concat (EncodeUDPPacket <$> ps) ++ rest) Hp) as E.
    destruct (EncodeUDPPacket p ++ _) as [|b buf] eqn:Eb; [done|].
    by rewrite DecodeUDPPackets_eq, E, IH.
Qed.

Lemma udp_packets_roundtrip_witness :
  let syn := mkUDPPacket PacketSYN FlagNeedACK 0xA 1 0xA 0xF 7 0 1 (replicate 16 x2a) (str "sig") 0 4 0 0 0 [] in
  let data := mkUDPPacket PacketDATA (Z.lor FlagReliable FlagNeedACK) 0xA 1 0xA 0xF 7 0 2 (replicate 16 x2b) [] 0 0 0 0 3 (str "hello") in
  DecodeUDPPackets (concat (EncodeUDPPacket <$> [syn; data]) ++ [xea]) =
    ([syn; data], Some (ErrMsg "prudp-v1: packet too short")).
Proof.
  intros syn data. apply (udp_packets_roundtrip [syn; data] [xea]).
  - apply (bool_decide_eq_true_1 (Forall udp_packet_ok [syn; data])). vm_compute. reflexivity.
  - simpl. lia.
Defined.

(** ** Who is heard *)
Section sessions.
Context (s : Settings) (SecureKey : bytes).

(** A packet of type [ty] of a datagram received from [remote]. *)
Definition heard (rs : list (UDPAddr * bytes)) (remote : UDPAddr) (ty : Z) (p : UDPPacket) : Prop :=
  ∃ data ps, (remote, data) ∈ rs ∧ DecodeUDPPackets data = (ps, None) ∧ p ∈ ps ∧ u_Type p = ty.

(** A genuine ticket, decrypted with the server's key, that a CONNECT from the address [k] carried. *)
Definition presented (rs : list (UDPAddr * bytes)) (k : bytes) (t : ServerTicket) : Prop :=
  ∃ remote c, UDPString remote = k ∧ heard rs remote PacketCONNECT c ∧
    DecryptServerTicket (u_Payload c) SecureKey s = Ok t.

(** A session key is a ticket's, with the ticket's caller. *)
Definition session_sound (rs : list (UDPAddr * bytes)) (k : bytes) (x : udpSession) : Prop :=
  ∀ key, sessionKey x = Some key →
    ∃ t, presented rs k t ∧ st_SessionKey t = key ∧ st_Source t = callerPID x.

Definition event_sound (rs : list (UDPAddr * bytes)) (e : UDPEvent) : Prop :=
  match e with
  | WriteToUDP _ _ => True
  | OnData remote plain =>
      ∃ t d, presented rs (UDPString remote) t ∧ heard rs remote PacketDATA d ∧
        rc4Crypt (st_SessionKey t) (u_Payload d) = Ok plain
  end.

Definition thread_sound (owner : nat → bytes) (next : nat) (rs : list (UDPAddr * bytes)) (th : udpThread) : Prop :=
  (∀ p, p ∈ ut_packets th → heard rs (ut_remote th) (u_Type p) p) ∧
  (∀ r, ut_held th = Some r → owner r = UDPString (ut_remote th) ∧ (r < next)%nat ∧
     match ut_packets th with p :: _ => needs_session p = true | [] => True end).

(** [owner r]: the address that opened the session object [r]. *)
Record udp_invariant (owner : nat → bytes) (w : UDPWorld) : Prop := {
  ui_sessions : ∀ k r, udp_sessions (uw_server w) !! k = Some r → owner r = k ∧ (r < udp_next (uw_server w))%nat;
  ui_heap : ∀ r x, udp_heap (uw_server w) !! r = Some x → session_sound (uw_received w) (owner r) x;
  ui_threads : ∀ th, th ∈ uw_threads w → thread_sound owner (udp_next (uw_server w)) (uw_received w) th;
  ui_events : ∀ e, e ∈ uw_events w → event_sound (uw_received w) e
}.

Lemma heard_mono rs more remote ty p : heard rs remote ty p → heard (rs ++ more) remote ty p.
Proof. intros (data & ps & Hin & H). exists data, ps. split; [|done]. apply elem_of_app. by left. Qed.
Lemma presented_mono rs more k t : presented rs k t → presented (rs ++ more) k t.
Proof. intros (remote & c & Hk & Hh & Hd). exists remote, c. eauto using heard_mono. Qed.
Lemma session_sound_mono rs more k x : session_sound rs k x → session_sound (rs ++ more) k x.
Proof. intros H key (t & Hp & He)%H. eauto using presented_mono. Qed.
Lemma event_sound_mono rs more e : event_sound rs e → event_sound (rs ++ more) e.
Proof. destruct e; [done|]. intros (t & d & Hp & Hh & Hd). exists t, d. eauto using presented_mono, heard_mono. Qed.
Lemma thread_sound_mono owner next rs more th : thread_sound owner next rs th → thread_sound owner next (rs ++ more) th.
Proof. intros [H1 H2]. split; [|done]. eauto using heard_mono. Qed.

Lemma udp_invariant_start : udp_invariant (λ _, []) udp_start.
Proof. split; intros *; try (by intros ?%elem_of_nil); done. Qed.

(** What a goroutine turns into after one of its packets. *)
Lemma thread_sound_next owner next rs remote p ps :
  thread_sound owner next rs (mkUdpThread remote (p :: ps) None) → thread_sound owner next rs (mkUdpThread remote ps None).
Proof. intros [H _]. split; [|done]. intros q Hq. apply H. by right. Qed.
Lemma thread_sound_held owner next rs remote p ps r :
  thread_sound owner next rs (mkUdpThread remote (p :: ps) (Some r)) → thread_sound owner next rs (mkUdpThread remote ps None).
Proof. intros [H _]. split; [|done]. intros q Hq. apply H. by right. Qed.

Lemma in_middle {A} (l k : list A) x y z : z ∈ l ++ x :: k → z = x ∨ z ∈ l ++ y :: k.
Proof. rewrite !elem_of_app, !elem_of_cons. tauto. Qed.
Lemma middle_in {A} (l k : list A) x : x ∈ l ++ x :: k.
Proof. apply elem_of_app. right. by left. Qed.

(** A goroutine moves on; nothing else changes. *)
Lemma move_thread owner st ts1 ts2 rs es th th' :
  udp_invariant owner (mkUDPWorld st (ts1 ++ th :: ts2) rs es) →
  (thread_sound owner (udp_next st) rs th → thread_sound owner (udp_next st) rs th') →
  udp_invariant owner (mkUDPWorld st (ts1 ++ th' :: ts2) rs es).
Proof.
  intros [Hs Hh Ht He] Hth. split; [done|done| |done].
  intros x Hx. simpl in *. destruct (in_middle _ _ _ th _ Hx) as [->|Hx']; [|by apply Ht].
  apply Hth, Ht, middle_in.
Qed.

(** A SYN opens a session object of its own: the objects of the other addresses, and those a
    goroutine still holds, are not touched. *)
Lemma syn_sound owner st ts rs es rnd remote p st' ev :
  udp_invariant owner (mkUDPWorld st ts rs es) → handleSYN s rnd remote p st = (st', ev) →
  ∃ owner', udp_invariant owner' (mkUDPWorld st' ts rs (es ++ ev)).
Proof.
  intros [Hs Hh Ht He] [= <- <-]. simpl in *.
  set (owner' r := if decide (r = udp_next st) then UDPString remote else owner r).
  assert (∀ r, (r < udp_next st)%nat → owner' r = owner r) as Hlt.
  { intros r Hr. unfold owner'. rewrite decide_False; [done|lia]. }
  exists owner'. split; simpl.
  - intros k r [[<- <-]|[Hk Hr]]%lookup_insert_Some.
    + unfold owner'. rewrite decide_True by done. split; [done|lia].
    + destruct (Hs k r Hr) as [Ho Hn]. rewrite Hlt by lia. split; [done|lia].
  - intros r x [[<- <-]|[Hk Hr]]%lookup_insert_Some; [by intros ? [=]|].
    unfold owner'. rewrite decide_False by done. by apply Hh.
  - intros th Hin. destruct (Ht th Hin) as [H1 H2]. split; [done|].
    intros r Hr. destruct (H2 r Hr) as (Ho & Hn & Hp). rewrite Hlt by lia. split; [done|]. split; [lia|done].
  - intros e [Hin|Hin]%elem_of_app; [by apply He|]. by apply list_elem_of_singleton in Hin as ->.
Qed.

Lemma plain_sound owner st ts rs es rnd remote p st' ev :
  udp_invariant owner (mkUDPWorld st ts rs es) → handle_plain s rnd remote p st = (st', ev) →
  ∃ owner', udp_invariant owner' (mkUDPWorld st' ts rs (es ++ ev)).
Proof.
  intros HI. unfold handle_plain. case_match; [intros HS; by eapply syn_sound|]. destruct HI as [Hs Hh Ht He].
  case_match; [|case_match]; intros [= <- <-]; exists owner; split; simpl in *; try done.
  - intros e [Hin|Hin]%elem_of_app; [by apply He|]. by apply list_elem_of_singleton in Hin as ->.
  - intros k r [_ Hr]%lookup_delete_Some. by apply Hs.
  - by rewrite app_nil_r.
  - by rewrite app_nil_r.
Qed.

Lemma connect_session_sound rs remote p x x' :
  heard rs remote PacketCONNECT p → session_sound rs (UDPString remote) x →
  connect_session s SecureKey p x = Ok x' → session_sound rs (UDPString remote) x'.
Proof.
  intros Hp Hx. unfold connect_session. case_match; [|by intros [= <-]].
  destruct (DecryptServerTicket _ _ _) as [t|[]] eqn:E; [|by intros [= <-]|done|by intros [= <-]].
  intros [= <-] key [= <-]. exists t. split; [|done]. exists remote, p. done.
Qed.

Lemma finish_sound owner st ts rs es remote p ps r st' ev :
  udp_invariant owner (mkUDPWorld st ts rs es) →
  thread_sound owner (udp_next st) rs (mkUdpThread remote (p :: ps) (Some r)) →
  finish_session s SecureKey r remote p st = Ok (st', ev) →
  udp_invariant owner (mkUDPWorld st' ts rs (es ++ ev)).
Proof.
  intros [Hs Hh Ht He] [H1 H2]. simpl in *. destruct (H2 r eq_refl) as (Ho & Hr & Hn).
  pose proof (H1 p ltac:(by left)) as Hp.
  assert (session_sound rs (UDPString remote) (heap_session st r)) as Hx.
  { unfold heap_session. destruct (udp_heap st !! r) as [x|] eqn:E; [rewrite <- Ho; by eapply Hh|by intros ? [=]]. }
  unfold finish_session, needs_session in *. destruct (Z.eqb_spec (u_Type p) PacketCONNECT) as [E|_].
  - rewrite E in Hp. unfold finish_CONNECT. destruct (connect_session _ _ _ _) as [x'|] eqn:Ec; [|done].
    intros [= <- <-]. pose proof (connect_session_sound _ _ _ _ _ Hp Hx Ec) as Hx'. split; simpl; [done| |done|].
    + intros r' y [[<- <-]|[_ Hr']]%lookup_insert_Some; [by rewrite Ho|by eapply Hh].
    + intros e [Hin|Hin]%elem_of_app; [by apply He|]. by apply list_elem_of_singleton in Hin as ->.
  - apply Z.eqb_eq in Hn. rewrite Hn in Hp. unfold finish_DATA.
    destruct (sessionKey (heap_session st r)) as [key|] eqn:Ek; [|intros [= <- <-]; by rewrite app_nil_r].
    destruct (rc4Crypt key (u_Payload p)) as [plain|] eqn:Er; [|done]. cbn [result_bind]. intros [= <- <-].
    split; simpl; [done|done|done|]. intros e [Hin|Hin]%elem_of_app; [by apply He|].
    apply elem_of_app in Hin as [Hin|Hin].
    + case_match; [by apply list_elem_of_singleton in Hin as ->|by apply elem_of_nil in Hin].
    + apply list_elem_of_singleton in Hin as ->. destruct (Hx key Ek) as (t & Hpr & <- & _). by exists t, p.
Qed.

Lemma udp_invariant_step owner w w' :
  udp_invariant owner w → udp_step s SecureKey w w' → ∃ owner', udp_invariant owner' w'.
Proof.
  intros HI Hw. destruct Hw as [st ts rs es remote data ps Hd|st ts rs es remote data ps e Hd
    |st ts1 ts2 rs es remote p ps rnd st' ev Hn Hp|st ts1 ts2 rs es remote p ps r Hn Hl
    |st ts1 ts2 rs es remote p ps Hn Hl|st ts1 ts2 rs es remote p ps r st' ev Hf].
  - exists owner. destruct HI as [Hs Hh Ht He]. simpl in *.
    split; simpl; eauto using session_sound_mono, event_sound_mono.
    intros th [Hin|Hin]%elem_of_app; [by apply thread_sound_mono, Ht|]. apply list_elem_of_singleton in Hin as ->.
    split; [|done]. intros p Hp. exists data, ps. split; [apply middle_in|done].
  - exists owner. destruct HI as [Hs Hh Ht He]. simpl in *.
    split; simpl; eauto using session_sound_mono, event_sound_mono, thread_sound_mono.
  - destruct (plain_sound _ _ _ _ _ _ _ _ _ _ HI Hp) as [owner' HI']. exists owner'.
    eapply move_thread; [done|]. apply thread_sound_next.
  - exists owner. eapply move_thread; [done|]. intros [H1 _]. split; [done|]. intros r' [= <-].
    destruct HI as [Hs _ _ _]. destruct (Hs _ _ Hl). done.
  - exists owner. eapply move_thread; [done|]. apply thread_sound_next.
  - exists owner. eapply move_thread; [|apply thread_sound_held].
    eapply finish_sound; [done| |done]. destruct HI as [_ _ Ht _]. apply Ht, middle_in.
Qed.

Lemma udp_reachable_invariant w : rtc (udp_step s SecureKey) udp_start w → ∃ owner, udp_invariant owner w.
Proof.
  intros H. assert (∃ owner, udp_invariant owner udp_start) as H0 by (eexists; apply udp_invariant_start).
  revert H0. induction H as [|x y z Hxy _ IH]; [done|]. intros [owner Hx]. apply IH. by eapply udp_invariant_step.
Qed.
End sessions.

(** [handlePacket] run to its end is one of the interleavings. *)
Lemma handle_packets_steps s SecureKey rnd remote ps st st' ev ts rs es :
  handle_packets s SecureKey rnd remote ps st = Ok (st', ev) →
  rtc (udp_step s SecureKey) (mkUDPWorld st (ts ++ [mkUdpThread remote ps None]) rs es)
    (mkUDPWorld st' (ts ++ [mkUdpThread remote [] None]) rs (es ++ ev)).
Proof.
  revert st ev es. induction ps as [|p ps IH]; intros st ev es; simpl.
  - intros [= <- <-]. rewrite app_nil_r. apply rtc_refl.
  - destruct (handleOne s SecureKey rnd remote p st) as [[st1 ev1]|] eqn:E1; [|done]. cbn [result_bind].
    destruct (handle_packets s SecureKey rnd remote ps st1) as [[st2 ev2]|] eqn:E2; [|done]. cbn [result_bind].
    intros [= <- <-]. rewrite app_assoc. etrans; [|by apply IH].
    unfold handleOne in E1. destruct (needs_session p) eqn:En.
    + destruct (udp_sessions st !! _) as [r|] eqn:El.
      * eapply rtc_l; [by apply udp_lookup with (ts2 := [])|]. apply rtc_once. by apply udp_finish with (ts2 := []).
      * injection E1 as <- <-. rewrite app_nil_r. apply rtc_once. by apply udp_unknown with (ts2 := []).
    + apply rtc_once. apply udp_plain with (ts2 := []) (rnd := rnd); [done|congruence].
Qed.

Lemma handlePacket_steps s SecureKey rnd remote data st st' ev ts rs es :
  handlePacket s SecureKey rnd remote data st = Ok (st', ev) →
  ∃ ts', rtc (udp_step s SecureKey) (mkUDPWorld st ts rs es) (mkUDPWorld st' ts' (rs ++ [(remote, data)]) (es ++ ev)).
Proof.
  unfold handlePacket. destruct (DecodeUDPPackets data) as [ps [e|]] eqn:Ed.
  - intros [= <- <-]. rewrite app_nil_r. exists ts. apply rtc_once. by eapply udp_drop.
  - intros H. eexists. eapply rtc_l; [by eapply udp_receive|]. by eapply handle_packets_steps.
Qed.

Fixpoint udp_run (s : Settings) (SecureKey : bytes) (l : list (UDPAddr * bytes)) (st : UDPServer) (es : list UDPEvent)
    : result (UDPServer * list UDPEvent) :=
  match l with
  | [] => Ok (st, es)
  | (remote, data) :: l =>
      try! '(st, ev) := handlePacket s SecureKey [] remote data st in udp_run s SecureKey l st (es ++ ev)
  end.

Lemma udp_run_steps s SecureKey l st es st' es' ts rs :
  udp_run s SecureKey l st es = Ok (st', es') →
  ∃ ts', rtc (udp_step s SecureKey) (mkUDPWorld st ts rs es) (mkUDPWorld st' ts' (rs ++ l) es').
Proof.
  revert st es ts rs. induction l as [|[remote data] l IH]; intros st es ts rs; simpl.
  - intros [= <- <-]. rewrite app_nil_r. eexists. apply rtc_refl.
  - destruct (handlePacket s SecureKey [] remote data st) as [[st1 ev]|] eqn:E; [|done]. cbn [result_bind].
    intros H. destruct (handlePacket_steps _ _ _ _ _ _ _ _ ts rs es E) as [ts1 H1].
    destruct (IH _ _ ts1 (rs ++ [(remote, data)]) H) as [ts2 H2]. exists ts2.
    etrans; [done|]. by rewrite <- app_assoc in H2.
Qed.

(** C16: whatever datagrams arrive and however their goroutines interleave, a payload reaches
    [OnData] only if it is the decryption of a DATA packet received from its address under the
    session key of a ticket that decrypts under the server's own key and that a CONNECT from
    the same address carried; and a session in the map that has a key has the key and the
    caller of one such ticket. *)
Theorem only_ticket_holders_are_heard s SecureKey w :
  rtc (udp_step s SecureKey) udp_start w →
  (∀ remote plain, OnData remote plain ∈ uw_events w →
     ∃ t d, presented s SecureKey (uw_received w) (UDPString remote) t ∧
       heard (uw_received w) remote PacketDATA d ∧ rc4Crypt (st_SessionKey t) (u_Payload d) = Ok plain) ∧
  (∀ k r x key, udp_sessions (uw_server w) !! k = Some r → udp_heap (uw_server w) !! r = Some x →
     sessionKey x = Some key →
     ∃ t, presented s SecureKey (uw_received w) k t ∧ st_SessionKey t = key ∧ st_Source t = callerPID x).
Proof.
  intros [owner [Hs Hh _ He]]%udp_reachable_invariant. split.
  - intros remote plain Hin. apply (He _ Hin).
  - intros k r x key Hk Hr Hx. destruct (Hs k r Hk) as [<- _]. by apply (Hh r x Hr).
Qed.

(** A handshake: a SYN, a CONNECT with a ticket of caller 42, a DATA packet. *)
Module UdpExample.
Definition settings : Settings := NewSwitchSettings (str "abcd1234") 40302.
Definition secure_key : bytes := md5_Sum (str "secure").
Definition session_key : bytes := replicate 32 x5a.
Definition remote : UDPAddr := mkUDP [x7f; x00; x00; x01] 5000.
Definition ticket : bytes :=
  match ServerTicket_Encrypt (Some (replicate 16 x11)) (mkServerTicket 0 42 session_key) secure_key settings with
  | Ok b => b | Err _ => [] end.
Definition payload : bytes := match rc4Crypt session_key (str "hello") with Ok b => b | Err _ => [] end.
Definition packet (ty flags id : Z) (pl : bytes) : UDPPacket :=
  mkUDPPacket ty flags 0xA 1 0xA 0xF 7 0 id (replicate 16 x00) [] 0 0 0 0 0 pl.
Definition datagrams : list (UDPAddr * bytes) :=
  (λ p, (remote, EncodeUDPPacket p)) <$>
  [packet PacketSYN FlagNeedACK 0 []; packet PacketCONNECT FlagNeedACK 1 ticket; packet PacketDATA 0 2 payload].
Lemma ended : ∃ st es,
  udp_run settings secure_key datagrams new_udp_server [] = Ok (st, es) ∧ OnData remote (str "hello") ∈ es.
Proof.
  assert (match udp_run settings secure_key datagrams new_udp_server [] with
          | Ok (_, es) => bool_decide (last es = Some (OnData remote (str "hello"))) | Err _ => false end = true) as H
    by (vm_compute; reflexivity).
  destruct (udp_run _ _ _ _ _) as [[st es]|]; [|done]. exists st, es. split; [done|].
  apply bool_decide_eq_true, last_Some in H as [l ->]. apply middle_in.
Qed.
End UdpExample.

Lemma only_ticket_holders_are_heard_witness :
  ∃ t d, presented UdpExample.settings UdpExample.secure_key UdpExample.datagrams (str "127.0.0.1:5000") t ∧
    heard UdpExample.datagrams UdpExample.remote PacketDATA d ∧ rc4Crypt (st_SessionKey t) (u_Payload d) = Ok (str "hello").
Proof.
  destruct UdpExample.ended as (st & es & Hr & He).
  destruct (udp_run_steps _ _ _ _ _ _ _ [] [] Hr) as [ts H].
  exact (proj1 (only_ticket_holders_are_heard _ _ _ H) _ _ He).
Defined.
