(* ===== verification/WireProps.v ===== *)
(** * What survives the wire

    Packets cut anywhere, remote calls, sessions and notifications, stations, encrypted
    buffers: what one side writes is what the other reads; and the two messages of which that
    is not so. *)

From S2P Require Export Rmc MatchTypes Kerberos PrudpLite.

(** ** A stream of packets, however it is cut *)

(** What [Feed] does with the bytes: each arrival is appended to what was left, and decoded. *)
Fixpoint feed_pieces (buf : bytes) (pieces : list bytes) : list Packet * bytes * option error :=
  match pieces with
  | [] => ([], buf, None)
  | b :: pieces =>
      match DecodePackets (buf ++ b) with
      | (ps, rest, Some e) => (ps, rest, Some e)
      | (ps, rest, None) => let '(ps', rest', e) := feed_pieces rest pieces in (ps ++ ps', rest', e)
      end
  end.

Lemma DecodePackets_rest a ps rest : DecodePackets a = (ps, rest, None) → decode_one rest = NeedMore.
Proof.
  remember (length a) as n eqn:Hn. revert a ps rest Hn.
  induction n as [n IH] using lt_wf_ind. intros a ps rest Hn. rewrite DecodePackets_eq.
  destruct (decode_one a) as [|e|p r] eqn:E; [by intros [= _ <-]|done|].
  destruct (DecodePackets r) as [[ps1 r1] e1] eqn:Er. intros [= _ <- ->].
  apply (IH (length r)) in Er; [done| |done]. subst n. by eapply decode_one_Got.
Qed.

Lemma DecodePackets_app_error a b ps rest e :
  DecodePackets a = (ps, rest, Some e) → ∃ ps' rest', DecodePackets (a ++ b) = (ps', rest', Some e).
Proof.
  remember (length a) as n eqn:Hn. revert a ps rest Hn.
  induction n as [n IH] using lt_wf_ind. intros a ps rest Hn. rewrite DecodePackets_eq, (DecodePackets_eq (a ++ b)).
  destruct (decode_one a) as [|e'|p r] eqn:E; [done| |]; rewrite decode_one_app, E by congruence.
  - intros [= _ _ <-]. by eexists _, _.
  - destruct (DecodePackets r) as [[ps1 r1] e1] eqn:Er. intros [= _ _ ->].
    destruct (IH (length r)) with (a := r) (ps := ps1) (rest := r1) as (ps' & rest' & ->);
      [subst n; by eapply decode_one_Got|done|done|]. by eexists _, _.
Qed.

Lemma feed_pieces_ok pieces buf ps rest :
  decode_one buf = NeedMore → DecodePackets (buf ++ concat pieces) = (ps, rest, None) →
  feed_pieces buf pieces = (ps, rest, None).
Proof.
  revert buf ps. induction pieces as [|b pieces IH]; intros buf ps Hbuf Hd.
  { cbn [concat feed_pieces] in *. rewrite app_nil_r, DecodePackets_eq, Hbuf in Hd. done. }
  cbn [concat feed_pieces] in *. rewrite app_assoc in Hd.
  destruct (DecodePackets (buf ++ b)) as [[ps1 r1] [e|]] eqn:E.
  - destruct (DecodePackets_app_error _ (concat pieces) _ _ _ E) as (? & ? & E'). congruence.
  - rewrite (DecodePackets_app _ _ _ _ E) in Hd.
    destruct (DecodePackets (r1 ++ concat pieces)) as [[ps' rest'] e'] eqn:E'. injection Hd as <- <- ->.
    by rewrite (IH r1 ps' (DecodePackets_rest _ _ _ E) E').
Qed.

(** C23: The transport may cut a run of packets anywhere, into any number of pieces: the
    receiver, which decodes what it can of each arrival and keeps the rest, ends with exactly
    the packets that were encoded, in order, nothing left over and no error. *)
Theorem packets_survive_cutting ps pieces :
  Forall packet_ok ps → concat pieces = concat (EncodePacket <$> ps) →
  feed_pieces [] pieces = (ps, [], None).
Proof.
  intros Hps Hc. apply feed_pieces_ok; [done|]. cbn [app]. rewrite Hc.
  rewrite <- (app_nil_r (concat _)). by apply DecodePackets_Encode.
Qed.

(** ** Remote calls *)

Lemma reads_le n s v : (0 < n)%nat → reads s (rUint n) (le_bytes n v) (v mod 256 ^ Z.of_nat n).
Proof.
  intros Hn. unfold rUint. eapply reads_map.
  - apply reads_Read. unfold zlen. by rewrite length_le_bytes.
  - rewrite length_le_bytes, Nat.ltb_irrefl. by rewrite le_val_le_bytes.
Qed.

Lemma rContent_Protocol s q i : Protocol (rContent s true q i).1 = q.
Proof.
  unfold rContent, rbind, rret. destruct (rU32 i) as [c i1]. destruct (rU32 i1) as [me i2].
  by destruct (ReadAll i2).
Qed.

(** A request on protocol 0x7F is not what the receiver sees: 0x7F is the escape of the
    long identifiers, and the encoder writes it bare.  The receiver takes the low half of the
    call identifier for the protocol. *)
Theorem protocol_7F_is_misread s method callID body :
  is_u32 callID → zlen body < 2 ^ 32 - 12 →
  ∃ m' e, ParseRMC s (Encode (NewRMCRequest s 0x7F method callID body)) = (Some m', e) ∧
          Protocol m' = callID mod 2 ^ 16.
Proof.
  intros Hc Hb. unfold Encode. cbv zeta.
  assert (Bytes_ ((wProtocol (NewRMCRequest s 0x7F method callID body) ;;;
    wContent (NewRMCRequest s 0x7F method callID body)) (NewStreamOut (m_Settings (NewRMCRequest s 0x7F method callID body))))
    = [xff] ++ le_bytes 2 callID ++ le_bytes 2 (callID ≫ 16) ++ le_bytes 4 method ++ body) as ->.
  { unfold wProtocol, wContent, wseq, wU8, wU32, Write, NewStreamOut, Bytes_. cbn [so_buf so_settings Protocol Mode].
    cbn -[le_bytes]. rewrite <- !app_assoc. cbn. by rewrite !Z.shiftr_shiftr. }
  set (p := [xff] ++ _). assert (zlen p = zlen body + 9) as Hp
    by (subst p; unfold zlen; rewrite !length_app, !length_le_bytes; cbn [length]; lia).
  pose proof (zlen_nonneg body). rewrite (wrap_small 32) by (unfold is_u; lia).
  unfold ParseRMC, NewStreamIn. change (mkIn s (le_bytes 4 (zlen p) ++ p) 0 None) with (at_ s [] (le_bytes 4 (zlen p) ++ p)).
  rewrite (reads_le 4 s (zlen p) ltac:(lia) [] p : rU32 (at_ s _ (_ ++ _)) = _). rewrite Z.mod_small by lia.
  replace (zlen (le_bytes 4 (zlen p) ++ p) - 4) with (zlen p) by (rewrite zlen_app; unfold zlen; rewrite length_le_bytes; lia).
  rewrite Z.eqb_refl. cbn [negb]. unfold rMessage, rbind at 1. subst p.
  rewrite (reads_le 1 s 255 ltac:(lia) _ _ : rU8 (at_ s _ ([xff] ++ _)) = _).
  change (255 mod 256 ^ Z.of_nat 1) with 255. change (negb (Z.land 255 0x80 =? 0)) with true.
  change (Z.ldiff 255 0x80 =? 0x7F) with true. cbv iota zeta. unfold rbind at 1.
  rewrite (reads_le 2 s callID ltac:(lia) _ _ : rU16 (at_ s _ (le_bytes 2 callID ++ _)) = _).
  pose proof (rContent_Protocol s (callID mod 256 ^ Z.of_nat 2)) as HP.
  lazymatch goal with |- context [rContent s true ?q ?i] => specialize (HP i); destruct (rContent s true q i) as [m' i'] end.
  cbn [fst] in HP. exists m', (si_err i'). by split.
Qed.

Lemma protocol_7F_is_misread_witness :
  is_u32 0x12340015 ∧
  ∃ m' e, ParseRMC (NewSwitchSettings [] 40302)
            (Encode (NewRMCRequest (NewSwitchSettings [] 40302) 0x7F 1 0x12340015 [])) = (Some m', e) ∧
          Protocol m' = 0x15.
Proof.
  split; [done|].
  destruct (protocol_7F_is_misread (NewSwitchSettings [] 40302) 1 0x12340015 []) as (m' & e & H & Hp); [done|done|].
  exists m', e. split; [exact H|exact Hp].
Defined.

Definition syn0 : Packet := mkPacket PacketSYN FlagNeedACK 10 1 10 1 0 0 [] [] 4 0 [].
Definition data0 : Packet := mkPacket PacketDATA (Z.lor FlagReliable FlagNeedACK) 10 1 10 1 0 2 [] [] 0 0 (str "hello").

Lemma packets_survive_cutting_witness :
  Forall packet_ok [syn0; data0] ∧
  let bs := EncodePacket syn0 ++ EncodePacket data0 in
  feed_pieces [] [take 3 bs; []; take 20 (drop 3 bs); drop 23 bs] = ([syn0; data0], [], None).
Proof.
  assert (Forall packet_ok [syn0; data0]) as H.
  { repeat constructor; try (vm_compute; done); try (left; left; reflexivity); right; by split. }
  split; [exact H|]. cbv zeta. refine (packets_survive_cutting _ _ H _). vm_compute. reflexivity.
Defined.

(** ** Sessions and notifications *)

(** C37: A matchmaking session is read back as it was written, at both its class levels, framed
    or not according to the settings, the whole of it and without an error, whatever order the
    map of its parameters is written in and whatever the structure read into held. *)
Theorem session_roundtrip `{MO : MapOrder} s m m0 :
  session_ok s m →
  ∃ i, rExtract m0 (NewStreamIn (Bytes_ (wAdd m (NewStreamOut s))) s) = (m, i) ∧
       EOF i = true ∧ si_err i = None.
Proof. intros Hm. apply rt_whole. by apply rt_session. Qed.

(** So is a notification, in both forms of its empty string; a parameter that names a
    player crosses in its public form and comes back in the internal one. *)
Theorem notification_roundtrip s strVide0 ev :
  event_ok s ev → buf_ok (body s (save_event strVide0 ev)) →
  ∃ i, ReadStructure (H := NotificationEvent_Levels strVide0) (mkEvent 0 0 0 0 [] 0)
         (NewStreamIn (Bytes_ (WriteStructure (H := NotificationEvent_Levels strVide0) ev (NewStreamOut s))) s)
       = (ev, i) ∧ EOF i = true ∧ si_err i = None.
Proof. intros He Hb. apply rt_whole. by apply rt_event. Qed.

#[local] Existing Instance canonical_order.

Definition session0 : MatchmakeSession :=
  set_Param (mkParam {[str "@SR" := mkVariant VariantBool 0 0 true [] 0 0]})
    (set_Attribs [1; 2] (set_UserPassword (str "pw") zero_Session)).
Definition event0 : NotificationEvent := mkEvent 100 NotificationParticipate 1 200 [] 2.

Lemma switch_pid p : is_u64 p → pid_ok (NewSwitchSettings [] 40302) p.
Proof. intros Hp. by apply pid_ok_plain. Qed.

Lemma session_roundtrip_witness :
  let s := NewSwitchSettings [] 40302 in
  session_ok s session0 ∧
  ∃ i, rExtract zero_Session (NewStreamIn (Bytes_ (wAdd session0 (NewStreamOut s))) s) = (session0, i) ∧ EOF i = true.
Proof.
  cbv zeta. set (s := NewSwitchSettings [] 40302).
  assert (session_ok s session0) as Hm.
  { split.
    { split; [done|]. split; [by apply switch_pid|]. split; [by apply switch_pid|].
      repeat (split; [done|]). done. }
    do 2 (split; [vm_compute; by split|]). split; [by repeat constructor|].
    do 6 (split; [vm_compute; by split|]). split.
    { split; [vm_compute; by split|]. split; [|vm_compute; by split].
      change (Params (Param session0)) with ({[str "@SR" := mkVariant VariantBool 0 0 true [] 0 0]} : gmap bytes Variant).
      apply map_Forall_singleton. split; vm_compute; done. }
    do 6 (split; [vm_compute; done || by split|]). vm_compute; by split. }
  split; [exact Hm|].
  destruct (session_roundtrip s session0 zero_Session Hm) as (i & H & He & _).
  exists i. split; [exact H|exact He].
Defined.

Lemma notification_roundtrip_witness :
  let s := NewSwitchSettings [] 40302 in
  event_ok s event0 ∧
  ∃ i, ReadStructure (H := NotificationEvent_Levels false) (mkEvent 0 0 0 0 [] 0)
         (NewStreamIn (Bytes_ (WriteStructure (H := NotificationEvent_Levels false) event0 (NewStreamOut s))) s)
       = (event0, i) ∧ EOF i = true.
Proof.
  cbv zeta. set (s := NewSwitchSettings [] 40302).
  assert (event_ok s event0) as He.
  { split; [by apply switch_pid|]. do 2 (split; [done|]). split; [by split|]. by split. }
  split; [exact He|].
  destruct (notification_roundtrip s false event0 He) as (i & H & H' & _); [vm_compute; by split|].
  exists i. split; [exact H|exact H'].
Defined.

(** ** Stations *)

(** A station URL is read back with its scheme and its parameters, in their order. *)
Theorem station_roundtrip s u :
  wf u → printable u → str_ok (String_ u) →
  ∃ i, rStationURL (NewStreamIn (Bytes_ (wStationURL u (NewStreamOut s))) s) = (u, i) ∧ EOF i = true ∧ si_err i = None.
Proof. intros H1 H2 H3. by apply rt_whole, rt1_rt, rt1_StationURL. Qed.

Lemma station_roundtrip_witness :
  let u := ParseStationURL (str "prudps:/address=192.168.1.20;port=60000;natm=1;RVCID=12") in
  printable u ∧
  ∃ i, rStationURL (NewStreamIn (Bytes_ (wStationURL u (NewStreamOut (NewSwitchSettings [] 40302)))) (NewSwitchSettings [] 40302)) = (u, i).
Proof.
  cbv zeta. set (u := ParseStationURL _).
  assert (printable u) as Hp.
  { split; [vm_compute; discriminate|]. split; [vm_compute; set_solver|].
    vm_compute. repeat constructor; set_solver. }
  split; [exact Hp|].
  destruct (station_roundtrip (NewSwitchSettings [] 40302) u (wf_Parse _) Hp) as (i & H & _); [vm_compute; reflexivity|].
  exists i. exact H.
Defined.

(** ** Encrypted buffers *)

(** Kerberos encryption and decryption are each other's inverse: what is encrypted under
    a usable key decrypts to itself, and what decrypts under a key is what that key would have
    encrypted — nothing else is accepted. *)
Theorem kerberos_exact key data :
  key_ok key →
  (∃ enc, kerberosEncrypt key data = Ok enc ∧ kerberosDecrypt key enc = Ok data) ∧
  (∀ buffer, kerberosDecrypt key buffer = Ok data ↔ kerberosEncrypt key data = Ok buffer).
Proof.
  intros Hk. split.
  { destruct (kerberosEncrypt_ok key data Hk) as (enc & He & _). exists enc. split; [done|].
    by apply kerberosDecrypt_Encrypt. }
  intros buffer. split; [|by apply kerberosDecrypt_Encrypt].
  unfold kerberosDecrypt, kerberosEncrypt. destruct (Z.ltb_spec (zlen buffer) 16); [done|].
  unfold bytes_eqb. case_bool_decide as E; [|done]. cbn [negb]. intros Hd.
  apply XORKeyStream_twice in Hd. rewrite Hd. cbn [result_bind]. by rewrite <- E, take_drop.
Qed.

Lemma kerberos_exact_witness :
  key_ok (str "secret") ∧ ∃ enc, kerberosEncrypt (str "secret") (str "ticket") = Ok enc ∧
    kerberosDecrypt (str "secret") enc = Ok (str "ticket").
Proof.
  assert (key_ok (str "secret")) as H by (vm_compute; by split).
  split; [exact H|]. exact (proj1 (kerberos_exact (str "secret") (str "ticket") H)).
Defined.

(** ** Search criteria *)

(** What a search filter accepts: an empty one everything, a number that number alone, and
    a pair of numbers everything between them, ends included. *)
Theorem filterAccepts_spec v a b :
  filterAccepts [] v = true ∧
  (is_u64 a → filterAccepts (FormatUint a) v = (v =? a)) ∧
  (is_u64 a → is_u64 b → filterAccepts (FormatUint a ++ ","%byte :: FormatUint b) v = (a <=? v) && (v <=? b)).
Proof. split_and!; [done|apply filterAccepts_exact|apply filterAccepts_range]. Qed.

Lemma filterAccepts_spec_witness :
  is_u64 3 ∧ is_u64 12 ∧
  filterAccepts (FormatUint 3 ++ ","%byte :: FormatUint 12) 12 = (3 <=? 12) && (12 <=? 12) ∧
  filterAccepts (FormatUint 3) 12 = (12 =? 3).
Proof.
  assert (is_u64 3) as Ha by done. assert (is_u64 12) as Hb by done.
  split; [exact Ha|]. split; [exact Hb|].
  destruct (filterAccepts_spec 12 3 12) as (_ & H1 & H2). split; [exact (H2 Ha Hb)|exact (H1 Ha)].
Defined.
