(* ===== verification/TicketGranting.v ===== *)
(** * The auth server (src/ticketgranting.go)

    The login PIDs remembered by client address, the login names, and the two login methods
    that mint the Kerberos tickets.  [sync.Map]s are maps of one state record; the clock, the
    random bytes and the content of the recall file are arguments. *)

From S2P Require Export Rmc Kerberos NetAddr.

Definition ProtocolTicketGranting : Z := 0x0A.
Definition MethodLogin : Z := 1.
Definition MethodLoginEx : Z := 2.
Definition MethodRequestTicket : Z := 3.
Definition MethodLoginWithContext : Z := 6.

(** ** The recall table *)

(** Instants and durations are nanoseconds. *)
Definition second : Z := 1000000000.
Definition authRecallTTL : Z := 24 * 3600 * second.
Definition authRecallMax : nat := 50000.

Record authRecall := mkRecall { pid : Z; at_time : Z }.
Record authRecallPersisted := mkPersisted { PID_ : Z; At_ : Z }.

Record AuthState := mkAuth {
  authPIDByIP : gmap bytes authRecall;
  authRecallDirty : bool;
  authRecallOnce : bool;
  loginNameToPID : gmap bytes Z;
  pidToLoginName : gmap Z bytes
}.

Definition auth_start : AuthState := mkAuth ∅ false false ∅ ∅.

Definition set_recall (m : gmap bytes authRecall) (st : AuthState) : AuthState :=
  mkAuth m (authRecallDirty st) (authRecallOnce st) (loginNameToPID st) (pidToLoginName st).

Definition expired (now : Z) (r : authRecall) : bool := authRecallTTL <? now - at_time r.

Section recall.
Context `{MO : MapOrder}.

(** What the file holds when the process starts: [None] when there is no file name, no
    file, or no table in it. *)
Context (file : option (gmap bytes authRecallPersisted)).

(** One entry of the restored table. *)
Definition restore_entry (now : Z) (m : gmap bytes authRecall)
    (e : bytes * authRecallPersisted) : gmap bytes authRecall :=
  let r := mkRecall (PID_ e.2) (At_ e.2 * second) in
  if (PID_ e.2 =? 0) || expired now r then m else <[e.1 := r]> m.

Definition authRecallInit (now : Z) (st : AuthState) : AuthState :=
  if authRecallOnce st then st
  else
    mkAuth
      (match file with
       | None => authPIDByIP st
       | Some m => foldl (restore_entry now) (authPIDByIP st) (range m)
       end)
      (authRecallDirty st) true (loginNameToPID st) (pidToLoginName st).

Definition RememberAuthPID (now : Z) (addr : bytes) (p : Z) (st : AuthState) : AuthState :=
  let st := authRecallInit now st in
  mkAuth (<[ipHost addr := mkRecall p now]> (authPIDByIP st)) true (authRecallOnce st)
    (loginNameToPID st) (pidToLoginName st).

Definition RecallAuthPID (now : Z) (addr : bytes) (st : AuthState) : option Z * AuthState :=
  let st := authRecallInit now st in
  match authPIDByIP st !! ipHost addr with
  | None => (None, st)
  | Some r =>
      if pid r =? 0 then (None, st)
      else if expired now r then
        (None, set_recall (delete (ipHost addr) (authPIDByIP st)) st)
      else (Some (pid r), st)
  end.

(** One entry visited by the flusher: the table and the file being built. *)
Definition flush_entry (now : Z) (acc : gmap bytes authRecall * gmap bytes authRecallPersisted)
    (e : bytes * authRecall) : gmap bytes authRecall * gmap bytes authRecallPersisted :=
  let '(m, out) := acc in
  if bool_decide (e.1 = []) then (m, out)
  else if expired now e.2 then (delete e.1 m, out)
  else if (size out <? authRecallMax)%nat then
    (m, <[e.1 := mkPersisted (pid e.2) (at_time e.2 `div` second)]> out)
  else (m, out).

(** One tick of [authRecallFlusher]: the state after it, and what it writes. *)
Definition authRecallFlush (now : Z) (st : AuthState)
    : AuthState * option (gmap bytes authRecallPersisted) :=
  if negb (authRecallDirty st) then (st, None)
  else
    let '(m, out) := foldl (flush_entry now) (authPIDByIP st, ∅) (range (authPIDByIP st)) in
    (mkAuth m false (authRecallOnce st) (loginNameToPID st) (pidToLoginName st), Some out).
End recall.

(** ** Login names *)
Definition RememberLoginName (name : bytes) (p : Z) (st : AuthState) : AuthState :=
  if bool_decide (name = []) || (p =? 0) then st
  else mkAuth (authPIDByIP st) (authRecallDirty st) (authRecallOnce st)
         (<[name := p]> (loginNameToPID st)) (<[p := name]> (pidToLoginName st)).

Definition LoginNameForPID (p : Z) (st : AuthState) : option bytes := pidToLoginName st !! p.
Definition PIDForLoginName (name : bytes) (st : AuthState) : option Z := loginNameToPID st !! name.

(** ** RVConnectionData *)
Definition orEmptyStation (u : option StationURL) : StationURL :=
  match u with None => NewStationURL (str "prudp") | Some u => u end.

Record RVConnectionData := mkRVCD {
  MainStation : option StationURL;
  SpecialProtocols : list Z;
  SpecialStation : option StationURL;
  ServerTime : Z
}.

#[export] Instance RVConnectionData_Structure : Structure RVConnectionData := λ d,
  [ {| Version := 1;
       Save := Some (
         wStationURL (orEmptyStation (MainStation d)) ;;;
         WriteList (SpecialProtocols d) wU8 ;;;
         wStationURL (orEmptyStation (SpecialStation d)) ;;;
         wDateTime (DateTime.Value (ServerTime d)));
       Load := Some (λ _,
         read! m := rStationURL in
         read! l := ReadList rU8 in
         read! u := rStationURL in
         read! t := rDateTime in
         rret (mkRVCD (Some m) l (Some u) t)) |} ].

(** ** The configuration *)

(** [ResolveUser] and [ResolveUserEx] belong to the game server; [ResolveUser] answers
    [None] for [ok=false], and is nil when only the other is set. *)
Record AuthConfig := mkAuthConfig {
  cfg_Settings : Settings;
  SecurePID : Z;
  SecurePassword : bytes;
  SecureStationURL : option StationURL;
  cfg_SpecialProtocols : list Z;
  ServerName : bytes;
  SessionKeyLength : Z;
  ResolveUser : option (bytes → bytes → option (Z * bytes));
  ResolveUserEx : option (bytes → bytes → Z * bytes * Z);
  ContextResultTrailingU64 : bool
}.

Definition resolve (cfg : AuthConfig) (username extraData : bytes) : result (Z * bytes * Z) :=
  match ResolveUserEx cfg with
  | Some f => Ok (f username extraData)
  | None =>
      match ResolveUser cfg with
      | None => Err Panic
      | Some f =>
          match f username extraData with
          | None => Ok (0, [], ResultAuthTokenParseError)
          | Some (p, sourceKey) => Ok (p, sourceKey, 0)
          end
      end
  end.

(** The random bytes of one call: the session key, then the ticket key.  [make] panics on a
    negative length. *)
Record Entropy := mkEntropy { rnd_session : option bytes; rnd_ticket : option bytes }.

Definition session_key_length (cfg : AuthConfig) : Z :=
  if SessionKeyLength cfg =? 0 then KerberosKeySize (cfg_Settings cfg) else SessionKeyLength cfg.

(** The end of both login methods: session key, internal ticket, client ticket.  Every
    failure is [ResultAuthUnknown]; a panic is one. *)
Definition mint_ticket (cfg : AuthConfig) (ent : Entropy) (now : Z) (p : Z) (sourceKey : bytes)
    : result bytes :=
  let s := cfg_Settings cfg in
  if session_key_length cfg <? 0 then Err Panic
  else
    match rnd_session ent with
    | None => Err (ErrMsg "rand")
    | Some sessionKey =>
        let targetKey := DeriveKey s (SecurePassword cfg) (SecurePID cfg) in
        try! internal := ServerTicket_Encrypt (rnd_ticket ent)
                           (mkServerTicket now p sessionKey) targetKey s in
        ClientTicket_Encrypt (mkClientTicket sessionKey (SecurePID cfg) internal) sourceKey s
    end.

(** [buildResponse]; [now] is [NowDateTime()]. *)
Definition buildResponse (cfg : AuthConfig) (now : Z) (req : RMCMessage) (retval p : Z)
    (ticket sourceKey : bytes) : RMCMessage :=
  let s := cfg_Settings cfg in
  let rvcd := mkRVCD (Some (orEmptyStation (SecureStationURL cfg))) (cfg_SpecialProtocols cfg)
                (Some (NewStationURL (str "prudp"))) now in
  let out := (wU32 retval ;;; wPID p ;;; wBuffer ticket ;;; wAdd rvcd ;;; wString (ServerName cfg) ;;;
              if 40000 <=? NexVersion s then wString (hex_encode sourceKey) else λ o, o)
             (NewStreamOut s) in
  NewRMCSuccess s ProtocolTicketGranting (Method req) (CallID req) (Bytes_ out).

Section handlers.
Context `{MO : MapOrder}.
Context (file : option (gmap bytes authRecallPersisted)).
Context (cfg : AuthConfig) (ent : Entropy).

(** The clock: [clk] in nanoseconds, [now] as a NEX date. *)
Context (clk now : Z).

Definition remember (remote : option bytes) (username : bytes) (p : Z) (st : AuthState) : AuthState :=
  let st := match remote with Some a => RememberAuthPID file clk a p st | None => st end in
  RememberLoginName username p st.

(** [remote]: the connection's [RemoteAddr], [None] for a nil connection. *)
Definition handleLogin (remote : option bytes) (req : RMCMessage) (st : AuthState)
    : result (RMCMessage * AuthState) :=
  let s := cfg_Settings cfg in
  let '(username, i) := rString (NewStreamIn (Body req) s) in
  let '(extraData, _) := ReadAll i in
  let fail code := buildResponse cfg now req (Z.lor code Result.ResultErrorMask) 0 [] [] in
  try! '(p, sourceKey, rc) := resolve cfg username extraData in
  if negb (rc =? 0) then Ok (fail rc, st)
  else
    let st := remember remote username p st in
    match mint_ticket cfg ent now p sourceKey with
    | Err Panic => Err Panic
    | Err _ => Ok (fail ResultAuthUnknown, st)
    | Ok ticket => Ok (buildResponse cfg now req ResultCoreUnknown p ticket sourceKey, st)
    end.

Definition handleLoginWithContext (remote : option bytes) (req : RMCMessage) (st : AuthState)
    : result (RMCMessage * AuthState) :=
  let s := cfg_Settings cfg in
  let '((username, extraData), _) :=
    (skip! rU8 in skip! rU32 in skip! rU32 in
     read! u := rString in read! e := ReadAll in rret (u, e)) (NewStreamIn (Body req) s) in
  try! '(p, sourceKey, rc) := resolve cfg username extraData in
  if negb (rc =? 0) then Ok (NewRMCError s ProtocolTicketGranting (CallID req) rc, st)
  else
    let st := remember remote username p st in
    match mint_ticket cfg ent now p sourceKey with
    | Err Panic => Err Panic
    | Err _ => Ok (NewRMCError s ProtocolTicketGranting (CallID req) ResultAuthUnknown, st)
    | Ok ticket =>
        let content :=
          (wPID p ;;; wBuffer ticket ;;; wStationURL (orEmptyStation (SecureStationURL cfg)) ;;;
           wDateTime (DateTime.Value now) ;;; wString (ServerName cfg) ;;;
           wString (hex_encode sourceKey) ;;;
           if ContextResultTrailingU64 cfg then wU64 0 else λ o, o) (NewStreamOut s) in
        let b := Bytes_ content in
        let out := (wU8 1 ;;; wU32 (u32 (zlen b)) ;;; Write b) (NewStreamOut s) in
        Ok (NewRMCSuccess s ProtocolTicketGranting (Method req) (CallID req) (Bytes_ out), st)
    end.

(** [Handler]. *)
Definition auth_Handler (remote : option bytes) (req : RMCMessage) (st : AuthState)
    : result (RMCMessage * AuthState) :=
  if (Method req =? MethodLogin) || (Method req =? MethodLoginEx) then handleLogin remote req st
  else if Method req =? MethodLoginWithContext then handleLoginWithContext remote req st
  else Ok (NewRMCError (cfg_Settings cfg) ProtocolTicketGranting (CallID req) ResultCoreNotImplemented, st).
End handlers.

(** ** The recall table remembers the last login of each address *)

(** The operations that touch the table, each at its instant. *)
Inductive recall_op :=
  | ORemember (t : Z) (addr : bytes) (p : Z)
  | ORecall (t : Z) (addr : bytes)
  | OFlush (t : Z).

Definition op_time (o : recall_op) : Z :=
  match o with ORemember t _ _ | ORecall t _ | OFlush t => t end.

Section recall_spec.
Context `{MO : MapOrder}.

Definition recall_step (st : AuthState) (o : recall_op) : AuthState :=
  match o with
  | ORemember t a p => RememberAuthPID None t a p st
  | ORecall t a => (RecallAuthPID None t a st).2
  | OFlush t => (authRecallFlush t st).1
  end.

(** The specification: the last login from a host. *)
Definition login_step (h : bytes) (r : option authRecall) (o : recall_op) : option authRecall :=
  match o with
  | ORemember t a p => if decide (ipHost a = h) then Some (mkRecall p t) else r
  | _ => r
  end.
Definition last_login (ops : list recall_op) (h : bytes) : option authRecall :=
  foldl (login_step h) None ops.

(** Time does not go backwards, from [t] on. *)
Fixpoint ordered (t : Z) (ops : list recall_op) : Prop :=
  match ops with [] => True | o :: ops => t ≤ op_time o ∧ ordered (op_time o) ops end.

Definition last_time (t : Z) (ops : list recall_op) : Z := foldl (λ _ o, op_time o) t ops.

(** The table holds the last logins, those already expired perhaps missing. *)
Definition table_ok (t : Z) (last : bytes → option authRecall) (m : gmap bytes authRecall) : Prop :=
  ∀ h, m !! h = last h ∨ m !! h = None ∧ ∃ r, last h = Some r ∧ expired t r = true.

Lemma expired_mono t t' r : t ≤ t' → expired t r = true → expired t' r = true.
Proof. unfold expired. lia. Qed.

Lemma table_ok_mono t t' last m : t ≤ t' → table_ok t last m → table_ok t' last m.
Proof.
  intros Ht Hm h. destruct (Hm h) as [|(E & r & L & X)]; [by left|].
  right. split; [done|]. exists r. split; [done|by eapply expired_mono].
Qed.

Lemma init_id t st : authPIDByIP (authRecallInit None t st) = authPIDByIP st.
Proof. unfold authRecallInit. by case_match. Qed.

(** The flusher only drops expired entries. *)
Lemma flush_lookup t (l : list (bytes * authRecall)) m out h :
  (foldl (flush_entry t) (m, out) l).1 !! h = m !! h ∨
  ((foldl (flush_entry t) (m, out) l).1 !! h = None ∧ ∃ r, (h, r) ∈ l ∧ expired t r = true).
Proof.
  revert m out. induction l as [|[k r] l IH]; intros m out; [by left|]. cbn [foldl].
  assert (∀ m' out', (foldl (flush_entry t) (m', out') l).1 !! h = m' !! h ∨
    ((foldl (flush_entry t) (m', out') l).1 !! h = None ∧
     ∃ r0, (h, r0) ∈ (k, r) :: l ∧ expired t r0 = true)) as IH'.
  { intros m' out'. destruct (IH m' out') as [|(E & r0 & Hin & X)]; [by left|].
    right. split; [done|]. exists r0. split; [by right|done]. }
  unfold flush_entry at 2 4. cbn [fst snd]. case_bool_decide; [apply IH'|].
  destruct (expired t r) eqn:X; [|case_match; apply IH'].
  destruct (decide (k = h)) as [->|Hne].
  - right. split.
    + destruct (IH (delete h m) out) as [E|[E _]]; rewrite E; [apply lookup_delete_eq|done].
    + exists r. split; [by left|done].
  - destruct (IH' (delete k m) out) as [E|E]; [left|by right].
    rewrite E. by apply lookup_delete_ne.
Qed.

Lemma recall_step_ok t last st o :
  table_ok t last (authPIDByIP st) → t ≤ op_time o →
  table_ok (op_time o) (λ h, login_step h (last h) o) (authPIDByIP (recall_step st o)).
Proof.
  intros Hm Ht. apply (table_ok_mono _ (op_time o)) in Hm; [|done].
  destruct o as [t' a p|t' a|t']; cbn [recall_step op_time login_step] in *.
  - unfold RememberAuthPID. cbn [authPIDByIP]. rewrite init_id. intros h.
    case_decide as E; [subst; left; by rewrite lookup_insert_eq|].
    rewrite lookup_insert_ne by done. apply Hm.
  - unfold RecallAuthPID. rewrite init_id. destruct (authPIDByIP st !! ipHost a) as [r|] eqn:E.
    + case_match; [cbn [snd]; rewrite init_id; apply Hm|].
      destruct (expired t' r) eqn:X; cbn [snd]; [|rewrite init_id; apply Hm].
      cbn [set_recall authPIDByIP]. intros h. destruct (decide (ipHost a = h)) as [<-|].
      * rewrite lookup_delete_eq. right. split; [done|]. exists r.
        split; [|done]. destruct (Hm (ipHost a)) as [|[]]; congruence.
      * rewrite lookup_delete_ne by done. apply Hm.
    + cbn [snd]. rewrite init_id. apply Hm.
  - unfold authRecallFlush. case_match; [apply Hm|].
    destruct (foldl _ _ _) as [m' out'] eqn:F. cbn [fst authPIDByIP]. intros h.
    destruct (flush_lookup t' (range (authPIDByIP st)) (authPIDByIP st) ∅ h) as [E|(E & r & Hin & X)];
      rewrite F in E; cbn [fst] in E.
    + rewrite E. apply Hm.
    + right. split; [done|]. exists r. split; [|done].
      apply elem_of_range in Hin. destruct (Hm h) as [|[]]; congruence.
Qed.

Lemma recall_run_ok t last st ops :
  table_ok t last (authPIDByIP st) → ordered t ops →
  table_ok (last_time t ops) (λ h, foldl (login_step h) (last h) ops)
    (authPIDByIP (foldl recall_step st ops)).
Proof.
  revert t last st. induction ops as [|o ops IH]; intros t last st Hm Ho; [done|].
  destruct Ho as [Ht Ho]. cbn [foldl last_time].
  apply (IH (op_time o) (λ h, login_step h (last h) o)); [|done]. by eapply recall_step_ok.
Qed.

(** C20: The table of recent logins implements its specification: after any history of logins,
    recalls and flushes, in time order, a recall answers the player of the last login from
    that host, unless it has expired, and nobody otherwise. *)
Theorem RecallAuthPID_spec ops now addr :
  ordered 0 ops → last_time 0 ops ≤ now →
  (RecallAuthPID None now addr (foldl recall_step auth_start ops)).1 =
    match last_login ops (ipHost addr) with
    | Some r => if (pid r =? 0) || expired now r then None else Some (pid r)
    | None => None
    end.
Proof.
  intros Ho Hn.
  assert (table_ok 0 (λ _, None) (authPIDByIP auth_start)) as H0.
  { intros h. left. apply lookup_empty. }
  pose proof (recall_run_ok 0 _ auth_start ops H0 Ho) as Hm.
  apply (table_ok_mono _ now) in Hm; [|done].
  unfold RecallAuthPID. rewrite init_id. specialize (Hm (ipHost addr)). cbv beta in Hm.
  change (foldl (login_step (ipHost addr)) None ops) with (last_login ops (ipHost addr)) in Hm.
  destruct Hm as [->|(-> & r & -> & X)].
  - destruct (last_login _ _) as [r|]; [|done].
    destruct (pid r =? 0); [done|]. by destruct (expired now r).
  - rewrite X. by rewrite orb_true_r.
Qed.
End recall_spec.

(** ** The tickets of a login *)
Definition entropy_ok (ent : Entropy) : Prop := ∀ b, rnd_ticket ent = Some b → length b = 16%nat.

(** The ticket that comes out lets its holder name the session key, and lets the secure
    server, and no other key, name the player. *)
Lemma mint_ticket_ok cfg ent now p sourceKey ticket :
  entropy_ok ent → pid_ok (cfg_Settings cfg) p → pid_ok (cfg_Settings cfg) (SecurePID cfg) →
  is_u64 now → KerberosKeySize (cfg_Settings cfg) < 2 ^ 31 →
  mint_ticket cfg ent now p sourceKey = Ok ticket →
  ∃ sessionKey internal,
    rnd_session ent = Some sessionKey ∧
    DecryptClientTicket ticket sourceKey (cfg_Settings cfg) =
      Ok (mkClientTicket sessionKey (SecurePID cfg) internal) ∧
    DecryptServerTicket internal
      (DeriveKey (cfg_Settings cfg) (SecurePassword cfg) (SecurePID cfg)) (cfg_Settings cfg) =
      Ok (mkServerTicket now p sessionKey) ∧
    buf_ok internal.
Proof.
  intros Hent Hp Hsp Hnow Hsz. unfold mint_ticket. case_match; [done|].
  destruct (rnd_session ent) as [k|]; [|done].
  destruct (ServerTicket_Encrypt _ _ _ _) as [internal|] eqn:Es; [|done].
  cbn [result_bind]. intros Ec. exists k, internal.
  assert (buf_ok internal) as Hb.
  { pose proof (ServerTicket_Encrypt_length _ _ _ _ _ Hent Es).
    pose proof (zlen_nonneg internal). unfold buf_ok, is_u. lia. }
  split_and!; [done| | |done].
  - by apply DecryptClientTicket_Encrypt.
  - by eapply (DecryptServerTicket_Encrypt (rnd_ticket ent)).
Qed.

(** It does come out, for a usable source key and a random source that delivers. *)
Lemma mint_ticket_total cfg ent now p sourceKey k tk :
  rnd_session ent = Some k → rnd_ticket ent = Some tk →
  zlen k = KerberosKeySize (cfg_Settings cfg) → 0 ≤ session_key_length cfg →
  key_ok sourceKey →
  is_Some (match mint_ticket cfg ent now p sourceKey with Ok t => Some t | Err _ => None end).
Proof.
  intros Hk Htk Hlen Hpos Hs. unfold mint_ticket.
  destruct (Z.ltb_spec (session_key_length cfg) 0); [lia|]. rewrite Hk, Htk.
  unfold ServerTicket_Encrypt. simpl st_SessionKey. rewrite Hlen, Z.eqb_refl. cbn [negb].
  assert (∃ internal, (if KerberosTicketVersion (cfg_Settings cfg) =? 1
     then try! enc := kerberosEncrypt (md5Sum (DeriveKey (cfg_Settings cfg) (SecurePassword cfg) (SecurePID cfg) ++ tk))
            (Bytes_ (wServerTicket (mkServerTicket now p k) (NewStreamOut (cfg_Settings cfg)))) in
          Ok (Bytes_ ((wBuffer tk ;;; wBuffer enc) (NewStreamOut (cfg_Settings cfg))))
     else kerberosEncrypt (DeriveKey (cfg_Settings cfg) (SecurePassword cfg) (SecurePID cfg))
            (Bytes_ (wServerTicket (mkServerTicket now p k) (NewStreamOut (cfg_Settings cfg)))))
     = Ok internal) as [internal ->].
  { case_match.
    - destruct (kerberosEncrypt_ok (md5Sum (DeriveKey (cfg_Settings cfg) (SecurePassword cfg) (SecurePID cfg) ++ tk))
        (Bytes_ (wServerTicket (mkServerTicket now p k) (NewStreamOut (cfg_Settings cfg)))))
        as (e & -> & _); [|by eexists].
      unfold key_ok, zlen, md5Sum. rewrite length_md5_Sum. lia.
    - destruct (kerberosEncrypt_ok (DeriveKey (cfg_Settings cfg) (SecurePassword cfg) (SecurePID cfg))
        (Bytes_ (wServerTicket (mkServerTicket now p k) (NewStreamOut (cfg_Settings cfg)))))
        as (e & -> & _); [apply DeriveKey_ok|by eexists]. }
  cbn [result_bind]. unfold ClientTicket_Encrypt. simpl ct_SessionKey.
  rewrite Hlen, Z.eqb_refl. cbn [negb].
  destruct (kerberosEncrypt_ok sourceKey (Bytes_ (wClientTicket (mkClientTicket k (SecurePID cfg) internal)
    (NewStreamOut (cfg_Settings cfg)))) Hs) as (e & -> & _). by eexists.
Qed.

(** Two logins from one address, then a recall from another of its ports. *)
Lemma RecallAuthPID_spec_witness :
  let ops := [ORemember 10 (str "203.0.113.7:50000") 41; OFlush 15; ORemember 20 (str "203.0.113.7:50001") 42] in
  ordered 0 ops ∧
  (RecallAuthPID (MO := canonical_order) None 30 (str "203.0.113.7:9")
     (foldl (recall_step (MO := canonical_order)) auth_start ops)).1 = Some 42.
Proof.
  cbv zeta. set (ops := [_; _; _]). assert (ordered 0 ops) as Ho by (vm_compute; repeat split; discriminate).
  split; [exact Ho|].
  etrans; [exact (RecallAuthPID_spec (MO := canonical_order) ops 30 (str "203.0.113.7:9") Ho ltac:(vm_compute; discriminate))|].
  vm_compute. reflexivity.
Defined.
