(* ===== verification/Connection.v ===== *)
(** * Endpoint and connection state (src/endpoint.go)

    The data of an endpoint and of its connections, the connection registry, and the small
    operations on one connection.  A connection is a heap object: a [Ref] is its pointer, so
    that the registry, the callbacks and the transport share it. *)

From S2P Require Export TicketGranting PrudpLite.

Definition Ref := nat.

Definition stateConnecting : Z := 0.
Definition stateConnected : Z := 1.
Definition stateClosed : Z := 2.

(** ** Connection

    The mutexes and atomics guard fields of their own; the interleavings they allow are the
    orders in which the operations below are run. *)
Record Connection := mkConnection {
  RemoteAddr : bytes;
  ID : Z;
  PID : Z;
  CID : Z;
  stationURLs : list (option StationURL);
  natMapV : Z;
  natFilterV : Z;
  sessionKey : bytes;
  connectionSig : bytes;
  minorVersion : Z;
  supportedFunc : Z;
  srcType : Z;
  srcPort : Z;
  dstType : Z;
  dstPort : Z;
  recvBuf : bytes;
  fragBuf : bytes;
  recus : list Z;
  recusVus : list bool;
  recusPos : nat;
  outReliable : Z;
  outPing : Z;
  pending : gmap Z bytes;
  state : Z;
  lastSeen : Z
}.

(** Assignments. *)
Definition set_ID (v : Z) (c : Connection) : Connection :=
  mkConnection (RemoteAddr c) v (PID c) (CID c) (stationURLs c) (natMapV c) (natFilterV c)
    (sessionKey c) (connectionSig c) (minorVersion c) (supportedFunc c) (srcType c) (srcPort
    c) (dstType c) (dstPort c) (recvBuf c) (fragBuf c) (recus c) (recusVus c) (recusPos c)
    (outReliable c) (outPing c) (pending c) (state c) (lastSeen c).
Definition set_PID (v : Z) (c : Connection) : Connection :=
  mkConnection (RemoteAddr c) (ID c) v (CID c) (stationURLs c) (natMapV c) (natFilterV c)
    (sessionKey c) (connectionSig c) (minorVersion c) (supportedFunc c) (srcType c) (srcPort
    c) (dstType c) (dstPort c) (recvBuf c) (fragBuf c) (recus c) (recusVus c) (recusPos c)
    (outReliable c) (outPing c) (pending c) (state c) (lastSeen c).
Definition set_CID (v : Z) (c : Connection) : Connection :=
  mkConnection (RemoteAddr c) (ID c) (PID c) v (stationURLs c) (natMapV c) (natFilterV c)
    (sessionKey c) (connectionSig c) (minorVersion c) (supportedFunc c) (srcType c) (srcPort
    c) (dstType c) (dstPort c) (recvBuf c) (fragBuf c) (recus c) (recusVus c) (recusPos c)
    (outReliable c) (outPing c) (pending c) (state c) (lastSeen c).
Definition set_stationURLs (v : list (option StationURL)) (c : Connection) : Connection :=
  mkConnection (RemoteAddr c) (ID c) (PID c) (CID c) v (natMapV c) (natFilterV c)
    (sessionKey c) (connectionSig c) (minorVersion c) (supportedFunc c) (srcType c) (srcPort
    c) (dstType c) (dstPort c) (recvBuf c) (fragBuf c) (recus c) (recusVus c) (recusPos c)
    (outReliable c) (outPing c) (pending c) (state c) (lastSeen c).
Definition set_natMapV (v : Z) (c : Connection) : Connection :=
  mkConnection (RemoteAddr c) (ID c) (PID c) (CID c) (stationURLs c) v (natFilterV c)
    (sessionKey c) (connectionSig c) (minorVersion c) (supportedFunc c) (srcType c) (srcPort
    c) (dstType c) (dstPort c) (recvBuf c) (fragBuf c) (recus c) (recusVus c) (recusPos c)
    (outReliable c) (outPing c) (pending c) (state c) (lastSeen c).
Definition set_natFilterV (v : Z) (c : Connection) : Connection :=
  mkConnection (RemoteAddr c) (ID c) (PID c) (CID c) (stationURLs c) (natMapV c) v
    (sessionKey c) (connectionSig c) (minorVersion c) (supportedFunc c) (srcType c) (srcPort
    c) (dstType c) (dstPort c) (recvBuf c) (fragBuf c) (recus c) (recusVus c) (recusPos c)
    (outReliable c) (outPing c) (pending c) (state c) (lastSeen c).
Definition set_sessionKey (v : bytes) (c : Connection) : Connection :=
  mkConnection (RemoteAddr c) (ID c) (PID c) (CID c) (stationURLs c) (natMapV c) (natFilterV
    c) v (connectionSig c) (minorVersion c) (supportedFunc c) (srcType c) (srcPort c)
    (dstType c) (dstPort c) (recvBuf c) (fragBuf c) (recus c) (recusVus c) (recusPos c)
    (outReliable c) (outPing c) (pending c) (state c) (lastSeen c).
Definition set_connectionSig (v : bytes) (c : Connection) : Connection :=
  mkConnection (RemoteAddr c) (ID c) (PID c) (CID c) (stationURLs c) (natMapV c) (natFilterV
    c) (sessionKey c) v (minorVersion c) (supportedFunc c) (srcType c) (srcPort c) (dstType
    c) (dstPort c) (recvBuf c) (fragBuf c) (recus c) (recusVus c) (recusPos c) (outReliable
    c) (outPing c) (pending c) (state c) (lastSeen c).
Definition set_minorVersion (v : Z) (c : Connection) : Connection :=
  mkConnection (RemoteAddr c) (ID c) (PID c) (CID c) (stationURLs c) (natMapV c) (natFilterV
    c) (sessionKey c) (connectionSig c) v (supportedFunc c) (srcType c) (srcPort c) (dstType
    c) (dstPort c) (recvBuf c) (fragBuf c) (recus c) (recusVus c) (recusPos c) (outReliable
    c) (outPing c) (pending c) (state c) (lastSeen c).
Definition set_supportedFunc (v : Z) (c : Connection) : Connection :=
  mkConnection (RemoteAddr c) (ID c) (PID c) (CID c) (stationURLs c) (natMapV c) (natFilterV
    c) (sessionKey c) (connectionSig c) (minorVersion c) v (srcType c) (srcPort c) (dstType
    c) (dstPort c) (recvBuf c) (fragBuf c) (recus c) (recusVus c) (recusPos c) (outReliable
    c) (outPing c) (pending c) (state c) (lastSeen c).
Definition set_srcType (v : Z) (c : Connection) : Connection :=
  mkConnection (RemoteAddr c) (ID c) (PID c) (CID c) (stationURLs c) (natMapV c) (natFilterV
    c) (sessionKey c) (connectionSig c) (minorVersion c) (supportedFunc c) v (srcPort c)
    (dstType c) (dstPort c) (recvBuf c) (fragBuf c) (recus c) (recusVus c) (recusPos c)
    (outReliable c) (outPing c) (pending c) (state c) (lastSeen c).
Definition set_srcPort (v : Z) (c : Connection) : Connection :=
  mkConnection (RemoteAddr c) (ID c) (PID c) (CID c) (stationURLs c) (natMapV c) (natFilterV
    c) (sessionKey c) (connectionSig c) (minorVersion c) (supportedFunc c) (srcType c) v
    (dstType c) (dstPort c) (recvBuf c) (fragBuf c) (recus c) (recusVus c) (recusPos c)
    (outReliable c) (outPing c) (pending c) (state c) (lastSeen c).
Definition set_dstType (v : Z) (c : Connection) : Connection :=
  mkConnection (RemoteAddr c) (ID c) (PID c) (CID c) (stationURLs c) (natMapV c) (natFilterV
    c) (sessionKey c) (connectionSig c) (minorVersion c) (supportedFunc c) (srcType c)
    (srcPort c) v (dstPort c) (recvBuf c) (fragBuf c) (recus c) (recusVus c) (recusPos c)
    (outReliable c) (outPing c) (pending c) (state c) (lastSeen c).
Definition set_dstPort (v : Z) (c : Connection) : Connection :=
  mkConnection (RemoteAddr c) (ID c) (PID c) (CID c) (stationURLs c) (natMapV c) (natFilterV
    c) (sessionKey c) (connectionSig c) (minorVersion c) (supportedFunc c) (srcType c)
    (srcPort c) (dstType c) v (recvBuf c) (fragBuf c) (recus c) (recusVus c) (recusPos c)
    (outReliable c) (outPing c) (pending c) (state c) (lastSeen c).
Definition set_recvBuf (v : bytes) (c : Connection) : Connection :=
  mkConnection (RemoteAddr c) (ID c) (PID c) (CID c) (stationURLs c) (natMapV c) (natFilterV
    c) (sessionKey c) (connectionSig c) (minorVersion c) (supportedFunc c) (srcType c)
    (srcPort c) (dstType c) (dstPort c) v (fragBuf c) (recus c) (recusVus c) (recusPos c)
    (outReliable c) (outPing c) (pending c) (state c) (lastSeen c).
Definition set_fragBuf (v : bytes) (c : Connection) : Connection :=
  mkConnection (RemoteAddr c) (ID c) (PID c) (CID c) (stationURLs c) (natMapV c) (natFilterV
    c) (sessionKey c) (connectionSig c) (minorVersion c) (supportedFunc c) (srcType c)
    (srcPort c) (dstType c) (dstPort c) (recvBuf c) v (recus c) (recusVus c) (recusPos c)
    (outReliable c) (outPing c) (pending c) (state c) (lastSeen c).
Definition set_recus (v : list Z) (c : Connection) : Connection :=
  mkConnection (RemoteAddr c) (ID c) (PID c) (CID c) (stationURLs c) (natMapV c) (natFilterV
    c) (sessionKey c) (connectionSig c) (minorVersion c) (supportedFunc c) (srcType c)
    (srcPort c) (dstType c) (dstPort c) (recvBuf c) (fragBuf c) v (recusVus c) (recusPos c)
    (outReliable c) (outPing c) (pending c) (state c) (lastSeen c).
Definition set_recusVus (v : list bool) (c : Connection) : Connection :=
  mkConnection (RemoteAddr c) (ID c) (PID c) (CID c) (stationURLs c) (natMapV c) (natFilterV
    c) (sessionKey c) (connectionSig c) (minorVersion c) (supportedFunc c) (srcType c)
    (srcPort c) (dstType c) (dstPort c) (recvBuf c) (fragBuf c) (recus c) v (recusPos c)
    (outReliable c) (outPing c) (pending c) (state c) (lastSeen c).
Definition set_recusPos (v : nat) (c : Connection) : Connection :=
  mkConnection (RemoteAddr c) (ID c) (PID c) (CID c) (stationURLs c) (natMapV c) (natFilterV
    c) (sessionKey c) (connectionSig c) (minorVersion c) (supportedFunc c) (srcType c)
    (srcPort c) (dstType c) (dstPort c) (recvBuf c) (fragBuf c) (recus c) (recusVus c) v
    (outReliable c) (outPing c) (pending c) (state c) (lastSeen c).
Definition set_outReliable (v : Z) (c : Connection) : Connection :=
  mkConnection (RemoteAddr c) (ID c) (PID c) (CID c) (stationURLs c) (natMapV c) (natFilterV
    c) (sessionKey c) (connectionSig c) (minorVersion c) (supportedFunc c) (srcType c)
    (srcPort c) (dstType c) (dstPort c) (recvBuf c) (fragBuf c) (recus c) (recusVus c)
    (recusPos c) v (outPing c) (pending c) (state c) (lastSeen c).
Definition set_pending (v : gmap Z bytes) (c : Connection) : Connection :=
  mkConnection (RemoteAddr c) (ID c) (PID c) (CID c) (stationURLs c) (natMapV c) (natFilterV
    c) (sessionKey c) (connectionSig c) (minorVersion c) (supportedFunc c) (srcType c)
    (srcPort c) (dstType c) (dstPort c) (recvBuf c) (fragBuf c) (recus c) (recusVus c)
    (recusPos c) (outReliable c) (outPing c) v (state c) (lastSeen c).
Definition set_state (v : Z) (c : Connection) : Connection :=
  mkConnection (RemoteAddr c) (ID c) (PID c) (CID c) (stationURLs c) (natMapV c) (natFilterV
    c) (sessionKey c) (connectionSig c) (minorVersion c) (supportedFunc c) (srcType c)
    (srcPort c) (dstType c) (dstPort c) (recvBuf c) (fragBuf c) (recus c) (recusVus c)
    (recusPos c) (outReliable c) (outPing c) (pending c) v (lastSeen c).
Definition set_lastSeen (v : Z) (c : Connection) : Connection :=
  mkConnection (RemoteAddr c) (ID c) (PID c) (CID c) (stationURLs c) (natMapV c) (natFilterV
    c) (sessionKey c) (connectionSig c) (minorVersion c) (supportedFunc c) (srcType c)
    (srcPort c) (dstType c) (dstPort c) (recvBuf c) (fragBuf c) (recus c) (recusVus c)
    (recusPos c) (outReliable c) (outPing c) (pending c) (state c) v.

(** The goroutines a connection starts: the fragments of a large message still to send
    (the bytes left, the next fragment id), and the retransmission loop. *)
Inductive Task :=
  | SendFragments (r : Ref) (rest : bytes) (fragmentID : Z)
  | RetransmitLoop (r : Ref).

(** ** Handler tables *)

(** [RMCHandler], over the state of the process; [None] sends nothing. *)
Definition RMCHandler (St : Type) : Type := Ref → RMCMessage → St → option RMCMessage * St.

Record HandlerTable (St : Type) := mkTable {
  handlers : gmap Z (RMCHandler St);
  fallbackHandler : option (RMCHandler St)
}.
Arguments mkTable {St}.
Arguments handlers {St}.
Arguments fallbackHandler {St}.

Definition RegisterFallback {St} (h : option (RMCHandler St)) (t : HandlerTable St) : HandlerTable St :=
  mkTable (handlers t) h.
Definition Register {St} (protocolID : Z) (h : RMCHandler St) (t : HandlerTable St) : HandlerTable St :=
  mkTable (<[protocolID := h]> (handlers t)) (fallbackHandler t).
Definition handler {St} (t : HandlerTable St) (protocolID : Z) : option (RMCHandler St) :=
  match handlers t !! protocolID with
  | Some h => Some h
  | None => fallbackHandler t
  end.

(** ** The endpoint and what it shares with the process

    [sent] records the calls of [c.send], oldest first; [auth] is the login table of
    ticketgranting.go; [clock] is [time.Now().UnixNano()]; [app_state] is the state the game
    server's handlers keep (matchmaking), of a type of its own. *)
Record NetOf (App : Type) := mkNet {
  settings : Settings;
  Secure : bool;
  SecureKey : bytes;
  connections : gmap Z Ref;
  connCounter : Z;
  heap : gmap Ref Connection;
  sent : list (Ref * bytes);
  tasks : list Task;
  auth : AuthState;
  clock : Z;
  app_state : App
}.
Arguments mkNet {App}.
Arguments settings {App}.
Arguments Secure {App}.
Arguments SecureKey {App}.
Arguments connections {App}.
Arguments connCounter {App}.
Arguments heap {App}.
Arguments sent {App}.
Arguments tasks {App}.
Arguments auth {App}.
Arguments clock {App}.
Arguments app_state {App}.

Section net.
Context {App : Type}.
#[local] Abbreviation Net := (NetOf App).

Definition set_Secure (v : bool) (n : Net) : Net :=
  mkNet (settings n) v (SecureKey n) (connections n) (connCounter n) (heap n) (sent n)
    (tasks n) (auth n) (clock n) (app_state n).
Definition set_SecureKey (v : bytes) (n : Net) : Net :=
  mkNet (settings n) (Secure n) v (connections n) (connCounter n) (heap n) (sent n) (tasks
    n) (auth n) (clock n) (app_state n).
Definition set_connections (v : gmap Z Ref) (n : Net) : Net :=
  mkNet (settings n) (Secure n) (SecureKey n) v (connCounter n) (heap n) (sent n) (tasks n)
    (auth n) (clock n) (app_state n).
Definition set_connCounter (v : Z) (n : Net) : Net :=
  mkNet (settings n) (Secure n) (SecureKey n) (connections n) v (heap n) (sent n) (tasks n)
    (auth n) (clock n) (app_state n).
Definition set_heap (v : gmap Ref Connection) (n : Net) : Net :=
  mkNet (settings n) (Secure n) (SecureKey n) (connections n) (connCounter n) v (sent n)
    (tasks n) (auth n) (clock n) (app_state n).
Definition set_sent (v : list (Ref * bytes)) (n : Net) : Net :=
  mkNet (settings n) (Secure n) (SecureKey n) (connections n) (connCounter n) (heap n) v
    (tasks n) (auth n) (clock n) (app_state n).
Definition set_tasks (v : list Task) (n : Net) : Net :=
  mkNet (settings n) (Secure n) (SecureKey n) (connections n) (connCounter n) (heap n) (sent
    n) v (auth n) (clock n) (app_state n).
Definition set_auth (v : AuthState) (n : Net) : Net :=
  mkNet (settings n) (Secure n) (SecureKey n) (connections n) (connCounter n) (heap n) (sent
    n) (tasks n) v (clock n) (app_state n).
Definition set_clock (v : Z) (n : Net) : Net :=
  mkNet (settings n) (Secure n) (SecureKey n) (connections n) (connCounter n) (heap n) (sent
    n) (tasks n) (auth n) v (app_state n).
Definition set_app (v : App) (n : Net) : Net :=
  mkNet (settings n) (Secure n) (SecureKey n) (connections n) (connCounter n) (heap n) (sent
    n) (tasks n) (auth n) (clock n) v.

Definition NewEndpoint (s : Settings) (a : AuthState) (t : Z) (x : App) : Net :=
  mkNet s false [] ∅ 0 ∅ [] [] a t x.

Definition SetSecureAccount (password : bytes) (p : Z) (n : Net) : Net :=
  set_SecureKey (DeriveKey (settings n) password p) (set_Secure true n).

Definition NewConnection (remoteAddr : bytes) : Connection :=
  mkConnection remoteAddr 0 0 0 [] 0 0 [] [] 0 0 0 0 0 0 [] []
    (replicate 128 0) (replicate 128 false) 0 1 1 ∅ stateConnecting 0.

(** A zero connection stands for a pointer that was never allocated. *)
Definition conn (r : Ref) (n : Net) : Connection := default (NewConnection []) (heap n !! r).

Definition upd (r : Ref) (f : Connection → Connection) (n : Net) : Net :=
  set_heap (<[r := f (conn r n)]> (heap n)) n.

(** [new(Connection)]. *)
Definition alloc (c : Connection) (n : Net) : Ref * Net :=
  let r := fresh (dom (heap n)) in (r, set_heap (<[r := c]> (heap n)) n).

Definition send (r : Ref) (b : bytes) (n : Net) : Net := set_sent (sent n ++ [(r, b)]) n.

(** ** The registry *)
Definition registerConnection (r : Ref) (n : Net) : Net :=
  let counter := u32 (connCounter n + 1) in
  let n := upd r (set_ID counter) (set_connCounter counter n) in
  set_connections (<[counter := r]> (connections n)) n.

Definition unregisterConnection (r : Ref) (n : Net) : Net :=
  if ID (conn r n) =? 0 then n
  else set_connections (delete (ID (conn r n)) (connections n)) n.

Definition FindConnectionByID (id : Z) (n : Net) : option Ref := connections n !! id.

Section lookups.
Context `{MO : MapOrder}.

(** One entry of the loop of [FindConnectionByPID]. *)
Definition find_newer (p : Z) (n : Net) (newest : option Ref) (e : Z * Ref) : option Ref :=
  if PID (conn e.2 n) =? p then
    match newest with
    | None => Some e.2
    | Some m => if ID (conn m n) <? ID (conn e.2 n) then Some e.2 else newest
    end
  else newest.

Definition FindConnectionByPID (p : Z) (n : Net) : option Ref :=
  foldl (find_newer p n) None (range (connections n)).

Definition ConnectionIDs (n : Net) : list Z := (range (connections n)).*1.
End lookups.

(** ** One connection *)

(** Nanoseconds since the last packet; 0 before the first. *)
Definition IdleFor (now : Z) (c : Connection) : Z :=
  if lastSeen c =? 0 then 0 else now - lastSeen c.

Definition SetNATProps (natMap natFilter : Z) (c : Connection) : Connection :=
  set_natFilterV natFilter (set_natMapV natMap c).
Definition NATProps (c : Connection) : Z * Z := (natMapV c, natFilterV c).

(** The first registered station that names a NAT behaviour. *)
Fixpoint station_nat (us : list (option StationURL)) : Z * Z :=
  match us with
  | [] => (0, 0)
  | None :: us => station_nat us
  | Some u :: us =>
      let nm := GetInt u (str "natm") in
      let nf := GetInt u (str "natf") in
      if negb (nm =? 0) || negb (nf =? 0) then (u32 nm, u32 nf) else station_nat us
  end.

Definition NATBehaviour (c : Connection) : Z * Z :=
  if negb (natMapV c =? 0) then (natMapV c, natFilterV c)
  else if negb (natFilterV c =? 0) then (0, natFilterV c)
  else station_nat (stationURLs c).

Definition Stations (c : Connection) : list (option StationURL) := stationURLs c.
Definition SetStations (us : list (option StationURL)) (c : Connection) : Connection :=
  set_stationURLs us c.

(** [dejaRecu]: was this sequence number among the last ones; if not, remember it. *)
Definition dejaRecu (seq : Z) (c : Connection) : bool * Connection :=
  if existsb (λ vs, vs.1 && (vs.2 =? seq)) (zip (recusVus c) (recus c)) then (true, c)
  else
    (false,
     set_recusPos ((recusPos c + 1) mod length (recus c))%nat
       (set_recusVus (<[recusPos c := true]> (recusVus c))
          (set_recus (<[recusPos c := seq]> (recus c)) c))).

(** [ackPackets]: the pool is scanned in the map's order, to the same effect in any. *)
Definition ackPackets (base : Z) (extra : list Z) (c : Connection) : Connection :=
  let p := filter (λ e, base < e.1) (pending c) in
  set_pending (foldl (λ m pid, delete pid m) p extra) c.

Definition min8 (a b : Z) : Z := if a <? b then u8 a else b.
Definition equalBytes (a b : bytes) : bool := bytes_eqb a b.

(** ** Looking a player up *)

(** Of the live connections of a PID, the answer is one with the highest id: the order in
    which the registry is visited does not matter. *)
Lemma FindConnectionByPID_newest `{MO : MapOrder} p n :
  match FindConnectionByPID p n with
  | Some r =>
      (∃ id, connections n !! id = Some r) ∧ PID (conn r n) = p ∧
      ∀ id r', connections n !! id = Some r' → PID (conn r' n) = p → ID (conn r' n) ≤ ID (conn r n)
  | None => ∀ id r', connections n !! id = Some r' → PID (conn r' n) ≠ p
  end.
Proof.
  assert (∀ (l : list (Z * Ref)) acc (seen : list (Z * Ref)),
    match acc with
    | Some r => (∃ id, (id, r) ∈ seen) ∧ PID (conn r n) = p ∧
        ∀ id r', (id, r') ∈ seen → PID (conn r' n) = p → ID (conn r' n) ≤ ID (conn r n)
    | None => ∀ id r', (id, r') ∈ seen → PID (conn r' n) ≠ p
    end →
    match foldl (find_newer p n) acc l with
    | Some r => (∃ id, (id, r) ∈ seen ++ l) ∧ PID (conn r n) = p ∧
        ∀ id r', (id, r') ∈ seen ++ l → PID (conn r' n) = p → ID (conn r' n) ≤ ID (conn r n)
    | None => ∀ id r', (id, r') ∈ seen ++ l → PID (conn r' n) ≠ p
    end) as Hl.
  { induction l as [|[id r] l IH]; intros acc seen Hacc; [by rewrite app_nil_r|].
    cbn [foldl]. replace (seen ++ (id, r) :: l) with ((seen ++ [(id, r)]) ++ l) by (by rewrite <- app_assoc).
    apply IH. unfold find_newer. cbn [snd].
    destruct (Z.eqb_spec (PID (conn r n)) p) as [E|E].
    - destruct acc as [m|].
      + destruct Hacc as ((id0 & Hin) & Hp & Hmax).
        destruct (Z.ltb_spec (ID (conn m n)) (ID (conn r n))); split_and!; try done.
        * exists id. set_solver.
        * intros id' r' [Hin'|[= -> ->]%list_elem_of_singleton]%elem_of_app Hp'; [|lia].
          specialize (Hmax _ _ Hin' Hp'). lia.
        * exists id0. set_solver.
        * intros id' r' [Hin'|[= -> ->]%list_elem_of_singleton]%elem_of_app Hp'; [|lia].
          by eapply Hmax.
      + split_and!; [exists id; set_solver|done|].
        intros id' r' [Hin'|[= -> ->]%list_elem_of_singleton]%elem_of_app Hp'; [|lia].
        by apply Hacc in Hin'.
    - destruct acc as [m|].
      + destruct Hacc as ((id0 & Hin) & Hp & Hmax). split_and!; [exists id0; set_solver|done|].
        intros id' r' [Hin'|[= -> ->]%list_elem_of_singleton]%elem_of_app Hp'; [|done].
        by eapply Hmax.
      + intros id' r' [Hin'|[= -> ->]%list_elem_of_singleton]%elem_of_app; [|done].
        by eapply Hacc. }
  specialize (Hl (range (connections n)) None []). unfold FindConnectionByPID.
  destruct (foldl _ _ _) as [r|].
  - destruct Hl as ((id & Hin) & Hp & Hmax); [by intros ?? ?%elem_of_nil|].
    split_and!; [|done|].
    + exists id. by apply elem_of_range.
    + intros id' r' Hr'. apply (Hmax id'). by apply elem_of_range.
  - intros id r' Hr'. apply (Hl ltac:(by intros ?? ?%elem_of_nil) id). by apply elem_of_range.
Qed.

(** ** The window of received sequence numbers *)

(** The ring holds the last 128 numbers of [l], the fresh numbers since the session started,
    each in its place. *)
Definition ring_ok (c : Connection) (l : list Z) : Prop :=
  length (recus c) = 128%nat ∧ length (recusVus c) = 128%nat ∧
  recusPos c = (length l mod 128)%nat ∧
  (∀ i, (length l ≤ i < 128)%nat → recusVus c !! i = Some false) ∧
  (∀ j, (j < length l)%nat → (length l - 128 ≤ j)%nat →
    recusVus c !! (j mod 128)%nat = Some true ∧ recus c !! (j mod 128)%nat = l !! j).

Lemma ring_ok_start c : recusPos c = 0%nat → length (recus c) = 128%nat →
  recusVus c = replicate 128 false → ring_ok c [].
Proof.
  intros Hp Hr Hv. unfold ring_ok. rewrite Hv, length_replicate. split_and!; try done.
  - intros i Hi. apply lookup_replicate_2. simpl in *. lia.
  - simpl. lia.
Qed.

Lemma ring_slot (n i : nat) : (i < 128)%nat → (i < n)%nat →
  ∃ j, (j < n)%nat ∧ (n - 128 ≤ j)%nat ∧ (j mod 128)%nat = i.
Proof.
  intros Hi Hn. pose proof (Nat.div_mod n 128 ltac:(lia)). pose proof (Nat.mod_upper_bound n 128 ltac:(lia)).
  assert (∀ q, ((128 * q + i) mod 128)%nat = i) as Hq.
  { intros q. rewrite Nat.add_comm, Nat.mul_comm, Nat.Div0.mod_add. by apply Nat.mod_small. }
  destruct (decide (i < n mod 128)%nat).
  - exists (128 * (n / 128) + i)%nat. split_and!; [lia|lia|apply Hq].
  - exists (128 * (n / 128 - 1) + i)%nat.
    assert (1 ≤ n / 128)%nat. { destruct (n / 128)%nat eqn:E; lia. }
    split_and!; [lia|lia|apply Hq].
Qed.

Lemma ring_mem c l seq :
  ring_ok c l →
  existsb (λ vs : bool * Z, vs.1 && (vs.2 =? seq)) (zip (recusVus c) (recus c)) = true ↔
  seq ∈ last_n 128 l.
Proof.
  intros (Lr & Lv & _ & Hno & Hyes). rewrite existsb_exists. unfold last_n. split.
  - intros ([v x] & Hin & [Hv Hx]%andb_true_iff). cbn [fst snd] in *. destruct v; [|done].
    apply Z.eqb_eq in Hx. subst x. apply list_elem_of_In, list_elem_of_lookup in Hin as [i Hi].
    apply lookup_zip_Some in Hi as [Hv' Hs].
    assert (i < 128)%nat by (rewrite <- Lr; by eapply lookup_lt_Some).
    destruct (decide (i < length l)%nat) as [Hlt|]; [|rewrite Hno in Hv' by lia; done].
    destruct (ring_slot (length l) i) as (j & Hj1 & Hj2 & Hji); [done..|].
    destruct (Hyes j Hj1 Hj2) as [_ E]. rewrite Hji, Hs in E.
    apply list_elem_of_lookup. exists (j - (length l - 128))%nat.
    rewrite lookup_drop. replace (length l - 128 + (j - (length l - 128)))%nat with j by lia. done.
  - intros (k & Hk)%list_elem_of_lookup. rewrite lookup_drop in Hk.
    set (j := (length l - 128 + k)%nat) in *. pose proof (lookup_lt_Some _ _ _ Hk).
    destruct (Hyes j) as [E1 E2]; [done|lia|]. exists (true, seq). split.
    + apply list_elem_of_In, list_elem_of_lookup. exists (j mod 128)%nat.
      apply lookup_zip_Some. rewrite E1, E2. by split.
    + simpl. apply Z.eqb_refl.
Qed.

(** [dejaRecu] recognises exactly the last 128 fresh numbers, and keeps the window. *)
Lemma dejaRecu_ok c l seq :
  ring_ok c l →
  (dejaRecu seq c).1 = bool_decide (seq ∈ last_n 128 l) ∧
  ring_ok (dejaRecu seq c).2 (if (dejaRecu seq c).1 then l else l ++ [seq]).
Proof.
  intros Hok. pose proof (ring_mem c l seq Hok) as Hm. unfold dejaRecu.
  destruct (existsb _ _) eqn:E; cbn [fst snd].
  - split; [|done]. symmetry. apply bool_decide_eq_true. by apply Hm.
  - split.
    { symmetry. apply bool_decide_eq_false. intros Hin. by apply Hm in Hin. }
    destruct Hok as (Lr & Lv & Hp & Hno & Hyes).
    assert (recusPos c < 128)%nat as Hlt by (rewrite Hp; apply Nat.mod_upper_bound; lia).
    unfold ring_ok, set_recusPos, set_recusVus, set_recus.
    cbn [recus recusVus recusPos]. rewrite !length_insert, length_app. cbn [length].
    split_and!; [done|done| | |].
    + rewrite Lr, Hp. rewrite Nat.Div0.add_mod_idemp_l. done.
    + intros i Hi. rewrite list_lookup_insert_ne; [apply Hno; lia|].
      rewrite Hp, Nat.mod_small; lia.
    + intros j Hj1 Hj2. destruct (decide (j = length l)) as [->|Hne].
      * rewrite Hp. rewrite !list_lookup_insert_eq by (rewrite ?Lv, ?Lr, <- Hp; done).
        split; [done|]. by rewrite lookup_app_r, Nat.sub_diag by lia.
      * assert (j mod 128 ≠ recusPos c)%nat as Hd.
        { rewrite Hp. intros Heq.
          pose proof (Nat.div_mod j 128 ltac:(lia)). pose proof (Nat.div_mod (length l) 128 ltac:(lia)).
          assert (j / 128 ≠ length l / 128)%nat by lia.
          assert (j / 128 < length l / 128)%nat by nia. nia. }
        rewrite !list_lookup_insert_ne by done. rewrite lookup_app_l by lia. apply Hyes; lia.
Qed.

(** ** Acknowledgements *)
Lemma foldl_delete_lookup (l : list Z) (m : gmap Z bytes) k :
  foldl (λ m pid, delete pid m) m l !! k = if decide (k ∈ l) then None else m !! k.
Proof.
  revert m. induction l as [|x l IH]; intros m; cbn [foldl]; [done|].
  rewrite IH, lookup_delete. repeat case_decide; set_solver.
Qed.

(** What an acknowledgement leaves in the retransmission pool: the packets whose number is
    above its base and that it does not name one by one.  A single acknowledgement is its
    base, so it takes out every lower number as well. *)
Theorem ackPackets_lookup base extra c k :
  pending (ackPackets base extra c) !! k =
    if decide (k ≤ base ∨ k ∈ extra) then None else pending c !! k.
Proof.
  unfold ackPackets. cbn [pending set_pending]. rewrite foldl_delete_lookup.
  destruct (decide (k ∈ extra)); [by rewrite decide_True by tauto|].
  rewrite map_lookup_filter. destruct (pending c !! k) eqn:E; simpl.
  - destruct (decide (base < k)).
    + rewrite option_guard_True by done. rewrite decide_False; [done|]. intros [|]; [lia|done].
    + rewrite option_guard_False by done. by rewrite decide_True by (left; lia).
  - by case_decide.
Qed.

(** The numbers are compared as they are, while the counter comes back to 0 after 65535: an
    acknowledgement of 65535 takes the first fragments of the next round out of the pool,
    whether they have arrived or not. *)
Lemma acks_do_not_wrap a b c :
  pending c = {[0 := a; 1 := b]} → u16 (65535 + 1) = 0 ∧ pending (ackPackets 65535 [] c) = ∅.
Proof. intros H. split; [done|]. unfold ackPackets. cbn. by rewrite H. Qed.

(** ** The heap *)
Section heap.
Implicit Types (n : Net) (r : Ref) (f : Connection → Connection).

Lemma conn_upd r r' f n : conn r (upd r' f n) = if decide (r = r') then f (conn r n) else conn r n.
Proof.
  unfold conn at 1, upd. cbn [heap set_heap]. case_decide as E.
  - subst. by rewrite lookup_insert_eq.
  - by rewrite lookup_insert_ne by congruence.
Qed.
Lemma conn_upd_eq r f n : conn r (upd r f n) = f (conn r n).
Proof. rewrite conn_upd. by rewrite decide_True. Qed.
Lemma conn_upd_ne r r' f n : r ≠ r' → conn r (upd r' f n) = conn r n.
Proof. intros. rewrite conn_upd. by rewrite decide_False. Qed.

Lemma upd_upd r f g n : upd r g (upd r f n) = upd r (λ c, g (f c)) n.
Proof. unfold upd at 1. rewrite conn_upd_eq. unfold upd, set_heap. simpl. by rewrite insert_insert_eq. Qed.

Lemma upd_id r n : is_Some (heap n !! r) → upd r (λ c, c) n = n.
Proof.
  intros [c Hc]. unfold upd, conn, set_heap. rewrite Hc. simpl. rewrite insert_id by done.
  by destruct n.
Qed.

Lemma upd_ext r f g n : f (conn r n) = g (conn r n) → upd r f n = upd r g n.
Proof. unfold upd. by intros ->. Qed.

Lemma conn_send r r' b n : conn r (send r' b n) = conn r n.
Proof. done. Qed.
Lemma sent_upd r f n : sent (upd r f n) = sent n.
Proof. done. Qed.
Lemma settings_upd r f n : settings (upd r f n) = settings n.
Proof. done. Qed.
Lemma sent_send r b n : sent (send r b n) = sent n ++ [(r, b)].
Proof. done. Qed.
Lemma connections_upd r f n : connections (upd r f n) = connections n.
Proof. done. Qed.
Lemma upd_send r r' f b n : upd r f (send r' b n) = send r' b (upd r f n).
Proof. done. Qed.
End heap.

(** ** The registry is consistent

    A live connection that has been registered is found under its current id; ids are
    between 1 and the counter.  (An id a connection had before its current one may still be
    listed: nothing removes it.) *)
Definition registry_ok (n : Net) : Prop :=
  (∀ id r, connections n !! id = Some r → 1 ≤ id ≤ connCounter n ∧ ID (conn r n) ≠ 0) ∧
  (∀ r, ID (conn r n) ≠ 0 →
     1 ≤ ID (conn r n) ≤ connCounter n ∧
     (state (conn r n) = stateClosed ∨ connections n !! ID (conn r n) = Some r)) ∧
  (∀ r r', ID (conn r n) ≠ 0 → ID (conn r n) = ID (conn r' n) → r = r') ∧
  0 ≤ connCounter n.

Lemma registry_ok_start s a t x : registry_ok (NewEndpoint s a t x).
Proof.
  unfold registry_ok, NewEndpoint, conn. cbn [connections heap connCounter].
  split_and!; [| | |done].
  - intros id r. by rewrite lookup_empty.
  - intros r. by rewrite lookup_empty.
  - intros r r'. by rewrite lookup_empty.
Qed.

(** The invariant only looks at the registry, the counter, and the ids and states. *)
Lemma registry_ok_proper n m :
  connections m = connections n → connCounter m = connCounter n →
  (∀ r, ID (conn r m) = ID (conn r n)) →
  (∀ r, state (conn r n) = stateClosed → state (conn r m) = stateClosed) →
  registry_ok n → registry_ok m.
Proof.
  intros Ec Ek Hid Hst (H1 & H2 & H3 & H4). unfold registry_ok. rewrite Ec, Ek.
  split_and!; [| | |done].
  - intros id r. rewrite Hid. apply H1.
  - intros r. rewrite Hid. intros Hne. destruct (H2 r Hne) as [? [|]]; auto.
  - intros r r'. rewrite !Hid. apply H3.
Qed.

Lemma registry_ok_upd r f n :
  (∀ c, ID (f c) = ID c) → (∀ c, state c = stateClosed → state (f c) = stateClosed) →
  registry_ok n → registry_ok (upd r f n).
Proof.
  intros Hid Hst. apply registry_ok_proper; [done..| |]; intros r'; rewrite conn_upd;
    case_decide; auto.
Qed.

Lemma conn_register r r' n :
  conn r' (registerConnection r n) =
    if decide (r' = r) then set_ID (u32 (connCounter n + 1)) (conn r' n) else conn r' n.
Proof.
  change (conn r' (registerConnection r n)) with
    (conn r' (upd r (set_ID (u32 (connCounter n + 1))) (set_connCounter (u32 (connCounter n + 1)) n))).
  by rewrite conn_upd.
Qed.

(** The invariant but for what it says of the state of [r]: a CONNECT on a closed connection
    reopens it before it is registered again. *)
Definition registry_but (r : Ref) (n : Net) : Prop :=
  (∀ id r', connections n !! id = Some r' → 1 ≤ id ≤ connCounter n ∧ ID (conn r' n) ≠ 0) ∧
  (∀ r', ID (conn r' n) ≠ 0 →
     1 ≤ ID (conn r' n) ≤ connCounter n ∧
     (r' = r ∨ state (conn r' n) = stateClosed ∨ connections n !! ID (conn r' n) = Some r')) ∧
  (∀ r1 r2, ID (conn r1 n) ≠ 0 → ID (conn r1 n) = ID (conn r2 n) → r1 = r2) ∧
  0 ≤ connCounter n.

Lemma registry_but_upd r f n :
  (∀ c, ID (f c) = ID c) → registry_ok n → registry_but r (upd r f n).
Proof.
  intros Hid (H1 & H2 & H3 & H4).
  assert (∀ r', ID (conn r' (upd r f n)) = ID (conn r' n)) as Hid'.
  { intros r'. rewrite conn_upd. case_decide; [apply Hid|done]. }
  unfold registry_but. setoid_rewrite Hid'. split_and!; [apply H1| |apply H3|done].
  intros r' Hne. destruct (H2 r' Hne) as [? Hor]. split; [done|].
  destruct (decide (r' = r)); [by left|]. right. by rewrite conn_upd_ne.
Qed.

Lemma registry_ok_register r n :
  connCounter n < 2 ^ 32 - 1 → registry_but r n → registry_ok (registerConnection r n).
Proof.
  intros Hlt (H1 & H2 & H3 & H4).
  assert (u32 (connCounter n + 1) = connCounter n + 1) as Hw by (apply wrap_small; unfold is_u; lia).
  unfold registry_ok. setoid_rewrite conn_register. rewrite Hw.
  unfold registerConnection. rewrite Hw.
  cbn [connections set_connections connCounter upd set_heap set_connCounter].
  split_and!; [| | |lia].
  - intros id r' Hr'. destruct (decide (id = connCounter n + 1)) as [->|Hne].
    + rewrite lookup_insert_eq in Hr'. injection Hr' as <-. rewrite decide_True by done.
      cbn [ID set_ID]. lia.
    + rewrite lookup_insert_ne in Hr' by done. apply H1 in Hr'. case_decide; cbn [ID set_ID]; lia.
  - intros r'. case_decide as E; cbn [ID set_ID state].
    + subst. intros _. split; [lia|]. right. apply lookup_insert_eq.
    + intros Hne. destruct (H2 r' Hne) as [? [|[|Hin]]]; [done|split; [lia|by left]|].
      split; [lia|]. right. rewrite lookup_insert_ne; [done|lia].
  - intros r1 r2. repeat case_decide; cbn [ID set_ID]; subst; try done; [| |apply H3].
    + intros _ E. destruct (decide (ID (conn r2 n) = 0)) as [|Hne]; [lia|]. destruct (H2 _ Hne). lia.
    + intros Hne E. destruct (H2 _ Hne). lia.
Qed.

Lemma registry_ok_unregister r n :
  registry_ok n → state (conn r n) = stateClosed → registry_ok (unregisterConnection r n).
Proof.
  intros Hok Hcl. unfold unregisterConnection. case_match; [done|].
  destruct Hok as (H1 & H2 & H3 & H4). unfold registry_ok.
  cbn [connections set_connections connCounter]. split_and!; [| |apply H3|done].
  - intros id r' [_ Hr']%lookup_delete_Some. by apply (H1 id).
  - intros r' Hne. change (conn r' (set_connections _ n)) with (conn r' n) in *.
    destruct (H2 r' Hne) as [? [|Hin]]; [split; [done|by left]|]. split; [done|].
    destruct (decide (r = r')) as [<-|Hr]; [by left|]. right.
    rewrite lookup_delete_ne; [done|]. intros E. by apply Hr, H3; [lia|].
Qed.
End net.
#[export] Hint Rewrite @conn_upd_eq @conn_send @sent_upd @settings_upd @sent_send
  @connections_upd : net_rw.
