(* ===== verification/Endpoint.v ===== *)
(** * The PRUDP-Lite endpoint (src/endpoint.go, src/reaper.go)

    Packet handling from the transport's bytes to the RMC handlers and back: handshake,
    reliable data with acknowledgement, duplicate suppression and reassembly, fragmented
    sends, retransmission, teardown and the eviction of idle connections.

    The game server's callbacks and handlers are parameters of the section; they are state
    transformers of the whole [Net], since they may send on any connection. *)

From S2P Require Export Connection.

Section endpoint.
Context {App : Type}.
#[local] Abbreviation Net := (NetOf App).
Implicit Types (n : Net).
Context `{MO : MapOrder}.
Context (file : option (gmap bytes authRecallPersisted)).

(** [rand.Read] of [ConnectionSignature], for a peer without an IPv4 address. *)
Context (rand16 : Net → bytes).
Context (table : HandlerTable Net).
Context (OnConnect OnDisconnect : option (Ref → Net → Net)).
Context (OnRMC : option (Ref → RMCMessage → Net → Net)).
Context (customPacketHandlers : gmap Z (Ref → Packet → Net → Net)).

(** ** Sending *)

(** A packet in answer to the peer: our port is the one it targeted. *)
Definition from_conn (c : Connection) (ty flags fragmentID packetID : Z) (payload : bytes) : Packet :=
  mkPacket ty flags (srcType c) (srcPort c) (dstType c) (dstPort c) fragmentID packetID
    [] [] 0 0 payload.

Definition sendAck (r : Ref) (p : Packet) (n : Net) : Net :=
  send r (EncodePacket (from_conn (conn r n) (p_Type p) FlagACK (FragmentID p) (PacketID p) [])) n.

Definition sendOneFragment (r : Ref) (chunk : bytes) (fragmentID : Z) (n : Net) : Net :=
  let c := conn r n in
  let p := outReliable c in
  let encoded := EncodePacket (from_conn c PacketDATA (Z.lor FlagReliable FlagNeedACK) fragmentID p chunk) in
  let n := upd r (set_outReliable (u16 (p + 1))) n in
  let n := send r encoded n in
  upd r (λ c, set_pending (<[p := encoded]> (pending c)) c) n.

Definition frag_size (s : Settings) : Z := if FragmentSize s <=? 0 then 1300 else FragmentSize s.

Definition sendData (r : Ref) (data : bytes) (n : Net) : Net :=
  if zlen data <=? frag_size (settings n) then sendOneFragment r data 0 n
  else set_tasks (tasks n ++ [SendFragments r data 1]) n.

(** One turn of the loop of the sending goroutine. *)
Definition send_next (r : Ref) (rest : bytes) (fragmentID : Z) (n : Net) : option Task * Net :=
  if state (conn r n) =? stateClosed then (None, n)
  else
    let size := frag_size (settings n) in
    let '(chunk, fragmentID) :=
      if size <? zlen rest then (take (Z.to_nat size) rest, fragmentID) else (rest, 0) in
    let n := sendOneFragment r chunk fragmentID n in
    if fragmentID =? 0 then (None, n)
    else (Some (SendFragments r (drop (Z.to_nat size) rest) (u8 (fragmentID + 1))), n).

(** One tick of [retransmitLoop]. *)
Definition retransmit_tick (r : Ref) (n : Net) : option Task * Net :=
  if state (conn r n) =? stateClosed then (None, n)
  else (Some (RetransmitLoop r), foldl (λ n e, send r e.2 n) n (range (pending (conn r n)))).

(** The scheduler runs one step of the [i]-th goroutine. *)
Definition run_task (i : nat) (n : Net) : Net :=
  match tasks n !! i with
  | None => n
  | Some t =>
      let '(next, n) :=
        match t with
        | SendFragments r rest k => send_next r rest k n
        | RetransmitLoop r => retransmit_tick r n
        end in
      set_tasks (match next with
                 | Some t => <[i := t]> (tasks n)
                 | None => delete i (tasks n)
                 end) n
  end.

Definition SendRMC (r : Ref) (m : RMCMessage) (n : Net) : Net := sendData r (Encode m) n.

(** ** Closing *)
Definition close (r : Ref) (n : Net) : Net :=
  if state (conn r n) =? stateClosed then n
  else
    let n := upd r (set_state stateClosed) n in
    let n := unregisterConnection r n in
    match OnDisconnect with Some f => f r n | None => n end.

(** ** The handshake *)
Definition processSYN (r : Ref) (p : Packet) (n : Net) : Net :=
  let n := upd r (λ c, set_srcPort (DestPort p) (set_srcType (DestType p) c)) n in
  let n := upd r (λ c, set_dstPort (SourcePort p) (set_dstType (SourceType p) c)) n in
  let n := upd r (λ c, set_connectionSig (ConnectionSignature (rand16 n) (RemoteAddr c)) c) n in
  let n := upd r (set_minorVersion (min8 (PrudpMinorVersion (settings n)) (MinorVersion p))) n in
  let n := upd r (λ c, set_recusPos 0 (set_recusVus (replicate 128 false) c)) n in
  let n := upd r (set_supportedFunc
                    (Z.land (u32 (SupportedFunctions (settings n))) (SupportedFunc p))) n in
  let c := conn r n in
  send r (EncodePacket
    (mkPacket PacketSYN (Z.lor FlagACK FlagHasSize) (srcType c) (srcPort c) (dstType c) (dstPort c)
       0 0 [] (connectionSig c) (minorVersion c) (supportedFunc c) [])) n.

(** [processLoginRequest]: the response to put in the CONNECT-ACK. *)
Definition processLoginRequest (r : Ref) (payload : bytes) (n : Net) : result bytes * Net :=
  let s := settings n in
  if negb (Secure n) then (Ok [], n)
  else if bool_decide (payload = []) then
    let '(found, a) := RecallAuthPID file (clock n) (RemoteAddr (conn r n)) (auth n) in
    let n := set_auth a n in
    match found with
    | None => (Err (ErrMsg "connect: ticketless CONNECT with no recent auth from this address"), n)
    | Some p => (Ok [], upd r (set_PID p) n)
    end
  else
    let res :=
      try! '(ticketData, requestData) :=
        run (read! t := rBuffer in read! q := rBuffer in rret (t, q)) (NewStreamIn payload s) in
      try! ticket := DecryptServerTicket ticketData (SecureKey n) s in
      try! decrypted := kerberosDecrypt (st_SessionKey ticket) requestData in
      if negb (zlen decrypted =? PIDSize s + 8) then Err (ErrMsg "connect: bad check-data size")
      else
        let '((p, cid, check), _) :=
          (read! p := rPID in read! cid := rU32 in read! k := rU32 in rret (p, cid, k))
            (NewStreamIn decrypted s) in
        if negb (p =? st_Source ticket) then Err (ErrMsg "connect: pid != ticket source")
        else Ok (p, cid, check, st_SessionKey ticket) in
    match res with
    | Err e => (Err e, n)
    | Ok (p, cid, check, key) =>
        (Ok (Bytes_ ((wU32 4 ;;; wU32 (u32 (check + 1))) (NewStreamOut s))),
         upd r (λ c, set_sessionKey key (set_CID cid (set_PID p c))) n)
    end.

Definition processCONNECT (r : Ref) (p : Packet) (n : Net) : Net :=
  let expected := LitePacketSignature (AccessKey (settings n)) p (connectionSig (conn r n)) in
  if negb (equalBytes expected (Signature p)) then n
  else
    let '(response, n) := processLoginRequest r (Payload p) n in
    match response with
    | Err _ => n
    | Ok response =>
        let c := conn r n in
        let n := send r (EncodePacket
          (mkPacket PacketCONNECT (Z.lor FlagACK FlagHasSize) (srcType c) (srcPort c)
             (dstType c) (dstPort c) 0 1 [] [] (minorVersion c) (supportedFunc c) response)) n in
        let n := upd r (set_state stateConnected) n in
        let n := registerConnection r n in
        let n := set_tasks (tasks n ++ [RetransmitLoop r]) n in
        match OnConnect with Some f => f r n | None => n end
    end.

(** ** Data *)
Definition dispatchRMC (r : Ref) (payload : bytes) (n : Net) : Net :=
  match ParseRMC (settings n) payload with
  | (Some req, None) =>
      if negb (Mode req =? RMCRequest) then n
      else
        let n := match OnRMC with Some f => f r req n | None => n end in
        match handler table (Protocol req) with
        | None =>
            SendRMC r (NewRMCError (settings n) (Protocol req) (CallID req) ResultCoreNotImplemented) n
        | Some h =>
            match h r req n with
            | (Some resp, n) => SendRMC r resp n
            | (None, n) => n
            end
        end
  | _ => n
  end.

(** The individual sequence ids of an aggregate acknowledgement. *)
Fixpoint multi_ack_extra (count : nat) (pl : bytes) : list Z :=
  match count with
  | O => []
  | S count =>
      if (length pl <? 2)%nat then []
      else le_val (take 2 pl) :: multi_ack_extra count (drop 2 pl)
  end.

Definition processData (r : Ref) (p : Packet) (n : Net) : Net :=
  if HasFlag p FlagMultiACK then
    let pl := Payload p in
    if (4 <=? length pl)%nat then
      let base := le_val (slice 2 4 pl) in
      let extra := multi_ack_extra (Z.to_nat (at_byte 1 pl)) (drop 4 pl) in
      upd r (ackPackets base extra) n
    else n
  else if HasFlag p FlagACK then upd r (ackPackets (PacketID p) []) n
  else
    let '(dup, n) :=
      if HasFlag p FlagNeedACK then
        let n := sendAck r p n in
        let '(dup, c) := dejaRecu (PacketID p) (conn r n) in (dup, upd r (λ _, c) n)
      else (false, n) in
    if dup : bool then n
    else
      let n := upd r (λ c, set_fragBuf (fragBuf c ++ Payload p) c) n in
      if FragmentID p =? 0 then
        let full := fragBuf (conn r n) in
        dispatchRMC r full (upd r (set_fragBuf []) n)
      else n.

Definition processPing (r : Ref) (p : Packet) (n : Net) : Net :=
  if HasFlag p FlagACK then n
  else if HasFlag p FlagNeedACK then sendAck r p n else n.

Definition handlePacket (r : Ref) (p : Packet) (n : Net) : Net :=
  let n := upd r (set_lastSeen (clock n)) n in
  if p_Type p =? PacketSYN then if HasFlag p FlagACK then n else processSYN r p n
  else if p_Type p =? PacketCONNECT then if HasFlag p FlagACK then n else processCONNECT r p n
  else if p_Type p =? PacketDATA then processData r p n
  else if p_Type p =? PacketPING then processPing r p n
  else if p_Type p =? PacketDISCONNECT then
    if HasFlag p FlagACK then n
    else close r (if HasFlag p FlagNeedACK then sendAck r p n else n)
  else match customPacketHandlers !! p_Type p with
       | Some h => h r p n
       | None => n
       end.

Definition Feed (r : Ref) (data : bytes) (n : Net) : Net :=
  let buf := recvBuf (conn r n) ++ data in
  match DecodePackets buf with
  | (_, _, Some _) => upd r (set_recvBuf []) n
  | (packets, rest, None) =>
      foldl (λ n p, handlePacket r p n) (upd r (set_recvBuf rest) n) packets
  end.

(** ** Eviction (reaper.go) *)
Definition snapshotConns (n : Net) : list Ref := (range (connections n)).*2.

(** The connections to close are those [pred] picks as the loop reaches them. *)
Definition close_matching (pred : Connection → bool) (n : Net) : Z * Net :=
  foldl (λ acc r, let '(k, n) := acc in
           if pred (conn r n) then (k + 1, close r n) else (k, n))
        (0, n) (snapshotConns n).

Definition ReapIdle (maxIdle : Z) (n : Net) : Z * Net :=
  if maxIdle <=? 0 then (0, n)
  else close_matching (λ c, let idle := IdleFor (clock n) c in (0 <? idle) && (maxIdle <=? idle)) n.

Definition KickPID (p : Z) (n : Net) : Z * Net :=
  if p =? 0 then (0, n) else close_matching (λ c, PID c =? p) n.

Definition KickConnection (id : Z) (n : Net) : bool * Net :=
  match find (λ r, ID (conn r n) =? id) (snapshotConns n) with
  | Some r => (true, close r n)
  | None => (false, n)
  end.
End endpoint.

(** ** The registry stays consistent

    Whatever arrives on whatever connection, as long as the game server's callbacks keep the
    invariant too and the 32-bit counter does not wrap. *)
Section registry.
Context {App : Type}.
#[local] Abbreviation Net := (NetOf App).
Implicit Types (n : Net).
Context `{MO : MapOrder}.
Context (file : option (gmap bytes authRecallPersisted)) (rand16 : Net → bytes).
Context (table : HandlerTable Net).
Context (OnConnect OnDisconnect : option (Ref → Net → Net)).
Context (OnRMC : option (Ref → RMCMessage → Net → Net)).
Context (custom : gmap Z (Ref → Packet → Net → Net)).

(** The callbacks keep the registry consistent. *)
Definition callbacks_ok : Prop :=
  (∀ f r n, OnConnect = Some f → registry_ok n → registry_ok (f r n)) ∧
  (∀ f r n, OnDisconnect = Some f → registry_ok n → registry_ok (f r n)) ∧
  (∀ f r m n, OnRMC = Some f → registry_ok n → registry_ok (f r m n)) ∧
  (∀ k h r p n, custom !! k = Some h → registry_ok n → registry_ok (h r p n)) ∧
  (∀ k h r m n, handler table k = Some h → registry_ok n → registry_ok (h r m n).2).

Lemma registry_ok_send r b n : registry_ok n → registry_ok (send r b n).
Proof. by apply registry_ok_proper. Qed.
Lemma registry_ok_tasks l n : registry_ok n → registry_ok (set_tasks l n).
Proof. by apply registry_ok_proper. Qed.
Lemma registry_ok_auth a n : registry_ok n → registry_ok (set_auth a n).
Proof. by apply registry_ok_proper. Qed.

Hint Resolve registry_ok_send registry_ok_tasks registry_ok_auth : nex.
Hint Extern 2 (registry_ok (upd _ _ _)) => apply registry_ok_upd; [done|done|] : nex.

Lemma registry_ok_sendOne r chunk k n : registry_ok n → registry_ok (sendOneFragment r chunk k n).
Proof. unfold sendOneFragment. auto 6 with nex. Qed.
Hint Resolve registry_ok_sendOne : nex.

Lemma registry_ok_sendData r data n : registry_ok n → registry_ok (sendData r data n).
Proof. unfold sendData. case_match; auto with nex. Qed.
Hint Resolve registry_ok_sendData : nex.

Lemma registry_ok_close r n : callbacks_ok → registry_ok n → registry_ok (close OnDisconnect r n).
Proof.
  intros (_ & Hd & _) Hok. unfold close. case_match; [done|].
  assert (registry_ok (unregisterConnection r (upd r (set_state stateClosed) n))).
  { apply registry_ok_unregister; [|by rewrite conn_upd_eq]. by apply registry_ok_upd. }
  destruct OnDisconnect; eauto.
Qed.

Lemma registry_ok_run_task i n : registry_ok n → registry_ok (run_task i n).
Proof.
  intros Hok. unfold run_task. destruct (tasks n !! i) as [[r rest k|r]|]; [| |done].
  - unfold send_next. destruct (state (conn r n) =? stateClosed); [auto with nex|].
    destruct (if frag_size (settings n) <? zlen rest then _ else _) as [c k'].
    destruct (k' =? 0); auto with nex.
  - unfold retransmit_tick. destruct (state (conn r n) =? stateClosed); [auto with nex|].
    apply registry_ok_tasks. generalize (range (pending (conn r n))) as l.
    intros l. revert n Hok. induction l as [|e l IH]; intros n Hok; [done|].
    cbn [foldl]. apply IH. auto with nex.
Qed.

Lemma login_registry r payload n :
  registry_ok n →
  registry_ok (processLoginRequest file r payload n).2 ∧
  connCounter (processLoginRequest file r payload n).2 = connCounter n.
Proof.
  intros Hok. unfold processLoginRequest. case_match; [done|]. case_bool_decide.
  - destruct (RecallAuthPID _ _ _ _) as [[p|] a]; cbn [snd]; split; auto with nex.
  - case_match; [|done]. destruct a as [[[p cid] check] key]. cbn [snd]. split; auto with nex.
Qed.

Lemma registry_ok_CONNECT r p n :
  callbacks_ok → connCounter n < 2 ^ 32 - 1 → registry_ok n →
  registry_ok (processCONNECT file OnConnect r p n).
Proof.
  intros (Hc & _) Hlt Hok. unfold processCONNECT. case_match; [done|].
  destruct (login_registry r (Payload p) n Hok) as [Hl Hk].
  destruct (processLoginRequest file r (Payload p) n) as [[resp|] m]; cbn [snd] in *; [|done].
  cbv zeta. rewrite upd_send.
  assert (∀ b, registry_ok (registerConnection r (send r b (upd r (set_state stateConnected) m)))) as Hreg.
  { intros b. apply registry_ok_register; [simpl; lia|].
    by apply (registry_but_upd r (set_state stateConnected)) in Hl. }
  destruct OnConnect; eauto with nex.
Qed.

Lemma registry_ok_dispatch r payload n :
  callbacks_ok → registry_ok n → registry_ok (dispatchRMC table OnRMC r payload n).
Proof.
  intros (_ & _ & Hr & _ & Hh) Hok. unfold dispatchRMC.
  destruct (ParseRMC _ _) as [[req|] [e|]]; [done| |done..].
  case_match; [done|]. cbv zeta.
  assert (registry_ok (match OnRMC with Some f => f r req n | None => n end)) as Hok'.
  { destruct OnRMC; eauto. }
  destruct (handler table (Protocol req)) as [h|] eqn:E; [|by apply registry_ok_sendData].
  specialize (Hh _ _ r req _ E Hok'). destruct (h r req _) as [[resp|] m]; [|done].
  by apply registry_ok_sendData.
Qed.

Lemma registry_ok_data r p n :
  callbacks_ok → registry_ok n → registry_ok (processData table OnRMC r p n).
Proof.
  intros Hcb Hok. unfold processData. case_match; [case_match; auto with nex|].
  case_match; [auto with nex|].
  assert (∀ m, registry_ok m → registry_ok
    (let n := upd r (λ c, set_fragBuf (fragBuf c ++ Payload p) c) m in
     if FragmentID p =? 0 then
       dispatchRMC table OnRMC r (fragBuf (conn r n)) (upd r (set_fragBuf []) n)
     else n)) as Hrest.
  { intros m Hm. cbv zeta. case_match; [apply registry_ok_dispatch; [done|]|]; auto with nex. }
  destruct (HasFlag p FlagNeedACK); [|by apply Hrest]. cbv zeta.
  destruct (dejaRecu (PacketID p) _) as [dup c] eqn:E.
  assert (registry_ok (upd r (λ _, c) (sendAck r p n))) as Hm.
  { assert (ID c = ID (conn r n) ∧ state c = state (conn r n)) as [Hid Hst].
    { unfold dejaRecu in E. destruct (existsb _ _) in E; by injection E as <- <-. }
    apply (registry_ok_proper n); try done; intros r'; rewrite conn_upd; case_decide; subst; try done;
      congruence. }
  destruct dup; [done|]. by apply Hrest.
Qed.

Lemma registry_ok_packet r p n :
  callbacks_ok → connCounter n < 2 ^ 32 - 1 → registry_ok n →
  registry_ok (handlePacket file rand16 table OnConnect OnDisconnect OnRMC custom r p n).
Proof.
  intros Hcb Hlt Hok. unfold handlePacket. cbv zeta.
  apply (registry_ok_upd r (set_lastSeen (clock n))) in Hok; [|done..].
  set (m := upd r (set_lastSeen (clock n)) n) in *.
  assert (connCounter m < 2 ^ 32 - 1) by done. clearbody m.
  repeat (case_match; try done).
  - unfold processSYN. auto 10 with nex.
  - by apply registry_ok_CONNECT.
  - by apply registry_ok_data.
  - unfold processPing. by repeat case_match.
  - apply registry_ok_close; [done|]. unfold sendAck. auto with nex.
  - by apply registry_ok_close.
  - destruct Hcb as (_ & _ & _ & Hk & _). eauto.
Qed.
End registry.

(** ** Who a CONNECT may become *)
Section login.
Context {App : Type}.
#[local] Abbreviation Net := (NetOf App).
Implicit Types (n : Net).
Context `{MO : MapOrder}.
Context (file : option (gmap bytes authRecallPersisted)).

(** C30: A secure endpoint gives a connection an identity in two cases only: the one the login
    table holds for its own address, or the one inside a ticket that decrypts under the
    endpoint's key, for a request that decrypts under the ticket's session key, has the size
    of one and starts with the same identity; the connection identifier and the number the
    answer returns, plus one, are the request's.  A refusal leaves every connection as it was. *)
Theorem processLoginRequest_sound r payload n :
  Secure n = true →
  match processLoginRequest file r payload n with
  | (Ok resp, n') =>
      (payload = [] ∧ resp = [] ∧
       (RecallAuthPID file (clock n) (RemoteAddr (conn r n)) (auth n)).1 = Some (PID (conn r n'))) ∨
      (∃ ticketData requestData ticket decrypted check,
        run (read! t := rBuffer in read! q := rBuffer in rret (t, q))
          (NewStreamIn payload (settings n)) = Ok (ticketData, requestData) ∧
        DecryptServerTicket ticketData (SecureKey n) (settings n) = Ok ticket ∧
        kerberosDecrypt (st_SessionKey ticket) requestData = Ok decrypted ∧
        zlen decrypted = PIDSize (settings n) + 8 ∧
        ((read! p := rPID in read! cid := rU32 in read! k := rU32 in rret (p, cid, k))
           (NewStreamIn decrypted (settings n))).1 = (st_Source ticket, CID (conn r n'), check) ∧
        PID (conn r n') = st_Source ticket ∧
        sessionKey (conn r n') = st_SessionKey ticket ∧
        resp = le_bytes 4 4 ++ le_bytes 4 (u32 (check + 1)))
  | (Err _, n') => ∀ r', conn r' n' = conn r' n
  end.
Proof.
  intros Hs. unfold processLoginRequest. rewrite Hs. cbn [negb].
  case_bool_decide as Hp.
  - destruct (RecallAuthPID _ _ _ _) as [[p|] a]; [|done]. left. cbn [fst].
    split_and!; [done|done|]. by rewrite conn_upd_eq.
  - cbv zeta. destruct (run _ _) as [[td rd]|] eqn:Er; [|done]. cbn [result_bind].
    destruct (DecryptServerTicket _ _ _) as [tk|] eqn:Et; [|done]. cbn [result_bind].
    destruct (kerberosDecrypt _ _) as [dec|] eqn:Ed; [|done]. cbn [result_bind].
    destruct (Z.eqb_spec (zlen dec) (PIDSize (settings n) + 8)) as [Hlen|]; cbn [negb]; [|done].
    destruct (rbind _ _ (NewStreamIn dec _)) as [[[p cid] check] i] eqn:Eb.
    destruct (Z.eqb_spec p (st_Source tk)) as [->|]; cbn [negb]; [|done]. right.
    exists td, rd, tk, dec, check. rewrite !conn_upd_eq, Eb. by split_and!.
Qed.

(** An honest client: the ticket of a login, and a request that proves the session key. *)
Definition client_request (s : Settings) (key : bytes) (p cid check : Z) : result bytes :=
  kerberosEncrypt key (Bytes_ ((wPID p ;;; wU32 cid ;;; wU32 check) (NewStreamOut s))).

Definition connect_payload (s : Settings) (internal request : bytes) : bytes :=
  Bytes_ ((wBuffer internal ;;; wBuffer request) (NewStreamOut s)).

Lemma client_body_length s p cid check :
  (PIDSize s = 4 ∨ PIDSize s = 8) →
  zlen (Bytes_ ((wPID p ;;; wU32 cid ;;; wU32 check) (NewStreamOut s))) = PIDSize s + 8.
Proof.
  intros Hs. unfold wseq, wPID, wU32, wU64, Write, NewStreamOut. cbn [so_settings so_buf].
  destruct Hs as [->| ->]; cbn [Z.eqb Pos.eqb so_settings so_buf Bytes_];
    unfold zlen; rewrite !length_app, !length_le_bytes; simpl; lia.
Qed.

(** The ticket opens the door: the connection takes the PID of the login, and the answer
    proves that the server read the session key. *)
Lemma processLoginRequest_complete r n internal ticket p cid check request :
  Secure n = true → (PIDSize (settings n) = 4 ∨ PIDSize (settings n) = 8) →
  DecryptServerTicket internal (SecureKey n) (settings n) = Ok ticket →
  st_Source ticket = p → pid_ok (settings n) p → is_u32 cid → is_u32 check →
  buf_ok internal →
  client_request (settings n) (st_SessionKey ticket) p cid check = Ok request →
  ∃ n', processLoginRequest file r (connect_payload (settings n) internal request) n =
          (Ok (le_bytes 4 4 ++ le_bytes 4 (u32 (check + 1))), n') ∧
        PID (conn r n') = p ∧ CID (conn r n') = cid ∧
        sessionKey (conn r n') = st_SessionKey ticket.
Proof.
  intros Hs Hps Ht Hsrc Hp Hcid Hck Hbi Hreq. unfold processLoginRequest. rewrite Hs. cbn [negb].
  pose proof (kerberosEncrypt_length _ _ _ Hreq) as Hlen.
  rewrite client_body_length in Hlen by done.
  assert (buf_ok request) as Hbr by (unfold buf_ok, is_u; lia).
  assert (rt1 (settings n) (wBuffer internal ;;; wBuffer request)
    (read! t := rBuffer in read! q := rBuffer in rret (t, q)) (internal, request)) as Hrt.
  { rt_fields. }
  assert (connect_payload (settings n) internal request ≠ []) as Hne.
  { destruct Hrt as (bs & Hne & W & _). unfold connect_payload, NewStreamOut. by rewrite W. }
  rewrite bool_decide_false by done. cbv zeta.
  unfold connect_payload. rewrite (run_whole _ _ _ (internal, request)) by (by apply rt1_rt).
  cbn [result_bind]. rewrite Ht. cbn [result_bind].
  rewrite (kerberosDecrypt_Encrypt _ _ _ Hreq). cbn [result_bind].
  rewrite client_body_length, Z.eqb_refl by done. cbn [negb].
  assert (rt1 (settings n) (wPID p ;;; wU32 cid ;;; wU32 check)
    (read! p := rPID in read! cid := rU32 in read! k := rU32 in rret (p, cid, k)) (p, cid, check)) as Hrt2.
  { rt_fields. }
  destruct (rt_whole _ _ _ _ (rt1_rt _ _ _ _ Hrt2)) as (i & -> & _).
  rewrite Hsrc, Z.eqb_refl. cbn [negb]. eexists. split; [reflexivity|].
  rewrite !conn_upd_eq. done.
Qed.
End login.

(** ** Fragments

    [fragment_plan] is what the sending goroutine sends, fragment by fragment. *)
Fixpoint fragment_plan (fuel : nat) (size : nat) (rest : bytes) (id : Z) : list (bytes * Z) :=
  match fuel with
  | O => []
  | S fuel =>
      if (size <? length rest)%nat then
        (take size rest, id) ::
        (if id =? 0 then [] else fragment_plan fuel size (drop size rest) (u8 (id + 1)))
      else [(rest, 0)]
  end.

(** The ids the console sees: counting up, then 0 for the last one. *)
Definition counts_up (ids : list Z) : Prop :=
  ∃ k, ids = (Z.of_nat <$> seq 1 k) ++ [0].

(** The fragments number at most 256 and carry the first 256 fragments' worth of the data:
    all of it, up to that size. *)
Lemma fragment_plan_spec size k rest fuel :
  (0 < size)%nat → (1 ≤ k ≤ 256)%nat → (length rest < fuel)%nat →
  let plan := fragment_plan fuel size rest (u8 (Z.of_nat k)) in
  concat plan.*1 = take ((257 - k) * size) rest ∧
  ∃ m, plan.*2 = (Z.of_nat <$> seq k m) ++ [0] ∧ (k + m ≤ 256)%nat.
Proof.
  intros Hs. revert k rest. induction fuel as [|fuel IH]; intros k rest Hk Hf; [lia|].
  cbn [fragment_plan]. destruct (Nat.ltb_spec size (length rest)) as [Hlt|Hle].
  - destruct (decide (k = 256%nat)) as [->|Hne].
    + change (u8 (Z.of_nat 256)) with 0. cbn. rewrite app_nil_r. split; [f_equal; lia|].
      exists 0%nat. by split.
    + rewrite wrap_small by (unfold is_u; lia).
      destruct (Z.eqb_spec (Z.of_nat k) 0); [lia|].
      replace (Z.of_nat k + 1) with (Z.of_nat (S k)) by lia.
      destruct (IH (S k) (drop size rest)) as [E (m & Em & Hm)]; [lia|rewrite length_drop; lia|].
      cbv zeta in *. cbn [fmap list_fmap fst snd concat].
      change (list_fmap _ _ fst (fragment_plan fuel size (drop size rest) (u8 (Z.of_nat (S k)))))
        with (fragment_plan fuel size (drop size rest) (u8 (Z.of_nat (S k)))).*1.
      change (list_fmap _ _ snd (fragment_plan fuel size (drop size rest) (u8 (Z.of_nat (S k)))))
        with (fragment_plan fuel size (drop size rest) (u8 (Z.of_nat (S k)))).*2.
      rewrite E, Em. split.
      * rewrite take_take_drop. f_equal. nia.
      * exists (S m). split; [done|lia].
  - cbn. rewrite app_nil_r. split.
    + rewrite take_ge; [done|]. nia.
    + exists 0%nat. split; [done|lia].
Qed.

(** The packets of a list of fragments, numbered from the connection's counter. *)
Fixpoint fragment_packets (c : Connection) (seq : Z) (plan : list (bytes * Z)) : list bytes :=
  match plan with
  | [] => []
  | (chunk, id) :: plan =>
      EncodePacket (from_conn c PacketDATA (Z.lor FlagReliable FlagNeedACK) id seq chunk) ::
      fragment_packets c (u16 (seq + 1)) plan
  end.

(** Running the goroutine until it returns. *)
Fixpoint run_fragments {App} (fuel : nat) (r : Ref) (rest : bytes) (id : Z) (n : NetOf App)
    : option (NetOf App) :=
  match fuel with
  | O => None
  | S fuel =>
      match send_next r rest id n with
      | (None, n) => Some n
      | (Some (SendFragments r rest id), n) => run_fragments fuel r rest id n
      | (Some (RetransmitLoop _), n) => None
      end
  end.

Lemma conn_sendOne {App} r chunk id (n : NetOf App) :
  conn r (sendOneFragment r chunk id n) =
    let c := conn r n in
    set_pending (<[outReliable c := EncodePacket (from_conn c PacketDATA (Z.lor FlagReliable FlagNeedACK)
      id (outReliable c) chunk)]> (pending c)) (set_outReliable (u16 (outReliable c + 1)) c).
Proof.
  unfold sendOneFragment. rewrite conn_upd_eq, conn_send, conn_upd_eq. done.
Qed.

Lemma fragment_packets_ext c c' q l :
  from_conn c = from_conn c' → fragment_packets c q l = fragment_packets c' q l.
Proof.
  intros E. revert q. induction l as [|[ch k] l IH]; intros q; [done|].
  cbn [fragment_packets]. by rewrite E, IH.
Qed.

(** On an open connection the goroutine returns, having sent exactly the planned fragments,
    in order. *)
Lemma run_fragments_ok {App} fuel r rest id (n : NetOf App) :
  state (conn r n) ≠ stateClosed → (length rest < fuel)%nat →
  ∃ n', run_fragments fuel r rest id n = Some n' ∧
    sent n' = sent n ++ ((λ b, (r, b)) <$>
      fragment_packets (conn r n) (outReliable (conn r n))
        (fragment_plan fuel (Z.to_nat (frag_size (settings n))) rest id)).
Proof.
  revert rest id n. induction fuel as [|fuel IH]; intros rest id n Hst Hf; [lia|].
  assert (0 < frag_size (settings n)) as Hsz by (unfold frag_size; case_match; lia).
  cbn [run_fragments fragment_plan]. unfold send_next.
  destruct (Z.eqb_spec (state (conn r n)) stateClosed); [done|]. cbv zeta.
  destruct (Z.ltb_spec (frag_size (settings n)) (zlen rest)) as [Hlt|Hge].
  - destruct (Nat.ltb_spec (Z.to_nat (frag_size (settings n))) (length rest)); [|unfold zlen in *; lia].
    destruct (id =? 0) eqn:E0.
    + eexists. split; [done|]. cbn [fragment_packets fmap list_fmap].
      unfold sendOneFragment. autorewrite with net_rw. done.
    + set (n1 := sendOneFragment r _ id n).
      assert (settings n1 = settings n) as Hset by done.
      destruct (IH (drop (Z.to_nat (frag_size (settings n))) rest) (u8 (id + 1)) n1) as (n' & Hrun & Hsent).
      { subst n1. by rewrite conn_sendOne. }
      { rewrite length_drop. lia. }
      exists n'. split; [done|]. rewrite Hsent, Hset. subst n1. rewrite conn_sendOne. cbv zeta.
      cbn [outReliable set_pending set_outReliable fragment_packets].
      unfold sendOneFragment. autorewrite with net_rw. cbn [fmap list_fmap].
      rewrite <- app_assoc. cbn [app]. do 2 f_equal.
      by apply f_equal, fragment_packets_ext.
  - destruct (Nat.ltb_spec (Z.to_nat (frag_size (settings n))) (length rest)); [unfold zlen in *; lia|].
    cbn [Z.eqb]. eexists. split; [done|]. cbn [fragment_packets fmap list_fmap].
    unfold sendOneFragment. autorewrite with net_rw. done.
Qed.

(** ** Receiving reliable data *)
Section receive.
Context {App : Type}.
#[local] Abbreviation Net := (NetOf App).
Implicit Types (n : Net).
Context `{MO : MapOrder}.
Context (table : HandlerTable Net) (OnRMC : option (Ref → RMCMessage → Net → Net)).

(** A reliable DATA packet, not an acknowledgement. *)
Definition reliable (p : Packet) : Prop :=
  HasFlag p FlagMultiACK = false ∧ HasFlag p FlagACK = false ∧ HasFlag p FlagNeedACK = true.

Definition ack_of (c : Connection) (p : Packet) : bytes :=
  EncodePacket (from_conn c (p_Type p) FlagACK (FragmentID p) (PacketID p) []).

Lemma dejaRecu_keeps seq c :
  let c' := (dejaRecu seq c).2 in
  fragBuf c' = fragBuf c ∧ from_conn c' = from_conn c.
Proof. unfold dejaRecu. by destruct (existsb _ _). Qed.

(** A packet received twice, because its acknowledgement was lost, is acknowledged again
    and nothing else happens: no handler runs, no byte is appended, nothing of the connection
    changes. *)
Theorem processData_duplicate r p n l :
  is_Some (heap n !! r) → reliable p → ring_ok (conn r n) l → PacketID p ∈ last_n 128 l →
  processData table OnRMC r p n = send r (ack_of (conn r n) p) n.
Proof.
  intros Hr (H1 & H2 & H3) Hring Hin. unfold processData. rewrite H1, H2, H3. cbv zeta.
  destruct (dejaRecu_ok _ _ (PacketID p) Hring) as [Hd _].
  rewrite bool_decide_true in Hd by done.
  change (conn r (sendAck r p n)) with (conn r n).
  assert ((dejaRecu (PacketID p) (conn r n)).2 = conn r n) as Hc.
  { revert Hd. unfold dejaRecu. by destruct (existsb _ _). }
  destruct (dejaRecu (PacketID p) (conn r n)) as [d c]. cbn [fst snd] in *. subst d c.
  unfold sendAck. rewrite upd_send. f_equal.
  rewrite (upd_ext r _ (λ c, c)) by done. by apply upd_id.
Qed.

(** A fresh number: acknowledged, remembered, and its payload appended. *)
Lemma processData_fresh r p n :
  reliable p → (dejaRecu (PacketID p) (conn r n)).1 = false →
  processData table OnRMC r p n =
    let n1 := upd r (λ _, set_fragBuf (fragBuf (conn r n) ++ Payload p) (dejaRecu (PacketID p) (conn r n)).2)
                (send r (ack_of (conn r n) p) n) in
    if FragmentID p =? 0 then
      dispatchRMC table OnRMC r (fragBuf (conn r n) ++ Payload p) (upd r (set_fragBuf []) n1)
    else n1.
Proof.
  intros (H1 & H2 & H3) Hd. unfold processData. rewrite H1, H2, H3. cbv zeta.
  change (conn r (sendAck r p n)) with (conn r n).
  destruct (dejaRecu_keeps (PacketID p) (conn r n)) as [Hf _].
  destruct (dejaRecu (PacketID p) (conn r n)) as [d c]. cbn [fst snd] in *. subst d.
  rewrite upd_upd, Hf. unfold sendAck, ack_of. case_match; [|done].
  by rewrite conn_upd_eq.
Qed.

(** All the fragments but the last. *)
Lemma reassembly_prefix r ps n l :
  ring_ok (conn r n) l → Forall reliable ps → Forall (λ p, FragmentID p ≠ 0) ps →
  NoDup (l ++ (PacketID <$> ps)) →
  let n' := foldl (λ n p, processData table OnRMC r p n) n ps in
  ring_ok (conn r n') (l ++ (PacketID <$> ps)) ∧
  fragBuf (conn r n') = fragBuf (conn r n) ++ concat (Payload <$> ps) ∧
  from_conn (conn r n') = from_conn (conn r n) ∧
  sent n' = sent n ++ ((λ p, (r, ack_of (conn r n) p)) <$> ps) ∧
  settings n' = settings n.
Proof.
  revert n l. induction ps as [|p ps IH]; intros n l Hring Hrel Hfr Hnd.
  { cbn. by rewrite !app_nil_r. }
  apply Forall_cons in Hrel as [Hp Hrel], Hfr as [Hf Hfr].
  destruct (dejaRecu_ok _ _ (PacketID p) Hring) as [Hd Hring'].
  assert (PacketID p ∉ last_n 128 l) as Hfresh.
  { intros Hin. cbn [fmap list_fmap] in Hnd. apply NoDup_app in Hnd as (_ & Hnd & _).
    apply (Hnd (PacketID p)); [|by left].
    unfold last_n in Hin. apply list_elem_of_lookup in Hin as [i Hi]. rewrite lookup_drop in Hi.
    by eapply list_elem_of_lookup_2. }
  rewrite bool_decide_false in Hd by done. rewrite Hd in Hring'.
  cbn [foldl]. rewrite (processData_fresh r p n Hp Hd). cbv zeta.
  destruct (Z.eqb_spec (FragmentID p) 0); [done|].
  set (n1 := upd r _ _).
  assert (conn r n1 = set_fragBuf (fragBuf (conn r n) ++ Payload p) (dejaRecu (PacketID p) (conn r n)).2)
    as Hc by (subst n1; by rewrite conn_upd_eq).
  destruct (IH n1 (l ++ [PacketID p])) as (R & F & C & S & T); [by rewrite Hc|done|done|by rewrite <- app_assoc|].
  rewrite Hc in F, C, S. cbv zeta. cbn [fmap list_fmap concat].
  change (list_fmap Packet Z PacketID ps) with (PacketID <$> ps).
  change (list_fmap Packet bytes Payload ps) with (Payload <$> ps).
  destruct (dejaRecu_keeps (PacketID p) (conn r n)) as [_ K].
  split_and!.
  - by rewrite <- app_assoc in R.
  - rewrite F. cbn [fragBuf set_fragBuf]. by rewrite <- app_assoc.
  - rewrite C. apply K.
  - rewrite S. subst n1. autorewrite with net_rw. rewrite <- app_assoc. cbn [app]. do 2 f_equal.
    apply list_fmap_ext. intros i q _. unfold ack_of. do 2 f_equal.
    change (from_conn (set_fragBuf (fragBuf (conn r n) ++ Payload p) (dejaRecu (PacketID p) (conn r n)).2))
      with (from_conn (dejaRecu (PacketID p) (conn r n)).2). by rewrite K.
  - done.
Qed.

(** A message cut into fragments is handed over once, whole, when the last one is in; each
    fragment has been acknowledged, in order. *)
Theorem reassembly r ps lastp n l :
  ring_ok (conn r n) l → fragBuf (conn r n) = [] →
  Forall reliable (ps ++ [lastp]) →
  Forall (λ p, FragmentID p ≠ 0) ps → FragmentID lastp = 0 →
  NoDup (l ++ (PacketID <$> (ps ++ [lastp]))) →
  ∃ n', foldl (λ n p, processData table OnRMC r p n) n (ps ++ [lastp]) =
          dispatchRMC table OnRMC r (concat (Payload <$> (ps ++ [lastp]))) n' ∧
        fragBuf (conn r n') = [] ∧ settings n' = settings n ∧
        sent n' = sent n ++ ((λ p, (r, ack_of (conn r n) p)) <$> (ps ++ [lastp])).
Proof.
  intros Hring Hbuf [Hrel Hlast]%Forall_app Hfr Hf0 Hnd. rewrite Forall_singleton in Hlast.
  rewrite fmap_app, app_assoc in Hnd.
  pose proof Hnd as (Hnd' & Hdis & _)%NoDup_app.
  destruct (reassembly_prefix r ps n l Hring Hrel Hfr Hnd') as (R & F & C & S & T).
  cbv zeta in *. rewrite foldl_app. cbn [foldl]. set (m := foldl _ n ps) in *.
  destruct (dejaRecu_ok _ _ (PacketID lastp) R) as [Hd _].
  rewrite bool_decide_false in Hd.
  2:{ unfold last_n. intros [i Hi]%list_elem_of_lookup. rewrite lookup_drop in Hi.
      apply list_elem_of_lookup_2 in Hi. apply (Hdis _ Hi). by apply list_elem_of_singleton. }
  rewrite (processData_fresh r lastp m Hlast Hd). cbv zeta. rewrite Hf0, F, Hbuf. cbn [Z.eqb].
  eexists. split.
  { rewrite !fmap_app, concat_app. cbn [fmap list_fmap concat app]. rewrite app_nil_r. reflexivity. }
  rewrite upd_upd. autorewrite with net_rw. split_and!; [done|done|].
  rewrite S, <- app_assoc. rewrite fmap_app. do 2 f_equal. cbn [fmap list_fmap]. do 2 f_equal.
  unfold ack_of. by rewrite C.
Qed.
End receive.

(** ** The eviction of idle connections *)
Section evict.
Context {App : Type}.
#[local] Abbreviation Net := (NetOf App).
Implicit Types (n : Net).
Context `{MO : MapOrder}.

Lemma close_closes r n : state (conn r (close None r n)) = stateClosed.
Proof.
  unfold close. destruct (Z.eqb_spec (state (conn r n)) stateClosed); [done|]. cbv zeta.
  unfold unregisterConnection. case_match; by rewrite ?conn_upd_eq;
    try (change (conn r (set_connections _ ?m)) with (conn r m); rewrite conn_upd_eq).
Qed.

(** Closing a consistent registry's connection removes it from the registry. *)
Lemma close_unlists r n :
  registry_ok n → state (conn r n) ≠ stateClosed → ID (conn r n) ≠ 0 →
  FindConnectionByID (ID (conn r n)) (close None r n) = None.
Proof.
  intros _ Hst Hid. unfold close. destruct (Z.eqb_spec (state (conn r n)) stateClosed); [done|].
  cbv zeta. unfold unregisterConnection. rewrite conn_upd_eq. cbn [ID set_state].
  destruct (Z.eqb_spec (ID (conn r n)) 0); [done|].
  unfold FindConnectionByID. cbn [connections set_connections]. apply lookup_delete_eq.
Qed.
End evict.

(** ** The handshake on concrete bytes *)
Section scenario.
Context (s : Settings).

(** What a console sends: a SYN, then a CONNECT signed over the signature it was given. *)
Definition client_syn : bytes :=
  EncodePacket (mkPacket PacketSYN FlagNeedACK 10 1 10 1 0 0 [] [] 4 0 []).
Definition client_connect (connSig : bytes) : bytes :=
  let p := mkPacket PacketCONNECT FlagNeedACK 10 1 10 1 0 1 [] [] 4 0 [] in
  let '(mkPacket ty fl st sp dt dp fr pi _ cs mi sf pl) := p in
  EncodePacket (mkPacket ty fl st sp dt dp fr pi (LitePacketSignature (AccessKey s) p connSig) cs mi sf pl).
Definition client_disconnect : bytes :=
  EncodePacket (mkPacket PacketDISCONNECT FlagNeedACK 10 1 10 1 0 2 [] [] 0 0 []).

Definition feed_plain : Ref → bytes → NetOf unit → NetOf unit :=
  Feed (MO := canonical_order) (App := unit) None (λ _, []) (mkTable ∅ None) None None None ∅.

(** An endpoint without tickets, a connection from an IPv4 peer. *)
Definition endpoint0 : Ref * NetOf unit :=
  alloc (NewConnection (str "203.0.113.7:50000")) (NewEndpoint s auth_start (1000 * second) tt).

Definition feed_all (packets : list bytes) : NetOf unit :=
  let '(r, n) := endpoint0 in foldl (λ n b, feed_plain r b n) n packets.

Definition connect_once : bytes :=
  client_connect (ConnectionSignature [] (str "203.0.113.7:50000")).
End scenario.

Definition switch0 : Settings := NewSwitchSettings (str "12345678") 40302.

(** A good handshake registers the connection under id 1. *)
Example handshake_ok :
  let n := feed_all switch0 [client_syn; connect_once switch0] in
  connections n !! 1 = Some (endpoint0 switch0).1 ∧ state (conn (endpoint0 switch0).1 n) = stateConnected ∧
  length (sent n) = 2%nat.
Proof. vm_compute. done. Qed.

(** The transport may cut the bytes anywhere. *)
Example handshake_cut :
  let bs := client_syn ++ connect_once switch0 in
  sent (feed_all switch0 [take 5 bs; take 20 (drop 5 bs); drop 25 bs]) =
  sent (feed_all switch0 [bs]).
Proof. vm_compute. done. Qed.

(** A CONNECT that the console sends again, its acknowledgement having been lost, registers
    the connection under a second id; closing it removes that one only.  The first id then
    designates a closed connection for good: the reaper counts it at each pass, and removes
    nothing. *)
Theorem double_CONNECT_leak :
  let n := feed_all switch0 [client_syn; connect_once switch0; connect_once switch0; client_disconnect] in
  let later := set_clock (clock n + 7200 * second) n in
  FindConnectionByID 1 n = Some (endpoint0 switch0).1 ∧ state (conn (endpoint0 switch0).1 n) = stateClosed ∧
  FindConnectionByID 2 n = None ∧
  (ReapIdle (MO := canonical_order) None (600 * second) later).1 = 1 ∧
  FindConnectionByID 1 (ReapIdle (MO := canonical_order) None (600 * second) later).2 = Some (endpoint0 switch0).1.
Proof. vm_compute. done. Qed.

(** A CONNECT that does not ask for an acknowledgement has no signature to check: a peer that
    does not know the access key, whatever the key, and that has not asked for a challenge, is
    connected. *)
Theorem unsigned_CONNECT_is_admitted :
  let bare := EncodePacket (mkPacket PacketCONNECT 0 10 1 10 1 0 1 [] [] 4 0 []) in
  let n := feed_all switch0 [bare] in
  connections n !! 1 = Some (endpoint0 switch0).1 ∧ state (conn (endpoint0 switch0).1 n) = stateConnected.
Proof. vm_compute. done. Qed.

(** ** The theorems of this file on a small endpoint *)
Section small.
#[local] Existing Instance canonical_order.

Definition small (secure : bool) : NetOf unit :=
  set_Secure secure (set_heap {[0%nat := NewConnection (str "203.0.113.7:50000")]}
    (NewEndpoint switch0 auth_start (1000 * second) tt)).

(** A data packet of the reliable stream. *)
Definition small_data (fragment seq : Z) (b : bytes) : Packet :=
  mkPacket PacketDATA (Z.lor FlagReliable FlagNeedACK) 10 1 10 1 fragment seq [] [] 0 0 b.

Lemma small_ring b : ring_ok (conn 0%nat (small b)) [].
Proof. by apply ring_ok_start. Qed.

Lemma reassembly_witness :
  ring_ok (conn 0%nat (small false)) [] ∧
  ∃ n', processData (mkTable ∅ None) None 0%nat (small_data 0 2 (str "cd"))
          (processData (mkTable ∅ None) None 0%nat (small_data 1 1 (str "ab")) (small false)) =
        dispatchRMC (mkTable ∅ None) None 0%nat (str "abcd") n' ∧ length (sent n') = 2%nat.
Proof.
  split; [apply small_ring|].
  destruct (reassembly (mkTable ∅ None) None 0%nat [small_data 1 1 (str "ab")] (small_data 0 2 (str "cd"))
    (small false) [] (small_ring false)) as (n' & H & _ & _ & Hs);
    [reflexivity|repeat constructor|repeat constructor; discriminate|reflexivity
    |repeat constructor; set_solver|].
  exists n'. split; [exact H|rewrite Hs; reflexivity].
Defined.

(** The state after one packet has been received. *)
Definition small_one : NetOf unit :=
  processData (mkTable ∅ None) None 0%nat (small_data 1 1 (str "ab")) (small false).

Lemma processData_duplicate_witness :
  ring_ok (conn 0%nat small_one) [1] ∧
  processData (mkTable ∅ None) None 0%nat (small_data 1 1 (str "ab")) small_one =
    send 0%nat (ack_of (conn 0%nat small_one) (small_data 1 1 (str "ab"))) small_one.
Proof.
  assert (ring_ok (conn 0%nat small_one) [1]) as Hr.
  { destruct (dejaRecu_ok (conn 0%nat (small false)) [] 1 (small_ring false)) as [_ H]. exact H. }
  split; [exact Hr|].
  apply (processData_duplicate (mkTable ∅ None) None 0%nat (small_data 1 1 (str "ab")) small_one [1]);
    [by eexists|by split_and!|exact Hr|by left].
Defined.

(** Without a ticket and without a login from its address, a connection is refused. *)
Lemma processLoginRequest_sound_witness :
  Secure (small true) = true ∧ conn 0%nat (processLoginRequest None 0%nat [] (small true)).2 = conn 0%nat (small true).
Proof.
  split; [reflexivity|]. pose proof (processLoginRequest_sound None 0%nat [] (small true) eq_refl) as H.
  destruct (processLoginRequest None 0%nat [] (small true)) as [[resp|e] n'] eqn:E; [|apply H].
  exfalso. vm_compute in E. discriminate E.
Defined.
End small.
