(* ===== verification/Handlers.v ===== *)
(** * What the handlers of every protocol share

    The answers a handler gives, reading a request's body, and the state of one component
    inside the state of the process. *)

From S2P Require Export Endpoint.

Section handlers.
Context {App : Type}.
#[local] Abbreviation Net := (NetOf App).

(** ** Responses *)
Definition reply (n : Net) (proto : Z) (req : RMCMessage) (w : Writer) : RMCMessage :=
  NewRMCSuccess (settings n) proto (Method req) (CallID req) (Bytes_ (w (NewStreamOut (settings n)))).
Definition ack (n : Net) (proto : Z) (req : RMCMessage) : RMCMessage :=
  NewRMCSuccess (settings n) proto (Method req) (CallID req) [].
Definition fail (n : Net) (proto : Z) (req : RMCMessage) (code : Z) : RMCMessage :=
  NewRMCError (settings n) proto (CallID req) code.
(** The request's body under a reader, the stream's state dropped. *)
Definition read_body {A} (n : Net) (req : RMCMessage) (rd : Reader A) : A :=
  (rd (NewStreamIn (Body req) (settings n))).1.
Definition read_err {A} (n : Net) (req : RMCMessage) (rd : Reader A) : option error :=
  si_err (rd (NewStreamIn (Body req) (settings n))).2.

(** ** The state of a component *)
Context {S : Type} `{HS : !Substate S App}.

Definition comp (n : Net) : S := get (app_state n).
Definition set_comp (s : S) (n : Net) : Net := set_app (put s (app_state n)) n.
Definition upd_comp (f : S → S) (n : Net) : Net := set_comp (f (comp n)) n.

Lemma comp_upd f (n : Net) : comp (upd_comp f n) = f (comp n).
Proof. apply get_put. Qed.
Lemma comp_set s (n : Net) : comp (set_comp s n) = s.
Proof. apply get_put. Qed.
End handlers.
#[export] Hint Rewrite @comp_upd @comp_set : nex_rw.
