(* ===== verification/Stations.v ===== *)
(** * Stations and the secure connection (src/secureconnection.go)

    Which of the stations a console reports is its local and which its public one; Register,
    which completes them, and ReplaceURL, which renews them.  Stations are values: the one
    place where two of them are the same object is the selection, which therefore answers
    indices. *)

From S2P Require Export Handlers.

Definition ProtocolSecureConnection : Z := 0x0B.
Definition MethodRegister : Z := 0x1.
Definition MethodReplaceURL : Z := 0x7.
Definition MethodRegisterEx : Z := 0x4.
Definition MethodTestConnectivity : Z := 0x5.
Definition MethodSendReport : Z := 0x8.

Definition StationURLFlagBehindNAT : Z := 0x01.
Definition StationURLFlagPublic : Z := 0x02.
Definition stationURLFlagSwitch : Z := 0x08.

(** ** Private addresses *)
Definition IsPrivate (ip : bytes) : bool :=
  match To4 ip with
  | Some v4 =>
      (at_byte 0 v4 =? 10) || ((at_byte 0 v4 =? 172) && (Z.land (at_byte 1 v4) 0xf0 =? 16)) ||
      ((at_byte 0 v4 =? 192) && (at_byte 1 v4 =? 168))
  | None => (length ip =? 16)%nat && (Z.land (at_byte 0 ip) 0xfe =? 0xfc)
  end.

Definition IsLoopback (ip : bytes) : bool :=
  match To4 ip with
  | Some v4 => at_byte 0 v4 =? 127
  | None => bytes_eqb ip (replicate_zero 15 ++ [x01])
  end.

Definition IsLinkLocalUnicast (ip : bytes) : bool :=
  match To4 ip with
  | Some v4 => (at_byte 0 v4 =? 169) && (at_byte 1 v4 =? 254)
  | None => (length ip =? 16)%nat && (at_byte 0 ip =? 0xfe) && (Z.land (at_byte 1 ip) 0xc0 =? 0x80)
  end.

(** [cgnatRange.Contains]: 100.64.0.0/10. *)
Definition in_cgnat (ip : bytes) : bool :=
  match To4 ip with
  | Some v4 => (at_byte 0 v4 =? 100) && (Z.land (at_byte 1 v4) 0xc0 =? 64)
  | None => false
  end.

Definition isPrivateIP (addr : bytes) : bool :=
  match ParseIP addr with
  | None => false
  | Some ip => IsPrivate ip || IsLoopback ip || IsLinkLocalUnicast ip || in_cgnat ip
  end.

(** ** Selection *)
Definition address (u : StationURL) : bytes := Get u (str "address").
Definition is_public_type (u : StationURL) : bool :=
  negb (Z.land (u8 (GetInt u (str "type"))) StationURLFlagPublic =? 0).

(** One turn of the loop of [selectStations]. *)
Definition select_one (acc : option nat * option (nat * StationURL)) (e : nat * StationURL)
    : option nat * option (nat * StationURL) :=
  let '(local, public) := acc in
  let '(i, u) := e in
  if bool_decide (address u = []) then acc
  else if isPrivateIP (address u) then (match local with None => Some i | _ => local end, public)
  else match public with
       | None => (local, Some e)
       | Some (_, p) => if negb (is_public_type p) && is_public_type u then (local, Some e) else acc
       end.

(** The indices of [selectStations]. *)
Definition select_indices (urls : list StationURL) : option nat * option nat :=
  let '(local, public) := foldl select_one (None, None) (imap pair urls) in
  let local :=
    match local with
    | Some i => Some i
    | None =>
        match list_find (λ u, is_public_type u = false) urls with
        | Some (i, _) => Some i
        | None => match urls with [] => None | _ => Some 0%nat end
        end
    end in
  (local, fst <$> public).

Definition selectStations (urls : list StationURL) : option StationURL * option StationURL :=
  let '(i, j) := select_indices urls in (i ≫= (urls !!.), j ≫= (urls !!.)).

(** A connection's stations; the handlers store no nil. *)
Definition stations (c : Connection) : list StationURL := omap id (Stations c).
Definition set_stations (us : list StationURL) : Connection → Connection := SetStations (Some <$> us).

(** ** The handlers *)
Record SecureConnectionConfig := mkSecureConfig {
  sc_PreservePiaStationIdentity : bool;
  PublicStationType : Z;
  SetPa : bool
}.
Definition SwitchPia519Config : SecureConnectionConfig :=
  mkSecureConfig false (Z.lor StationURLFlagBehindNAT (Z.lor StationURLFlagPublic stationURLFlagSwitch)) true.
Definition LegacyPiaConfig : SecureConnectionConfig :=
  mkSecureConfig false (Z.lor StationURLFlagBehindNAT StationURLFlagPublic) false.

Section handlers.
Context {App : Type}.
#[local] Abbreviation Net := (NetOf App).
Implicit Types (n : Net) (r : Ref) (req : RMCMessage).

Definition public_pid (s : Settings) (p : Z) : bytes := FormatUint (Publique s p).

(** The identifiers of a station. *)
Definition identify (s : Settings) (c : Connection) (u : StationURL) : StationURL :=
  SetInt (str "RVCID") (ID c) (StationURL.Set_ (str "PID") (public_pid s (PID c)) u).

(** The public station, completed; [pa] is its [Pa]. *)
Definition advertise (cfg : SecureConnectionConfig) (pa : bytes) (u : StationURL) : StationURL :=
  let u := SetInt (str "type") (PublicStationType cfg) u in
  if SetPa cfg && negb (bool_decide (pa = [])) then StationURL.Set_ (str "Pa") pa u else u.

(** The public station derived from the observed endpoint. *)
Definition derive_public (remote : bytes) (local : StationURL) : StationURL :=
  match SplitHostPort remote with
  | Some (host, port) => StationURL.Set_ (str "port") port (StationURL.Set_ (str "address") host local)
  | None => local
  end.

(** The local and the public station of [handleRegister], from those the console reports. *)
Definition register_stations (cfg : SecureConnectionConfig) (s : Settings) (c : Connection) (urls : list StationURL)
    : StationURL * StationURL :=
  let '(i, j) := select_indices urls in
  let local := default (NewStationURL (str "prudp")) (i ≫= (urls !!.)) in
  let reported := j ≫= (urls !!.) in
  let same := bool_decide (i = j) in
  let reported :=
    if same && bool_decide (is_Some reported) then
      match SplitHostPort (RemoteAddr c) with
      | Some (host, _) =>
          if negb (isPrivateIP host) && negb (bool_decide (address local = host)) then None else reported
      | None => reported
      end
    else reported in
  match reported with
  | None =>
      let local' := identify s c local in
      let public := identify s c (derive_public (RemoteAddr c) local) in
      (local', advertise cfg (address public) public)
  | Some public =>
      if same then
        let u := advertise cfg (address local) (identify s c local) in (u, u)
      else
        let local := identify s c local in
        (local, advertise cfg (address local) (identify s c public))
  end.

Definition handleRegister (cfg : SecureConnectionConfig) (r : Ref) (req : RMCMessage) (n : Net)
    : option RMCMessage * Net :=
  let s := settings n in
  let urls := read_body n req (ReadList rStationURL) in
  let '(local, public) := register_stations cfg s (conn r n) urls in
  let n' := upd r (set_stations [local; public]) n in
  (Some (reply n ProtocolSecureConnection req
           (wU32 ResultCoreUnknown ;;; wU32 (ID (conn r n)) ;;; wString (String_ public))), n').

(** The stations of a connection by address: the addresses in the order they appear, and the
    last station of each. *)
Definition index_station (acc : list bytes * gmap bytes StationURL) (u : StationURL) : list bytes * gmap bytes StationURL :=
  let '(order, byAddr) := acc in
  (match byAddr !! address u with Some _ => order | None => order ++ [address u] end, <[address u := u]> byAddr).

Definition rebuild_stations (us : list StationURL) : list StationURL :=
  let '(order, byAddr) := foldl index_station ([], ∅) us in
  omap (λ a, byAddr !! a) order.

(** The two stations of a title that keeps the identity Register gave them. *)
Definition preserved_stations (c : Connection) (local public u : StationURL) : list StationURL :=
  let lan := Remove (str "Pa") (Remove (str "type") (StationURL.Set_ (str "address") (address local) u)) in
  let pub := StationURL.Set_ (str "type") (Get public (str "type")) (StationURL.Set_ (str "port") (Get public (str "port"))
               (StationURL.Set_ (str "address") (address public) u)) in
  let pa := Get public (str "Pa") in
  let pub := if bool_decide (pa = []) then pub else StationURL.Set_ (str "Pa") pa pub in
  [SetInt (str "RVCID") (ID c) lan; SetInt (str "RVCID") (ID c) pub].

Definition replace_station (cfg : SecureConnectionConfig) (s : Settings) (c : Connection) (u : StationURL) : list StationURL :=
  let u := StationURL.Set_ (str "PID") (public_pid s (PID c)) u in
  let ordinary := rebuild_stations (stations c ++ [u]) in
  if sc_PreservePiaStationIdentity cfg then
    match selectStations (stations c) with
    | (Some local, Some public) =>
        if negb (GetInt u (str "CID") =? 0) && (0 <? GetInt u (str "port")) && (GetInt u (str "port") <=? 65535)
        then preserved_stations c local public u
        else ordinary
    | _ => ordinary
    end
  else ordinary.

Definition handleReplaceURLWithConfig (cfg : SecureConnectionConfig) (r : Ref) (req : RMCMessage) (n : Net)
    : option RMCMessage * Net :=
  let u := read_body n req (skip! rStationURL in rStationURL) in
  (Some (ack n ProtocolSecureConnection req),
   upd r (λ c, set_stations (replace_station cfg (settings n) c u) c) n).

Definition SecureConnectionHandlerWithConfig (cfg : SecureConnectionConfig) (r : Ref) (req : RMCMessage) (n : Net)
    : option RMCMessage * Net :=
  let m := Method req in
  if (m =? MethodRegister) || (m =? MethodRegisterEx) then handleRegister cfg r req n
  else if m =? MethodReplaceURL then handleReplaceURLWithConfig cfg r req n
  else if (m =? MethodSendReport) || (m =? MethodTestConnectivity) then (Some (ack n ProtocolSecureConnection req), n)
  else (Some (notImplemented (settings n) ProtocolSecureConnection req), n).
End handlers.

(** ** Addresses *)
Example private_ex1 : isPrivateIP (str "192.168.1.20") = true. Proof. reflexivity. Qed.
Example private_ex2 : isPrivateIP (str "172.217.4.4") = false. Proof. reflexivity. Qed.
Example private_ex3 : isPrivateIP (str "172.31.0.1") = true. Proof. reflexivity. Qed.
Example private_ex4 : isPrivateIP (str "100.127.255.255") = true. Proof. reflexivity. Qed.
Example private_ex5 : isPrivateIP (str "100.128.0.1") = false. Proof. reflexivity. Qed.
Example private_ex6 : isPrivateIP (str "fe80::1") = true. Proof. reflexivity. Qed.
Example private_ex7 : isPrivateIP (str "26.5.6.7") = false. Proof. reflexivity. Qed.
