(* ===== verification/NatBridge.v ===== *)
(** * The NAT bridge (src/natbridge.go, src/matchmaking_local.go)

    The stations a joiner is given for a host: the host's own, with the UDP port that the NAT
    responder observed.  The responder is another process; its file is what it holds at an
    instant.  Also the public address of a connection (src/relaypair.go,
    src/nattraversal.go). *)

From S2P Require Export Stations.

Inductive bridgeStatus := bridgeOK | bridgeNoStations | bridgeNoObservation | bridgeNoRVCID.

#[export] Instance bridgeStatus_eq_dec : EqDecision bridgeStatus.
Proof. solve_decision. Defined.

(** ** The observed ports *)

(** A line of the file: an address and a port. *)
Definition nat_line (m : gmap bytes Z) (line : bytes) : gmap bytes Z :=
  match Fields line with
  | [ip; port] =>
      match Atoi port with
      | (p, None) => if (0 <? p) && (p <? 65536) then <[ip := p]> m else m
      | (_, Some _) => m
      end
  | _ => m
  end.

Definition nat_lines (data : bytes) : gmap bytes Z := foldl nat_line ∅ (split_on x0a data).

(** The zero [time.Time], in nanoseconds since 1970. *)
Definition zero_time : Z := -62135596800 * second.
Definition natCacheTTL : Z := 2 * second.

Record NatCache := mkNatCache { natCache : option (gmap bytes Z); natCacheRead : Z }.
Definition natcache0 : NatCache := mkNatCache None zero_time.

(** [natPortForIP]; [file] is what the file holds now, [None] when it cannot be read. *)
Definition natPortForIP (file : option bytes) (now : Z) (ip : bytes) (c : NatCache) : option Z * NatCache :=
  if bool_decide (ip = []) then (None, c)
  else
    let cached := match natCache c with Some m => if natCacheTTL <? now - natCacheRead c then None else Some m | None => None end in
    match cached with
    | Some m => (m !! ip, c)
    | None =>
        match file with
        | None => (None, mkNatCache (Some ∅) now)
        | Some data => let m := nat_lines data in (m !! ip, mkNatCache (Some m) now)
        end
    end.

(** ** The bridge *)
Definition public_type : Z := Z.lor StationURLFlagBehindNAT (Z.lor StationURLFlagPublic stationURLFlagSwitch).

(** The local candidate, under another port. *)
Definition lan_candidate (port : option Z) (local : StationURL) : StationURL :=
  let u := match port with Some p => SetInt (str "port") p local | None => local end in
  Remove (str "Pa") (Remove (str "type") u).

(** The public candidate. *)
Definition public_candidate (port : option Z) (pa : bytes) (public : StationURL) : StationURL :=
  let u := match port with Some p => SetInt (str "port") p public | None => public end in
  StationURL.Set_ (str "Pa") pa (SetInt (str "type") public_type u).

(** A UDP port a console can be reached on. *)
Definition usable_port (p : Z) : bool := (1 <? p) && (p <=? 65535).

Definition natBridgeStationsWithReportedPort (file : option bytes) (now : Z) (urls : list StationURL)
    (publicFirst useReportedPort : bool) (c : NatCache) : (list StationURL * bridgeStatus) * NatCache :=
  match selectStations urls with
  | (Some local, Some public) =>
      let publicAddr := address public in
      let privateAddr := address local in
      if bool_decide (publicAddr = []) || bool_decide (privateAddr = []) || bool_decide (publicAddr = privateAddr)
      then ((urls, bridgeNoStations), c)
      else
        let '(observed, c) := natPortForIP file now publicAddr c in
        let port :=
          match observed with
          | Some p => Some p
          | None =>
              if useReportedPort && negb (GetInt local (str "RVCID") =? 0) && usable_port (GetInt local (str "port"))
              then Some (GetInt local (str "port")) else None
          end in
        match port with
        | None => ((urls, bridgeNoObservation), c)
        | Some p =>
            if GetInt local (str "RVCID") =? 0 then ((urls, bridgeNoRVCID), c)
            else
              let lan := lan_candidate (Some p) local in
              let pub := public_candidate (Some p) (if publicFirst then publicAddr else privateAddr) public in
              ((if publicFirst then [pub; lan] else [lan; pub], bridgeOK), c)
        end
  | _ => ((urls, bridgeNoStations), c)
  end.

Definition natBridgeStations (file : option bytes) (now : Z) (urls : list StationURL) (publicFirst : bool) (c : NatCache)
    : (list StationURL * bridgeStatus) * NatCache := natBridgeStationsWithReportedPort file now urls publicFirst false c.

(** The relay socket of the titles that stand in for their peers; nothing in the package reads
    it. *)
Record StationRelayConfig := mkStationRelay { relayHost : bytes; relayPort : Z }.
Definition SetStationRelay (host : bytes) (port : Z) : StationRelayConfig := mkStationRelay host port.
Definition StationRelay (c : StationRelayConfig) : bytes * Z * bool :=
  (relayHost c, relayPort c, negb (bool_decide (relayHost c = [])) && (0 <? relayPort c)).

(** ** The bridge of a matchmaker *)
Record BridgeConfig := mkBridge {
  PublicStationFirst : bool;
  UseReportedUDPPort : bool;
  PreservePiaStationIdentity : bool;
  LocalLoopbackStations : bool
}.

(** One station of the loop of [bridgeSessionStations] on one machine. *)
Definition loopback_one (acc : option StationURL * option StationURL) (u : StationURL) : option StationURL * option StationURL :=
  match ParseIP (address u) with
  | None => acc
  | Some ip =>
      if IsLoopback ip && is_public_type u then (acc.1, Some u)
      else if negb (IsLoopback ip) && isPrivateIP (address u) then (Some u, acc.2)
      else acc
  end.

Definition bridgeSessionStations (cfg : BridgeConfig) (file : option bytes) (now : Z) (urls : list StationURL)
    (c : NatCache) : (list StationURL * bridgeStatus) * NatCache :=
  let bridge := natBridgeStationsWithReportedPort file now urls (PublicStationFirst cfg) (UseReportedUDPPort cfg) c in
  if PreservePiaStationIdentity cfg then
    (match selectStations urls with
     | (Some local, Some public) =>
         if (GetInt local (str "CID") =? 0) || negb (GetInt public (str "CID") =? GetInt local (str "CID"))
         then (urls, bridgeNoRVCID)
         else (if PublicStationFirst cfg then [public; local] else [local; public], bridgeOK)
     | _ => (urls, bridgeNoStations)
     end, c)
  else if negb (LocalLoopbackStations cfg) || PublicStationFirst cfg then bridge
  else
    match foldl loopback_one (None, None) urls with
    | (Some local, Some public) =>
        (if (GetInt local (str "CID") =? 0) || (GetInt local (str "RVCID") =? 0) ||
            negb (usable_port (GetInt local (str "port")))
         then (urls, bridgeNoRVCID)
         else if (GetInt public (str "port") <=? 0) || (65535 <? GetInt public (str "port"))
         then (urls, bridgeNoStations)
         else
           let lan := lan_candidate None local in
           ([lan; public_candidate None (address lan) public], bridgeOK), c)
    | _ => bridge
    end.

(** [PublicIPOf]; empty when the address is private or unreadable. *)
Definition PublicIPOf (c : Connection) : bytes :=
  match SplitHostPort (RemoteAddr c) with
  | Some (host, _) => if bool_decide (host = []) || isPrivateIP host then [] else host
  | None => []
  end.

Definition behindSameNAT (a b : Connection) : bool :=
  negb (bool_decide (PublicIPOf a = [])) && bool_decide (PublicIPOf a = PublicIPOf b).

Definition bridgeSessionStationsForPair (cfg : BridgeConfig) (file : option bytes) (now : Z) (joiner host : Connection)
    (c : NatCache) : (list StationURL * bridgeStatus) * NatCache :=
  let urls := stations host in
  if negb (behindSameNAT joiner host) || PreservePiaStationIdentity cfg then bridgeSessionStations cfg file now urls c
  else
    (match selectStations urls with
     | (Some local, Some public) =>
         let port := GetInt local (str "port") in
         if (GetInt local (str "RVCID") =? 0) || negb (usable_port port) then (urls, bridgeNoRVCID)
         else
           let lan := lan_candidate None local in
           ([lan; public_candidate (Some port) (address lan) public], bridgeOK)
     | _ => (urls, bridgeNoStations)
     end, c).
