(* ===== verification/Utility.v ===== *)
(** * Utility (src/utility.go)

    The settings tables and the unique identifiers.  The environment variables are a function
    from names to values. *)

From S2P Require Export Handlers.

Definition ProtocolUtility : Z := 0x6E.
Definition MethodGetIntegerSettings : Z := 0x7.
Definition MethodGetStringSettings : Z := 0x8.
Definition MethodAcquireNexUniqueID : Z := 0x1.
Definition MethodAcquireNexUniqueIDWithPassword : Z := 0x2.
Definition MethodAssociateNexUniqueIDWithMyPrincipalID : Z := 0x3.
Definition MethodGetAssociatedNexUniqueIDWithMyPrincipalID : Z := 0x5.
Definition nexUniqueIDPasswordSalt : Z := 0x4e45585f50574421.

(** ** The settings tables *)

(** [os.Getenv], the clef u32 switch read from it, and the table the game may give. *)
Record UtilityEnv := mkUtilityEnv {
  Getenv : bytes → bytes;
  UtilityReglagesJeu : gmap Z Z
}.

(** A count in the environment: a number of entries up to 4096. *)
Definition count_of (v : bytes) : option Z :=
  match Atoi v with
  | (k, None) => if (0 <=? k) && (k <=? 4096) then Some k else None
  | (_, Some _) => None
  end.

Definition utilityNbReglages (env : UtilityEnv) : Z := default 0 (count_of (Getenv env (str "NEX_UTILITY_REGLAGES"))).

(** One "key=value" of the list. *)
Definition reglage (out : gmap Z Z) (part : bytes) : gmap Z Z :=
  match cut_on "="%byte (TrimSpace part) with
  | None => out
  | Some (k, v) =>
      match Atoi (TrimSpace k), Atoi (TrimSpace v) with
      | (ki, None), (vi, None) => if (0 <=? ki) && (ki <=? 0xFFFF) then <[ki := s32 vi]> out else out
      | _, _ => out
      end
  end.
Definition analyserValeursReglages (brut : bytes) : gmap Z Z := foldl reglage ∅ (split_on ","%byte brut).

Definition utilityValeursReglages (env : UtilityEnv) : gmap Z Z :=
  analyserValeursReglages (Getenv env (str "NEX_UTILITY_VALEURS")).
Definition utilityClesU32 (env : UtilityEnv) : bool := bytes_eqb (Getenv env (str "NEX_UTILITY_CLES_U32")) (str "1").

Section tables.
Context `{MO : MapOrder}.

(** One past the largest key of the game's table. *)
Definition top_key (m : gmap Z Z) : Z := foldl (λ n e, if n <? e.1 + 1 then e.1 + 1 else n) 0 (range m).

(** [utilityReglagesPour]; the index is [-1] when the request carries none. *)
Definition utilityReglagesPour (env : UtilityEnv) (idx : Z) : Z * gmap Z Z :=
  let own :=
    if 0 <=? idx then
      match count_of (Getenv env (str "NEX_UTILITY_REGLAGES_" ++ Itoa idx)) with
      | Some k => Some (k, analyserValeursReglages (Getenv env (str "NEX_UTILITY_VALEURS_" ++ Itoa idx)))
      | None => None
      end
    else None in
  match own with
  | Some r => r
  | None =>
      if (utilityNbReglages env =? 0) && negb (bool_decide (UtilityReglagesJeu env = ∅))
      then (top_key (UtilityReglagesJeu env), UtilityReglagesJeu env)
      else (utilityNbReglages env, utilityValeursReglages env)
  end.

(** The body of the answer: positions and values. *)
Definition wReglages (u32keys : bool) (nb : Z) (valeurs : gmap Z Z) : Writer :=
  wU32 (u32 nb) ;;;
  wforeach (λ k, (if u32keys then wU32 (u32 k) else wU16 (u16 k)) ;;; wU32 (u32 (default 0 (valeurs !! k))))
    (Z.of_nat <$> seq 0 (Z.to_nat nb)).
End tables.

(** ** Unique identifiers *)
Record UniqueIDInfo := mkUniqueID { NEXUniqueID : Z; NEXUniqueIDPassword : Z }.
#[export] Instance UniqueIDInfo_Structure : Structure UniqueIDInfo := λ u,
  [ mkLevel 0 (Some (wU64 (NEXUniqueID u) ;;; wU64 (NEXUniqueIDPassword u)))
      (Some (λ _, read! a := rU64 in read! b := rU64 in rret (mkUniqueID a b))) ].

Definition unique_id_of (p : Z) : UniqueIDInfo := mkUniqueID p (Z.lxor p nexUniqueIDPasswordSalt).

Section handlers.
Context {App : Type} `{MO : MapOrder}.
#[local] Abbreviation Net := (NetOf App).
Implicit Types (n : Net) (r : Ref) (req : RMCMessage).
Context (env : UtilityEnv).

Definition settings_index (req : RMCMessage) (n : Net) : Z := if 4 <=? zlen (Body req) then read_body n req rU32 else -1.

Definition getSettings (req : RMCMessage) (n : Net) : RMCMessage :=
  let '(nb, valeurs) := utilityReglagesPour env (settings_index req n) in
  reply n ProtocolUtility req
    (if (Method req =? MethodGetIntegerSettings) && (0 <? nb) then wReglages (utilityClesU32 env) nb valeurs else wU32 0).

(** [UtilityHandler]. *)
Definition UtilityHandler (r : Ref) (req : RMCMessage) (n : Net) : option RMCMessage :=
  let m := Method req in
  let p := PID (conn r n) in
  if (m =? MethodGetIntegerSettings) || (m =? MethodGetStringSettings) then Some (getSettings req n)
  else if m =? MethodAcquireNexUniqueID then Some (reply n ProtocolUtility req (wU64 p))
  else if m =? MethodAcquireNexUniqueIDWithPassword then Some (reply n ProtocolUtility req (wAdd (unique_id_of p)))
  else if m =? MethodAssociateNexUniqueIDWithMyPrincipalID then Some (ack n ProtocolUtility req)
  else if m =? MethodGetAssociatedNexUniqueIDWithMyPrincipalID then Some (reply n ProtocolUtility req (wAdd (unique_id_of p)))
  else Some (notImplemented (settings n) ProtocolUtility req).
End handlers.

(** ** Reading a table back *)

(** A table of integer settings, as a client with 16-bit keys reads it. *)
Definition rReglages : Reader (gmap Z Z) := ReadMap rU16 rS32.

Example reglages_ex1 :
  analyserValeursReglages (str " 1=60, 2 = -5 ,x=1,70000=3,") = list_to_map [(1, 60); (2, -5)].
Proof. vm_compute. reflexivity. Qed.

Lemma analyser_s32 brut : map_Forall (λ _ v, is_s32 v) (analyserValeursReglages brut).
Proof.
  unfold analyserValeursReglages. generalize (split_on ","%byte brut) as l.
  assert (∀ l m, map_Forall (λ _ v, is_s32 v) m → map_Forall (λ _ v, is_s32 v) (foldl reglage m l)) as H.
  { induction l as [|p l IH]; intros m Hm; [done|]. apply IH. unfold reglage.
    repeat case_match; try done. apply map_Forall_insert_2; [|done]. by apply signed_is_s. }
  intros l. apply H, map_Forall_empty.
Qed.

Lemma count_of_bound v n : count_of v = Some n → 0 ≤ n ≤ 4096.
Proof. unfold count_of. repeat case_match; try done. intros [= <-]. lia. Qed.

Section reading.
Context `{MO : MapOrder}.

Lemma top_key_bound m : map_Forall (λ k _, k < 65536) m → 0 ≤ top_key m ≤ 65536.
Proof.
  intros Hm. assert (∀ e, e ∈ range m → e.1 < 65536) as Hr.
  { intros [k v] He%elem_of_range. by apply (Hm k v). }
  assert (∀ l n, 0 ≤ n ≤ 65536 → (∀ e : Z * Z, e ∈ l → e.1 < 65536) →
    0 ≤ foldl (λ n (e : Z * Z), if n <? e.1 + 1 then e.1 + 1 else n) n l ≤ 65536) as H.
  { induction l as [|e l IH]; intros n Hn Hl; [done|]. simpl. apply IH.
    - specialize (Hl e ltac:(by left)). case_match; lia.
    - intros x Hx. apply Hl. by right. }
  by apply H.
Qed.

Lemma utilityReglagesPour_ok env idx :
  map_Forall (λ k v, k < 65536 ∧ is_s32 v) (UtilityReglagesJeu env) →
  0 ≤ (utilityReglagesPour env idx).1 ≤ 65536 ∧ map_Forall (λ _ v, is_s32 v) (utilityReglagesPour env idx).2.
Proof.
  intros Hj. assert (0 ≤ utilityNbReglages env ≤ 65536) as Hn.
  { unfold utilityNbReglages. destruct (count_of _) as [n|] eqn:E; simpl; [|done]. apply count_of_bound in E. lia. }
  assert (∀ b : bool, 0 ≤ (if b then (top_key (UtilityReglagesJeu env), UtilityReglagesJeu env)
            else (utilityNbReglages env, utilityValeursReglages env)).1 ≤ 65536 ∧
    map_Forall (λ _ v, is_s32 v) (if b then (top_key (UtilityReglagesJeu env), UtilityReglagesJeu env)
            else (utilityNbReglages env, utilityValeursReglages env)).2) as Hd.
  { intros []; simpl; [|split; [done|apply analyser_s32]]. split.
    - apply top_key_bound. eapply map_Forall_impl; [exact Hj|by intros ??[]].
    - eapply map_Forall_impl; [exact Hj|by intros ??[]]. }
  unfold utilityReglagesPour. case_match eqn:Eo; [|apply Hd].
  repeat case_match; simplify_eq. simpl. split; [|apply analyser_s32].
  match goal with H : count_of _ = Some _ |- _ => apply count_of_bound in H end. lia.
Qed.

Lemma wforeach_fmap {A B} (f : B → Writer) (g : A → B) l o : wforeach f (g <$> l) o = wforeach (f ∘ g) l o.
Proof. revert o. induction l as [|x l IH]; intros o; [done|]. rewrite fmap_cons, !wforeach_cons. apply IH. Qed.

Lemma wforeach_ext {A} (f g : A → Writer) l o : (∀ x o, x ∈ l → f x o = g x o) → wforeach f l o = wforeach g l o.
Proof.
  revert o. induction l as [|x l IH]; intros o H; [done|].
  change (wforeach f l (f x o) = wforeach g l (g x o)). rewrite H by (by left). apply IH. intros y o' Hy. apply H. by right.
Qed.

Lemma NoDup_positions (g : Z → Z) n : NoDup ((λ k, (k, g k)) <$> (Z.of_nat <$> seq 0 n)).*1.
Proof.
  rewrite <- list_fmap_compose. apply (NoDup_fmap_2_strong _); [by intros x y _ _ ?|].
  apply (NoDup_fmap_2 _), NoDup_seq.
Qed.

Lemma rt1_reglages s nb valeurs :
  0 ≤ nb ≤ 65536 → map_Forall (λ _ v, is_s32 v) valeurs →
  rt1 s (wReglages false nb valeurs) rReglages
    (list_to_map ((λ k, (k, default 0 (valeurs !! k))) <$> (Z.of_nat <$> seq 0 (Z.to_nat nb)))).
Proof.
  intros Hn Hv. unfold wReglages, rReglages, ReadMap. rewrite wrap_small by (unfold is_u; lia).
  eapply rt1_bind; [apply rt1_U32; unfold is_u; lia|].
  set (l := (λ k, (k, default 0 (valeurs !! k))) <$> (Z.of_nat <$> seq 0 (Z.to_nat nb))).
  destruct (rrepeat_map_reads s wU16 wS32 rU16 rS32 l ∅) as (bs & W & R & L).
  { apply Forall_forall. subst l. intros [k v] Hkv. apply list_elem_of_fmap in Hkv as (k' & [= -> ->] & Hk).
    apply list_elem_of_fmap in Hk as (n & -> & Hk). apply elem_of_seq in Hk. simpl. split.
    - apply rt1_U16. unfold is_u. lia.
    - apply rt1_S32. destruct (valeurs !! Z.of_nat n) as [v|] eqn:E; [exact (Hv _ v E)|done]. }
  assert (length l = Z.to_nat nb) as Hl by (subst l; by rewrite !length_fmap, length_seq).
  exists bs. split.
  - intros buf. rewrite <- W. subst l.
    rewrite (wforeach_fmap (λ kv : Z * Z, wU16 kv.1 ;;; wS32 kv.2)). apply wforeach_ext. intros k o Hk.
    apply list_elem_of_fmap in Hk as (n & -> & Hk). apply elem_of_seq in Hk.
    unfold compose. cbn [fst snd]. by rewrite wrap_small by (unfold is_u; lia).
  - apply guarded_reads; [unfold zlen; lia|]. rewrite Hl in R.
    rewrite foldl_insert_nodup, (right_id_L ∅ (∪)) in R; [done|].
    apply NoDup_positions.
Qed.

(** Whatever the environment and the group asked for, a client with 16-bit keys reads
    back from the settings answer exactly the positions below the count the server chose,
    each with the value configured for it or zero, and nothing else. *)
Theorem settings_table_read_back env idx s :
  map_Forall (λ k v, k < 65536 ∧ is_s32 v) (UtilityReglagesJeu env) →
  let '(nb, valeurs) := utilityReglagesPour env idx in
  ∃ m, run rReglages (NewStreamIn (Bytes_ (wReglages false nb valeurs (NewStreamOut s))) s) = Ok m ∧
    ∀ k, m !! k = if decide (0 ≤ k < nb) then Some (default 0 (valeurs !! k)) else None.
Proof.
  intros Hj. destruct (utilityReglagesPour_ok env idx Hj) as [Hb Hv].
  destruct (utilityReglagesPour env idx) as [nb valeurs]. simpl in *.
  eexists. split; [by apply run_whole, rt1_rt, rt1_reglages|]. intros k.
  case_decide as Hk.
  - apply elem_of_list_to_map_1.
    + apply NoDup_positions.
    + apply list_elem_of_fmap. exists k. split; [done|]. apply list_elem_of_fmap. exists (Z.to_nat k).
      rewrite elem_of_seq. lia.
  - apply not_elem_of_list_to_map_1. rewrite <- list_fmap_compose. intros Hin.
    apply list_elem_of_fmap in Hin as (k' & -> & Hin). apply list_elem_of_fmap in Hin as (n & -> & Hin).
    apply elem_of_seq in Hin. simpl in Hk. lia.
Qed.
End reading.

Lemma settings_table_read_back_witness :
  let MO := canonical_order in
  let env := mkUtilityEnv (λ n, if bytes_eqb n (str "NEX_UTILITY_REGLAGES_10") then str "3"
                                else if bytes_eqb n (str "NEX_UTILITY_VALEURS_10") then str "1=60,2=-5" else []) ∅ in
  ∃ m, run rReglages (NewStreamIn (Bytes_ (wReglages false 3 (list_to_map [(1, 60); (2, -5)])
         (NewStreamOut (NewSwitchSettings [] 40302)))) (NewSwitchSettings [] 40302)) = Ok m ∧
    ∀ k, m !! k = if decide (0 ≤ k < 3) then Some (default 0 ((list_to_map [(1, 60); (2, -5)] : gmap Z Z) !! k)) else None.
Proof.
  intros MO env. assert (utilityReglagesPour env 10 = (3, list_to_map [(1, 60); (2, -5)])) as E by (vm_compute; reflexivity).
  pose proof (settings_table_read_back env 10 (NewSwitchSettings [] 40302)) as H. rewrite E in H.
  apply H, map_Forall_empty.
Defined.
