(* ===== verification/Relay.v ===== *)
(** * The relay by pairs (src/relaybesoin.go, src/relayvu.go, src/relayvolontaires.go,
    src/relaypair.go)

    Who needs the relay, who may be relayed, which pairs were; the ports given to the pairs
    and the datagrams that cross them.  Sockets are the entries of [pairSocks]; opening one
    may fail, which is an argument. *)

From S2P Require Export NatBridge.

Definition minute : Z := 60 * second.

(** ** Who needs the relay *)
Definition besoinFenetre : Z := 15 * minute.
Definition besoinSeuil : Z := 2.
Definition jamaisConnecteSeuil : Z := 10.

Record besoinEtat := mkBesoin { echecs : Z; dernier : Z; essais : Z; reussites : Z }.

Record BesoinState := mkBesoins { besoins : gmap Z besoinEtat; besoinNet : Z }.
Definition besoins0 : BesoinState := mkBesoins ∅ zero_time.

(** The cleaning, at most once a minute. *)
Definition besoin_menage (now : Z) (st : BesoinState) : BesoinState :=
  if minute <? now - besoinNet st then
    mkBesoins (filter (λ e, now - dernier e.2 ≤ besoinFenetre ∨ reussites e.2 ≤ 0) (besoins st)) now
  else st.

Definition NotePercage (now p : Z) (reussi : bool) (st : BesoinState) : BesoinState :=
  if p =? 0 then st
  else
    let st := besoin_menage now st in
    let fond := default (mkBesoin 0 zero_time 0 0) (besoins st !! p) in
    let e :=
      if reussi then mkBesoin 0 now (essais fond + 1) (reussites fond + 1)
      else
        let k := if besoinFenetre <? now - dernier fond then 0 else echecs fond in
        mkBesoin (k + 1) now (essais fond + 1) (reussites fond) in
    mkBesoins (<[p := e]> (besoins st)) (besoinNet st).

Definition en_besoin (now : Z) (e : besoinEtat) : bool :=
  (besoinSeuil <=? echecs e) && (now - dernier e <=? besoinFenetre).

Definition BesoinDeRelais (now p : Z) (st : BesoinState) : bool :=
  match besoins st !! p with Some e => en_besoin now e | None => false end.

Section lists.
Context `{MO : MapOrder} `{SS : SliceSort}.

Definition BesoinListe (now : Z) (st : BesoinState) : list Z :=
  sort_slice Z.ltb (filter (λ e, en_besoin now e.2 = true) (range (besoins st))).*1.
Definition BesoinStats (now : Z) (st : BesoinState) : nat :=
  length (filter (λ e, en_besoin now e.2 = true) (range (besoins st))).
Definition CandidatsRelais (st : BesoinState) : list Z :=
  sort_slice Z.ltb (filter (λ e, jamaisConnecteSeuil ≤ essais e.2 ∧ reussites e.2 = 0) (range (besoins st))).*1.
End lists.

(** ** Which pairs were relayed *)
Definition relayVuTTL : Z := 5 * minute.

Record VuState := mkVus { vues : gmap (Z * Z) Z; vuMenage : Z }.
Definition vus0 : VuState := mkVus ∅ zero_time.

Definition clePaire (a b : Z) : Z * Z := if b <? a then (b, a) else (a, b).

Definition NoterPaireRelayee (now a b : Z) (st : VuState) : VuState :=
  if (a =? 0) || (b =? 0) then st
  else
    let st :=
      if minute <? now - vuMenage st
      then mkVus (filter (λ e, now - e.2 ≤ relayVuTTL) (vues st)) now else st in
    mkVus (<[clePaire a b := now]> (vues st)) (vuMenage st).

Definition PaireRelayee (now a b : Z) (st : VuState) : bool :=
  match vues st !! clePaire a b with Some t => now - t <=? relayVuTTL | None => false end.

(** ** Who may be relayed *)
Record Volontaires := mkVol { volontaires : gset Z; volForces : gset Z; volOuvert : bool }.
Definition volontaires0 : Volontaires := mkVol ∅ ∅ false.

Definition SetRelayVolontaires (pids forces : list Z) (ouvert : bool) : Volontaires :=
  let nz := filter (λ p, p ≠ 0) in
  mkVol (list_to_set (nz pids) ∪ list_to_set (nz forces)) (list_to_set (nz forces)) ouvert.

Definition RelayVolontaire (p : Z) (v : Volontaires) : bool := volOuvert v || bool_decide (p ∈ volontaires v).
Definition RelayForce (p : Z) (v : Volontaires) : bool := bool_decide (p ∈ volForces v).

Section vol_lists.
Context `{SS : SliceSort}.
Definition RelayVolontairesStats (v : Volontaires) : nat * bool := (size (volontaires v), volOuvert v).
Definition RelayVolontairesListe (v : Volontaires) : list Z := sort_slice Z.ltb (elements (volontaires v)).
End vol_lists.

(** ** Pairs *)
Definition pairRelayTTL : Z := 2 * minute.

Record pairSocket := mkPair {
  ps_lo : Z;
  ps_hi : Z;
  attendus : bytes * bytes;
  vus : option UDPAddr * option UDPAddr;
  ps_dernier : Z;
  recus : Z;
  relayes : Z;
  relayesVers : Z * Z;
  rejets : Z;
  remaps : Z;
  rejetVu : option (gmap bytes Z)
}.

(** The two places of a pair. *)
Definition side {A} (i : bool) (p : A * A) : A := if i then p.2 else p.1.
Definition set_side {A} (i : bool) (x : A) (p : A * A) : A * A := if i then (p.1, x) else (x, p.2).

Definition new_pair (lo hi : Z) : pairSocket :=
  mkPair lo hi ([], []) (None, None) zero_time 0 0 (0, 0) 0 0 None.
Definition set_vus (v : option UDPAddr * option UDPAddr) (ps : pairSocket) : pairSocket :=
  mkPair (ps_lo ps) (ps_hi ps) (attendus ps) v (ps_dernier ps) (recus ps) (relayes ps) (relayesVers ps) (rejets ps)
    (remaps ps) (rejetVu ps).
Definition set_dernier (v : Z) (ps : pairSocket) : pairSocket :=
  mkPair (ps_lo ps) (ps_hi ps) (attendus ps) (vus ps) v (recus ps) (relayes ps) (relayesVers ps) (rejets ps)
    (remaps ps) (rejetVu ps).
Definition set_remaps (v : Z) (ps : pairSocket) : pairSocket :=
  mkPair (ps_lo ps) (ps_hi ps) (attendus ps) (vus ps) (ps_dernier ps) (recus ps) (relayes ps) (relayesVers ps)
    (rejets ps) v (rejetVu ps).
Definition set_rejets (v : Z) (w : option (gmap bytes Z)) (ps : pairSocket) : pairSocket :=
  mkPair (ps_lo ps) (ps_hi ps) (attendus ps) (vus ps) (ps_dernier ps) (recus ps) (relayes ps) (relayesVers ps)
    v (remaps ps) w.
Definition set_trafic (rc rl : Z) (vers : Z * Z) (ps : pairSocket) : pairSocket :=
  mkPair (ps_lo ps) (ps_hi ps) (attendus ps) (vus ps) (ps_dernier ps) rc rl vers (rejets ps) (remaps ps) (rejetVu ps).

Definition memeReseau (a b : bytes) : bool :=
  match ParseIP a ≫= To4, ParseIP b ≫= To4 with
  | Some x, Some y => bytes_eqb (take 3 x) (take 3 y)
  | _, _ => false
  end.

Definition admis (attendu src : bytes) : bool := bytes_eqb attendu src || memeReseau attendu src.

(** Is the endpoint in this place, and may it take it? *)
Definition occupe (i : bool) (src : UDPAddr) (ps : pairSocket) : bool := bool_decide (side i (vus ps) = Some src).
Definition libre (i : bool) (ps : pairSocket) : bool := bool_decide (side i (vus ps) = None).
Definition admis_en (i : bool) (src : UDPAddr) (ps : pairSocket) : bool :=
  admis (side i (attendus ps)) (IPString (u_IP src)).

Definition prendre (i : bool) (src : UDPAddr) (ps : pairSocket) : pairSocket := set_vus (set_side i (Some src) (vus ps)) ps.

(** [apparier]: the other end for a datagram, [None] when it is refused or alone. *)
Definition apparier (now : Z) (src : UDPAddr) (ps : pairSocket) : option UDPAddr * pairSocket :=
  let ps := set_dernier now ps in
  if occupe false src ps then (side true (vus ps), ps)
  else if occupe true src ps then (side false (vus ps), ps)
  else if admis_en false src ps && libre false ps then (side true (vus ps), prendre false src ps)
  else if admis_en true src ps && libre true ps then (side false (vus ps), prendre true src ps)
  else
    let distincts := negb (memeReseau (attendus ps).1 (attendus ps).2) && negb (bytes_eqb (attendus ps).1 (attendus ps).2) in
    if distincts && admis_en false src ps && negb (libre false ps)
    then (side true (vus ps), set_remaps (u64 (remaps ps + 1)) (prendre false src ps))
    else if distincts && admis_en true src ps && negb (libre true ps)
    then (side false (vus ps), set_remaps (u64 (remaps ps + 1)) (prendre true src ps))
    else
      (None, set_rejets (u64 (rejets ps + 1))
               ((λ m, <[UDPString src := u64 (default 0 (m !! UDPString src) + 1)]> m) <$> rejetVu ps) ps).

(** One turn of [boucle]: where the datagram goes on to. *)
Definition boucle_step (now : Z) (src : UDPAddr) (ps : pairSocket) : option UDPAddr * pairSocket :=
  let ps := set_trafic (u64 (recus ps + 1)) (relayes ps) (relayesVers ps) ps in
  let '(dst, ps) := apparier now src ps in
  match dst with
  | None => (None, ps)
  | Some d =>
      let '(v0, v1) := relayesVers ps in
      let vers :=
        if occupe false d ps then (u64 (v0 + 1), v1)
        else if occupe true d ps then (v0, u64 (v1 + 1)) else (v0, v1) in
      (Some d, set_trafic (recus ps) (u64 (relayes ps + 1)) vers ps)
  end.

(** ** The registry of the pairs *)
Record PairTotaux := mkTotaux {
  t_Recus : Z;
  t_Relayes : Z;
  t_Rejets : Z;
  t_Remaps : Z;
  PairesOuvertes : Z;
  PairesMuettes : Z
}.

Record PairState := mkPairs {
  pairHost : bytes;
  pairPortBase : Z;
  pairPortSpan : Z;
  pairSocks : gmap Z pairSocket;
  pairPorts : gmap (Z * Z) Z;
  pairReaping : bool;
  pairTotal : PairTotaux
}.
Definition pairs0 : PairState := mkPairs [] 0 0 ∅ ∅ false (mkTotaux 0 0 0 0 0 0).

Definition set_socks (s : gmap Z pairSocket) (p : gmap (Z * Z) Z) (r : bool) (t : PairTotaux) (st : PairState) : PairState :=
  mkPairs (pairHost st) (pairPortBase st) (pairPortSpan st) s p r t.

Definition PairRelayActive (st : PairState) : bool := negb (bool_decide (pairHost st = [])) && (0 <? pairPortSpan st).

(** FNV-1a over the sixteen bytes of the two PIDs. *)
Definition fnv_byte (h b : Z) : Z := u64 (Z.lxor h b * 1099511628211).
Definition fnv_pid (h v : Z) : Z :=
  foldl (λ h i, fnv_byte h (Z.land (Z.shiftr v (8 * Z.of_nat i)) 0xFF)) h (seq 0 8).

Definition pairPortFor (a b : Z) (st : PairState) : option Z :=
  if PairRelayActive st then
    let '(lo, hi) := clePaire a b in
    let h := fnv_pid (fnv_pid 14695981039346656037 lo) hi in
    Some (pairPortBase st + h mod pairPortSpan st)
  else None.

(** What a closing pair adds to the totals. *)
Definition bilanEtCumul (ps : pairSocket) (t : PairTotaux) : PairTotaux :=
  mkTotaux (u64 (t_Recus t + recus ps)) (u64 (t_Relayes t + relayes ps)) (u64 (t_Rejets t + rejets ps))
    (u64 (t_Remaps t + remaps ps)) (PairesOuvertes t)
    (if relayes ps =? 0 then u64 (PairesMuettes t + 1) else PairesMuettes t).

Section registry.
Context `{MO : MapOrder}.

Definition closeAllPairSockets (st : PairState) : PairState :=
  set_socks ∅ ∅ (pairReaping st) (foldl (λ t e, bilanEtCumul e.2 t) (pairTotal st) (range (pairSocks st))) st.

Definition SetPairRelay (host : bytes) (base span : Z) (st : PairState) : PairState :=
  let st := mkPairs host base span (pairSocks st) (pairPorts st) (pairReaping st) (pairTotal st) in
  if bool_decide (host = []) then closeAllPairSockets st else st.

(** One socket looked at by a turn of [reapPairSockets]. *)
Definition reap_pair (now : Z) (st : PairState) (e : Z * pairSocket) : PairState :=
  if pairRelayTTL <? now - ps_dernier e.2 then
    set_socks (delete e.1 (pairSocks st)) (delete (ps_lo e.2, ps_hi e.2) (pairPorts st)) (pairReaping st)
      (bilanEtCumul e.2 (pairTotal st)) st
  else st.

Definition reapPairSockets (now : Z) (st : PairState) : PairState :=
  let st := foldl (reap_pair now) st (range (pairSocks st)) in
  if bool_decide (pairSocks st = ∅) then set_socks (pairSocks st) (pairPorts st) false (pairTotal st) st else st.
End registry.

(** *** What the dashboard is shown *)
Record PairStat := mkPairStat {
  sp_Port : Z;
  PIDs : Z * Z;
  sp_Attendus : bytes * bytes;
  Places : bytes * bytes;
  sp_Recus : Z;
  sp_Relayes : Z;
  sp_RelayesVers : Z * Z;
  sp_Rejets : Z;
  sp_Remaps : Z;
  Rejetees : gmap bytes Z;
  InactifSec : Z
}.

Record RelayStats := mkRelayStats {
  Actif : bool;
  sr_Host : bytes;
  PortBase : Z;
  PortSpan : Z;
  Paires : nat;
  sr_Total : PairTotaux;
  Vivantes : list PairStat
}.

Definition pair_stat (now : Z) (e : Z * pairSocket) : PairStat :=
  let ps := e.2 in
  let place o := match o with Some a => UDPString a | None => [] end in
  mkPairStat e.1 (ps_lo ps, ps_hi ps) (attendus ps) (place (vus ps).1, place (vus ps).2) (recus ps) (relayes ps)
    (relayesVers ps) (rejets ps) (remaps ps) (default ∅ (rejetVu ps)) (Z.quot (now - ps_dernier ps) second).

Definition PairRelayStats `{MO : MapOrder} (now : Z) (st : PairState) : RelayStats :=
  mkRelayStats (PairRelayActive st) (pairHost st) (pairPortBase st) (pairPortSpan st) (size (pairSocks st)) (pairTotal st)
    (pair_stat now <$> range (pairSocks st)).

(** The first of the eight ports from the wished one that is free, or the pair's own. *)
Definition find_port (lo hi souhaite : Z) (st : PairState) : option Z :=
  let base := pairPortBase st in
  let span := pairPortSpan st in
  snd <$> list_find (λ cand, match pairSocks st !! cand with
                             | None => true
                             | Some o => (ps_lo o =? lo) && (ps_hi o =? hi)
                             end = true)
            ((λ i, base + (souhaite - base + Z.of_nat i) mod span) <$> seq 0 8).

(** The state of the relay, as [PairRelayFor] sees it. *)
Record RelayState := mkRelay {
  r_besoins : BesoinState;
  r_vus : VuState;
  r_vol : Volontaires;
  r_pairs : PairState
}.
Definition relay0 : RelayState := mkRelay besoins0 vus0 volontaires0 pairs0.

(** May this pair be relayed, and does it need to? *)
Definition relay_allowed (now pidA pidB : Z) (st : RelayState) : bool :=
  RelayVolontaire pidA (r_vol st) && RelayVolontaire pidB (r_vol st) &&
  (BesoinDeRelais now pidA (r_besoins st) || BesoinDeRelais now pidB (r_besoins st) ||
   RelayForce pidA (r_vol st) || RelayForce pidB (r_vol st)).

(** The port of the pair, its socket opened if it has none; [None] when it is left direct. *)
Definition open_pair (listen : Z → bool) (lo hi souhaite : Z) (st : PairState) : option Z * PairState :=
  let port := match pairPorts st !! (lo, hi) with Some p => Some p | None => find_port lo hi souhaite st end in
  match port with
  | None => (None, st)
  | Some port =>
      match pairSocks st !! port with
      | None =>
          if listen port then
            let t := pairTotal st in
            (Some port,
             set_socks (<[port := new_pair lo hi]> (pairSocks st)) (<[(lo, hi) := port]> (pairPorts st)) true
               (mkTotaux (t_Recus t) (t_Relayes t) (t_Rejets t) (t_Remaps t) (u64 (PairesOuvertes t + 1)) (PairesMuettes t)) st)
          else (None, st)
      | Some ps =>
          if (ps_lo ps =? lo) && (ps_hi ps =? hi)
          then (Some port, set_socks (pairSocks st) (pairPorts st) true (pairTotal st) st)
          else (None, st)
      end
  end.

(** The addresses expected on the port, in the order of the PIDs. *)
Definition expect (now pidA pidB : Z) (ipA ipB : bytes) (ps : pairSocket) : pairSocket :=
  mkPair (ps_lo ps) (ps_hi ps) (if pidB <? pidA then (ipB, ipA) else (ipA, ipB)) (vus ps) now (recus ps) (relayes ps)
    (relayesVers ps) (rejets ps) (remaps ps) (Some (default ∅ (rejetVu ps))).

Definition PairRelayFor (listen : Z → bool) (now pidA pidB : Z) (ipA ipB : bytes) (st : RelayState)
    : option (bytes * Z) * RelayState :=
  let pairs := r_pairs st in
  if negb (PairRelayActive pairs) || bool_decide (ipA = []) || bool_decide (ipB = []) then (None, st)
  else if negb (relay_allowed now pidA pidB st) then (None, st)
  else
    match pairPortFor pidA pidB pairs with
    | None => (None, st)
    | Some souhaite =>
        let '(lo, hi) := clePaire pidA pidB in
        let '(port, pairs) := open_pair listen lo hi souhaite pairs in
        match port with
        | None => (None, mkRelay (r_besoins st) (r_vus st) (r_vol st) pairs)
        | Some port =>
            let pairs := set_socks (alter (expect now pidA pidB ipA ipB) port (pairSocks pairs)) (pairPorts pairs)
                           (pairReaping pairs) (pairTotal pairs) pairs in
            (Some (pairHost pairs, port),
             mkRelay (r_besoins st) (NoterPaireRelayee now pidA pidB (r_vus st)) (r_vol st) pairs)
        end
    end.

(** ** Stations through the relay *)
Definition relayPointStation (host : bytes) (port : Z) (u : StationURL) : StationURL :=
  let c := SetInt (str "port") port (StationURL.Set_ (str "address") host u) in
  if bool_decide (Get c (str "Pa") = []) then c else StationURL.Set_ (str "Pa") host c.

Definition RelayStations (urls : list StationURL) (host : bytes) (port : Z) : list StationURL :=
  let '(_, j) := select_indices urls in
  match j ≫= (λ j, pair j <$> urls !! j) with
  | None => urls
  | Some (j, public) =>
      if isPrivateIP (address public) then urls
      else imap (λ i u, if decide (i = j) then relayPointStation host port u else u) urls
  end.
