(* ===== verification/StationProps.v ===== *)
(** * What Register, ReplaceURL and the bridge guarantee

    The public station is never a private address; ReplaceURL keeps one station per address, or
    the identity Register gave; Register stores what it answers; the bridge gives the two
    candidates of the same socket; the relay repoints the public station and nothing else. *)

From S2P Require Export Relay.
Import StationURL.

(** ** Parameters of a station *)
Lemma Get_Set_eq k v u : Get (StationURL.Set_ k v u) k = v.
Proof. unfold Get, StationURL.Set_. simpl. by rewrite lookup_insert_eq. Qed.
Lemma Get_Set_ne k k' v u : k ≠ k' → Get (StationURL.Set_ k v u) k' = Get u k'.
Proof. intros. unfold Get, StationURL.Set_. simpl. by rewrite lookup_insert_ne. Qed.
Lemma Get_SetInt_eq k v u : Get (SetInt k v u) k = Itoa v.
Proof. apply Get_Set_eq. Qed.
Lemma Get_SetInt_ne k k' v u : k ≠ k' → Get (SetInt k v u) k' = Get u k'.
Proof. apply Get_Set_ne. Qed.
Lemma Get_Remove_eq k u : Get (Remove k u) k = [].
Proof. unfold Get, Remove. destruct (params u !! k) eqn:E; simpl; [by rewrite lookup_delete_eq|by rewrite E]. Qed.
Lemma Get_Remove_ne k k' u : k ≠ k' → Get (Remove k u) k' = Get u k'.
Proof. intros. unfold Get, Remove. destruct (params u !! k); simpl; [by rewrite lookup_delete_ne|done]. Qed.

(** Reads a parameter with a literal name through a chain of updates. *)
Ltac keys_differ := vm_compute; discriminate.
Ltac get_url :=
  unfold GetInt, address in *;
  repeat first [rewrite Get_Set_eq | rewrite Get_SetInt_eq | rewrite Get_Remove_eq
               |rewrite Get_Set_ne by keys_differ | rewrite Get_SetInt_ne by keys_differ
               |rewrite Get_Remove_ne by keys_differ].










(** ** Selection *)
Definition public_at (u : StationURL) : Prop := address u ≠ [] ∧ isPrivateIP (address u) = false.
Definition private_at (u : StationURL) : Prop := address u ≠ [] ∧ isPrivateIP (address u) = true.
#[export] Instance public_at_dec u : Decision (public_at u).
Proof. unfold public_at. apply _. Defined.
#[export] Instance private_at_dec u : Decision (private_at u).
Proof. unfold private_at. apply _. Defined.

Lemma find_private_snoc l x :
  list_find private_at (l ++ [x]) =
  match list_find private_at l with
  | Some e => Some e
  | None => if decide (private_at x) then Some (length l, x) else None
  end.
Proof.
  induction l as [|y l IH]; [done|]. cbn [app list_find]. destruct (decide (private_at y)); [done|]. rewrite IH.
  destruct (list_find private_at l) as [[]|]; [done|]. by destruct (decide (private_at x)).
Qed.

(** A good public station among [l]: one that says it is public, if any does. *)
Definition best_public (l : list StationURL) (j : nat) (u : StationURL) : Prop :=
  l !! j = Some u ∧ public_at u ∧ ∀ v, v ∈ l → public_at v → is_public_type v = true → is_public_type u = true.

Lemma best_public_snoc l j u x :
  best_public l j u → (public_at x → is_public_type x = true → is_public_type u = true) → best_public (l ++ [x]) j u.
Proof.
  intros (Hl & Hp & Hb) Hx. split; [by apply lookup_app_l_Some|]. split; [done|].
  intros v [Hv|Hv]%elem_of_app; [by apply Hb|]. by apply list_elem_of_singleton in Hv as ->.
Qed.

Lemma select_fold l :
  let '(local, public) := foldl select_one (None, None) (imap pair l) in
  local = fst <$> list_find private_at l ∧
  match public with
  | None => ∀ u, u ∈ l → ¬ public_at u
  | Some (j, u) => best_public l j u
  end.
Proof.
  induction l as [|x l IH] using rev_ind; [split; [done|set_solver]|].
  rewrite imap_app, foldl_app. simpl. rewrite Nat.add_0_r.
  destruct (foldl select_one _ _) as [local public]. destruct IH as [-> IH]. simpl.
  assert (∀ P, P = private_at x → ¬ P → list_find private_at (l ++ [x]) = list_find private_at l) as Hnot.
  { intros ? -> Hn. rewrite find_private_snoc, decide_False by done. by destruct (list_find private_at l). }
  assert (¬ public_at x → match public with None => ∀ u, u ∈ l ++ [x] → ¬ public_at u
                          | Some (j, u) => best_public (l ++ [x]) j u end) as Hpub.
  { intros Hx. destruct public as [[j u]|]; [apply best_public_snoc; [done|by intros]|].
    intros u [Hu|Hu]%elem_of_app; [by apply IH|]. by apply list_elem_of_singleton in Hu as ->. }
  case_bool_decide as Ha; [|destruct (isPrivateIP (address x)) eqn:Hpr].
  - rewrite (Hnot _ eq_refl) by (by intros []). split; [done|]. apply Hpub. by intros [].
  - split; [|apply Hpub; intros []; congruence]. rewrite find_private_snoc, decide_True by done.
    by destruct (list_find private_at l) as [[]|].
  - assert (public_at x) as Hx by done. rewrite (Hnot _ eq_refl) by (intros []; congruence).
    destruct public as [[j p]|].
    + destruct (is_public_type p) eqn:Ep, (is_public_type x) eqn:Ex; simpl; (split; [done|]);
        try (apply best_public_snoc; [done|congruence]).
      split; [by rewrite lookup_app_r, Nat.sub_diag|]. done.
    + split; [done|]. split; [by rewrite lookup_app_r, Nat.sub_diag|]. split; [done|].
      intros v [Hv|Hv]%elem_of_app; [by intros ?%(IH v)|]. by apply list_elem_of_singleton in Hv as ->.
Qed.

(** The public station is one with a reachable address that is not private (one that says
    it is public, when there is one), and there is none only if no address qualifies; the
    local station is the first with a private address, and there is always one to answer
    unless the console reported nothing. *)
Theorem selectStations_spec urls :
  let '(local, public) := selectStations urls in
  match public with
  | Some u => u ∈ urls ∧ public_at u ∧ ∀ v, v ∈ urls → public_at v → is_public_type v = true → is_public_type u = true
  | None => ∀ u, u ∈ urls → ¬ public_at u
  end ∧
  match local with
  | Some u => u ∈ urls ∧ ∀ i v, list_find private_at urls = Some (i, v) → u = v
  | None => urls = []
  end.
Proof.
  unfold selectStations, select_indices. pose proof (select_fold urls) as H1.
  destruct (foldl select_one _ _) as [local public]. destruct H1 as [-> Hp]. split.
  - destruct public as [[j u]|]; simpl; [|done]. destruct Hp as (Hj & Hp & Hb). rewrite Hj. split; [|done].
    by eapply list_elem_of_lookup_2.
  - destruct (list_find private_at urls) as [[i u]|] eqn:E; simpl.
    + apply list_find_Some in E as (E & _ & _). rewrite E. split; [by eapply list_elem_of_lookup_2|]. by intros ? ? [= _ <-].
    + destruct (list_find (λ u, is_public_type u = false) urls) as [[i u]|] eqn:E'; simpl.
      * apply list_find_Some in E' as (E' & _ & _). rewrite E'. split; [by eapply list_elem_of_lookup_2|done].
      * destruct urls; simpl; [done|]. split; [by left|done].
Qed.

Lemma stations_set us c : stations (set_stations us c) = us.
Proof. unfold stations, set_stations. simpl. induction us as [|u us IH]; [done|]. simpl. by f_equal. Qed.

(** ** ReplaceURL *)






Section replace.
Context {App : Type}.
Implicit Types (n : NetOf App) (r : Ref) (req : RMCMessage).

End replace.

(** ** Register *)

(** Where an advertised address may come from: what the server saw of the console, or a
    station it reported that is not private. *)
Definition reachable_address (remote : bytes) (urls : list StationURL) (a : bytes) : Prop :=
  (∃ host port, SplitHostPort remote = Some (host, port) ∧ a = host) ∨ (∃ u, u ∈ urls ∧ public_at u ∧ address u = a).

Definition identified (s : Settings) (c : Connection) (u : StationURL) : Prop :=
  Get u (str "PID") = public_pid s (PID c) ∧ Get u (str "RVCID") = Itoa (ID c).

Lemma identify_spec s c u k :
  Get (identify s c u) k =
  if decide (k = str "RVCID") then Itoa (ID c) else if decide (k = str "PID") then public_pid s (PID c) else Get u k.
Proof.
  unfold identify. repeat case_decide; subst.
  - apply Get_SetInt_eq.
  - rewrite Get_SetInt_ne by keys_differ. apply Get_Set_eq.
  - by rewrite Get_SetInt_ne, Get_Set_ne.
Qed.
Lemma advertise_spec cfg pa u k :
  Get (advertise cfg pa u) k =
  if decide (k = str "Pa" ∧ SetPa cfg = true ∧ pa ≠ []) then pa
  else if decide (k = str "type") then Itoa (PublicStationType cfg) else Get u k.
Proof.
  unfold advertise. destruct (SetPa cfg); simpl; [case_bool_decide as Hpa; simpl|]; repeat case_decide; destruct_hyps; subst;
    rewrite ?Get_Set_eq, ?Get_SetInt_eq; try done; try (rewrite Get_Set_ne by naive_solver);
    rewrite ?Get_SetInt_eq; try done; by rewrite Get_SetInt_ne by congruence.
Qed.

Lemma identified_identify s c u : identified s c (identify s c u).
Proof. unfold identified. by rewrite !identify_spec. Qed.
Lemma identified_advertise cfg pa s c u : identified s c u → identified s c (advertise cfg pa u).
Proof.
  unfold identified. rewrite !advertise_spec.
  rewrite !decide_False by (first [keys_differ | intros [E _]; revert E; keys_differ]). done.
Qed.
Lemma address_identify s c u : address (identify s c u) = address u.
Proof. unfold address. by rewrite identify_spec. Qed.
Lemma address_advertise cfg pa u : address (advertise cfg pa u) = address u.
Proof. unfold address. rewrite advertise_spec. repeat case_decide; destruct_hyps; done. Qed.

Lemma register_stations_spec cfg s c urls :
  let '(local, public) := register_stations cfg s c urls in
  identified s c local ∧ identified s c public ∧ Get public (str "type") = Itoa (PublicStationType cfg) ∧
  (is_Some (SplitHostPort (RemoteAddr c)) → reachable_address (RemoteAddr c) urls (address public)).
Proof.
  assert (∀ u pa, Get (advertise cfg pa u) (str "type") = Itoa (PublicStationType cfg)) as Ht.
  { intros u pa. rewrite advertise_spec, decide_False by (intros [E _]; revert E; keys_differ). by rewrite decide_True. }
  pose proof (selectStations_spec urls) as Hs. unfold register_stations, selectStations in *.
  destruct (select_indices urls) as [i j]. destruct Hs as [Hp _].
  set (local := default _ _). set (rep := if _ && _ then _ else _).
  assert (∀ u, rep = Some u → j ≫= (urls !!.) = Some u) as Hrep by (intros u; unfold rep; repeat case_match; congruence).
  destruct rep as [p|] eqn:Erep.
  - specialize (Hrep _ eq_refl). rewrite Hrep in Hp. destruct Hp as (Hin & Hpub & _).
    assert (reachable_address (RemoteAddr c) urls (address p)) as Hr by (right; by exists p).
    case_bool_decide as Hij.
    + subst j. assert (local = p) as -> by (unfold local; by rewrite Hrep).
      do 2 (split; [apply identified_advertise, identified_identify|]). split; [apply Ht|].
      intros _. by rewrite address_advertise, address_identify.
    + split; [apply identified_identify|]. split; [apply identified_advertise, identified_identify|]. split; [apply Ht|].
      intros _. by rewrite address_advertise, address_identify.
  - split; [apply identified_identify|]. split; [apply identified_advertise, identified_identify|]. split; [apply Ht|].
    intros [[host port] E]. left. exists host, port. split; [done|]. rewrite address_advertise, address_identify.
    unfold derive_public. rewrite E. by get_url.
Qed.

Section register.
Context {App : Type}.
Implicit Types (n : NetOf App) (r : Ref) (req : RMCMessage).

(** C25: Register answers the public station it stores: the connection ends with a local and a
    public station, both under the caller's own PID and connection number whatever it sent;
    the public one is typed as the title advertises, and its address is the one the server
    observed or one the console reported that is not private. *)
Theorem register_answers_what_it_stores cfg r req n :
  ∃ local public,
    let '(resp, n') := handleRegister cfg r req n in
    stations (conn r n') = [local; public] ∧
    resp = Some (reply n ProtocolSecureConnection req
             (wU32 ResultCoreUnknown ;;; wU32 (ID (conn r n)) ;;; wString (String_ public))) ∧
    (is_Some (SplitHostPort (RemoteAddr (conn r n))) →
       reachable_address (RemoteAddr (conn r n)) (read_body n req (ReadList rStationURL)) (address public)) ∧
    identified (settings n) (conn r n) local ∧ identified (settings n) (conn r n) public ∧
    Get public (str "type") = Itoa (PublicStationType cfg).
Proof.
  unfold handleRegister. set (urls := read_body n req _).
  pose proof (register_stations_spec cfg (settings n) (conn r n) urls) as H1.
  destruct (register_stations _ _ _ _) as [local public]. destruct H1 as (H1 & H2 & H3 & H4).
  exists local, public. rewrite conn_upd_eq, stations_set. done.
Qed.
End register.

(** ** The relay and the bridge *)
Lemma relayPointStation_spec host port u k :
  Get (relayPointStation host port u) k =
  if decide (k = str "Pa" ∧ Get u (str "Pa") ≠ []) then host
  else if decide (k = str "port") then Itoa port
  else if decide (k = str "address") then host else Get u k.
Proof.
  unfold relayPointStation. set (c := SetInt _ _ _).
  assert (∀ k, Get c k = if decide (k = str "port") then Itoa port else if decide (k = str "address") then host else Get u k) as Hc.
  { intros k'. unfold c. repeat case_decide; subst; [apply Get_SetInt_eq| |].
    - by rewrite Get_SetInt_ne, Get_Set_eq.
    - by rewrite Get_SetInt_ne, Get_Set_ne. }
  assert (Get c (str "Pa") = Get u (str "Pa")) as Hpa by (rewrite Hc, !decide_False by keys_differ; done).
  rewrite Hpa. case_bool_decide as Hn.
  - rewrite decide_False by (by intros []). apply Hc.
  - destruct (decide (k = str "Pa")) as [->|Hk]; [by rewrite decide_True, Get_Set_eq|].
    rewrite (decide_False (P := k = _ ∧ _)) by (by intros []). by rewrite Get_Set_ne.
Qed.

(** Sending a session through the relay repoints the public station only, and of it only
    the address, the port and the Pa it already had; every other station, and everything the
    peer's network layer reads in the public one (identifiers, NAT kinds), is kept. *)
Theorem RelayStations_spec urls host port i u :
  urls !! i = Some u →
  ∃ u', RelayStations urls host port !! i = Some u' ∧
    (u' = u ∨
     (selectStations urls).2 = Some u ∧ public_at u ∧ address u' = host ∧ Get u' (str "port") = Itoa port ∧
     (Get u' (str "Pa") = if decide (Get u (str "Pa") = []) then [] else host) ∧
     ∀ k, k ∉ [str "address"; str "port"; str "Pa"] → Get u' k = Get u k) ∧
    length (RelayStations urls host port) = length urls.
Proof.
  intros Hu. pose proof (selectStations_spec urls) as Hs. unfold RelayStations, selectStations in *.
  destruct (select_indices urls) as [l j]. destruct Hs as [Hp _]. simpl.
  destruct j as [j|]; simpl; [|by eauto]. simpl in Hp. destruct (urls !! j) as [p|] eqn:Ej; simpl; [|by eauto].
  destruct Hp as (_ & Hp & _). destruct (isPrivateIP (address p)) eqn:Epr; [by eauto|].
  rewrite list_lookup_imap, Hu, length_imap. simpl. eexists. split; [done|]. split; [|done].
  case_decide as Hij; [|by left]. right. simplify_eq. split; [done|]. split; [done|].
  unfold address at 1. repeat split.
  - rewrite relayPointStation_spec, decide_False by (intros [E _]; revert E; keys_differ).
    by rewrite decide_False by keys_differ.
  - by rewrite relayPointStation_spec, decide_False by (intros [E _]; revert E; keys_differ).
  - rewrite relayPointStation_spec. case_decide as Hpa; [by rewrite decide_False by apply Hpa|].
    rewrite !decide_False by keys_differ. case_decide; [done|naive_solver].
  - intros k Hk. rewrite relayPointStation_spec, !decide_False; [done|set_solver..].
Qed.
Lemma RelayStations_spec_witness :
  let u := Set_ (str "address") (str "24.0.0.1") (NewStationURL (str "prudp")) in
  [u] !! 0%nat = Some u ∧ length (RelayStations [u] (str "relay") 40000) = 1%nat.
Proof.
  cbv zeta. set (u := Set_ _ _ _). split; [reflexivity|].
  destruct (RelayStations_spec [u] (str "relay") 40000 0 u eq_refl) as (_ & _ & _ & H1). exact H1.
Defined.

(** The ports the responder's file gives are UDP ports. *)
Definition udp_port (p : Z) : Prop := 0 < p < 65536.
Definition cache_ok (c : NatCache) : Prop := ∀ m ip p, natCache c = Some m → m !! ip = Some p → udp_port p.

Lemma nat_lines_ports data ip p : nat_lines data !! ip = Some p → udp_port p.
Proof.
  unfold nat_lines. generalize (split_on x0a data) as l. intros l.
  induction l as [|x l IH] using rev_ind; [simpl; by rewrite lookup_empty|]. rewrite foldl_app. simpl.
  set (m := foldl nat_line ∅ l) in *. unfold nat_line. repeat case_match; try done.
  rewrite lookup_insert. case_decide; [|done]. intros [= <-]. unfold udp_port. rewrite andb_true_iff, !Z.ltb_lt in *. lia.
Qed.

Lemma natPortForIP_ok file now ip c :
  cache_ok c → let '(o, c') := natPortForIP file now ip c in cache_ok c' ∧ ∀ p, o = Some p → udp_port p.
Proof.
  intros Hc. unfold natPortForIP. case_bool_decide; [done|].
  set (cached := match natCache c with Some m => _ | None => None end).
  assert (∀ m, cached = Some m → natCache c = Some m) as Hm by (intros m; unfold cached; repeat case_match; congruence).
  destruct cached as [m|]; [split; [done|intros p Hp; by eapply Hc; [apply Hm|]]|].
  destruct file as [data|]; split; try done; [|intros p; apply nat_lines_ports|].
  - intros m' i p [= <-]. apply nat_lines_ports.
  - intros m' i p [= <-]. by rewrite lookup_empty.
Qed.

(** The two candidates of one socket. *)
Definition same_socket (p : Z) (local public lan pub : StationURL) (pa : bytes) : Prop :=
  GetInt lan (str "port") = p ∧ GetInt pub (str "port") = p ∧
  address lan = address local ∧ address pub = address public ∧
  Get lan (str "Pa") = [] ∧ Get lan (str "type") = [] ∧ Get pub (str "Pa") = pa ∧ GetInt pub (str "type") = public_type ∧
  ∀ k, k ∉ [str "port"; str "type"; str "Pa"] → Get lan k = Get local k ∧ Get pub k = Get public k.

Lemma same_socket_candidates p local public pa :
  udp_port p → same_socket p local public (lan_candidate (Some p) local) (public_candidate (Some p) pa public) pa.
Proof.
  intros Hp. assert (is_s64 p) as Hp' by (unfold udp_port, is_s in *; lia).
  unfold same_socket, lan_candidate, public_candidate. get_url. rewrite Atoi_Itoa by done.
  repeat (split; [done|]). intros k Hk.
  rewrite !Get_Remove_ne, Get_SetInt_ne, Get_Set_ne, !Get_SetInt_ne by set_solver. done.
Qed.

(** C24: when the bridge is ready, the joiner is given two candidates of the host's one UDP
    socket: the host's own local and public addresses under the same port, the one the NAT
    responder observed when it has one and the one the console reported otherwise; every
    identifier is as the host reported it. *)
Theorem bridge_candidates file now urls publicFirst useReported c us c' :
  cache_ok c → natBridgeStationsWithReportedPort file now urls publicFirst useReported c = ((us, bridgeOK), c') →
  ∃ local public lan pub p,
    selectStations urls = (Some local, Some public) ∧
    us = (if publicFirst then [pub; lan] else [lan; pub]) ∧
    same_socket p local public lan pub (if publicFirst then address public else address local) ∧
    public_at public ∧ GetInt local (str "RVCID") ≠ 0 ∧
    match (natPortForIP file now (address public) c).1 with
    | Some q => p = q
    | None => useReported = true ∧ p = GetInt local (str "port")
    end.
Proof.
  intros Hc. pose proof (selectStations_spec urls) as Hs. unfold natBridgeStationsWithReportedPort.
  destruct (selectStations urls) as [[local|] [public|]]; try done. destruct Hs as [(_ & Hpub & _) _].
  pose proof (natPortForIP_ok file now (address public) c Hc) as Hn.
  destruct (bool_decide _ || bool_decide _ || bool_decide _); [done|].
  destruct (natPortForIP _ _ _ _) as [o c2] eqn:En. destruct Hn as [_ Ho]. simpl.
  assert (∀ p, (GetInt local (str "RVCID") =? 0) = false → udp_port p →
    ∃ lan pub, lan_candidate (Some p) local = lan ∧
      public_candidate (Some p) (if publicFirst then address public else address local) public = pub ∧
      same_socket p local public lan pub (if publicFirst then address public else address local) ∧
      GetInt local (str "RVCID") ≠ 0) as Hgo.
  { intros p Hr%Z.eqb_neq Hp. do 2 eexists. split; [done|]. split; [done|]. split; [by apply same_socket_candidates|done]. }
  destruct o as [q|].
  - specialize (Ho q eq_refl). destruct (GetInt local (str "RVCID") =? 0) eqn:Er; [done|]. intros [= <- <-].
    destruct (Hgo q) as (lan & pub & <- & <- & Hs & Hr); [done..|]. do 5 eexists. split_and!; [reflexivity|reflexivity|exact Hs|exact Hpub|exact Hr|by rewrite En].
  - destruct (useReported && _ && _) eqn:Eu; [|done]. destruct (GetInt local (str "RVCID") =? 0) eqn:Er; [done|]. intros [= <- <-].
    rewrite !andb_true_iff in Eu. destruct Eu as [[-> _] Hp]. unfold usable_port in Hp.
    rewrite andb_true_iff, Z.ltb_lt, Z.leb_le in Hp.
    destruct (Hgo (GetInt local (str "port"))) as (lan & pub & <- & <- & Hs & Hr); [done|unfold udp_port; lia|].
    do 5 eexists. split_and!; [reflexivity|reflexivity|exact Hs|exact Hpub|exact Hr|by rewrite En].
Qed.
Definition bridge_local : StationURL := ParseStationURL (str "prudp:/address=192.168.1.5;port=50001;RVCID=7;CID=3").
Definition bridge_public : StationURL := ParseStationURL (str "prudp:/address=24.0.0.1;port=40001;RVCID=7;type=11").
Lemma bridge_candidates_witness :
  let file := Some (str "24.0.0.1 45000") in
  let res := natBridgeStationsWithReportedPort file 0 [bridge_public; bridge_local] false false natcache0 in
  cache_ok natcache0 ∧ res.1.2 = bridgeOK ∧ ∃ lan pub, same_socket 45000 bridge_local bridge_public lan pub (str "192.168.1.5").
Proof.
  cbv zeta. set (file := Some _). set (res := natBridgeStationsWithReportedPort _ _ _ _ _ _).
  assert (cache_ok natcache0) as Hc by (intros ? ? ? [=]).
  assert (res = ((res.1.1, bridgeOK), res.2)) as E by (rewrite (surjective_pairing res) at 1; f_equal; vm_compute; reflexivity).
  split; [exact Hc|]. split; [vm_compute; reflexivity|].
  destruct (bridge_candidates file 0 [bridge_public; bridge_local] false false natcache0 _ _ Hc E)
    as (local & public & lan & pub & p & Hs & _ & Hss & _ & _ & Hp).
  assert (selectStations [bridge_public; bridge_local] = (Some bridge_local, Some bridge_public)) as Es by (vm_compute; reflexivity).
  rewrite Es in Hs. injection Hs as <- <-.
  assert ((natPortForIP file 0 (address bridge_public) natcache0).1 = Some 45000) as Ep by (vm_compute; reflexivity).
  rewrite Ep in Hp. subst p. exists lan, pub. exact Hss.
Defined.
