(* ===== verification/RelayProps.v ===== *)
(** * What the relay guarantees

    The need is read off the last two verdicts; two players cross whatever strangers send to
    their port; nothing is ever sent back to where it came from. *)

From S2P Require Export Relay.

(** ** The need and the history of the verdicts *)
Section besoin.
Implicit Types h : list (Z * (Z * bool)).

(** A verdict: when, by whom, and whether the hole punching worked. *)
Definition verdicts_step (st : BesoinState) (v : Z * (Z * bool)) : BesoinState := NotePercage v.1 v.2.1 v.2.2 st.
Definition verdicts_run h : BesoinState := foldl verdicts_step besoins0 h.

(** The specification: the last two verdicts of the player are failures, close enough. *)
Definition a_besoin (now p : Z) h : bool :=
  match reverse (filter (λ v, v.2.1 = p) h) with
  | (t2, (_, false)) :: (t1, (_, false)) :: _ => (t2 - t1 <=? besoinFenetre) && (now - t2 <=? besoinFenetre)
  | _ => false
  end.

(** What the counter of a player stands for, at a time no verdict is later than. *)
Definition besoin_rel (now p : Z) h (o : option besoinEtat) : Prop :=
  match o, reverse (filter (λ v, v.2.1 = p) h) with
  | None, [] => True
  | None, (t, _) :: _ => besoinFenetre < now - t
  | Some e, (t, (_, true)) :: _ => echecs e = 0 ∧ dernier e = t
  | Some e, [(t, (_, false))] => echecs e = 1 ∧ dernier e = t
  | Some e, (t, (_, false)) :: (t', (_, ok)) :: _ =>
      dernier e = t ∧ 1 ≤ echecs e ∧ (2 ≤ echecs e ↔ ok = false ∧ t - t' ≤ besoinFenetre)
  | Some e, [] => False
  end.

Lemma besoin_rel_later now now' p h o : now ≤ now' → besoin_rel now p h o → besoin_rel now' p h o.
Proof. unfold besoin_rel. intros. repeat case_match; auto; lia. Qed.

Lemma besoin_rel_reads now p h st :
  besoin_rel now p h (besoins st !! p) → BesoinDeRelais now p st = a_besoin now p h.
Proof.
  unfold besoin_rel, BesoinDeRelais, a_besoin, en_besoin, besoinSeuil.
  destruct (besoins st !! p) as [e|], (reverse _) as [|[t [q []]] [|[t' [q' []]] ?]]; intros; destruct_hyps; auto;
    repeat match goal with |- context [?x <=? ?y] => destruct (Z.leb_spec x y) end; simpl; try done; try lia;
    exfalso; naive_solver lia.
Qed.

Lemma besoin_menage_rel now p h st :
  besoin_rel now p h (besoins st !! p) →
  besoin_rel now p h (besoins (besoin_menage now st) !! p).
Proof.
  unfold besoin_menage. case_match; [|done]. simpl. intros H1.
  destruct (besoins st !! p) as [e|] eqn:He.
  - destruct (decide (now - dernier e ≤ besoinFenetre ∨ reussites e ≤ 0)).
    + erewrite map_lookup_filter_Some_2; [done|done|done].
    + rewrite map_lookup_filter_None_2 by (right; intros x ?; simplify_eq; done).
      revert H1. unfold besoin_rel. repeat case_match; naive_solver lia.
  - rewrite map_lookup_filter_None_2; [done|by left].
Qed.

Lemma NotePercage_rel now p q ok h st :
  q ≠ 0 → besoin_rel now p h (besoins st !! p) →
  besoin_rel now p (h ++ [(now, (q, ok))]) (besoins (NotePercage now q ok st) !! p).
Proof.
  intros Hq Hr. apply besoin_menage_rel in Hr. unfold NotePercage. rewrite (proj2 (Z.eqb_neq _ _)) by done. simpl.
  unfold besoin_rel in *. rewrite filter_app, filter_cons, filter_nil. simpl.
  destruct (decide (q = p)) as [->|]; [|by rewrite app_nil_r, lookup_insert_ne by congruence].
  rewrite lookup_insert_eq, reverse_app, reverse_singleton. simpl.
  set (o := besoins (besoin_menage now st) !! p) in *.
  destruct o as [e|], (reverse (filter _ h)) as [|[t [? []]] [|[t' [? []]] ?]]; destruct ok; simpl in *; destruct_hyps;
    try done; repeat match goal with |- context [?x <? ?y] => destruct (Z.ltb_spec x y) end; simpl; try done;
    unfold besoinFenetre, minute, second in *; repeat split; try done; try lia; naive_solver lia.
Qed.

Lemma verdicts_run_snoc h v : verdicts_run (h ++ [v]) = verdicts_step (verdicts_run h) v.
Proof. unfold verdicts_run. by rewrite foldl_app. Qed.

Lemma besoin_rel_run now p h :
  p ≠ 0 → StronglySorted Z.le (h.*1 ++ [now]) → besoin_rel now p h (besoins (verdicts_run h) !! p).
Proof.
  intros Hp. revert now. induction h as [|[t [q ok]] h IH] using rev_ind; intros now Hs; [done|].
  rewrite fmap_app in Hs. simpl in Hs.
  assert (t ≤ now ∧ StronglySorted Z.le (h.*1 ++ [t])) as [Hle Hs'].
  { rewrite StronglySorted_app in Hs. destruct Hs as (Hc & Hs & _). split; [|done].
    apply Hc; [set_solver|set_solver]. }
  rewrite verdicts_run_snoc. unfold verdicts_step. simpl.
  apply (besoin_rel_later t); [done|].
  destruct (decide (q = 0)) as [->|]; [|by apply NotePercage_rel, IH].
  unfold NotePercage. simpl. pose proof (IH t Hs') as Hr. unfold besoin_rel in *.
  rewrite filter_app, filter_cons_False by (simpl; congruence). by rewrite app_nil_r.
Qed.

(** C18: the relay's need, kept in counters cleaned every minute, is the declarative one:
    a player needs the relay exactly when his last two verdicts are failures, the second at
    most fifteen minutes after the first and at most fifteen minutes old; the cleaning of the
    table is not observable. *)
Theorem besoin_refines now p h :
  p ≠ 0 → StronglySorted Z.le (h.*1 ++ [now]) →
  BesoinDeRelais now p (verdicts_run h) = a_besoin now p h.
Proof. intros. by apply besoin_rel_reads, besoin_rel_run. Qed.
Lemma besoin_refines_witness :
  BesoinDeRelais (3 * minute) 7 (verdicts_run [(0, (7, true)); (minute, (7, false)); (2 * minute, (9, true)); (3 * minute, (7, false))]) =
  true.
Proof.
  rewrite (besoin_refines (3 * minute) 7); [reflexivity|lia|].
  simpl. repeat constructor; unfold minute, second; lia.
Defined.
End besoin.

(** [CandidatsRelais] is documented to return the players who never got through, but a
    success is forgotten by the cleaning after fifteen minutes of silence: a player who did
    get through, came back later and failed ten times is returned too. *)
Theorem candidates_forget_successes `{MO : MapOrder} `{SS : SliceSort} :
  let h := (0, (7, true)) :: ((λ i, (Z.of_nat (20 + i) * minute, (7, false))) <$> seq 0 10) in
  CandidatsRelais (verdicts_run h) = [7].
Proof.
  cbv zeta. set (st := verdicts_run _).
  assert (besoins st = {[7 := mkBesoin 10 (29 * minute) 10 0]}) as E by (vm_compute; reflexivity).
  clearbody st. unfold CandidatsRelais. rewrite E. clear E.
  set (l := filter _ _).
  assert (l ≡ₚ [(7, mkBesoin 10 (29 * minute) 10 0)]) as Hl.
  { apply NoDup_Permutation; [apply NoDup_filter, NoDup_range|apply NoDup_singleton|].
    intros [k e]. unfold l. rewrite list_elem_of_filter, elem_of_range, lookup_singleton_Some, list_elem_of_singleton.
    simpl. split; [by intros [_ [-> ->]]|]. intros [= -> ->]. split; [|by split]. split; [unfold jamaisConnecteSeuil; simpl; lia|reflexivity]. }
  symmetry in Hl. apply Permutation_length_1_inv in Hl. rewrite Hl. simpl.
  pose proof (length_sort_slice Z.ltb [7]) as H1. pose proof (elem_of_sort_slice Z.ltb [7]) as H2.
  destruct (sort_slice Z.ltb [7]) as [|x [|]]; try discriminate H1. f_equal.
  apply (list_elem_of_singleton x 7), (H2 x), list_elem_of_singleton. done.
Qed.

(** ** Crossing *)
Lemma bytes_eqb_eq a b : bytes_eqb a b = true ↔ a = b.
Proof. unfold bytes_eqb. by rewrite bool_decide_eq_true. Qed.

Lemma memeReseau_sym a b : memeReseau a b = memeReseau b a.
Proof.
  unfold memeReseau. repeat case_match; simplify_eq; try done. apply bool_decide_ext. done.
Qed.
Lemma memeReseau_trans a b c : memeReseau a b = true → memeReseau b c = true → memeReseau a c = true.
Proof.
  unfold memeReseau. repeat case_match; simplify_eq; try done. rewrite !bytes_eqb_eq. congruence.
Qed.

(** Two addresses of different networks are told apart. *)
Definition distincts (ipA ipB : bytes) : Prop := memeReseau ipA ipB = false ∧ ipA ≠ ipB.

Lemma admis_one_side ipA ipB s : distincts ipA ipB → admis ipA s = true → admis ipB s = false.
Proof.
  intros [Hm Hn]. unfold admis. rewrite !orb_true_iff, !orb_false_iff, !bytes_eqb_eq. intros [->|Ha].
  - split; [|by rewrite memeReseau_sym]. rewrite <- not_true_iff_false, bytes_eqb_eq. congruence.
  - split; rewrite <- not_true_iff_false; [rewrite bytes_eqb_eq|]; intros Hb.
    + subst. congruence.
    + rewrite memeReseau_sym in Hb. pose proof (memeReseau_trans _ _ _ Ha Hb). congruence.
Qed.

Section crossing.
Context (ipA ipB : bytes) (D : distincts ipA ipB).
Implicit Types h : list (Z * UDPAddr).

Definition from (ip : bytes) (v : Z * UDPAddr) : Prop := admis ip (IPString (u_IP v.2)) = true.
#[global] Instance from_dec ip v : Decision (from ip v).
Proof. unfold from. apply _. Defined.

(** The last endpoint a datagram of this network came from. *)
Definition last_from (ip : bytes) h : option UDPAddr := snd <$> last (filter (from ip) h).

(** A pair just opened and told the two addresses, then the datagrams in their order. *)
Definition pair_of (now : Z) : pairSocket := expect now 1 2 ipA ipB (new_pair 1 2).
Definition pair_run (now : Z) h : pairSocket := foldl (λ ps v, (boucle_step v.1 v.2 ps).2) (pair_of now) h.

Definition target (src : UDPAddr) h : option UDPAddr :=
  if admis ipA (IPString (u_IP src)) then last_from ipB h
  else if admis ipB (IPString (u_IP src)) then last_from ipA h else None.

(** Neither network's. *)
Definition stranger (v : Z * UDPAddr) : Prop := ¬ from ipA v ∧ ¬ from ipB v.
#[global] Instance stranger_dec v : Decision (stranger v).
Proof. unfold stranger. apply _. Defined.

Definition pair_rel h (ps : pairSocket) : Prop :=
  attendus ps = (ipA, ipB) ∧ vus ps = (last_from ipA h, last_from ipB h) ∧
  rejets ps = u64 (zlen (filter stranger h)).

Lemma strangers_snoc h v :
  u64 (zlen (filter stranger (h ++ [v]))) =
  (if admis ipA (IPString (u_IP v.2)) then id else if admis ipB (IPString (u_IP v.2)) then id else λ n, u64 (n + 1))
    (u64 (zlen (filter stranger h))).
Proof.
  rewrite filter_app, filter_cons, filter_nil.
  destruct (decide (stranger v)) as [[HA HB]|HS]; unfold from in *.
  - apply not_true_iff_false in HA, HB. rewrite HA, HB. unfold zlen. rewrite length_app. simpl.
    rewrite Nat2Z.inj_add. unfold wrap. by rewrite Z.add_mod_idemp_l by done.
  - rewrite app_nil_r. unfold stranger, from in HS.
    destruct (admis ipA _), (admis ipB _); try done. exfalso. naive_solver.
Qed.

Lemma last_from_snoc ip h v :
  last_from ip (h ++ [v]) = if admis ip (IPString (u_IP v.2)) then Some v.2 else last_from ip h.
Proof.
  unfold last_from. rewrite filter_app, filter_cons, filter_nil. unfold from.
  destruct (decide _) as [->|Hn%not_true_iff_false]; [by rewrite last_snoc|by rewrite app_nil_r, Hn].
Qed.

Lemma last_from_admis ip h x : last_from ip h = Some x → admis ip (IPString (u_IP x)) = true.
Proof.
  unfold last_from. intros (v & Hv & ->)%fmap_Some. apply last_Some_elem_of in Hv.
  by apply list_elem_of_filter in Hv as [? _].
Qed.

Lemma apparier_rel now src h ps :
  pair_rel h ps →
  (apparier now src ps).1 = target src h ∧ pair_rel (h ++ [(now, src)]) (apparier now src ps).2.
Proof using D.
  intros (Ha & Hv & Hr). unfold pair_rel, target. rewrite !last_from_snoc, strangers_snoc, <- Hr. simpl.
  assert (admis ipB (IPString (u_IP src)) = true → admis ipA (IPString (u_IP src)) = false) as HBA.
  { intros H1. destruct (admis ipA _) eqn:E; [|done]. apply (admis_one_side ipA ipB) in E; congruence. }
  assert (admis ipA (IPString (u_IP src)) = true → admis ipB (IPString (u_IP src)) = false) as HAB
    by apply (admis_one_side ipA ipB), D.
  unfold apparier, occupe, libre, admis_en, side, prendre, set_side. cbn. rewrite Ha, Hv. cbn.
  destruct D as [Hm Hn]. rewrite Hm.
  replace (bytes_eqb ipA ipB) with false by (symmetry; apply not_true_iff_false; by rewrite bytes_eqb_eq).
  pose proof (last_from_admis ipA h) as LA. pose proof (last_from_admis ipB h) as LB.
  set (la := last_from ipA h) in *. set (lb := last_from ipB h) in *. clearbody la lb.
  destruct (admis ipA _) eqn:EA, (admis ipB _) eqn:EB; cbn; repeat case_bool_decide; cbn; try congruence;
    repeat split;
    first [congruence | discriminate (HAB eq_refl) | discriminate (HBA eq_refl)
          | match goal with
            | H : la = Some src |- _ => pose proof (LA _ H); congruence
            | H : lb = Some src |- _ => pose proof (LB _ H); congruence
            end].
Qed.

Lemma boucle_rel now src h ps :
  pair_rel h ps →
  (boucle_step now src ps).1 = target src h ∧ pair_rel (h ++ [(now, src)]) (boucle_step now src ps).2.
Proof using D.
  intros H1. unfold boucle_step. cbv zeta. set (ps1 := set_trafic _ _ _ ps).
  assert (pair_rel h ps1) as H2 by exact H1.
  destruct (apparier_rel now src h ps1 H2) as [Ht Hr]. destruct (apparier now src ps1) as [[d|] ps2]; [|done].
  simpl in *. rewrite <- Ht. destruct (relayesVers ps2). done.
Qed.

Lemma pair_run_rel now h : pair_rel h (pair_run now h).
Proof using D.
  induction h as [|[t src] h IH] using rev_ind; [done|].
  unfold pair_run. rewrite foldl_app. by apply boucle_rel.
Qed.

(** C12: on the port of a pair of players whose addresses differ and are not of one /24, whatever
    arrives on it, each place holds the last endpoint its player sent from (a remapped port is
    followed); a player's datagram goes to the other player's last endpoint, and a stranger's
    is dropped, counted and moves nobody.  Two players of one network are told apart by their
    ports, which are then not followed; [never_reflected] is about any pair. *)
Theorem players_cross now h t src :
  let ps := pair_run now h in
  vus ps = (last_from ipA h, last_from ipB h) ∧
  rejets ps = u64 (zlen (filter stranger h)) ∧
  (boucle_step t src ps).1 =
    (if admis ipA (IPString (u_IP src)) then last_from ipB h
     else if admis ipB (IPString (u_IP src)) then last_from ipA h else None).
Proof using D.
  destruct (pair_run_rel now h) as (Ha & Hv & Hr). split; [done|]. split; [done|].
  by apply boucle_rel.
Qed.
End crossing.
Lemma players_cross_witness :
  let ip a := [byte_of_Z 24; byte_of_Z 0; byte_of_Z 0; byte_of_Z a] in
  distincts (str "24.0.0.1") (str "25.0.0.1") ∧
  (boucle_step 9 (mkUDP (ip 1) 5000)
     (pair_run (str "24.0.0.1") (str "25.0.0.1") 0 [(1, mkUDP [x19; x00; x00; x01] 4000); (2, mkUDP [x63; x00; x00; x01] 1)])).1 =
    Some (mkUDP [x19; x00; x00; x01] 4000).
Proof.
  cbv zeta. assert (distincts (str "24.0.0.1") (str "25.0.0.1")) as D by (split; vm_compute; [reflexivity|discriminate]).
  split; [exact D|].
  destruct (players_cross (str "24.0.0.1") (str "25.0.0.1") D 0
              [(1, mkUDP [x19; x00; x00; x01] 4000); (2, mkUDP [x63; x00; x00; x01] 1)] 9
              (mkUDP [x18; x00; x00; x01] 5000)) as (_ & _ & H3).
  etransitivity; [exact H3|]. vm_compute. reflexivity.
Defined.

(** ** Any pair, even of one network *)

(** What the life of a port does to its pair: datagrams, and the addresses given again. *)
Inductive pair_step : pairSocket → pairSocket → Prop :=
  | pair_datagram now src ps : pair_step ps (boucle_step now src ps).2
  | pair_expect now a b ipA ipB ps : pair_step ps (expect now a b ipA ipB ps).

Definition places_distinct (ps : pairSocket) : Prop := ∀ x, ¬ (side false (vus ps) = Some x ∧ side true (vus ps) = Some x).

Lemma apparier_places now src ps :
  places_distinct ps →
  places_distinct (apparier now src ps).2 ∧
  (∀ d, (apparier now src ps).1 = Some d →
     d ≠ src ∧ (side false (vus ps) = Some d ∨ side true (vus ps) = Some d)).
Proof.
  unfold places_distinct, apparier, occupe, libre, prendre, side, set_side. cbn.
  destruct (vus ps) as [x y] eqn:E. cbn. intros H1.
  destruct (bool_decide_reflect (x = Some src)) as [->|Hx]; [|destruct (bool_decide_reflect (y = Some src)) as [->|Hy]].
  - cbn. rewrite E. split; [done|]. intros d ->. split; [|by right]. intros ->. by apply (H1 src).
  - cbn. rewrite E. split; [done|]. intros d ->. split; [|by left]. intros ->. by apply (H1 src).
  - repeat (match goal with |- context [if ?b then _ else _] => destruct b end); cbn; rewrite ?E; cbn;
      (split; [intros d [? ?]; simplify_eq; by apply (H1 d)|]);
      (intros d ?; simplify_eq; (split; [by intros ->|auto])).
Qed.

Lemma boucle_places now src ps :
  vus (boucle_step now src ps).2 = vus (apparier now src (set_trafic (u64 (recus ps + 1)) (relayes ps) (relayesVers ps) ps)).2 ∧
  (boucle_step now src ps).1 = (apparier now src (set_trafic (u64 (recus ps + 1)) (relayes ps) (relayesVers ps) ps)).1.
Proof. unfold boucle_step. cbv zeta. destruct (apparier _ _ _) as [[d|] ps2]; [|done]. by destruct (relayesVers ps2). Qed.

Lemma places_reachable lo hi ps : rtc pair_step (new_pair lo hi) ps → places_distinct ps.
Proof.
  intros H1. remember (new_pair lo hi) as ps0 eqn:E.
  assert (places_distinct ps0) as H0 by (subst; by intros x [? ?]). clear E.
  induction H1 as [|x y z [now src ps1|now a b iA iB ps1] _ IH]; [done|apply IH..]; [|done].
  destruct (boucle_places now src ps1) as [E _]. unfold places_distinct. rewrite E. by apply apparier_places.
Qed.

(** On any port, whatever datagrams arrive and however often its addresses are given
    again, the two places never hold the same endpoint; so a datagram is never sent back to
    where it came from, and is only ever sent to an endpoint that has taken a place. *)
Theorem never_reflected lo hi ps now src d :
  rtc pair_step (new_pair lo hi) ps → (boucle_step now src ps).1 = Some d →
  d ≠ src ∧ (side false (vus ps) = Some d ∨ side true (vus ps) = Some d) ∧ side false (vus ps) ≠ side true (vus ps).
Proof.
  intros H1%places_reachable H2. rewrite (proj2 (boucle_places now src ps)) in H2.
  apply apparier_places in H2 as [? Hd]; [|done]. simpl in Hd. split; [done|]. split; [done|].
  intros E. apply (H1 d). simpl in *. destruct Hd; split; congruence.
Qed.
Lemma never_reflected_witness :
  let a := mkUDP [x18; x00; x00; x01] 1 in
  let b := mkUDP [x18; x00; x00; x02] 2 in
  let ip := str "24.0.0.1" in
  let ps := (boucle_step 3 b (boucle_step 2 a (expect 1 1 2 ip ip (new_pair 1 2))).2).2 in
  rtc pair_step (new_pair 1 2) ps ∧ (boucle_step 4 a ps).1 = Some b ∧ b ≠ a.
Proof.
  cbv zeta. set (a := mkUDP _ 1). set (b := mkUDP _ 2). set (ip := str "24.0.0.1"). set (ps := (boucle_step 3 b _).2).
  assert (rtc pair_step (new_pair 1 2) ps) as Hr.
  { eapply rtc_l; [exact (pair_expect 1 1 2 ip ip _)|].
    eapply rtc_l; [exact (pair_datagram 2 a _)|]. exact (rtc_once _ _ (pair_datagram 3 b _)). }
  assert ((boucle_step 4 a ps).1 = Some b) as Hd by (vm_compute; reflexivity).
  split; [exact Hr|]. split; [exact Hd|]. exact (proj1 (never_reflected 1 2 ps 4 a b Hr Hd)).
Defined.

(** When both expected addresses are of one network, the players seated are not displaced. *)
Lemma seated_stay now src x y ps :
  ¬ distincts (attendus ps).1 (attendus ps).2 → vus ps = (Some x, Some y) → vus (boucle_step now src ps).2 = (Some x, Some y).
Proof.
  intros Hd Hv. rewrite (proj1 (boucle_places now src ps)).
  unfold apparier, occupe, libre, side. cbn. rewrite Hv. cbn.
  assert (negb (memeReseau (attendus ps).1 (attendus ps).2) && negb (bytes_eqb (attendus ps).1 (attendus ps).2) = false) as ->.
  { apply not_true_iff_false. rewrite andb_true_iff, !negb_true_iff. intros [Hm Hn]. apply Hd. split; [done|].
    intros E. apply bytes_eqb_eq in E. congruence. }
  rewrite !andb_false_r. cbn. by repeat case_bool_decide.
Qed.
