(* ===== verification/RelayRegistry.v ===== *)
(** * The ports of the pairs

    The registry of the sockets opened for the pairs, in every state the server reaches:
    no two pairs share a port, nobody is put off his port, pairs are relayed only when they
    may be and need it, and a silent pair loses its port. *)

From S2P Require Export RelayProps.

Section registry.
Context `{MO : MapOrder}.
Implicit Types (st : RelayState) (pr : PairState).

Definition with_pairs pr st : RelayState := mkRelay (r_besoins st) (r_vus st) (r_vol st) pr.

(** Everything that touches the relay: a verdict, the list of the players it serves, its
    configuration, a pair asking for it, a datagram on one of its ports, and a turn of the
    reaper, which runs while [pairReaping] says so. *)
Inductive relay_step st : RelayState → Prop :=
  | step_verdict now p ok : relay_step st (mkRelay (NotePercage now p ok (r_besoins st)) (r_vus st) (r_vol st) (r_pairs st))
  | step_players pids forces ouvert :
      relay_step st (mkRelay (r_besoins st) (r_vus st) (SetRelayVolontaires pids forces ouvert) (r_pairs st))
  | step_config host base span : relay_step st (with_pairs (SetPairRelay host base span (r_pairs st)) st)
  | step_pair listen now a b ipA ipB : relay_step st (PairRelayFor listen now a b ipA ipB st).2
  | step_datagram port now src :
      relay_step st (with_pairs (set_socks (alter (λ ps, (boucle_step now src ps).2) port (pairSocks (r_pairs st)))
                                   (pairPorts (r_pairs st)) (pairReaping (r_pairs st)) (pairTotal (r_pairs st)) (r_pairs st)) st)
  | step_reap now : pairReaping (r_pairs st) = true → relay_step st (with_pairs (reapPairSockets now (r_pairs st)) st).

Definition owner (ps : pairSocket) : Z * Z := (ps_lo ps, ps_hi ps).

(** The registry: the ports of the pairs are exactly the ports of their sockets, each socket
    serves an ordered pair and seats two different endpoints, and the reaper runs while there
    are sockets. *)
Record registry_ok pr : Prop := {
  ports_of_pairs c port : pairPorts pr !! c = Some port ↔ ∃ ps, pairSocks pr !! port = Some ps ∧ owner ps = c;
  sockets_ok port ps : pairSocks pr !! port = Some ps → ps_lo ps ≤ ps_hi ps ∧ places_distinct ps;
  reaper_runs : pairSocks pr ≠ ∅ → pairReaping pr = true
}.

Lemma port_exclusive pr p1 p2 ps1 ps2 :
  registry_ok pr → pairSocks pr !! p1 = Some ps1 → pairSocks pr !! p2 = Some ps2 → owner ps1 = owner ps2 → p1 = p2.
Proof.
  intros I H1 H2 E. assert (pairPorts pr !! owner ps1 = Some p1) as E1 by (apply (ports_of_pairs _ I); eauto).
  assert (pairPorts pr !! owner ps1 = Some p2) as E2 by (apply (ports_of_pairs _ I); eauto). congruence.
Qed.

Lemma registry_empty host base span r t : registry_ok (mkPairs host base span ∅ ∅ r t).
Proof. split; simpl; [set_solver|set_solver|done]. Qed.

(** A socket changed without its pair. *)
Lemma registry_alter f port pr :
  (∀ ps, places_distinct ps → owner (f ps) = owner ps ∧ places_distinct (f ps)) → registry_ok pr →
  registry_ok (set_socks (alter f port (pairSocks pr)) (pairPorts pr) (pairReaping pr) (pairTotal pr) pr).
Proof.
  intros Hf I. split; simpl.
  - intros c q. rewrite (ports_of_pairs _ I). destruct (decide (port = q)) as [<-|]; [|by rewrite lookup_alter_ne].
    rewrite lookup_alter_eq. destruct (pairSocks pr !! port) as [ps|] eqn:E; simpl; [|by split; intros (? & ? & _)].
    destruct (Hf ps) as [Ho _]; [by apply (sockets_ok _ I _ _ E)|]. split; intros (? & [= <-] & <-); eauto.
  - intros q ps'. destruct (decide (port = q)) as [<-|]; [|rewrite lookup_alter_ne by done; apply (sockets_ok _ I)].
    rewrite lookup_alter_eq. intros (ps & E & ->)%fmap_Some. apply (sockets_ok _ I) in E as [Hle Hd].
    destruct (Hf ps Hd) as [[= -> ->] ?]. done.
  - intros Hne. apply (reaper_runs _ I). intros E. apply Hne. rewrite E. apply alter_empty.
Qed.

Lemma boucle_owner now src ps : owner (boucle_step now src ps).2 = owner ps.
Proof.
  unfold boucle_step, apparier, prendre. cbn. repeat (case_match; simplify_eq/=); done.
Qed.
Lemma boucle_keeps now src ps :
  places_distinct ps → owner (boucle_step now src ps).2 = owner ps ∧ places_distinct (boucle_step now src ps).2.
Proof.
  intros H1. split; [apply boucle_owner|]. unfold places_distinct. rewrite (proj1 (boucle_places now src ps)).
  by apply apparier_places.
Qed.

(** A socket closed with its pair. *)
Lemma registry_delete port ps pr t :
  pairSocks pr !! port = Some ps → registry_ok pr →
  registry_ok (set_socks (delete port (pairSocks pr)) (delete (owner ps) (pairPorts pr)) (pairReaping pr) t pr).
Proof.
  intros E I. split; simpl.
  - intros c q. rewrite lookup_delete_Some, (ports_of_pairs _ I). setoid_rewrite lookup_delete_Some. split.
    + intros (Hc & ps' & E' & <-). exists ps'. split; [|done]. split; [|done]. intros <-. congruence.
    + intros (ps' & [Hq E'] & <-). split; [|eauto]. intros Hc. apply Hq. by apply (port_exclusive pr _ _ ps ps').
  - intros q ps' [_ H1]%lookup_delete_Some. by apply (sockets_ok _ I) in H1.
  - intros _. apply (reaper_runs _ I). intros H1. rewrite H1 in E. done.
Qed.

Lemma registry_reap now pr : registry_ok pr → registry_ok (reapPairSockets now pr).
Proof.
  intros I. unfold reapPairSockets.
  assert (∀ l pr, NoDup l.*1 → (∀ e, e ∈ l → pairSocks pr !! e.1 = Some e.2) → registry_ok pr →
    registry_ok (foldl (reap_pair now) pr l)) as Hl.
  { clear. induction l as [|[port ps] l IH]; intros pr Hnd Hin I; [done|]. simpl in *.
    apply NoDup_cons in Hnd as [Hni Hnd]. assert (pairSocks pr !! port = Some ps) as E by (apply (Hin (port, ps)); by left).
    apply IH; [done| |]; unfold reap_pair; simpl; case_match; simpl; try done.
    - intros [q ps'] He. simpl. rewrite lookup_delete_ne; [apply (Hin (q, ps')); by right|].
      intros <-. apply Hni. by apply (list_elem_of_fmap_2 fst l (port, ps')).
    - intros e He. apply Hin. by right.
    - by apply registry_delete. }
  assert (registry_ok (foldl (reap_pair now) pr (range (pairSocks pr)))) as [P S R].
  { apply Hl; [apply NoDup_fst_range|by intros [] ?%elem_of_range|done]. }
  case_bool_decide; split; simpl; done.
Qed.

(** ** Asking for a relay *)
Lemma clePaire_ordered a b : (clePaire a b).1 ≤ (clePaire a b).2.
Proof. unfold clePaire. destruct (Z.ltb_spec b a); simpl; lia. Qed.

(** The port [open_pair] gives is the pair's own, and every other port stays as it was. *)
Definition given pr pr' (c : Z * Z) (port : Z) : Prop :=
  (∃ ps, pairSocks pr' !! port = Some ps ∧ owner ps = c ∧
     (pairSocks pr !! port = Some ps ∨ pairSocks pr !! port = None ∧ ps = new_pair c.1 c.2)) ∧
  (∀ q, q ≠ port → pairSocks pr' !! q = pairSocks pr !! q) ∧ pairReaping pr' = true.

Lemma registry_open lo hi port pr t :
  registry_ok pr → lo ≤ hi → pairPorts pr !! (lo, hi) = None → pairSocks pr !! port = None →
  registry_ok (set_socks (<[port := new_pair lo hi]> (pairSocks pr)) (<[(lo, hi) := port]> (pairPorts pr)) true t pr).
Proof.
  intros I Hle Hp Hs. split; simpl; [| |done].
  - intros c q. destruct (decide ((lo, hi) = c)) as [<-|Hc].
    + rewrite lookup_insert_eq. split; [intros [= <-]; exists (new_pair lo hi); by rewrite lookup_insert_eq|].
      intros (ps & E & Ho). destruct (decide (port = q)) as [<-|]; [done|]. rewrite lookup_insert_ne in E by done.
      assert (pairPorts pr !! (lo, hi) = Some q) by (apply (ports_of_pairs _ I); eauto). congruence.
    + rewrite lookup_insert_ne, (ports_of_pairs _ I) by done. destruct (decide (port = q)) as [<-|].
      * rewrite lookup_insert_eq, Hs. by split; intros (? & [= <-] & <-).
      * by rewrite lookup_insert_ne.
  - intros q ps. destruct (decide (port = q)) as [<-|]; [|rewrite lookup_insert_ne by done; apply (sockets_ok _ I)].
    rewrite lookup_insert_eq. intros [= <-]. split; [done|]. by intros x [? ?].
Qed.

Lemma open_pair_spec listen lo hi s pr :
  registry_ok pr → lo ≤ hi →
  match open_pair listen lo hi s pr with
  | (None, pr') => pr' = pr
  | (Some port, pr') => registry_ok pr' ∧ given pr pr' (lo, hi) port
  end.
Proof.
  intros I Hle. unfold open_pair.
  assert (∀ ps port, pairSocks pr !! port = Some ps → owner ps = (lo, hi) →
    registry_ok (set_socks (pairSocks pr) (pairPorts pr) true (pairTotal pr) pr) ∧
    given pr (set_socks (pairSocks pr) (pairPorts pr) true (pairTotal pr) pr) (lo, hi) port) as Hsame.
  { intros ps port E Ho. split; [by destruct I as [P S R]|]. split; [exists ps; simpl; eauto|done]. }
  destruct (pairPorts pr !! (lo, hi)) as [port|] eqn:Hp.
  { apply (ports_of_pairs _ I) in Hp as (ps & E & Ho). rewrite E. injection Ho as <- <-.
    rewrite !Z.eqb_refl. by apply (Hsame ps). }
  destruct (find_port lo hi s pr) as [port|]; [|done].
  destruct (pairSocks pr !! port) as [ps|] eqn:E.
  - destruct (Z.eqb_spec (ps_lo ps) lo) as [<-|], (Z.eqb_spec (ps_hi ps) hi) as [<-|]; simpl; try done. by apply (Hsame ps).
  - destruct (listen port); [|done]. split; [by apply registry_open|]. split; [|split; [|done]]; simpl.
    + exists (new_pair lo hi). rewrite lookup_insert_eq. auto.
    + intros q Hq. by rewrite lookup_insert_ne.
Qed.

Lemma expect_keeps now a b ipA ipB ps :
  places_distinct ps → owner (expect now a b ipA ipB ps) = owner ps ∧ places_distinct (expect now a b ipA ipB ps).
Proof. done. Qed.

Lemma PairRelayFor_cases listen now a b ipA ipB st :
  let '(r, st') := PairRelayFor listen now a b ipA ipB st in
  (r = None ∧ (st' = st ∨ ∃ s, r_pairs st' = (open_pair listen (clePaire a b).1 (clePaire a b).2 s (r_pairs st)).2 ∧
     (open_pair listen (clePaire a b).1 (clePaire a b).2 s (r_pairs st)).1 = None)) ∨
  (∃ s port pr', open_pair listen (clePaire a b).1 (clePaire a b).2 s (r_pairs st) = (Some port, pr') ∧
     r = Some (pairHost pr', port) ∧ relay_allowed now a b st = true ∧ PairRelayActive (r_pairs st) = true ∧
     r_pairs st' = set_socks (alter (expect now a b ipA ipB) port (pairSocks pr')) (pairPorts pr') (pairReaping pr')
                     (pairTotal pr') pr').
Proof.
  unfold PairRelayFor. destruct (negb _ || _ || _) eqn:E1; [by left; auto|].
  destruct (relay_allowed now a b st) eqn:E2; simpl; [|by left; auto].
  destruct (pairPortFor a b (r_pairs st)) as [s|]; [|by left; auto].
  destruct (clePaire a b) as [lo hi] eqn:Ec. simpl.
  destruct (open_pair listen lo hi s (r_pairs st)) as [[port|] pr'] eqn:E3; simpl.
  - right. exists s, port, pr'. rewrite !orb_false_iff, negb_false_iff in E1. destruct E1 as [[??] ?]. by repeat split.
  - left. split; [done|]. right. exists s. rewrite E3. done.
Qed.

Lemma registry_step st st' : relay_step st st' → registry_ok (r_pairs st) → registry_ok (r_pairs st').
Proof.
  intros [now p ok|pids forces ouvert|host base span|listen now a b ipA ipB|port now src|now _] I; try done.
  - unfold SetPairRelay, closeAllPairSockets. case_bool_decide; [apply registry_empty|]. by destruct I as [P S R].
  - pose proof (PairRelayFor_cases listen now a b ipA ipB st) as H1.
    destruct (PairRelayFor _ _ _ _ _ _ _) as [r st2]. simpl.
    destruct H1 as [[_ [->|(s & -> & E)]]|(s & port & pr' & E & _ & _ & _ & ->)]; [done| |];
      pose proof (open_pair_spec listen _ _ s _ I (clePaire_ordered a b)) as H2.
    + destruct (open_pair _ _ _ _ _) as [[?|] ?]; [done|]. by subst.
    + rewrite E in H2. apply registry_alter; [apply expect_keeps|apply H2].
  - apply registry_alter; [apply boucle_keeps|done].
  - by apply registry_reap.
Qed.

Lemma registry_reached st : rtc relay_step relay0 st → registry_ok (r_pairs st).
Proof.
  intros H1. remember relay0 as st0 eqn:E. assert (registry_ok (r_pairs st0)) as I by (subst; apply registry_empty).
  clear E. induction H1; [done|]. eauto using registry_step.
Qed.

(** C11: in every state the server reaches, the ports of the pairs are exactly the ports of
    the open sockets, so two pairs never share a port and a pair never has two; each socket
    seats two different endpoints; and the reaper runs as long as a socket is open. *)
Theorem pairs_never_share st :
  rtc relay_step relay0 st →
  (∀ c port, pairPorts (r_pairs st) !! c = Some port ↔
     ∃ ps, pairSocks (r_pairs st) !! port = Some ps ∧ owner ps = c) ∧
  (∀ p1 p2 ps1 ps2, pairSocks (r_pairs st) !! p1 = Some ps1 → pairSocks (r_pairs st) !! p2 = Some ps2 →
     owner ps1 = owner ps2 → p1 = p2) ∧
  (∀ port ps, pairSocks (r_pairs st) !! port = Some ps → ps_lo ps ≤ ps_hi ps ∧ places_distinct ps) ∧
  (pairSocks (r_pairs st) ≠ ∅ → pairReaping (r_pairs st) = true).
Proof.
  intros I%registry_reached. split; [apply (ports_of_pairs _ I)|]. split; [|split; [apply (sockets_ok _ I)|apply (reaper_runs _ I)]].
  intros. by eapply port_exclusive.
Qed.

(** The socket of a pair that is given a port. *)
Lemma PairRelayFor_socket listen now a b ipA ipB st host port st' :
  registry_ok (r_pairs st) → PairRelayFor listen now a b ipA ipB st = (Some (host, port), st') →
  (∃ ps, pairSocks (r_pairs st') !! port = Some ps ∧ owner ps = clePaire a b ∧
     attendus ps = (if b <? a then (ipB, ipA) else (ipA, ipB)) ∧
     match pairSocks (r_pairs st) !! port with
     | Some old => owner old = clePaire a b ∧ vus ps = vus old ∧ rejets ps = rejets old
     | None => vus ps = (None, None) ∧ rejets ps = 0
     end) ∧
  (∀ q, q ≠ port → pairSocks (r_pairs st') !! q = pairSocks (r_pairs st) !! q).
Proof.
  intros I E0. pose proof (PairRelayFor_cases listen now a b ipA ipB st) as H1. rewrite E0 in H1.
  destruct H1 as [[[=] _]|(s & port' & pr' & E & [= -> ->] & _ & _ & ->)].
  pose proof (open_pair_spec listen _ _ s _ I (clePaire_ordered a b)) as H2. rewrite E in H2.
  destruct H2 as (_ & (ps & Hs & Ho & Hold) & Hoth & _). simpl. rewrite <- surjective_pairing in Ho. split.
  - exists (expect now a b ipA ipB ps). rewrite lookup_alter_eq, Hs. repeat split; [done|].
    destruct Hold as [->|[-> ->]]; done.
  - intros q Hq. rewrite lookup_alter_ne by done. by apply Hoth.
Qed.

(** C14: a pair is given a relay only when the relay is armed, both players may be relayed
    and one of them needs it or is forced; the port it is given seats nobody or this very
    pair, whose places are kept; it expects the two addresses in the order of the PIDs; and
    no other port is touched.  A pair that is given none leaves the ports as they were. *)
Theorem relay_given listen now a b ipA ipB st :
  rtc relay_step relay0 st →
  let '(r, st') := PairRelayFor listen now a b ipA ipB st in
  match r with
  | None => pairSocks (r_pairs st') = pairSocks (r_pairs st) ∧ pairPorts (r_pairs st') = pairPorts (r_pairs st)
  | Some (host, port) =>
      PairRelayActive (r_pairs st) = true ∧
      RelayVolontaire a (r_vol st) = true ∧ RelayVolontaire b (r_vol st) = true ∧
      (BesoinDeRelais now a (r_besoins st) = true ∨ BesoinDeRelais now b (r_besoins st) = true ∨
       RelayForce a (r_vol st) = true ∨ RelayForce b (r_vol st) = true) ∧
      (∃ ps, pairSocks (r_pairs st') !! port = Some ps ∧ owner ps = clePaire a b ∧
         attendus ps = (if b <? a then (ipB, ipA) else (ipA, ipB)) ∧
         match pairSocks (r_pairs st) !! port with
         | Some old => owner old = clePaire a b ∧ vus ps = vus old
         | None => vus ps = (None, None)
         end) ∧
      (∀ q, q ≠ port → pairSocks (r_pairs st') !! q = pairSocks (r_pairs st) !! q)
  end.
Proof.
  intros I%registry_reached. pose proof (PairRelayFor_cases listen now a b ipA ipB st) as H1.
  destruct (PairRelayFor listen now a b ipA ipB st) as [r st'] eqn:E0.
  destruct H1 as [[-> [->|(s & E1 & E2)]]|(s & port & pr' & E & -> & Hal & Hac & Hpr)]; [done| |];
    pose proof (open_pair_spec listen _ _ s _ I (clePaire_ordered a b)) as H2.
  - rewrite E1. destruct (open_pair _ _ _ _ _) as [[?|] pr']; [done|]. simpl. by subst.
  - destruct (PairRelayFor_socket listen now a b ipA ipB st _ _ _ I E0) as ((ps & Hs & Ho & Ha & Hv) & Hoth).
    unfold relay_allowed in Hal. rewrite !andb_true_iff, !orb_true_iff in Hal. destruct Hal as [[Hva Hvb] Hn].
    do 3 (split; [done|]). split; [tauto|]. split; [|exact Hoth]. exists ps. split_and!; [done..|].
    destruct (pairSocks (r_pairs st) !! port); [|by apply Hv]. by destruct Hv as (? & ? & _).
Qed.

Lemma reap_socks now pr k :
  pairSocks (reapPairSockets now pr) !! k =
  pairSocks pr !! k ≫= λ ps, if pairRelayTTL <? now - ps_dernier ps then None else Some ps.
Proof.
  unfold reapPairSockets. set (pr' := foldl _ _ _).
  replace (pairSocks (if bool_decide (pairSocks pr' = ∅) then _ else _)) with (pairSocks pr') by (by case_bool_decide).
  apply (range_pointwise pairSocks (reap_pair now) (λ _ ps, if pairRelayTTL <? now - ps_dernier ps then None else Some ps)).
  intros pr2 [port ps] q. unfold reap_pair. simpl. intros E.
  case_decide as Hd; [subst q|]; case_match; simpl; rewrite ?lookup_delete_eq, ?lookup_delete_ne by done; done.
Qed.

(** C26: a pair that has been silent for two minutes loses its port, and its registration, at
    the next turn of the reaper, which is running as long as a port is open; a pair heard
    since keeps its socket as it is; the reaper stops once no port is left. *)
Theorem silent_pairs_close now st port ps :
  rtc relay_step relay0 st → pairSocks (r_pairs st) !! port = Some ps →
  let pr := reapPairSockets now (r_pairs st) in
  relay_step st (with_pairs pr st) ∧
  (if pairRelayTTL <? now - ps_dernier ps
   then pairSocks pr !! port = None ∧ pairPorts pr !! owner ps = None
   else pairSocks pr !! port = Some ps ∧ pairPorts pr !! owner ps = Some port) ∧
  (pairReaping pr = true ↔ pairSocks pr ≠ ∅).
Proof.
  intros I%registry_reached E pr. pose proof (registry_reap now _ I) as I'. fold pr in I'.
  pose proof (reap_socks now (r_pairs st) port) as Hk. fold pr in Hk. rewrite E in Hk. simpl in Hk.
  split; [apply step_reap, (reaper_runs _ I); intros H1; by rewrite H1 in E|]. split.
  - case_match; (split; [done|]).
    + destruct (pairPorts pr !! owner ps) as [q|] eqn:Eq; [|done]. exfalso.
      apply (ports_of_pairs _ I') in Eq as (ps' & Hq & Ho).
      pose proof (reap_socks now (r_pairs st) q) as Hq'. fold pr in Hq'. rewrite Hq in Hq'.
      destruct (pairSocks (r_pairs st) !! q) as [ps2|] eqn:E2; [|done]. simpl in Hq'. case_match; simplify_eq.
      assert (q = port) as -> by (apply (port_exclusive _ _ _ _ _ I E2 E); by unfold owner; f_equal). congruence.
    + apply (ports_of_pairs _ I'). eauto.
  - split; [|apply (reaper_runs _ I')]. intros Hr He. unfold pr, reapPairSockets in Hr, He.
    destruct (bool_decide_reflect (pairSocks (foldl (reap_pair now) (r_pairs st) (range (pairSocks (r_pairs st)))) = ∅));
      [by simpl in Hr|done].
Qed.

End registry.

(** ** A server with the relay armed and one pair playing through it *)
#[local] Existing Instance canonical_order.

Definition relay_open_0 : RelayState :=
  mkRelay (r_besoins relay0) (r_vus relay0) (SetRelayVolontaires [] [5] true) (r_pairs relay0).
Definition relay_open_1 : RelayState := with_pairs (SetPairRelay (str "relay") 40000 900 (r_pairs relay_open_0)) relay_open_0.
Definition relay_example : RelayState :=
  (PairRelayFor (λ _, true) 0 9 5 (str "25.0.0.1") (str "24.0.0.1") relay_open_1).2.

Lemma relay_open_1_reached : rtc relay_step relay0 relay_open_1.
Proof.
  apply (rtc_l _ _ relay_open_0); [exact (step_players relay0 [] [5] true)|].
  exact (rtc_once _ _ (step_config relay_open_0 (str "relay") 40000 900)).
Qed.

Lemma relay_example_reached : rtc relay_step relay0 relay_example.
Proof. eapply rtc_r; [exact relay_open_1_reached|]. exact (step_pair relay_open_1 (λ _, true) 0 9 5 _ _). Qed.

Lemma relay_example_socket : ∃ ps, pairSocks (r_pairs relay_example) !! 40817 = Some ps ∧ ps_dernier ps = 0.
Proof.
  assert (ps_dernier <$> pairSocks (r_pairs relay_example) !! 40817 = Some 0) as E by (vm_compute; reflexivity).
  apply fmap_Some in E as (ps & E & Hd). exists ps. split; [exact E|exact (eq_sym Hd)].
Qed.

Lemma pairs_never_share_witness :
  rtc relay_step relay0 relay_example ∧ pairSocks (r_pairs relay_example) ≠ ∅ ∧ pairReaping (r_pairs relay_example) = true.
Proof.
  assert (pairSocks (r_pairs relay_example) ≠ ∅) as Hne.
  { destruct relay_example_socket as (ps & E & _). intros H1. rewrite H1, lookup_empty in E. discriminate E. }
  split; [exact relay_example_reached|]. split; [exact Hne|].
  destruct (pairs_never_share relay_example relay_example_reached) as (_ & _ & _ & Hr). exact (Hr Hne).
Defined.

Lemma relay_given_witness :
  rtc relay_step relay0 relay_open_1 ∧
  (PairRelayFor (λ _, true) 0 9 5 (str "25.0.0.1") (str "24.0.0.1") relay_open_1).1 = Some (str "relay", 40817) ∧
  RelayVolontaire 9 (r_vol relay_open_1) = true.
Proof.
  split; [exact relay_open_1_reached|].
  pose proof (relay_given (λ _, true) 0 9 5 (str "25.0.0.1") (str "24.0.0.1") relay_open_1 relay_open_1_reached) as H1.
  assert ((PairRelayFor (λ _, true) 0 9 5 (str "25.0.0.1") (str "24.0.0.1") relay_open_1).1 = Some (str "relay", 40817)) as E
    by (vm_compute; reflexivity).
  split; [exact E|]. destruct (PairRelayFor _ _ _ _ _ _ _) as [r st2]. simpl in E. subst r. apply H1.
Defined.

Lemma silent_pairs_close_witness :
  rtc relay_step relay0 relay_example ∧
  pairSocks (reapPairSockets (3 * minute) (r_pairs relay_example)) !! 40817 = None.
Proof.
  split; [exact relay_example_reached|].
  destruct relay_example_socket as (ps & E & Hd).
  destruct (silent_pairs_close (3 * minute) relay_example 40817 ps relay_example_reached E) as (_ & H1 & _).
  rewrite Hd in H1. exact (proj1 H1).
Defined.

(** ** Both players are sent to the same place *)
Lemma clePaire_sym a b : clePaire a b = clePaire b a.
Proof. unfold clePaire. destruct (Z.ltb_spec b a), (Z.ltb_spec a b); try lia; [done|done|]. by replace b with a by lia. Qed.

Lemma pairPortFor_range a b (pr : PairState) p :
  pairPortFor a b pr = Some p → pairPortBase pr ≤ p < pairPortBase pr + pairPortSpan pr.
Proof.
  unfold pairPortFor, PairRelayActive. destruct (negb _ && (0 <? _)) eqn:E; [|done].
  apply andb_true_iff in E as [_ E%Z.ltb_lt]. destruct (clePaire a b). intros [= <-].
  pose proof (Z.mod_pos_bound (fnv_pid (fnv_pid 14695981039346656037 z) z0) _ E). lia.
Qed.

Lemma relay_allowed_sym now a b st : relay_allowed now a b st = relay_allowed now b a st.
Proof. unfold relay_allowed. by destruct (RelayVolontaire a _), (RelayVolontaire b _), (BesoinDeRelais now a _), (BesoinDeRelais now b _), (RelayForce a _), (RelayForce b _). Qed.

(** The two call sites name the players in different orders; whichever asks, the pair
    gets the same port and leaves the same state. *)
Theorem PairRelayFor_symmetric listen now a b ipA ipB st :
  a ≠ b → PairRelayFor listen now a b ipA ipB st = PairRelayFor listen now b a ipB ipA st.
Proof.
  intros Hne. unfold PairRelayFor. rewrite (relay_allowed_sym now a b).
  assert (negb (PairRelayActive (r_pairs st)) || bool_decide (ipA = []) || bool_decide (ipB = []) =
          negb (PairRelayActive (r_pairs st)) || bool_decide (ipB = []) || bool_decide (ipA = [])) as ->
    by (rewrite <- !orb_assoc; f_equal; apply orb_comm).
  assert (pairPortFor a b (r_pairs st) = pairPortFor b a (r_pairs st)) as -> by (unfold pairPortFor; by rewrite clePaire_sym).
  assert (∀ ps, expect now a b ipA ipB ps = expect now b a ipB ipA ps) as He.
  { intros ps. unfold expect. f_equal. destruct (Z.ltb_spec b a), (Z.ltb_spec a b); try done; lia. }
  assert (∀ port (m : gmap Z pairSocket), alter (expect now a b ipA ipB) port m = alter (expect now b a ipB ipA) port m) as Hm
    by (intros; apply alter_ext; intros; apply He).
  assert (∀ v, NoterPaireRelayee now a b v = NoterPaireRelayee now b a v) as Hn
    by (intros v; unfold NoterPaireRelayee; by rewrite orb_comm, clePaire_sym).
  rewrite (clePaire_sym a b). repeat case_match; try done. by rewrite Hn, Hm.
Qed.
Lemma PairRelayFor_symmetric_witness :
  (9 : Z) ≠ 5 ∧
  (PairRelayFor (λ _, true) 0 5 9 (str "24.0.0.1") (str "25.0.0.1") relay_open_1).1 = Some (str "relay", 40817).
Proof.
  assert ((5 : Z) ≠ 9) as H1 by lia. split; [lia|].
  rewrite (PairRelayFor_symmetric (λ _, true) 0 5 9 (str "24.0.0.1") (str "25.0.0.1") relay_open_1 H1).
  vm_compute. reflexivity.
Defined.
