(* ===== verification/NatTraversal.v ===== *)
(** * NAT traversal (src/nattraversal.go)

    The hole-punch: who is asked to probe whom, under which station; what the consoles report
    of it.  The NAT responder's file is read at the instant of the request. *)

From S2P Require Export Relay.

Definition ProtocolNATTraversal : Z := 0x03.
Definition MethodRequestProbeInitiation : Z := 0x1.
Definition MethodInitiateProbe : Z := 0x2.
Definition MethodRequestProbeInitiationExt : Z := 0x3.
Definition MethodReportNATTraversalResult : Z := 0x4.
Definition MethodReportNATProperties : Z := 0x5.
Definition MethodGetRelaySignatureKey : Z := 0x6.
Definition MethodReportNATTraversalResultDetail : Z := 0x7.

(** A joiner that waits for its host's ReplaceURL: the goroutine of
    [answerSessionURLsWhenHostIsReady]. *)
Record Waiter := mkWaiter {
  w_joiner : Ref;
  w_req : RMCMessage;
  w_host : Ref;
  w_deadline : Z
}.

(** What the NAT files of the process share: the cache of observed ports, the relay, and the
    goroutines that wait. *)
Record NatState := mkNat {
  ns_cache : NatCache;
  ns_relay : RelayState;
  ns_waiting : list Waiter
}.
Definition nat0 : NatState := mkNat natcache0 relay0 [].

Definition set_cache (c : NatCache) (st : NatState) : NatState := mkNat c (ns_relay st) (ns_waiting st).
Definition set_relay (x : RelayState) (st : NatState) : NatState := mkNat (ns_cache st) x (ns_waiting st).
Definition set_waiting (w : list Waiter) (st : NatState) : NatState := mkNat (ns_cache st) (ns_relay st) w.

Section traversal.
Context {App : Type} `{HN : !Substate NatState App} `{MO : MapOrder}.
#[local] Abbreviation Net := (NetOf App).
Implicit Types (n : Net) (r : Ref) (req : RMCMessage).

(** The responder's file at an instant, and whether a port can be listened on. *)
Context (nat_file : Z → option bytes) (listen : Z → Z → bool).
(** [NEXTENDO_PROBE_REPOINT], [RelaySigChaineVideZero], [RelaySigGameServerID]. *)
Context (probeRepoint relaySigVide : bool) (relaySigServer : Z).
Context (OnNATProperties : option (Z → Z → Z → Z → Net → Net)).

Definition ns (n : Net) : NatState := comp n.

(** [PairRelayFor], [PairRelayActive] and [natPortForIP] on the state of the process. *)
Definition pair_relay (pidA pidB : Z) (ipA ipB : bytes) (n : Net) : option (bytes * Z) * Net :=
  let '(res, rs) := PairRelayFor (listen (clock n)) (clock n) pidA pidB ipA ipB (ns_relay (ns n)) in
  (res, upd_comp (set_relay rs) n).
Definition relay_active (n : Net) : bool := PairRelayActive (r_pairs (ns_relay (ns n))).
Definition nat_port (ip : bytes) (n : Net) : option Z * Net :=
  let '(p, c) := natPortForIP (nat_file (clock n)) (clock n) ip (ns_cache (ns n)) in
  (p, upd_comp (set_cache c) n).

(** [splitHostPortSafe]. *)
Definition splitHostPortSafe (addr : bytes) : bytes * bytes :=
  match SplitHostPort addr with Some hp => hp | None => (addr, []) end.

(** [natPortUnambiguous]: the players behind that address. *)
Definition players_behind (host : bytes) (n : Net) : gset Z :=
  list_to_set (omap (λ id, match FindConnectionByID id n with
                           | Some c => if (PID (conn c n) =? 0) || negb (bool_decide (PublicIPOf (conn c n) = host))
                                       then None else Some (PID (conn c n))
                           | None => None
                           end) (ConnectionIDs n)).
Definition natPortUnambiguous (host : bytes) (n : Net) : bool :=
  bool_decide (host = []) || (size (players_behind host n) <=? 1)%nat.

Definition overlayStation (c : Connection) (addr host : bytes) : bool :=
  if bool_decide (addr = []) || bool_decide (addr = host) || isPrivateIP addr then false
  else existsb (λ u, bool_decide (address u = addr)) (stations c) &&
       existsb (λ u, bool_decide (address u = host)) (stations c).

(** The station the peers are to probe: the caller's own words, or the endpoint observed. *)
Definition repoint (r : Ref) (station : bytes) (n : Net) : bytes * Net :=
  let host := (splitHostPortSafe (RemoteAddr (conn r n))).1 in
  let u := ParseStationURL station in
  if negb (isPrivateIP host) && (probeRepoint || overlayStation (conn r n) (address u) host) then
    let u := if bool_decide (address u = host) then u else StationURL.Set_ (str "address") host u in
    let '(port, n) := nat_port host n in
    let u :=
      match port with
      | Some p => if natPortUnambiguous host n then SetInt (str "port") p u else u
      | None => u
      end in
    (String_ u, n)
  else (station, n).

(** One target of the loop of [pushInitiateProbe]. *)
Definition probe_target (r : Ref) (req : RMCMessage) (lanStation stationToProbe : bytes) (n : Net) (raw : bytes) : Net :=
  let s := settings n in
  let rvcid := u32 (GetInt (ParseStationURL raw) (str "RVCID")) in
  if rvcid =? 0 then n
  else
    match FindConnectionByID rvcid n with
    | None => n
    | Some target =>
        let station :=
          if negb (bool_decide (stationToProbe = lanStation)) && behindSameNAT (conn r n) (conn target n)
          then lanStation else stationToProbe in
        let u := ParseStationURL station in
        let '(relay, n) :=
          if relay_active n
          then pair_relay (PID (conn r n)) (PID (conn target n)) (PublicIPOf (conn r n)) (PublicIPOf (conn target n)) n
          else (None, n) in
        let u := match relay with Some (host, port) => relayPointStation host port u | None => u end in
        SendRMC target (NewRMCRequest s ProtocolNATTraversal MethodInitiateProbe (u32 (0xFFFF0000 + CallID req))
                          (Bytes_ (wStationURL u (NewStreamOut s)))) n
    end.

Definition rProbe : Reader (list bytes * bytes) :=
  read! l := ReadList rString in read! st := rString in rret (l, st).

Definition pushInitiateProbe (r : Ref) (req : RMCMessage) (n : Net) : Net :=
  match read_err n req rProbe with
  | Some _ => n
  | None =>
      let '(targets, station) := read_body n req rProbe in
      let '(stationToProbe, n) := repoint r station n in
      foldl (probe_target r req station stationToProbe) n targets
  end.

Definition relaySignatureKey (req : RMCMessage) (n : Net) : RMCMessage :=
  reply n ProtocolNATTraversal req
    (wU32 0 ;;; wDateTime (DateTime.Value (DateTime.NowDateTime (clock n))) ;;;
     (if relaySigVide then wStringVideZero [] else wString []) ;;; wU16 0 ;;; wU32 0 ;;; wU32 relaySigServer).

Definition rNATResult (detail : bool) : Reader (Z * bool) :=
  read! cid := rU32 in read! res := rBool in
  (if detail then skip! rU32 in skip! rU32 in rret (cid, res) else skip! rU32 in rret (cid, res)).

Definition logNATResult (r : Ref) (req : RMCMessage) (n : Net) : Net :=
  let rd := rNATResult (Method req =? MethodReportNATTraversalResultDetail) in
  match read_err n req rd with
  | Some _ => n
  | None =>
      let '(cid, result) := read_body n req rd in
      let p := PID (conn r n) in
      let rs := ns_relay (ns n) in
      let relaye :=
        match FindConnectionByID cid n with
        | Some peer => negb (PID (conn peer n) =? 0) && PaireRelayee (clock n) p (PID (conn peer n)) (r_vus rs)
        | None => false
        end in
      if relaye then n
      else upd_comp (set_relay (mkRelay (NotePercage (clock n) p result (r_besoins rs)) (r_vus rs) (r_vol rs) (r_pairs rs))) n
  end.

Definition noteNATProperties (r : Ref) (req : RMCMessage) (n : Net) : Net :=
  let rd := read! a := rU32 in read! b := rU32 in read! c := rU32 in rret (a, b, c) in
  match read_err n req rd with
  | Some _ => n
  | None =>
      let '(natMap, natFilter, rtt) := read_body n req rd in
      let n := upd r (SetNATProps natMap natFilter) n in
      match OnNATProperties with
      | Some f => f (PID (conn r n)) natMap natFilter rtt n
      | None => n
      end
  end.

Definition natAck (req : RMCMessage) (n : Net) : RMCMessage := ack n ProtocolNATTraversal req.

Definition NATTraversalHandler (r : Ref) (req : RMCMessage) (n : Net) : option RMCMessage * Net :=
  let m := Method req in
  if m =? MethodRequestProbeInitiationExt then
    let n := pushInitiateProbe r req n in (Some (natAck req n), n)
  else if (m =? MethodReportNATTraversalResult) || (m =? MethodReportNATTraversalResultDetail) then
    let n := logNATResult r req n in (Some (natAck req n), n)
  else if m =? MethodReportNATProperties then
    let n := noteNATProperties r req n in (Some (natAck req n), n)
  else if m =? MethodGetRelaySignatureKey then (Some (relaySignatureKey req n), n)
  else if (m =? MethodRequestProbeInitiation) || (m =? MethodInitiateProbe) then (Some (natAck req n), n)
  else (Some (notImplemented (settings n) ProtocolNATTraversal req), n).
End traversal.
