(* ===== verification/Eagle.v ===== *)
(** * The hand-off to the relay of the "99" titles (src/eagle_handoff.go)

    The notification of revision 1 that tells a player where the relay is, and the signed token
    it presents there.  [json.Marshal] of the two fixed structures is written out: every
    string in them is made of digits, hexadecimal digits or base64 characters, which JSON does
    not escape. *)

From S2P Require Export Endpoint MatchTypes Sha256 Base64.

Definition EagleNotificationType : Z := 200000.
Definition EagleNotificationSource : Z := 257049437023956657.

(** ** The event *)
Record NotificationEventV1 := mkEventV1 {
  v1_PIDSource : Z;
  v1_Type : Z;
  v1_Param1 : Z;
  v1_Param2 : Z;
  v1_StrParam : bytes;
  v1_Param3 : Z;
  MapParam : gmap bytes Variant
}.

Section event.
Context `{MO : MapOrder}.

(** [notifParams32]: the environment switch NEX_NOTIF_PARAMS32. *)
Definition save_event_v1 (notifParams32 : bool) (n : NotificationEventV1) : Writer :=
  let param v := if notifParams32 then wU32 (u32 v) else wU64 v in
  wPID (v1_PIDSource n) ;;; wU32 (v1_Type n) ;;;
  param (v1_Param1 n) ;;; param (v1_Param2 n) ;;; wStringVideZero (v1_StrParam n) ;;; param (v1_Param3 n) ;;;
  WriteMap (MapParam n) wString wVariant.

(** The loop on the count, which trusts it. *)
Definition rMapParam : Reader (gmap bytes Variant) :=
  read! c := rU32 in rrepeat_map (Z.to_nat c) rString rVariant ∅.

Definition load_event_v1 : Reader NotificationEventV1 :=
  read! p := rPID in read! t := rU32 in read! p1 := rU64 in read! p2 := rU64 in
  read! str := rString in read! p3 := rU64 in
  read! m := rMapParam in
  rret (mkEventV1 p t p1 p2 str p3 m).

Definition EventV1_Structure (notifParams32 : bool) : Structure NotificationEventV1 := λ n,
  [ mkLevel 1 (Some (save_event_v1 notifParams32 n)) (Some (λ _, load_event_v1)) ].
End event.

(** ** The token *)
Record eagleTokenPayload := mkTokenPayload {
  ExpiresAt : bytes;
  ServerEnv : bytes;
  ServerID : bytes;
  UserID : bytes
}.

Definition quoted (s : bytes) : bytes := [x22] ++ s ++ [x22].
Definition json_field (name v : bytes) : bytes := quoted name ++ ":"%byte :: v.
Definition json_object (fields : list bytes) : bytes := "{"%byte :: join_with ","%byte fields ++ str "}".

Definition marshal_payload (p : eagleTokenPayload) : bytes :=
  json_object [json_field (str "expires_at") (quoted (ExpiresAt p)); json_field (str "server_env") (quoted (ServerEnv p));
               json_field (str "server_id") (quoted (ServerID p)); json_field (str "user_id") (quoted (UserID p))].

(** [eagleToken], whose version is one. *)
Definition marshal_token (p : eagleTokenPayload) (signature : bytes) : bytes :=
  json_object [json_field (str "payload") (marshal_payload p); json_field (str "signature") (quoted signature);
               json_field (str "version") (str "1")].

(** [fmt.Sprintf("%016x", pid)]. *)
Definition hex16 (pid : Z) : bytes := hex_encode (be_bytes 8 pid).

(** The instant is in nanoseconds, as the duration is; [Unix] rounds down to the second. *)
Definition token_payload (now pid gid duree : Z) : eagleTokenPayload :=
  mkTokenPayload (Itoa ((now + duree) / second)) (str "lp1") (FormatUint gid) (hex16 pid).

Definition BuildEagleToken (now : Z) (secret : bytes) (pid gid duree : Z) : bytes :=
  let charge := token_payload now pid gid duree in
  let brut := marshal_payload charge in
  StdEncode (marshal_token charge (StdEncode (hmac_sha256 secret brut))).

(** ** Sending *)
Section sending.
Context {App : Type} `{MO : MapOrder}.
#[local] Abbreviation Net := (NetOf App).
Implicit Types (n : Net).
Context (notifParams32 strVide0 : bool).

(** [eagleCallCounter] goes through the two senders. *)
Definition SendEagleHandoff (target : Ref) (gid : Z) (url token : bytes) (counter : Z) n : Z * Net :=
  let s := settings n in
  let text v := mkVariant VariantString 0 0 false v 0 0 in
  let ev := mkEventV1 EagleNotificationSource EagleNotificationType gid 0 [] 0
              {[ str "url" := text url; str "token" := text token ]} in
  let b := Bytes_ (WriteStructure (H := EventV1_Structure notifParams32) ev (NewStreamOut s)) in
  let counter := u32 (counter + 1) in
  (counter, SendRMC target (NewRMCRequest s ProtocolNotifications MethodProcessNotificationEvent
                              (u32 (0xFFFD0000 + counter)) b) n).

Definition SendNotificationTest (target : Ref) (typ param1 : Z) (counter : Z) n : Z * Net :=
  let s := settings n in
  let ev := mkEvent (PID (conn target n)) typ param1 0 [] 0 in
  let b := Bytes_ (WriteStructure (H := NotificationEvent_Levels strVide0) ev (NewStreamOut s)) in
  let counter := u32 (counter + 1) in
  (counter, SendRMC target (NewRMCRequest s ProtocolNotifications MethodProcessNotificationEvent
                              (u32 (0xFFFC0000 + counter)) b) n).
End sending.

(** ** The event is read back *)
Definition event_v1_ok (s : Settings) (n : NotificationEventV1) : Prop :=
  pid_ok s (v1_PIDSource n) ∧ is_u32 (v1_Type n) ∧ is_u64 (v1_Param1 n) ∧ is_u64 (v1_Param2 n) ∧
  str_ok (v1_StrParam n) ∧ is_u64 (v1_Param3 n) ∧
  is_u32 (Z.of_nat (size (MapParam n))) ∧ map_Forall (λ k v, str_ok k ∧ variant_ok v) (MapParam n).

Section reading.
Context `{MO : MapOrder}.

Lemma rt1_MapParam (s : Settings) (m : gmap bytes Variant) :
  is_u32 (Z.of_nat (size m)) → map_Forall (λ k v, str_ok k ∧ variant_ok v) m →
  rt1 s (WriteMap m wString wVariant) rMapParam m.
Proof.
  intros Hs Hall. unfold WriteMap, rMapParam. rewrite wrap_small by done. eapply rt1_bind; [by apply rt1_U32|].
  destruct (rrepeat_map_reads s wString wVariant rString rVariant (range m) ∅) as (bs & W & R & _).
  { apply Forall_forall. intros [k v] Hkv. apply elem_of_range in Hkv. destruct (Hall k v Hkv).
    split; [by apply rt1_String|by apply rt1_Variant]. }
  exists bs. split; [done|]. autorewrite with nex_rw in R. rewrite Nat2Z.id.
  rewrite foldl_insert_nodup, list_to_map_range, (right_id_L ∅ (∪)) in R; [done|]. apply NoDup_fst_range.
Qed.

(** With 64-bit parameters the event is read as it was sent, its map included, in whatever
    order the map was visited. *)
Theorem event_v1_roundtrip (s : Settings) n n0 :
  event_v1_ok s n → buf_ok (body s (save_event_v1 false n)) →
  rt s (WriteStructure (H := EventV1_Structure false) n) (ReadStructure (H := EventV1_Structure false) n0) n.
Proof.
  intros (Hp & Ht & H1 & H2 & Hs & H3 & Hm & Hall) Hb. apply (rt_levels s).
  exists n. split; [|done]. split; [done|]. cbn [Save Load]. split; [|done].
  unfold save_event_v1, load_event_v1. destruct n as [p t p1 p2 str p3 m]. simpl in *.
  do 6 (eapply rt_bind; [solve [eauto with wire]|]; cbv beta).
  eapply rt_map; [by apply rt1_rt, rt1_MapParam|done].
Qed.
End reading.

(** ** A token names its player *)
Lemma hex_decode_encode b : hex_decode (hex_encode b) = Some b.
Proof.
  induction b as [|c b IH]; [done|].
  change (hex_encode (c :: b)) with (hex_digit (Z_of_byte c / 16) :: hex_digit (Z_of_byte c mod 16) :: hex_encode b).
  destruct c; cbn; by rewrite IH.
Qed.

Lemma hex16_inj p q : is_u64 p → is_u64 q → hex16 p = hex16 q → p = q.
Proof.
  intros Hp Hq E. apply (f_equal hex_decode) in E. unfold hex16 in E. rewrite !hex_decode_encode in E.
  apply (inj Some) in E. apply (f_equal reverse) in E. unfold be_bytes in E. rewrite !reverse_involutive in E.
  rewrite <- (le_val_u64 p), <- (le_val_u64 q) by done. by f_equal.
Qed.

Lemma length_hex16 p : length (hex16 p) = 16%nat.
Proof. done. Qed.

(** What comes before the player in a token. *)
Definition token_front (expires server id : bytes) : bytes :=
  "{"%byte :: quoted (str "payload") ++ str ":{" ++ json_field (str "expires_at") (quoted expires) ++ str "," ++
  json_field (str "server_env") (quoted server) ++ str "," ++ json_field (str "server_id") (quoted id) ++ str "," ++
  quoted (str "user_id") ++ [":"%byte; x22].

Lemma marshal_token_front e v i u sig :
  ∃ rest, marshal_token (mkTokenPayload e v i u) sig = token_front e v i ++ u ++ rest.
Proof.
  exists ([x22; "}"%byte] ++ str "," ++ json_field (str "signature") (quoted sig) ++ str "," ++
          json_field (str "version") (str "1") ++ str "}").
  unfold marshal_token, marshal_payload, json_object, json_field, quoted, token_front. simpl.
  repeat (rewrite <- ?app_assoc; simpl). done.
Qed.

(** The relay cannot take one player's token for another's: at the same instant, for the same
    gathering and under the same secret, two players' tokens differ. *)
Theorem token_names_player now secret p q gid duree :
  is_u64 p → is_u64 q → BuildEagleToken now secret p gid duree = BuildEagleToken now secret q gid duree → p = q.
Proof.
  intros Hp Hq E. apply (f_equal StdDecode) in E. unfold BuildEagleToken in E. rewrite !StdDecode_StdEncode in E.
  apply (inj Some) in E. apply hex16_inj; [done..|]. unfold token_payload in E.
  destruct (marshal_token_front (Itoa ((now + duree) / second)) (str "lp1") (FormatUint gid) (hex16 p)
    (StdEncode (hmac_sha256 secret (marshal_payload (token_payload now p gid duree))))) as [r1 E1].
  destruct (marshal_token_front (Itoa ((now + duree) / second)) (str "lp1") (FormatUint gid) (hex16 q)
    (StdEncode (hmac_sha256 secret (marshal_payload (token_payload now q gid duree))))) as [r2 E2].
  unfold token_payload in E1, E2. rewrite E1, E2 in E. apply app_inv_head in E.
  by apply app_inj_1 in E as [E _].
Qed.

(** With 32-bit parameters the event is not read back: the reader takes them for 64-bit ones. *)
Theorem event_v1_params32_misread :
  let MO := canonical_order in
  let s := NewSwitchSettings [] 40302 in
  let n := mkEventV1 1 2 3 4 [] 5 ∅ in
  run (ReadStructure (H := EventV1_Structure true) (mkEventV1 0 0 0 0 [] 0 ∅))
    (NewStreamIn (Bytes_ (WriteStructure (H := EventV1_Structure true) n (NewStreamOut s))) s) ≠ Ok n.
Proof. vm_compute. congruence. Qed.
