(* ===== verification/Ranking2.v ===== *)
(** * Ranking2: the boards of the "99" titles (src/ranking2.go, src/ranking2_scores.go)

    The structures of protocol 0x7A, the store of the players' common data and of their best
    scores, its handlers, and the file the scores are kept in.  The file is what it holds: the
    JSON of a store is its map. *)

From S2P Require Export Handlers.

Definition ProtocolRanking2 : Z := 0x7A.
Definition MethodRanking2PutScore : Z := 1.
Definition MethodRanking2GetCommonData : Z := 2.
Definition MethodRanking2PutCommonData : Z := 3.
Definition MethodRanking2DelCommonData : Z := 4.
Definition MethodRanking2GetRanking : Z := 5.
Definition MethodRanking2GetRankingByPIDs : Z := 6.
Definition MethodRanking2GetCategorySetting : Z := 7.
Definition MethodRanking2GetEstimateMyRank : Z := 11.
Definition ranking2LowestRank : Z := 10000.

(** ** Structures *)
Record Ranking2CategorySetting := mkSetting {
  MinScore : Z;
  MaxScore : Z;
  cs_LowestRank : Z;
  ResetMonth : Z;
  ResetDay : Z;
  ResetHour : Z;
  ResetMode : Z;
  MaxSeasonsToGoBack : Z;
  ScoreOrder : bool
}.

#[export] Instance CategorySetting_Structure : Structure Ranking2CategorySetting := λ s,
  [ mkLevel 0
      (Some (wU32 (MinScore s) ;;; wU32 (MaxScore s) ;;; wU32 (cs_LowestRank s) ;;; wU16 (ResetMonth s) ;;;
             wU8 (ResetDay s) ;;; wU8 (ResetHour s) ;;; wU8 (ResetMode s) ;;; wU8 (MaxSeasonsToGoBack s) ;;;
             wBool (ScoreOrder s)))
      (Some (λ _, read! a := rU32 in read! b := rU32 in read! c := rU32 in read! d := rU16 in
                  read! e := rU8 in read! f := rU8 in read! g := rU8 in read! h := rU8 in
                  read! o := rBool in rret (mkSetting a b c d e f g h o))) ].

Record Ranking2CommonData := mkCommon {
  UserName : bytes;
  Mii : bytes;
  BinaryData : bytes
}.
Definition zero_common : Ranking2CommonData := mkCommon [] [] [].

#[export] Instance CommonData_Structure : Structure Ranking2CommonData := λ d,
  [ mkLevel 0
      (Some (wStringVideZero (UserName d) ;;; wQBuffer (Mii d) ;;; wQBuffer (BinaryData d)))
      (Some (λ _, read! u := rString in read! m := rQBuffer in read! b := rQBuffer in rret (mkCommon u m b))) ].

Record Ranking2ScoreData := mkScoreData {
  sd_Misc : Z;
  sd_Category : Z;
  sd_Score : Z
}.
Definition zero_score : Ranking2ScoreData := mkScoreData 0 0 0.

#[export] Instance ScoreData_Structure : Structure Ranking2ScoreData := λ d,
  [ mkLevel 0
      (Some (wU64 (sd_Misc d) ;;; wU32 (sd_Category d) ;;; wU32 (sd_Score d)))
      (Some (λ _, read! m := rU64 in read! c := rU32 in read! s := rU32 in rret (mkScoreData m c s))) ].

Record Ranking2RankData := mkRankData {
  rd_Misc : Z;
  rd_NexUniqueID : Z;
  rd_PrincipalID : Z;
  rd_Rank : Z;
  rd_Score : Z;
  rd_CommonData : Ranking2CommonData
}.
Definition zero_rank : Ranking2RankData := mkRankData 0 0 0 0 0 zero_common.

#[export] Instance RankData_Structure : Structure Ranking2RankData := λ d,
  [ mkLevel 0
      (Some (wU64 (rd_Misc d) ;;; wU64 (rd_NexUniqueID d) ;;; wPID (rd_PrincipalID d) ;;; wU32 (rd_Rank d) ;;;
             wU32 (rd_Score d) ;;; wAdd (rd_CommonData d)))
      (Some (λ d, read! m := rU64 in read! u := rU64 in read! p := rPID in read! k := rU32 in
                  read! s := rU32 in read! c := rExtract (rd_CommonData d) in rret (mkRankData m u p k s c))) ].

Record Ranking2Info := mkInfo {
  Data : list Ranking2RankData;
  LowestRank : Z;
  NumRankedIn : Z;
  Season : Z
}.

#[export] Instance Info_Structure : Structure Ranking2Info := λ r,
  [ mkLevel 0
      (Some (wU32 (u32 (zlen (Data r))) ;;; wforeach wAdd (Data r) ;;; wU32 (LowestRank r) ;;;
             wU32 (NumRankedIn r) ;;; wS32 (Season r)))
      (Some (λ _, read! k := rU32 in read! d := rrepeat (Z.to_nat k) (rExtract zero_rank) in
                  read! l := rU32 in read! m := rU32 in read! s := rS32 in rret (mkInfo d l m s))) ].

Record Ranking2GetParam := mkGetParam {
  gp_NexUniqueID : Z;
  gp_PrincipalID : Z;
  gp_Category : Z;
  gp_Offset : Z;
  gp_Length : Z;
  gp_SortFlags : Z;
  gp_OptionFlags : Z;
  gp_Mode : Z;
  gp_NumSeasonsToGoBack : Z
}.
Definition zero_get : Ranking2GetParam := mkGetParam 0 0 0 0 0 0 0 0 0.

#[export] Instance GetParam_Structure : Structure Ranking2GetParam := λ p,
  [ mkLevel 0
      (Some (wU64 (gp_NexUniqueID p) ;;; wPID (gp_PrincipalID p) ;;; wU32 (gp_Category p) ;;; wU32 (gp_Offset p) ;;;
             wU32 (gp_Length p) ;;; wU32 (gp_SortFlags p) ;;; wU32 (gp_OptionFlags p) ;;; wU8 (gp_Mode p) ;;;
             wU8 (gp_NumSeasonsToGoBack p)))
      (Some (λ _, read! a := rU64 in read! b := rPID in read! c := rU32 in read! d := rU32 in read! e := rU32 in
                  read! f := rU32 in read! g := rU32 in read! h := rU8 in read! i := rU8 in
                  rret (mkGetParam a b c d e f g h i))) ].

Record Ranking2GetByListParam := mkByList {
  bl_Category : Z;
  bl_Offset : Z;
  bl_Length : Z;
  bl_SortFlags : Z;
  bl_OptionFlags : Z;
  bl_NumSeasonsToGoBack : Z
}.
Definition zero_bylist : Ranking2GetByListParam := mkByList 0 0 0 0 0 0.

#[export] Instance ByList_Structure : Structure Ranking2GetByListParam := λ p,
  [ mkLevel 0
      (Some (wU32 (bl_Category p) ;;; wU32 (bl_Offset p) ;;; wU32 (bl_Length p) ;;; wU32 (bl_SortFlags p) ;;;
             wU32 (bl_OptionFlags p) ;;; wU8 (bl_NumSeasonsToGoBack p)))
      (Some (λ _, read! a := rU32 in read! b := rU32 in read! c := rU32 in read! d := rU32 in read! e := rU32 in
                  read! f := rU8 in rret (mkByList a b c d e f))) ].

Record Ranking2EstimateScoreRankOutput := mkEstimate {
  es_Rank : Z;
  es_Length : Z;
  es_Score : Z;
  es_Category : Z;
  es_Season : Z;
  SamplingRate : Z
}.

#[export] Instance Estimate_Structure : Structure Ranking2EstimateScoreRankOutput := λ p,
  [ mkLevel 0
      (Some (wU32 (es_Rank p) ;;; wU32 (es_Length p) ;;; wU32 (es_Score p) ;;; wU32 (es_Category p) ;;;
             wS32 (es_Season p) ;;; wU8 (SamplingRate p)))
      (Some (λ _, read! a := rU32 in read! b := rU32 in read! c := rU32 in read! d := rU32 in read! e := rS32 in
                  read! f := rU8 in rret (mkEstimate a b c d e f))) ].

(** ** The store *)
Record entreeClassement := mkEntree {
  e_PID : Z;
  e_NexUniqueID : Z;
  e_Misc : Z;
  e_Score : Z
}.

Notation Scores := (gmap Z (gmap Z entreeClassement)).

(** [fichier] is the readable content of the file, [None] when there is none. *)
Record Ranking2Store := mkR2 {
  communs : gmap Z bytes;
  scores : Scores;
  modifie : bool;
  fichier : option Scores
}.

Definition set_communs (v : gmap Z bytes) (st : Ranking2Store) : Ranking2Store :=
  mkR2 v (scores st) (modifie st) (fichier st).

Definition deposer (categorie : Z) (e : entreeClassement) (st : Ranking2Store) : bool * Ranking2Store :=
  let cat := default ∅ (scores st !! categorie) in
  let garde :=
    match cat !! e_PID e with
    | Some ancien => e_Score e <=? e_Score ancien
    | None => false
    end in
  if garde then (false, mkR2 (communs st) (<[categorie := cat]> (scores st)) (modifie st) (fichier st))
  else (true, mkR2 (communs st) (<[categorie := <[e_PID e := e]> cat]> (scores st)) true (fichier st)).

(** The order of a board: the better score first, the smaller PID at equal scores. *)
Definition devant (a b : entreeClassement) : bool :=
  if negb (e_Score a =? e_Score b) then e_Score b <? e_Score a else e_PID a <? e_PID b.

Definition donneesCommunes (p : Z) (s : Settings) (st : Ranking2Store) : Ranking2CommonData :=
  match communs st !! p with
  | None | Some [] => zero_common
  | Some brut =>
      let '(d, i) := rExtract zero_common (NewStreamIn brut s) in
      match si_err i with Some _ => zero_common | None => d end
  end.

Definition Charger (persiste : bool) (st : Ranking2Store) : Ranking2Store :=
  if negb persiste then st
  else match fichier st with
       | None => st
       | Some f => mkR2 (communs st) f (modifie st) (fichier st)
       end.

(** A start of the process, with what the file holds. *)
Definition NewRanking2Store (persiste : bool) (file : option Scores) : Ranking2Store :=
  Charger persiste (mkR2 ∅ ∅ false file).

(** [Ecrire] in its two halves: the copy made under the lock, and the file put in place
    after it is released, when nothing fails. *)
Definition Ecrire_copy (persiste : bool) (st : Ranking2Store) : option Scores * Ranking2Store :=
  if negb persiste || negb (modifie st) then (None, st)
  else (Some (scores st), mkR2 (communs st) (scores st) false (fichier st)).

Definition Ecrire_file (f : Scores) (st : Ranking2Store) : Ranking2Store :=
  mkR2 (communs st) (scores st) (modifie st) (Some f).

Definition Ecrire (persiste written : bool) (st : Ranking2Store) : Ranking2Store :=
  let '(f, st) := Ecrire_copy persiste st in
  match f with
  | Some f => if written then Ecrire_file f st else st
  | None => st
  end.

Section boards.
Context `{MO : MapOrder} `{SS : SliceSort}.

Definition classement (categorie : Z) (st : Ranking2Store) : list entreeClassement :=
  sort_slice devant (range (default ∅ (scores st !! categorie))).*2.

(** The line of the entry at index [idx]. *)
Definition rank_row (s : Settings) (st : Ranking2Store) (idx : nat) (e : entreeClassement) : Ranking2RankData :=
  mkRankData (e_Misc e) (e_NexUniqueID e) (e_PID e) (u32 (Z.of_nat idx + 1)) (e_Score e)
    (donneesCommunes (e_PID e) s st).

(** The window of [GetRanking]: [tous[debut:fin]] with its ranks. *)
Definition ranking_page (s : Settings) (offset len categorie : Z) (st : Ranking2Store) : Ranking2Info :=
  let tous := classement categorie st in
  let debut := offset `min` zlen tous in
  let fin := if (0 <? len) && (debut + len <? zlen tous) then debut + len else zlen tous in
  mkInfo (imap (λ i e, rank_row s st (Z.to_nat debut + i) e) (take (Z.to_nat fin - Z.to_nat debut) (drop (Z.to_nat debut) tous)))
    ranking2LowestRank (u32 (zlen tous)) 0.

(** The lines of [GetRankingByPrincipalId]. *)
Definition ranking_of (s : Settings) (voulus : list Z) (categorie : Z) (st : Ranking2Store) : Ranking2Info :=
  let tous := classement categorie st in
  mkInfo (filter (λ d, rd_PrincipalID d ∈ voulus) (imap (rank_row s st) tous))
    ranking2LowestRank (u32 (zlen tous)) 0.

(** The loop of [GetEstimateMyRank]: the first entry of the player. *)
Definition estimate (p categorie : Z) (st : Ranking2Store) : Ranking2EstimateScoreRankOutput :=
  let tous := classement categorie st in
  match list_find (λ e, e_PID e = p) tous with
  | Some (idx, e) => mkEstimate (u32 (Z.of_nat idx + 1)) (u32 (zlen tous)) (e_Score e) categorie 0 1
  | None => mkEstimate (u32 (zlen tous + 1)) (u32 (zlen tous)) 0 categorie 0 1
  end.

(** ** The handlers *)
Context {App : Type} `{HR : !Substate Ranking2Store App}.
#[local] Abbreviation Net := (NetOf App).
Implicit Types (n : Net) (r : Ref) (req : RMCMessage).
(** [NEX_RANKING2_FICHIER] is set; a write of the file goes through. *)
Context (persiste : bool) (written : Net → bool).

Definition r2 (n : Net) : Ranking2Store := comp n.

(** The body of a PutScore: the scores and the unique identifier; [None] past 256 scores. *)
Definition rPutScore : Reader (option (list Ranking2ScoreData * Z)) :=
  read! k := rU32 in
  if 256 <? k then rret None
  else
    read! l := rrepeat (Z.to_nat k) (rExtract zero_score) in
    λ i, if 8 <=? Remaining i then (read! u := rU64 in rret (Some (l, u))) i else (Some (l, 0), i).

Definition deposer_tout (p uid : Z) (l : list Ranking2ScoreData) (st : Ranking2Store) : Ranking2Store :=
  foldl (λ st d, (deposer (sd_Category d) (mkEntree p uid (sd_Misc d) (sd_Score d)) st).2) st l.

Definition PutScore (r : Ref) (req : RMCMessage) (n : Net) : Net :=
  match read_body n req rPutScore, read_err n req rPutScore with
  | Some (l, uid), None => upd_comp (λ st, Ecrire persiste (written n) (deposer_tout (PID (conn r n)) uid l st)) n
  | _, _ => n
  end.

Definition GetCommonData (r : Ref) (req : RMCMessage) (n : Net) : RMCMessage :=
  let rd := skip! rU32 in rPID in
  let cible := read_body n req rd in
  let cible :=
    if bool_decide (is_Some (read_err n req rd)) || (cible =? 0) then PID (conn r n) else cible in
  reply n ProtocolRanking2 req (wAdd (donneesCommunes cible (settings n) (r2 n))).

Definition rVoulus : Reader (Ranking2GetByListParam * list Z) :=
  read! p := rExtract zero_bylist in
  read! k := rU32 in
  read! l := rrepeat (Z.to_nat (if 1024 <? k then 0 else k)) rPID in
  rret (p, l).

Definition GetRankingByPIDs (req : RMCMessage) (n : Net) : RMCMessage :=
  let '(p, l) := read_body n req rVoulus in
  let voulus := if bool_decide (is_Some (read_err n req rVoulus)) then [] else l in
  reply n ProtocolRanking2 req (wAdd (ranking_of (settings n) voulus (bl_Category p) (r2 n))).

Definition categorySetting : Ranking2CategorySetting :=
  mkSetting 0 999999999 ranking2LowestRank 4095 0 0 0 0 true.

(** [Ranking2Store.Handler]. *)
Definition Ranking2Handler (r : Ref) (req : RMCMessage) (n : Net) : option RMCMessage * Net :=
  let m := Method req in
  let proto := ProtocolRanking2 in
  if m =? MethodRanking2PutScore then (Some (ack n proto req), PutScore r req n)
  else if m =? MethodRanking2PutCommonData then
    (Some (ack n proto req), upd_comp (λ st, set_communs (<[PID (conn r n) := Body req]> (communs st)) st) n)
  else if m =? MethodRanking2GetCommonData then (Some (GetCommonData r req n), n)
  else if m =? MethodRanking2DelCommonData then
    (Some (ack n proto req), upd_comp (λ st, set_communs (delete (PID (conn r n)) (communs st)) st) n)
  else if m =? MethodRanking2GetRanking then
    let p := read_body n req (rExtract zero_get) in
    (Some (reply n proto req
             (wAdd (ranking_page (settings n) (gp_Offset p) (gp_Length p) (gp_Category p) (r2 n)))), n)
  else if m =? MethodRanking2GetRankingByPIDs then (Some (GetRankingByPIDs req n), n)
  else if m =? MethodRanking2GetEstimateMyRank then
    (Some (reply n proto req (wAdd (estimate (PID (conn r n)) (read_body n req rU32) (r2 n)))), n)
  else if m =? MethodRanking2GetCategorySetting then (Some (reply n proto req (wAdd categorySetting)), n)
  else (Some (notImplemented (settings n) proto req), n).
End boards.
