(* ===== verification/Ranking2Props.v ===== *)
(** * What Ranking2 guarantees

    A board keeps each player's best score, in one order whatever the map's and the sort's,
    and every request that names a rank names the same; a player's common data come back as
    deposited; scores survive a restart when the writes of the file do not overlap. *)

From S2P Require Export Ranking2.

(** An entry is stored under its player. *)
Definition scores_ok (s : Scores) : Prop :=
  ∀ c m p e, s !! c = Some m → m !! p = Some e → e_PID e = p.

Lemma devant_strict : strict_weak devant.
Proof.
  split; unfold devant.
  - intros x y. repeat case_match; lia.
  - intros x y z. repeat case_match; lia.
Qed.

Lemma eq_Permutation {A} (l k : list A) : l = k → l ≡ₚ k.
Proof. by intros ->. Qed.

Lemma deposer_ok c e st : scores_ok (scores st) → scores_ok (scores (deposer c e st).2).
Proof.
  intros Hok. assert (scores_ok (<[c := default ∅ (scores st !! c)]> (scores st))) as H0.
  { intros c' m p e'. destruct (decide (c' = c)) as [->|]; [|rewrite lookup_insert_ne by done; apply Hok].
    rewrite lookup_insert_eq. intros [= <-]. destruct (scores st !! c) eqn:E; [by eapply Hok|].
    cbn. by rewrite lookup_empty. }
  unfold deposer. cbv zeta. destruct (match _ !! _ with Some _ => _ | None => _ end); [exact H0|].
  intros c' m p e'. cbn [snd scores]. destruct (decide (c' = c)) as [->|].
  - rewrite lookup_insert_eq. intros [= <-]. destruct (decide (p = e_PID e)) as [->|].
    + rewrite lookup_insert_eq. congruence.
    + rewrite lookup_insert_ne by done. apply (H0 c). by rewrite lookup_insert_eq.
  - rewrite lookup_insert_ne by done. apply Hok.
Qed.

Section boards.
Context `{MO : MapOrder} `{SS : SliceSort}.

Lemma elem_of_classement c st e :
  e ∈ classement c st ↔ ∃ p, default ∅ (scores st !! c) !! p = Some e.
Proof.
  unfold classement. rewrite elem_of_sort_slice, list_elem_of_fmap. split.
  - intros ([p e'] & -> & H%elem_of_range). eauto.
  - intros [p H]. exists (p, e). split; [done|]. by apply elem_of_range.
Qed.

Lemma length_classement c st : length (classement c st) = size (default ∅ (scores st !! c)).
Proof. unfold classement. by rewrite length_sort_slice, length_fmap, length_range. Qed.

Lemma classement_pids c st :
  scores_ok (scores st) → (e_PID <$> classement c st) ≡ₚ (range (default ∅ (scores st !! c))).*1.
Proof.
  intros Hok. unfold classement. rewrite sort_slice_perm, <- list_fmap_compose.
  apply eq_Permutation, list_fmap_ext. intros i [p e] Hi. cbn.
  apply list_elem_of_lookup_2, elem_of_range in Hi.
  destruct (scores st !! c) eqn:E; [by eapply Hok|by cbn in Hi; rewrite lookup_empty in Hi].
Qed.

Lemma classement_NoDup c st : scores_ok (scores st) → NoDup (e_PID <$> classement c st).
Proof. intros Hok. rewrite classement_pids by done. apply NoDup_fst_range. Qed.

(** The comparison tells the entries of a board apart. *)
Lemma classement_strict c st :
  scores_ok (scores st) → StronglySorted (λ a b, devant a b = true) (classement c st).
Proof.
  intros Hok. pose proof (classement_NoDup c st Hok) as Hnd.
  pose proof (sort_slice_strongly devant devant_strict (range (default ∅ (scores st !! c))).*2) as Hs.
  fold (classement c st) in Hs. induction Hs as [|a l _ IH Ha]; [constructor|].
  cbn [fmap list_fmap] in Hnd. apply NoDup_cons in Hnd as [Hni Hnd].
  constructor; [by apply IH|]. rewrite Forall_forall in Ha |- *. intros b Hb. specialize (Ha b Hb).
  assert (e_PID a ≠ e_PID b) as Hne by (intros Heq; apply Hni; rewrite Heq; by apply list_elem_of_fmap_2).
  unfold not_after, devant in *. repeat case_match; lia.
Qed.
End boards.

(** A board, as GetRanking and the other requests see it: every player with a score in the
    category, once, the better score first and the smaller PID at equal scores.  It is the
    same list whatever order Go visits the map in and however its sort arranges equal
    elements. *)
Theorem classement_spec (MO MO' : MapOrder) (SS SS' : SliceSort) c st :
  scores_ok (scores st) →
  let l := classement (MO := MO) (SS := SS) c st in
  (∀ e, e ∈ l ↔ scores st !! c ≫= lookup (e_PID e) = Some e) ∧
  NoDup (e_PID <$> l) ∧
  StronglySorted (λ a b, e_Score b < e_Score a ∨ e_Score a = e_Score b ∧ e_PID a < e_PID b) l ∧
  classement (MO := MO') (SS := SS') c st = l.
Proof.
  intros Hok l. split_and!.
  - intros e. subst l. rewrite elem_of_classement. destruct (scores st !! c) as [m|] eqn:E; cbn.
    + split; [|by eauto]. intros [p Hp]. by rewrite (Hok _ _ _ _ E Hp).
    + split; [|done]. intros [p Hp]. by rewrite lookup_empty in Hp.
  - by apply classement_NoDup.
  - eapply StronglySorted_weaken; [|by apply (classement_strict c st)].
    intros a b. unfold devant. case_match; lia.
  - symmetry. apply sort_slice_unique; [apply devant_strict| | |].
    + intros x y ([p x'] & -> & Hx%elem_of_range)%list_elem_of_fmap ([q y'] & -> & Hy%elem_of_range)%list_elem_of_fmap.
      cbn [snd]. unfold devant. intros H1 H2. assert (e_PID x' = e_PID y') as Hpq by (repeat case_match; lia).
      destruct (scores st !! c) as [m|] eqn:E; cbn in Hx, Hy; [|by rewrite lookup_empty in Hx].
      rewrite (Hok _ _ _ _ E Hx), (Hok _ _ _ _ E Hy) in Hpq. congruence.
    + apply sort_slice_sorted, devant_strict.
    + unfold classement. rewrite sort_slice_perm. apply fmap_Permutation. by rewrite !range_perm.
Qed.

(** ** The best score *)

Definition entry (st : Ranking2Store) (c p : Z) : option entreeClassement := scores st !! c ≫= lookup p.

Lemma entry_deposer c e st c' p :
  entry (deposer c e st).2 c' p =
    if decide (c' = c ∧ p = e_PID e) then
      match entry st c p with
      | Some a => if e_Score e <=? e_Score a then Some a else Some e
      | None => Some e
      end
    else entry st c' p.
Proof.
  unfold entry, deposer. cbv zeta. set (cat := default ∅ (scores st !! c)).
  assert (scores st !! c ≫= lookup p = cat !! p) as Hp by (subst cat; by destruct (scores st !! c)).
  destruct (decide (c' = c)) as [->|Hc].
  - destruct (cat !! e_PID e) as [a|] eqn:E; [destruct (e_Score e <=? e_Score a) eqn:Es|];
      cbn [snd scores]; rewrite lookup_insert_eq; cbn [option_bind]; rewrite Hp;
      (destruct (decide (p = e_PID e)) as [->|Hpe];
       [rewrite (decide_True (P := _ ∧ _)) by done|rewrite (decide_False (P := _ ∧ _)) by tauto]).
    + by rewrite E, Es.
    + done.
    + change (Some a ≫= lookup (e_PID e)) with (Some a). cbn. by rewrite lookup_insert_eq, E, Es.
    + cbn. by rewrite lookup_insert_ne.
    + cbn. by rewrite lookup_insert_eq, E.
    + cbn. by rewrite lookup_insert_ne.
  - rewrite (decide_False (P := _ ∧ _)) by tauto.
    destruct (match _ !! _ with Some _ => _ | None => _ end); cbn [snd scores]; by rewrite lookup_insert_ne.
Qed.

(** Deposits in order, on an empty store. *)
Definition deposits (l : list (Z * entreeClassement)) : Ranking2Store :=
  foldl (λ st d, (deposer d.1 d.2 st).2) (NewRanking2Store false None) l.

Lemma deposits_snoc l d : deposits (l ++ [d]) = (deposer d.1 d.2 (deposits l)).2.
Proof. unfold deposits. by rewrite foldl_app. Qed.

(** C33: The entry a player has in a category, after any deposits: the best score of theirs in
    that category, as it was deposited with its identifier and its misc field, the first time
    it was reached; and none exactly when they deposited nothing there. *)
Theorem best_score_kept l c p :
  match entry (deposits l) c p with
  | Some e =>
      e_PID e = p ∧
      ∃ before after, l = before ++ (c, e) :: after ∧
        (∀ e', (c, e') ∈ before → e_PID e' = p → e_Score e' < e_Score e) ∧
        (∀ e', (c, e') ∈ after → e_PID e' = p → e_Score e' ≤ e_Score e)
  | None => ∀ e', (c, e') ∈ l → e_PID e' ≠ p
  end.
Proof.
  induction l as [|[c1 e1] l IH] using rev_ind.
  { change (entry (deposits []) c p) with ((∅ : Scores) !! c ≫= lookup p). rewrite lookup_empty. cbn.
    by intros e' ?%elem_of_nil. }
  rewrite deposits_snoc, entry_deposer. cbn [fst snd].
  destruct (decide (c = c1 ∧ p = e_PID e1)) as [[-> ->]|Hne].
  - destruct (entry (deposits l) c1 (e_PID e1)) as [a|].
    + destruct IH as (Hp & bf & af & -> & Hb & Ha). destruct (Z.leb_spec (e_Score e1) (e_Score a)).
      * split; [done|]. exists bf, (af ++ [(c1, e1)]). split; [by rewrite <- app_assoc|]. split; [done|].
        intros e' [Hin|[= ->]%list_elem_of_singleton]%elem_of_app Hp'; [by apply Ha|done].
      * split; [done|]. eexists _, []. split; [done|]. split; [|by intros e' ?%elem_of_nil].
        intros e' [Hin|[[= ->]|Hin]%elem_of_cons]%elem_of_app Hp'; [|lia|].
        -- specialize (Hb e' Hin Hp'). lia.
        -- specialize (Ha e' Hin Hp'). lia.
    + split; [done|]. exists l, []. split; [done|]. split; [|by intros e' ?%elem_of_nil].
      intros e' Hin Hp'. by destruct (IH e' Hin).
  - destruct (entry (deposits l) c p) as [a|].
    + destruct IH as (Hp & bf & af & -> & Hb & Ha). split; [done|].
      exists bf, (af ++ [(c1, e1)]). split; [by rewrite <- app_assoc|]. split; [done|].
      intros e' [Hin|[= <- ->]%list_elem_of_singleton]%elem_of_app Hp'; [by apply Ha|naive_solver].
    + intros e' [Hin|[= <- ->]%list_elem_of_singleton]%elem_of_app; [by apply IH|naive_solver].
Qed.

(** ** Ranks *)
Lemma strict_filter {A} (lt : A → A → bool) l1 e l2 :
  strict_weak lt → StronglySorted (λ a b, lt a b = true) (l1 ++ e :: l2) →
  filter (λ x, lt x e = true) (l1 ++ e :: l2) = l1.
Proof.
  intros [Hasym _] Hs. rewrite filter_app.
  pose proof (StronglySorted_app_1_r _ _ _ Hs) as Hs2. apply StronglySorted_inv in Hs2 as [_ He].
  rewrite filter_id; [|intros x Hx; eapply (StronglySorted_app_1_elem_of _ _ _ _ _ Hs Hx); by left].
  rewrite filter_cons_False by (intros H; by rewrite (Hasym e e) in H).
  rewrite filter_none, app_nil_r; [done|].
  intros x Hx Hlt. rewrite Forall_forall in He. specialize (He x Hx). by rewrite (Hasym e x) in Hlt.
Qed.

Section ranks.
Context `{MO : MapOrder} `{SS : SliceSort}.

(** Who comes before an entry on its board. *)
Definition ahead (c : Z) (st : Ranking2Store) (e : entreeClassement) : list entreeClassement :=
  filter (λ x, devant x e = true) (range (default ∅ (scores st !! c))).*2.

(** An entry's place on its board is the number of those ahead of it. *)
Lemma classement_split c st p e :
  scores_ok (scores st) → entry st c p = Some e →
  ∃ l1 l2, classement c st = l1 ++ e :: l2 ∧ length l1 = length (ahead c st e) ∧ e_PID e = p ∧
    p ∉ e_PID <$> l1 ∧ p ∉ e_PID <$> l2.
Proof.
  intros Hok He. assert (e_PID e = p) as <-.
  { unfold entry in He. destruct (scores st !! c) eqn:E; [|done]. by eapply Hok. }
  assert (e ∈ classement c st) as (l1 & l2 & Hl)%list_elem_of_split.
  { apply elem_of_classement. exists (e_PID e). unfold entry in He. by destruct (scores st !! c). }
  exists l1, l2. split; [done|].
  pose proof (classement_strict c st Hok) as Hs. pose proof (classement_NoDup c st Hok) as Hnd.
  split; [|split; [done|]].
  - unfold ahead. rewrite <- (sort_slice_perm devant (range (default ∅ (scores st !! c))).*2).
    fold (classement c st). rewrite Hl in Hs |- *. by rewrite (strict_filter devant) by (done || apply devant_strict).
  - rewrite Hl, fmap_app, fmap_cons in Hnd. apply NoDup_app in Hnd as (_ & H1 & H2).
    apply NoDup_cons in H2 as [H2 _]. split; [|done]. intros Hin. apply (H1 _ Hin). by left.
Qed.

Lemma estimate_found p c st l1 e l2 :
  classement c st = l1 ++ e :: l2 → e_PID e = p → p ∉ e_PID <$> l1 →
  estimate p c st = mkEstimate (u32 (Z.of_nat (length l1) + 1)) (u32 (zlen (classement c st))) (e_Score e) c 0 1.
Proof.
  intros Hl Hp Hni. unfold estimate.
  assert (list_find (λ e, e_PID e = p) (classement c st) = Some (length l1, e)) as ->; [|done].
  apply list_find_Some. rewrite Hl, list_lookup_middle by done. split_and!; [done|done|].
  intros j y Hj Hlt Hy. rewrite lookup_app_l in Hj by lia. apply Hni. rewrite <- Hy.
  by eapply list_elem_of_fmap_2, list_elem_of_lookup_2.
Qed.

Lemma ranking_of_found s p c st l1 e l2 :
  classement c st = l1 ++ e :: l2 → e_PID e = p → p ∉ e_PID <$> l1 → p ∉ e_PID <$> l2 →
  Data (ranking_of s [p] c st) = [rank_row s st (length l1) e].
Proof.
  intros Hl Hp H1 H2. unfold ranking_of. cbn [Data]. rewrite Hl, imap_app. cbn [imap].
  assert (∀ (f : nat → entreeClassement → Ranking2RankData) l, (∀ i x, rd_PrincipalID (f i x) = e_PID x) →
    p ∉ e_PID <$> l → filter (λ d, rd_PrincipalID d ∈ [p]) (imap f l) = []) as Hnone.
  { intros f l Hf Hl'. apply filter_none. intros d Hd%elem_of_lookup_imap.
    destruct Hd as (i & x & -> & Hx). rewrite Hf, list_elem_of_singleton. intros <-.
    apply Hl'. by eapply list_elem_of_fmap_2, list_elem_of_lookup_2. }
  rewrite filter_app, Hnone by done. rewrite filter_cons_True by (cbn; by rewrite Hp; left).
  rewrite Hnone by done. by rewrite Nat.add_0_r.
Qed.
End ranks.

(** C32: One rank, whoever asks.  For a player on a board, the rank is one more than the number
    of players ahead; GetEstimateMyRank gives it with the player's score,
    GetRankingByPrincipalId gives it on the player's line, and it is the line at that offset
    of GetRanking.  A player who is not on the board is told the place after the last, and
    has no line. *)
Theorem ranks_agree `{MO : MapOrder} `{SS : SliceSort} s c p st :
  scores_ok (scores st) → is_u32 (Z.of_nat (size (default ∅ (scores st !! c))) + 1) →
  match entry st c p with
  | Some e =>
      let k := length (ahead c st e) in
      let row := mkRankData (e_Misc e) (e_NexUniqueID e) p (Z.of_nat k + 1) (e_Score e) (donneesCommunes p s st) in
      es_Rank (estimate p c st) = Z.of_nat k + 1 ∧ es_Score (estimate p c st) = e_Score e ∧
      Data (ranking_of s [p] c st) = [row] ∧ Data (ranking_page s (Z.of_nat k) 1 c st) = [row]
  | None =>
      es_Rank (estimate p c st) = Z.of_nat (size (default ∅ (scores st !! c))) + 1 ∧
      es_Score (estimate p c st) = 0 ∧ Data (ranking_of s [p] c st) = []
  end.
Proof.
  intros Hok Hsz. pose proof (length_classement c st) as Hlen.
  destruct (entry st c p) as [e|] eqn:He.
  - destruct (classement_split c st p e Hok He) as (l1 & l2 & Hl & Hk & Hp & H1 & H2).
    rewrite Hl, length_app in Hlen. cbn [length] in Hlen. unfold is_u in Hsz.
    rewrite (estimate_found p c st l1 e l2), (ranking_of_found s p c st l1 e l2) by done.
    cbn [es_Rank es_Score]. unfold rank_row. rewrite <- Hk, Hp, (wrap_small 32) by (unfold is_u; lia).
    split_and!; [done|done|done|]. unfold ranking_page. cbv zeta. cbn [Data].
    rewrite Hl. unfold zlen. rewrite length_app. cbn [length].
    rewrite Z.min_l by lia. rewrite Nat2Z.id, drop_app_length.
    assert (∀ fin, fin = Z.of_nat (length l1) + 1 →
      take (Z.to_nat fin - length l1) (e :: l2) = [e]) as Htake.
    { intros fin ->. by replace (Z.to_nat _ - length l1)%nat with 1%nat by lia. }
    rewrite Htake.
    + cbn [imap]. unfold rank_row. by rewrite Nat.add_0_r, Hp, (wrap_small 32) by (unfold is_u; lia).
    + cbn [andb]. destruct (Z.ltb_spec 0 1); [|lia]. cbn [andb].
      destruct (Z.ltb_spec (Z.of_nat (length l1) + 1) (Z.of_nat (length l1 + S (length l2)))); lia.
  - assert (∀ e, e ∈ classement c st → e_PID e ≠ p) as Hno.
    { intros e [q Hq]%elem_of_classement <-. unfold entry in He.
      destruct (scores st !! c) as [m|] eqn:E; cbn in He, Hq; [|by rewrite lookup_empty in Hq].
      rewrite (Hok _ _ _ _ E Hq) in He. congruence. }
    unfold estimate. rewrite (proj2 (list_find_None _ _)) by (by apply Forall_forall).
    cbn [es_Rank es_Score]. unfold zlen. rewrite Hlen, (wrap_small 32) by done. split_and!; [done|done|].
    unfold ranking_of. cbn [Data]. apply filter_none. intros d (i & e & -> & Hi)%elem_of_lookup_imap.
    cbn. rewrite list_elem_of_singleton. apply Hno. by eapply list_elem_of_lookup_2.
Qed.

(** ** The file *)

(** Nothing waits to be written, and a start would read back the scores. *)
Definition persisted (st : Ranking2Store) : Prop :=
  modifie st = false ∧ scores (NewRanking2Store true (fichier st)) = scores st.

Lemma deposer_keeps_file c e st :
  fichier (deposer c e st).2 = fichier st ∧
  ((deposer c e st).1 = false → (deposer c e st).2 = st) ∧
  ((deposer c e st).1 = true → modifie (deposer c e st).2 = true).
Proof.
  unfold deposer. cbv zeta. destruct (scores st !! c) as [m|] eqn:E; cbn [default from_option id].
  - destruct (match m !! _ with Some _ => _ | None => _ end); split_and!; try done.
    intros _. destruct st. cbn in *. by rewrite insert_id.
  - rewrite lookup_empty. by split_and!.
Qed.

Lemma deposer_tout_file p uid l st :
  let st' := deposer_tout p uid l st in
  fichier st' = fichier st ∧ (modifie st' = true ∨ st' = st).
Proof.
  revert st. induction l as [|d l IH]; intros st; [by split; [|right]|].
  pose (e := mkEntree p uid (sd_Misc d) (sd_Score d)).
  change (deposer_tout p uid (d :: l) st) with (deposer_tout p uid l (deposer (sd_Category d) e st).2). cbv zeta.
  destruct (deposer_keeps_file (sd_Category d) e st) as (Hf & H0 & H1).
  destruct (IH (deposer (sd_Category d) e st).2) as [-> [?|Heq]]; [by auto|].
  split; [done|]. destruct (deposer _ e st).1 eqn:Eb; [left; rewrite Heq; by apply H1|].
  right. rewrite Heq. by apply H0.
Qed.

Lemma Ecrire_persists st st' :
  persisted st → fichier st' = fichier st → modifie st' = true ∨ st' = st → persisted (Ecrire true true st').
Proof.
  intros [Hm Hs] Hf H. unfold Ecrire, Ecrire_copy. cbn [negb orb].
  destruct (modifie st') eqn:Em; [done|]. destruct H as [H| ->]; [congruence|done].
Qed.

(** C34: A restart loses no score when the writes go through one by one.  After any requests, on
    any connections, whatever they hold, provided that every write of the file goes through and
    is over before the next request, a process that starts with the file that is there has the
    boards there were.  Without that proviso a score may be missing: see below. *)
Theorem restart_keeps_scores `{MO : MapOrder} `{SS : SliceSort} (reqs : list (Ref * RMCMessage))
    (n : NetOf Ranking2Store) file :
  r2 n = NewRanking2Store true file →
  let n' := foldl (λ n q, (Ranking2Handler true (λ _, true) q.1 q.2 n).2) n reqs in
  scores (NewRanking2Store true (fichier (r2 n'))) = scores (r2 n').
Proof.
  intros H0. assert (persisted (r2 n)) as Hn by (rewrite H0; by destruct file).
  clear H0. cut (∀ m : NetOf Ranking2Store, persisted (r2 m) →
    persisted (r2 (foldl (λ n q, (Ranking2Handler true (λ _, true) q.1 q.2 n).2) m reqs))).
  { intros H. by destruct (H n Hn). }
  clear n Hn. induction reqs as [|[r req] reqs IH]; intros m Hm; [done|]. cbn [foldl fst snd].
  apply IH. unfold Ranking2Handler. repeat (case_match; [cbn [snd]|]); try done.
  unfold PutScore. destruct (read_body _ _ _) as [[l uid]|]; [|done].
  destruct (read_err _ _ _); [done|]. unfold r2 in *. rewrite comp_upd.
  destruct (deposer_tout_file (PID (conn r m)) uid l (comp m)). by eapply Ecrire_persists.
Qed.

(** Overlapping writes lose a score.  [Ecrire] copies the boards under the lock and writes the
    file after releasing it: when a second deposit copies and writes between the two halves of
    a first one, the older copy lands last.  Nothing is left to write, and a start from that
    file does not know the second score. *)
Theorem overlapping_writes_lose_a_score :
  let st0 := NewRanking2Store true None in
  let st1 := (deposer 1 (mkEntree 100 0 0 5000) st0).2 in
  let '(copy1, st2) := Ecrire_copy true st1 in
  let st3 := (deposer 1 (mkEntree 200 0 0 7000) st2).2 in
  let '(copy2, st4) := Ecrire_copy true st3 in
  let st5 := Ecrire_file (default ∅ copy1) (Ecrire_file (default ∅ copy2) st4) in
  entry st5 1 200 = Some (mkEntree 200 0 0 7000) ∧ modifie st5 = false ∧
  entry (NewRanking2Store true (fichier (Ecrire true true st5))) 1 200 = None.
Proof. vm_compute. split_and!; reflexivity. Qed.

(** ** Common data *)
Definition common_ok (s : Settings) (d : Ranking2CommonData) : Prop :=
  str_ok (UserName d) ∧ is_u16 (zlen (Mii d)) ∧ is_u16 (zlen (BinaryData d)) ∧
  buf_ok (body s (wStringVideZero (UserName d) ;;; wQBuffer (Mii d) ;;; wQBuffer (BinaryData d))).

Lemma rt1_common s d d0 : common_ok s d → rt1 s (wAdd d) (rExtract d0) d.
Proof.
  intros (H1 & H2 & H3 & H4). eapply rt1_structure; [done|done|done|done|done| |done].
  destruct d as [u m b]. cbn [UserName Mii BinaryData] in *.
  eapply rt1_bind; [by apply rt1_StringVideZero|]. apply rt1_rt.
  eapply rt1_bind; [by apply rt1_QBuffer|]. apply rt1_rt. eapply rt1_map; [by apply rt1_QBuffer|done].
Qed.

(** What PutCommonData keeps reads back as the structure it starts with. *)
Lemma donneesCommunes_put p s d rest st :
  common_ok s d → donneesCommunes p s (set_communs (<[p := body s (wAdd d) ++ rest]> (communs st)) st) = d.
Proof.
  intros Hd. destruct (rt1_common s d zero_common Hd) as (bs & Hne & W & R).
  unfold donneesCommunes. cbn [communs set_communs]. rewrite lookup_insert_eq, (body_writes s _ bs W).
  destruct bs as [|b bs]; [done|]. cbn [app].
  specialize (R [] rest). unfold at_ in R. cbn [app length] in R. unfold NewStreamIn. by rewrite R.
Qed.

Section common.
Context `{MO : MapOrder} `{SS : SliceSort} {App : Type} `{HR : !Substate Ranking2Store App}.

(** A player's common data reach the others as they were deposited: after a PutCommonData
    whose body is the structure and the 64-bit identifier that follows it, whoever asks for
    that player is answered the bytes of the structure, all of them and no more. *)
Theorem common_data_served persiste written r req r' req' flags d uid (n : NetOf App) :
  Method req = MethodRanking2PutCommonData → Method req' = MethodRanking2GetCommonData →
  common_ok (settings n) d → Body req = body (settings n) (wAdd d ;;; wU64 uid) →
  PID (conn r n) ≠ 0 → pid_ok (settings n) (PID (conn r n)) → is_u32 flags →
  Body req' = body (settings n) (wU32 flags ;;; wPID (PID (conn r n))) →
  let n' := (Ranking2Handler persiste written r req n).2 in
  (Ranking2Handler persiste written r' req' n').1 =
    Some (NewRMCSuccess (settings n) ProtocolRanking2 (Method req') (CallID req') (body (settings n) (wAdd d))).
Proof.
  intros Hm Hm' Hd Hb Hp Hpid Hf Hb'. unfold Ranking2Handler. rewrite Hm, Hm'. cbn [snd fst].
  change (MethodRanking2PutCommonData =? MethodRanking2PutScore) with false.
  change (MethodRanking2GetCommonData =? MethodRanking2PutScore) with false. cbv iota.
  rewrite Z.eqb_refl. change (MethodRanking2GetCommonData =? MethodRanking2PutCommonData) with false.
  rewrite Z.eqb_refl. cbv iota. cbn [fst snd]. unfold GetCommonData. f_equal.
  destruct (rt_whole (settings n) (wU32 flags ;;; wPID (PID (conn r n))) (skip! rU32 in rPID) (PID (conn r n))) as (i & Hi & _ & He).
  { apply rt1_rt. eapply rt1_bind; [by apply rt1_U32|]. by apply rt1_rt, rt1_PID. }
  unfold read_body, read_err. rewrite Hb'. unfold body.
  change (settings (upd_comp _ n)) with (settings n). rewrite Hi. cbn [fst snd]. rewrite He.
  rewrite bool_decide_false by (by intros []). rewrite (proj2 (Z.eqb_neq _ _)) by done. cbn [orb].
  unfold reply. change (settings (upd_comp _ n)) with (settings n). unfold r2. rewrite comp_upd, Hb.
  assert (body (settings n) (wAdd d ;;; wU64 uid) = body (settings n) (wAdd d) ++ le_bytes 8 uid) as ->.
  { destruct (rt1_common (settings n) d zero_common Hd) as (bs & _ & W & _).
    rewrite (body_writes _ _ bs W). apply body_writes. by apply writes_seq. }
  by rewrite donneesCommunes_put, Hm'.
Qed.
End common.

(** ** On concrete boards *)
Definition board0 : Ranking2Store :=
  deposits [(1, mkEntree 100 7 8 5000); (1, mkEntree 200 0 0 7000); (1, mkEntree 300 0 0 5000);
            (2, mkEntree 300 0 0 1); (1, mkEntree 100 7 9 4000)].

Lemma deposits_ok l : scores_ok (scores (deposits l)).
Proof.
  induction l as [|d l IH] using rev_ind.
  - intros c m p e. change (scores (deposits [])) with (∅ : Scores). by rewrite lookup_empty.
  - rewrite deposits_snoc. by apply deposer_ok.
Qed.

Lemma classement_spec_witness :
  scores_ok (scores board0) ∧
  classement (MO := canonical_order) (SS := merge_slices) 1 board0 =
    [mkEntree 200 0 0 7000; mkEntree 100 7 8 5000; mkEntree 300 0 0 5000] ∧
  classement (MO := reversed_order) (SS := merge_slices) 1 board0 =
    classement (MO := canonical_order) (SS := merge_slices) 1 board0.
Proof.
  assert (scores_ok (scores board0)) as H by apply deposits_ok.
  split; [exact H|]. split; [vm_compute; reflexivity|].
  apply (classement_spec canonical_order reversed_order merge_slices merge_slices 1 board0 H).
Defined.

Lemma ranks_agree_witness :
  let s := NewSwitchSettings [] 40302 in
  scores_ok (scores board0) ∧
  Data (ranking_of (MO := canonical_order) (SS := merge_slices) s [300] 1 board0) =
    [mkRankData 0 0 300 3 5000 zero_common] ∧
  es_Rank (estimate (MO := canonical_order) (SS := merge_slices) 400 1 board0) = 4.
Proof.
  intros s. assert (scores_ok (scores board0)) as H by apply deposits_ok.
  assert (is_u32 (Z.of_nat (size (default ∅ (scores board0 !! 1))) + 1)) as Hs by (vm_compute; done).
  split; [exact H|]. split.
  - refine (eq_trans (proj1 (proj2 (proj2 (ranks_agree (MO := canonical_order) (SS := merge_slices) s 1 300 board0 H Hs)))) _).
    vm_compute. reflexivity.
  - refine (eq_trans (proj1 (ranks_agree (MO := canonical_order) (SS := merge_slices) s 1 400 board0 H Hs)) _).
    vm_compute. reflexivity.
Defined.

(** A process with two consoles connected. *)
Definition consoles (st : Ranking2Store) : NetOf Ranking2Store :=
  (alloc (set_PID 200 (NewConnection []))
     (alloc (set_PID 100 (NewConnection [])) (NewEndpoint (NewSwitchSettings [] 40302) auth_start 0 st)).2).2.

Definition put_score (c score : Z) : RMCMessage :=
  let s := NewSwitchSettings [] 40302 in
  NewRMCRequest s ProtocolRanking2 MethodRanking2PutScore 1
    (body s (wU32 1 ;;; wAdd (mkScoreData 0 c score) ;;; wU64 9)).

Lemma restart_keeps_scores_witness :
  let n := consoles (NewRanking2Store true None) in
  let n' := foldl (λ n q, (Ranking2Handler (MO := canonical_order) (SS := merge_slices) true (λ _, true) q.1 q.2 n).2) n
              [(0%nat, put_score 1 5000); (1%nat, put_score 1 7000)] in
  r2 n = NewRanking2Store true None ∧
  scores (NewRanking2Store true (fichier (r2 n'))) = scores (r2 n') ∧
  entry (r2 n') 1 200 = Some (mkEntree 200 9 0 7000).
Proof.
  intros n n'. assert (r2 n = NewRanking2Store true None) as H by reflexivity.
  split; [exact H|]. split; [exact (restart_keeps_scores (MO := canonical_order) (SS := merge_slices) _ n None H)|].
  vm_compute. reflexivity.
Defined.

Lemma common_data_served_witness :
  let s := NewSwitchSettings [] 40302 in
  let d := mkCommon (str "luigi") [x01; x02] [] in
  let n := consoles (NewRanking2Store false None) in
  let put := NewRMCRequest s ProtocolRanking2 MethodRanking2PutCommonData 1 (body s (wAdd d ;;; wU64 77)) in
  let get := NewRMCRequest s ProtocolRanking2 MethodRanking2GetCommonData 2 (body s (wU32 0 ;;; wPID 100)) in
  common_ok s d ∧
  (Ranking2Handler (MO := canonical_order) (SS := merge_slices) false (λ _, true) 1%nat get
     (Ranking2Handler (MO := canonical_order) (SS := merge_slices) false (λ _, true) 0%nat put n).2).1 =
  Some (NewRMCSuccess s ProtocolRanking2 MethodRanking2GetCommonData 2 (body s (wAdd d))).
Proof.
  intros s d n put get. assert (common_ok s d) as H by (vm_compute; done). split; [exact H|].
  refine (common_data_served (MO := canonical_order) (SS := merge_slices) false (λ _, true) 0%nat put 1%nat get 0 d 77 n
            eq_refl eq_refl H _ _ _ _ _); vm_compute; done.
Defined.
