(* ===== verification/EndpointProps.v ===== *)
(** * What the endpoint guarantees

    The connection registry in every state the endpoint reaches; looking a player up does not
    depend on the order of the map; the duplicate window against its specification; what a
    long message becomes on the wire. *)

From S2P Require Export Endpoint.

(** ** The registry, in every reachable state *)
Section steps.
Context {App : Type}.
#[local] Abbreviation Net := (NetOf App).
Implicit Types (n : Net).
Context `{MO : MapOrder}.
Context (file : option (gmap bytes authRecallPersisted)) (rand16 : Net → bytes).
Context (table : HandlerTable Net).
Context (OnConnect OnDisconnect : option (Ref → Net → Net)).
Context (OnRMC : option (Ref → RMCMessage → Net → Net)).
Context (custom : gmap Z (Ref → Packet → Net → Net)).

(** What can happen: a connection is accepted, bytes are buffered, a packet is handled, a
    goroutine advances, a message is sent, a connection is closed (by the reaper or a kick),
    time passes. *)
Inductive net_step (n : Net) : Net → Prop :=
  | net_accept addr : net_step n (alloc (NewConnection addr) n).2
  | net_buffer r b : net_step n (upd r (set_recvBuf b) n)
  | net_packet r p : net_step n (handlePacket file rand16 table OnConnect OnDisconnect OnRMC custom r p n)
  | net_task i : net_step n (run_task i n)
  | net_send r m : net_step n (SendRMC r m n)
  | net_close r : net_step n (close OnDisconnect r n)
  | net_clock t : net_step n (set_clock t n).

(** A run in which the 32-bit connection counter does not wrap. *)
Definition net_run : Net → Net → Prop :=
  rtc (λ n n', connCounter n < 2 ^ 32 - 1 ∧ net_step n n').

(** [Feed] is a run of such steps, whatever it is fed. *)
Lemma Feed_run r data n : rtc net_step n (Feed file rand16 table OnConnect OnDisconnect OnRMC custom r data n).
Proof.
  unfold Feed. destruct (DecodePackets _) as [[ps rest] [e|]]; [apply rtc_once; constructor|].
  eapply rtc_l; [apply (net_buffer _ r rest)|].
  generalize (upd r (set_recvBuf rest) n) as m. induction ps as [|p ps IH]; intros m; [done|].
  cbn [foldl]. eapply rtc_l; [apply (net_packet _ r p)|]. apply IH.
Qed.

Lemma registry_ok_alloc addr n : registry_ok n → registry_ok (alloc (NewConnection addr) n).2.
Proof.
  set (r := fresh (dom (heap n))). assert (heap n !! r = None) as Hr
    by (apply not_elem_of_dom, is_fresh).
  assert (∀ r', conn r' (alloc (NewConnection addr) n).2 =
    if decide (r' = r) then NewConnection addr else conn r' n) as Hconn.
  { intros r'. unfold conn, alloc. cbn [snd heap set_heap]. fold r.
    case_decide; subst; by rewrite ?lookup_insert_eq, ?lookup_insert_ne. }
  apply registry_ok_proper; [done|done| |]; intros r'; rewrite Hconn; case_decide; subst; try done;
    unfold conn; by rewrite Hr.
Qed.

Lemma registry_ok_step n n' :
  callbacks_ok table OnConnect OnDisconnect OnRMC custom → connCounter n < 2 ^ 32 - 1 →
  net_step n n' → registry_ok n → registry_ok n'.
Proof.
  intros Hcb Hlt [addr|r b|r p|i|r m|r|t] Hok.
  - by apply registry_ok_alloc.
  - by apply registry_ok_upd.
  - by apply registry_ok_packet.
  - by eapply registry_ok_run_task.
  - by eapply registry_ok_sendData.
  - by eapply registry_ok_close.
  - by apply (registry_ok_proper n).
Qed.

(** The registry in every state an endpoint reaches, whatever arrives on its connections,
    in whatever order its goroutines run: a registered connection that is not closed is found
    under its identifier, identifiers are between 1 and the counter, and no two connections
    share one. *)
Theorem registry_reachable s a t (x : App) n :
  callbacks_ok table OnConnect OnDisconnect OnRMC custom →
  net_run (NewEndpoint s a t x) n →
  (∀ r, ID (conn r n) ≠ 0 → 1 ≤ ID (conn r n) ≤ connCounter n) ∧
  (∀ r, ID (conn r n) ≠ 0 → state (conn r n) ≠ stateClosed → FindConnectionByID (ID (conn r n)) n = Some r) ∧
  (∀ r r', ID (conn r n) ≠ 0 → ID (conn r n) = ID (conn r' n) → r = r').
Proof.
  intros Hcb Hrun. assert (registry_ok n) as (_ & H2 & H3 & _).
  { generalize (registry_ok_start s a t x). induction Hrun as [|n1 n2 n3 [Hlt Hstep] _ IH]; [done|].
    intros Hok. apply IH. by eapply registry_ok_step. }
  split_and!; [|intros r Hne Hst|done]; [intros r Hne; by apply H2|].
  destruct (H2 r Hne) as (_ & [|]); [done|done].
Qed.
End steps.

(** ** Looking a player up *)

(** Which connection stands for a player does not depend on the order in which Go visits
    the registry: in a consistent registry any two orders find the same one, the connection
    registered last. *)
Theorem FindConnectionByPID_order {App} (MO1 MO2 : MapOrder) p (n : NetOf App) :
  registry_ok n → FindConnectionByPID (MO := MO1) p n = FindConnectionByPID (MO := MO2) p n.
Proof.
  intros (H1 & _ & H3 & _).
  pose proof (FindConnectionByPID_newest (MO := MO1) p n) as F1.
  pose proof (FindConnectionByPID_newest (MO := MO2) p n) as F2.
  destruct (FindConnectionByPID (MO := MO1) p n) as [r1|], (FindConnectionByPID (MO := MO2) p n) as [r2|]; [| | |done].
  - destruct F1 as ((i1 & C1) & P1 & M1), F2 as ((i2 & C2) & P2 & M2). f_equal.
    apply H3; [by eapply H1|]. specialize (M1 i2 r2 C2 P2). specialize (M2 i1 r1 C1 P1). lia.
  - destruct F1 as ((i1 & C1) & P1 & _). by destruct (F2 i1 r1 C1).
  - destruct F2 as ((i2 & C2) & P2 & _). by destruct (F1 i2 r2 C2).
Qed.

(** ** The duplicate window *)

(** The specification: a number is a duplicate when it is one of the last 128 that were not. *)
Fixpoint window_spec (fresh_ : list Z) (seqs : list Z) : list bool :=
  match seqs with
  | [] => []
  | q :: seqs =>
      let dup := bool_decide (q ∈ last_n 128 fresh_) in
      dup :: window_spec (if dup then fresh_ else fresh_ ++ [q]) seqs
  end.

(** The answers of [dejaRecu], one number after the other. *)
Fixpoint window_run (c : Connection) (seqs : list Z) : list bool :=
  match seqs with
  | [] => []
  | q :: seqs => let '(dup, c) := dejaRecu q c in dup :: window_run c seqs
  end.

(** C29: The ring buffer of received sequence numbers implements its specification: on a new
    connection, through any run of numbers, it calls a duplicate exactly a number that is one
    of the last 128 fresh ones. *)
Theorem window_refines addr seqs : window_run (NewConnection addr) seqs = window_spec [] seqs.
Proof.
  assert (∀ c l, ring_ok c l → window_run c seqs = window_spec l seqs) as H.
  { induction seqs as [|q seqs IH]; intros c l Hok; [done|]. cbn [window_run window_spec].
    destruct (dejaRecu_ok c l q Hok) as [Hd Hok']. destruct (dejaRecu q c) as [dup c'].
    cbn [fst snd] in *. subst dup. f_equal. by apply IH. }
  apply H. by apply ring_ok_start.
Qed.

(** ** Long messages *)

(** A message too long for one packet.  The goroutine that sends it ends; what it sends is
    a run of data packets numbered on from the connection's counter, whose fragment numbers
    count up from 1 and end with 0 and whose payloads are the message, cut in order — all of
    it up to 256 fragments, and the first 256 fragments' worth of a longer one: the number
    then comes back to 0, which the receiver takes for the end. *)
Theorem fragments_of_a_message {App} r data (n : NetOf App) :
  state (conn r n) ≠ stateClosed →
  let size := Z.to_nat (frag_size (settings n)) in
  ∃ n' plan m, run_fragments (S (length data)) r data 1 n = Some n' ∧
    sent n' = sent n ++ ((λ b, (r, b)) <$> fragment_packets (conn r n) (outReliable (conn r n)) plan) ∧
    concat plan.*1 = take (256 * size) data ∧ Forall (λ c, (length c ≤ size)%nat) plan.*1 ∧
    plan.*2 = (Z.of_nat <$> seq 1 m) ++ [0] ∧ (m < 256)%nat.
Proof.
  intros Hst size. assert (0 < frag_size (settings n)) as Hsz by (unfold frag_size; case_match; lia).
  destruct (run_fragments_ok (S (length data)) r data 1 n Hst ltac:(lia)) as (n' & Hrun & Hsent).
  destruct (fragment_plan_spec size 1 data (S (length data)) ltac:(lia) ltac:(lia) ltac:(lia)) as (Hc & m & Hids & Hm).
  exists n', (fragment_plan (S (length data)) size data 1), m. split_and!; try done.
  clear. generalize (S (length data)) as fuel, 1. intros fuel. revert data.
  induction fuel as [|fuel IH]; intros data k; cbn [fragment_plan]; [constructor|].
  destruct (Nat.ltb_spec size (length data)).
  - rewrite fmap_cons, Forall_cons. cbn [fst]. split; [rewrite length_take; lia|].
    destruct (k =? 0); [constructor|apply IH].
  - rewrite fmap_cons, Forall_singleton. cbn [fst]. lia.
Qed.

(** ** On a small endpoint *)
Section small_props.
#[local] Existing Instance canonical_order.

Lemma callbacks_none : callbacks_ok (App := unit) (mkTable ∅ None) None None None ∅.
Proof. by split_and!. Qed.

Lemma registry_reachable_witness :
  let n0 := NewEndpoint switch0 auth_start 0 tt in
  net_run None (λ _, []) (mkTable ∅ None) None None None ∅ n0 (alloc (NewConnection []) n0).2 ∧
  ∀ r r', ID (conn r (alloc (NewConnection []) n0).2) ≠ 0 →
    ID (conn r (alloc (NewConnection []) n0).2) = ID (conn r' (alloc (NewConnection []) n0).2) → r = r'.
Proof.
  cbv zeta. set (n0 := NewEndpoint switch0 auth_start 0 tt).
  assert (net_run None (λ _, []) (mkTable ∅ None) None None None ∅ n0 (alloc (NewConnection []) n0).2) as Hrun
    by (apply rtc_once; split; [done|constructor]).
  split; [exact Hrun|].
  exact (proj2 (proj2 (registry_reachable None (λ _, []) (mkTable ∅ None) None None None ∅ switch0 auth_start 0 tt
    _ callbacks_none Hrun))).
Defined.

(** Two connections of one player. *)
Definition twice : NetOf unit :=
  registerConnection 1%nat (registerConnection 0%nat
    (set_heap {[0%nat := set_PID 9 (NewConnection []); 1%nat := set_PID 9 (NewConnection [])]}
      (NewEndpoint switch0 auth_start 0 tt))).

Lemma twice_ok : registry_ok twice.
Proof.
  unfold twice. set (n0 := set_heap _ _).
  assert (∀ r, ID (conn r n0) = 0) as Hz.
  { intros r. unfold conn, n0. cbn [heap set_heap]. rewrite lookup_insert.
    case_decide; [done|]. rewrite lookup_singleton. by case_decide. }
  assert (registry_ok n0) as H0.
  { split_and!; [intros id r; cbn; by rewrite lookup_empty|intros r; by rewrite Hz|intros r r'; by rewrite Hz|done]. }
  assert (∀ r (n : NetOf unit), registry_ok n → registry_but r n) as Hbut.
  { intros r n (H1 & H2 & H3 & H4). split_and!; [done| |done|done].
    intros r' Hne. destruct (H2 r' Hne). split; [done|]. by right. }
  apply registry_ok_register; [done|]. apply Hbut, registry_ok_register; [done|]. by apply Hbut.
Qed.

Lemma FindConnectionByPID_order_witness :
  registry_ok twice ∧ FindConnectionByPID (MO := reversed_order) 9 twice = Some 1%nat.
Proof.
  split; [exact twice_ok|].
  rewrite (FindConnectionByPID_order reversed_order canonical_order 9 twice twice_ok).
  vm_compute. reflexivity.
Defined.

Lemma fragments_of_a_message_witness :
  state (conn 0%nat (small false)) ≠ stateClosed ∧
  ∃ n' (plan : list (bytes * Z)) (m : nat), run_fragments 2001 0%nat (replicate 2000 x61) 1 (small false) = Some n' ∧
    plan.*2 = (Z.of_nat <$> seq 1 m) ++ [0] ∧ length (concat plan.*1) = 2000%nat.
Proof.
  assert (state (conn 0%nat (small false)) ≠ stateClosed) as Hst by done.
  split; [exact Hst|].
  destruct (fragments_of_a_message 0%nat (replicate 2000 x61) (small false) Hst) as (n' & plan & m & Hr & _ & Hc & _ & Hi & _).
  exists n', plan, m. rewrite length_replicate in Hr. split; [exact Hr|]. split; [exact Hi|].
  rewrite Hc, length_take, length_replicate. reflexivity.
Defined.
End small_props.
