(* ===== verification/Frame.v ===== *)
(** * What a handler leaves alone

    The part of the endpoint that belongs to the connections' handshakes — who is connected,
    under which identifier and identity, with which keys — and the frame relation: two states
    that agree on it.  Sending, the state of the game's components and the stations of a
    connection are outside of it. *)

From S2P Require Export Handlers EndpointProps.

(** What the handshake of a connection set, and when it was last heard. *)
Definition credentials (c : Connection) : bytes * Z * Z * Z * bytes * bytes * Z * Z :=
  (RemoteAddr c, ID c, PID c, CID c, sessionKey c, connectionSig c, state c, lastSeen c).

Record frame {App} (n n' : NetOf App) : Prop := mkFrame {
  fr_settings : settings n' = settings n;
  fr_secure : Secure n' = Secure n;
  fr_key : SecureKey n' = SecureKey n;
  fr_connections : connections n' = connections n;
  fr_counter : connCounter n' = connCounter n;
  fr_auth : auth n' = auth n;
  fr_clock : clock n' = clock n;
  fr_credentials : ∀ r, credentials (conn r n') = credentials (conn r n)
}.

#[export] Instance frame_equivalence {App} : Equivalence (@frame App).
Proof.
  split.
  - by intros n.
  - intros n m []. by split.
  - intros n m o [] []. split; [congruence..|]. intros r. etrans; eauto.
Qed.

(** Everything that is read through the handshakes alone respects the relation. *)
#[export] Instance frame_PID {App} r : Proper (frame ==> eq) (λ n : NetOf App, PID (conn r n)).
Proof. intros n n' H. pose proof (fr_credentials _ _ H r) as E. unfold credentials in E. congruence. Qed.
#[export] Instance frame_ID {App} r : Proper (frame ==> eq) (λ n : NetOf App, ID (conn r n)).
Proof. intros n n' H. pose proof (fr_credentials _ _ H r) as E. unfold credentials in E. congruence. Qed.
#[export] Instance frame_state {App} r : Proper (frame ==> eq) (λ n : NetOf App, state (conn r n)).
Proof. intros n n' H. pose proof (fr_credentials _ _ H r) as E. unfold credentials in E. congruence. Qed.

Lemma frame_pid {App} r (n n' : NetOf App) : frame n n' → PID (conn r n') = PID (conn r n).
Proof. intros H. symmetry. apply (frame_PID r _ _ H). Qed.

#[export] Instance registry_ok_frame {App} : Proper (frame ==> iff) (@registry_ok App).
Proof.
  assert (∀ n n' : NetOf App, frame n n' → registry_ok n → registry_ok n') as H.
  { intros n n' F. apply registry_ok_proper; [apply F|apply F|intros r; symmetry; apply (frame_ID r _ _ F)|].
    intros r <-. symmetry. apply (frame_state r _ _ F). }
  intros n n' F. split; [by apply H|]. apply H. by symmetry.
Qed.

(** The search by player looks at the registry, the identities and the identifiers. *)
Lemma FindConnectionByPID_same {App} `{MO : MapOrder} p (n n' : NetOf App) :
  connections n' = connections n → (∀ r, PID (conn r n') = PID (conn r n)) → (∀ r, ID (conn r n') = ID (conn r n)) →
  FindConnectionByPID p n' = FindConnectionByPID p n.
Proof.
  intros Hc Hp Hi. unfold FindConnectionByPID. rewrite Hc. generalize (range (connections n)) as l, (@None Ref) as o.
  induction l as [|[k c] l IH]; intros o; [done|]. cbn [foldl]. rewrite IH. f_equal. unfold find_newer. cbn [snd].
  rewrite Hp. destruct o as [m|]; [|done]. by rewrite !Hi.
Qed.

#[export] Instance FindConnectionByPID_frame {App} `{MO : MapOrder} p :
  Proper (frame ==> eq) (@FindConnectionByPID App MO p).
Proof.
  intros n n' F. symmetry. apply FindConnectionByPID_same; [apply F|intros r; by apply frame_pid|].
  intros r. symmetry. apply (frame_ID r _ _ F).
Qed.

(** ** What stays inside the frame *)
Section frames.
Context {App : Type}.
#[local] Abbreviation Net := (NetOf App).
Implicit Types (n : Net).

Lemma frame_send r b n : frame n (send r b n).
Proof. by split. Qed.
Lemma frame_tasks l n : frame n (set_tasks l n).
Proof. by split. Qed.
Lemma frame_app x n : frame n (set_app x n).
Proof. by split. Qed.

Lemma frame_upd r f n : (∀ c, credentials (f c) = credentials c) → frame n (upd r f n).
Proof. intros Hf. split; [done..|]. intros r'. rewrite conn_upd. case_decide; subst; [apply Hf|done]. Qed.

Lemma frame_sendOne r chunk k n : frame n (sendOneFragment r chunk k n).
Proof.
  unfold sendOneFragment. etrans; [|by apply frame_upd]. etrans; [|apply frame_send]. by apply frame_upd.
Qed.

Lemma frame_sendData r data n : frame n (sendData r data n).
Proof. unfold sendData. case_match; [apply frame_sendOne|apply frame_tasks]. Qed.

Lemma frame_SendRMC r m n : frame n (SendRMC r m n).
Proof. apply frame_sendData. Qed.

Lemma frame_foldl {A} (f : Net → A → Net) l n : (∀ n x, frame n (f n x)) → frame n (foldl f n l).
Proof. intros Hf. revert n. induction l as [|x l IH]; intros n; [done|]. cbn [foldl]. etrans; [apply Hf|apply IH]. Qed.

Lemma frame_upd_comp {S} `{HS : !Substate S App} (f : S → S) n : frame n (upd_comp f n).
Proof. apply frame_app. Qed.
Lemma frame_set_comp {S} `{HS : !Substate S App} (s : S) n : frame n (set_comp s n).
Proof. apply frame_app. Qed.

Lemma app_run_task `{MO : MapOrder} i n : app_state (run_task i n) = app_state n.
Proof.
  unfold run_task. destruct (tasks n !! i) as [[r rest k|r]|]; [| |done].
  - unfold send_next. destruct (state (conn r n) =? stateClosed); [done|]. cbv zeta.
    destruct (if frag_size (settings n) <? zlen rest then _ else _) as [c k']. by destruct (k' =? 0).
  - unfold retransmit_tick. destruct (state (conn r n) =? stateClosed); [done|].
    cbn [app_state set_tasks]. generalize (range (pending (conn r n))) as l. intros l. revert n.
    induction l as [|e l IH]; intros n; [done|]. cbn [foldl]. by rewrite IH.
Qed.
Lemma frame_run_task `{MO : MapOrder} i n : frame n (run_task i n).
Proof.
  unfold run_task. destruct (tasks n !! i) as [[r rest k|r]|]; [| |done].
  - unfold send_next. destruct (state (conn r n) =? stateClosed); [apply frame_tasks|]. cbv zeta.
    destruct (if frag_size (settings n) <? zlen rest then _ else _) as [c k'].
    destruct (k' =? 0); (etrans; [apply frame_sendOne|apply frame_tasks]).
  - unfold retransmit_tick. destruct (state (conn r n) =? stateClosed); [apply frame_tasks|].
    etrans; [|apply frame_tasks]. apply frame_foldl. intros. apply frame_send.
Qed.
End frames.
#[export] Hint Resolve frame_send frame_tasks frame_app frame_sendOne frame_sendData frame_SendRMC
  frame_upd_comp frame_set_comp : nex.
