(* ===== verification/Delivery.v ===== *)
(** * A message from one end to the other (src/endpoint.go, src/prudp_lite.go)

    [SendRMC] on one connection, the WebSocket between, [Feed] on the other: the message is cut
    into fragments, each is encoded, the stream is cut anywhere, fragments that were not
    acknowledged in time are sent again, and the other end decodes, acknowledges, drops what
    it has had, puts the message together and hands it over once, whatever of it comes again
    afterwards.  The two ends are two
    processes that both run this package. *)

From S2P Require Export WireProps EndpointProps.

(** [sendData], and the goroutine it starts when the message is long. *)
Definition send_message {App} (r : Ref) (data : bytes) (n : NetOf App) : option (NetOf App) :=
  let n' := sendData r data n in
  if zlen data <=? frag_size (settings n) then Some n' else run_fragments (S (length data)) r data 1 n'.

(** ** The stream, piece by piece *)
Section stream.
Context {App : Type}.
#[local] Abbreviation Net := (NetOf App).
Implicit Types (n : Net).
Context `{MO : MapOrder}.
Context (file : option (gmap bytes authRecallPersisted)) (rand16 : Net → bytes).
Context (table : HandlerTable Net) (OnConnect OnDisconnect : option (Ref → Net → Net)).
Context (OnRMC : option (Ref → RMCMessage → Net → Net)) (custom : gmap Z (Ref → Packet → Net → Net)).
Context (r : Ref).
#[local] Abbreviation handle p n := (handlePacket file rand16 table OnConnect OnDisconnect OnRMC custom r p n).
#[local] Abbreviation feed b n := (Feed file rand16 table OnConnect OnDisconnect OnRMC custom r b n).

(** A property of the packets handled so far, kept by each of [ps]. *)
Section progress.
#[local] Set Default Proof Using "Type*".
Context (P : list Packet → Net → Prop) (ps : list Packet) (lastp : Packet).
Hypothesis P_buffer : ∀ past b n, P past n → P past (upd r (set_recvBuf b) n).
Hypothesis P_packet : ∀ past p todo n, ps = past ++ p :: todo → P past n →
  P (past ++ [p]) (handle p n) ∧ recvBuf (conn r (handle p n)) = recvBuf (conn r n).

Lemma handle_run todo past rest n :
  ps = past ++ todo ++ rest → P past n →
  let n' := foldl (λ n p, handle p n) n todo in
  P (past ++ todo) n' ∧ recvBuf (conn r n') = recvBuf (conn r n).
Proof.
  revert past n. induction todo as [|p todo IH]; intros past n E HP; cbn [foldl]; [by rewrite app_nil_r|].
  destruct (P_packet past p (todo ++ rest) n E HP) as [H1 H2].
  destruct (IH (past ++ [p]) (handle p n)) as [H3 H4]; [by rewrite <- app_assoc|done|].
  rewrite <- app_assoc in H3. by rewrite H4.
Qed.

Lemma nothing_left x : DecodePackets x = ([], [], None) → x = [].
Proof. rewrite DecodePackets_eq. destruct (decode_one x); [by intros [= ->]|done|by destruct (DecodePackets _) as [[??]?]]. Qed.

(** However the bytes are cut, the packets before the last are handled one by one, and the
    last one with nothing left in the buffer. *)
Lemma feed_run pieces todo past n :
  ps = past ++ todo → P past n → Forall (λ b, b ≠ []) pieces → decode_one (recvBuf (conn r n)) = NeedMore →
  DecodePackets (recvBuf (conn r n) ++ concat pieces) = (todo ++ [lastp], [], None) →
  ∃ n', P ps n' ∧ recvBuf (conn r n') = [] ∧ foldl (λ n b, feed b n) n pieces = handle lastp n'.
Proof.
  revert todo past n. induction pieces as [|b pieces IH]; intros todo past n E HP Hne Hbuf Hd; cbn [concat foldl] in *.
  { rewrite app_nil_r, DecodePackets_eq, Hbuf in Hd. by destruct todo. }
  apply Forall_cons in Hne as [_ Hne]. rewrite app_assoc in Hd.
  destruct (DecodePackets (recvBuf (conn r n) ++ b)) as [[ps1 r1] [e|]] eqn:E1.
  { destruct (DecodePackets_app_error _ (concat pieces) _ _ _ E1) as (? & ? & E'). congruence. }
  rewrite (DecodePackets_app _ _ _ _ E1) in Hd.
  destruct (DecodePackets (r1 ++ concat pieces)) as [[ps2 r2] e2] eqn:E2. injection Hd as Hps -> ->.
  unfold Feed at 2. rewrite E1. set (n0 := upd r (set_recvBuf r1) n).
  assert (recvBuf (conn r n0) = r1) as Hr1 by (subst n0; by rewrite conn_upd_eq).
  destruct ps2 as [|x ps2 _] using rev_ind.
  - apply nothing_left, app_eq_nil in E2 as [-> Hc]. rewrite app_nil_r in Hps. subst ps1.
    assert (pieces = []) as -> by (destruct Hne as [|b' ? Hb' ?]; [done|by destruct b']).
    destruct (handle_run todo past [] n0) as [H1 H2]; [by rewrite app_nil_r|by apply P_buffer|].
    cbn [foldl]. rewrite foldl_app. cbn [foldl]. eexists. split; [by rewrite E|]. by rewrite H2.
  - rewrite app_assoc in Hps. apply app_inj_tail in Hps as [<- <-].
    destruct (handle_run ps1 past ps2 n0) as [H1 H2]; [done|by apply P_buffer|].
    apply (IH ps2 (past ++ ps1)); [by rewrite <- app_assoc|done|done| |]; rewrite H2, Hr1; [by eapply DecodePackets_rest|done].
Qed.
End progress.

(** ** The receiver *)

(** A fragment on the wire. *)
Definition data_packet (p : Packet) : Prop := p_Type p = PacketDATA ∧ reliable p.

(** A connection but for what receiving changes in it. *)
Definition rest_of (c : Connection) : Connection :=
  set_recvBuf [] (set_fragBuf [] (set_recus [] (set_recusVus [] (set_recusPos 0 (set_lastSeen 0 c))))).

(** From [n] to [n'] nothing has changed but what was sent and the receiving half of connection
    [r]: no handler has run. *)
Record receiving n n' : Prop := mkReceiving {
  rg_process : set_sent [] (set_heap ∅ n') = set_sent [] (set_heap ∅ n);
  rg_others : ∀ r', r' ≠ r → conn r' n' = conn r' n;
  rg_conn : rest_of (conn r n') = rest_of (conn r n)
}.

#[local] Instance receiving_preorder : PreOrder receiving.
Proof.
  split; [by split|]. intros a b c [A1 B1 C1] [A2 B2 C2]. split; [congruence| |congruence].
  intros r' Hr. by rewrite B2, B1.
Qed.
Lemma receiving_send b n : receiving n (send r b n).
Proof. by split. Qed.
Lemma receiving_upd f n : rest_of (f (conn r n)) = rest_of (conn r n) → receiving n (upd r f n).
Proof. intros Hf. split; [done| |by rewrite conn_upd_eq]. intros r' Hr. by rewrite conn_upd_ne. Qed.

Lemma rest_of_fragBuf b c : rest_of (set_fragBuf b c) = rest_of c.
Proof. done. Qed.
Lemma rest_of_dejaRecu seq c : rest_of (dejaRecu seq c).2 = rest_of c.
Proof. unfold dejaRecu. by destruct (existsb _ _). Qed.

(** What the receiver keeps between two fragments of a message that began in [n0]: the numbers
    it has had, the beginning of the message, and who the connection talks to; what it has
    sent; and nothing else has changed. *)
Context (n0 : Net).
Definition mid (fc : Z → Z → Z → Z → bytes → Packet) (l : list Z) (frag : bytes) (out : list (Ref * bytes)) n : Prop :=
  ring_ok (conn r n) l ∧ fragBuf (conn r n) = frag ∧ from_conn (conn r n) = fc ∧ sent n = out ∧ receiving n0 n.

Definition ack_from (fc : Z → Z → Z → Z → bytes → Packet) (p : Packet) : Packet :=
  fc (p_Type p) FlagACK (FragmentID p) (PacketID p) [].

Lemma mid_upd fc l frag out f n :
  (∀ c, ring_ok c l → ring_ok (f c) l) → (∀ c, fragBuf (f c) = fragBuf c) → (∀ c, from_conn (f c) = from_conn c) →
  (∀ c, rest_of (f c) = rest_of c) → mid fc l frag out n → mid fc l frag out (upd r f n).
Proof.
  intros H1 H2 H3 H4 (A & B & C & D & E). unfold mid. rewrite !conn_upd_eq, H2, H3. split_and!; auto.
  etrans; [exact E|by apply receiving_upd].
Qed.

Lemma dejaRecu_recvBuf seq c : recvBuf (dejaRecu seq c).2 = recvBuf c.
Proof. unfold dejaRecu. by destruct (existsb _ _). Qed.

Lemma handle_seen fc l frag out p n :
  data_packet p → mid fc l frag out n →
  ∃ m, handle p n = processData table OnRMC r p m ∧ mid fc l frag out m ∧ recvBuf (conn r m) = recvBuf (conn r n).
Proof.
  intros [H _] Hm. exists (upd r (set_lastSeen (clock n)) n). unfold handlePacket. rewrite H, conn_upd_eq.
  split_and!; [done| |done]. by apply mid_upd.
Qed.

(** A fragment whose number is among the last 128 is acknowledged again. *)
Lemma mid_again fc l frag out p n :
  data_packet p → PacketID p ∈ last_n 128 l → mid fc l frag out n →
  mid fc l frag (out ++ [(r, EncodePacket (ack_from fc p))]) (handle p n) ∧
  recvBuf (conn r (handle p n)) = recvBuf (conn r n).
Proof.
  intros Hp Hin Hm. destruct (handle_seen _ _ _ _ _ _ Hp Hm) as (m & -> & (A & B & C & D & E) & <-).
  destruct Hp as [Ht (H1 & H2 & H3)]. destruct (dejaRecu_ok _ _ (PacketID p) A) as [Hd Hring].
  rewrite bool_decide_true in Hd by done. rewrite Hd in Hring.
  unfold processData. rewrite H1, H2, H3. cbv zeta.
  change (conn r (sendAck r p m)) with (conn r m).
  assert ((dejaRecu (PacketID p) (conn r m)).2 = conn r m) as Hc by (revert Hd; unfold dejaRecu; by destruct (existsb _ _)).
  destruct (dejaRecu (PacketID p) (conn r m)) as [d c]. cbn [fst snd] in *. subst d c.
  unfold mid. rewrite conn_upd_eq. split_and!; try done.
  - unfold sendAck. autorewrite with net_rw. by rewrite D, C.
  - etrans; [exact E|]. etrans; [apply receiving_send|by apply receiving_upd].
Qed.

(** A new one is remembered and its bytes appended. *)
Lemma mid_new fc l frag out p n :
  data_packet p → FragmentID p ≠ 0 → PacketID p ∉ last_n 128 l → mid fc l frag out n →
  mid fc (l ++ [PacketID p]) (frag ++ Payload p) (out ++ [(r, EncodePacket (ack_from fc p))]) (handle p n) ∧
  recvBuf (conn r (handle p n)) = recvBuf (conn r n).
Proof.
  intros Hp Hf Hin Hm. destruct (handle_seen _ _ _ _ _ _ Hp Hm) as (m & -> & (A & B & C & D & E) & <-).
  destruct Hp as [Ht Hp]. destruct (dejaRecu_ok _ _ (PacketID p) A) as [Hd Hring].
  rewrite bool_decide_false in Hd by done. rewrite Hd in Hring.
  rewrite processData_fresh by done. cbv zeta. destruct (Z.eqb_spec (FragmentID p) 0); [done|].
  destruct (dejaRecu_keeps (PacketID p) (conn r m)) as [K1 K2].
  unfold mid. rewrite !conn_upd_eq. cbn [fragBuf set_fragBuf recvBuf]. rewrite B, dejaRecu_recvBuf. split_and!; try done.
  - by rewrite <- C, <- K2.
  - autorewrite with net_rw. unfold ack_of, ack_from. by rewrite D, C.
  - etrans; [exact E|]. etrans; [apply receiving_send|apply receiving_upd]. by rewrite conn_send, rest_of_fragBuf, rest_of_dejaRecu.
Qed.

(** The last one hands the message over. *)
Lemma mid_last fc l frag out p n :
  data_packet p → FragmentID p = 0 → PacketID p ∉ last_n 128 l → mid fc l frag out n →
  ∃ n', handle p n = dispatchRMC table OnRMC r (frag ++ Payload p) n' ∧
    mid fc (l ++ [PacketID p]) [] (out ++ [(r, EncodePacket (ack_from fc p))]) n' ∧
    recvBuf (conn r n') = recvBuf (conn r n).
Proof.
  intros Hp Hf Hin Hm. destruct (handle_seen _ _ _ _ _ _ Hp Hm) as (m & -> & (A & B & C & D & E) & <-).
  destruct Hp as [Ht Hp]. destruct (dejaRecu_ok _ _ (PacketID p) A) as [Hd Hring].
  rewrite bool_decide_false in Hd by done. rewrite Hd in Hring.
  rewrite processData_fresh by done. cbv zeta. rewrite Hf, B. cbn [Z.eqb]. eexists. split; [reflexivity|].
  destruct (dejaRecu_keeps (PacketID p) (conn r m)) as [K1 K2].
  unfold mid. rewrite !conn_upd_eq. cbn [fragBuf set_fragBuf recvBuf]. rewrite dejaRecu_recvBuf. split_and!; try done.
  - by rewrite <- C, <- K2.
  - autorewrite with net_rw. unfold ack_of, ack_from. by rewrite D, C.
  - etrans; [exact E|]. etrans; [apply receiving_send|]. etrans; apply receiving_upd; [|done].
    by rewrite conn_send, rest_of_fragBuf, rest_of_dejaRecu.
Qed.

(** *** The fragments, and what of them is sent again

    The fragments come in order; between two of them may come again any whose number is among
    the last 128 the receiver has had.  [l] are the numbers it has had. *)
Inductive arrives : list Z → list Packet → list Packet → Prop :=
  | arr_last l p :
      data_packet p → FragmentID p = 0 → PacketID p ∉ last_n 128 l → arrives l [p] [p]
  | arr_new l p ps qs :
      data_packet p → FragmentID p ≠ 0 → PacketID p ∉ last_n 128 l →
      arrives (l ++ [PacketID p]) ps qs → arrives l (p :: ps) (p :: qs)
  | arr_again l p ps qs :
      data_packet p → PacketID p ∈ last_n 128 l → arrives l ps qs → arrives l ps (p :: qs).

Lemma arrives_nonempty l ps qs : arrives l ps qs → qs ≠ [].
Proof. by destruct 1. Qed.

(** How far the message is: [rest] is still to come, [ps] of it new. *)
Definition on_the_way fc (whole : bytes) (total : list Z) out0 (rest past : list Packet) n : Prop :=
  ∃ l frag ps, mid fc l frag (out0 ++ ((λ p, (r, EncodePacket (ack_from fc p))) <$> past)) n ∧
    arrives l ps rest ∧ frag ++ concat (Payload <$> ps) = whole ∧ l ++ (PacketID <$> ps) = total.

Lemma on_the_way_step fc whole total out0 rest past p n :
  rest ≠ [] → on_the_way fc whole total out0 (p :: rest) past n →
  on_the_way fc whole total out0 rest (past ++ [p]) (handle p n) ∧ recvBuf (conn r (handle p n)) = recvBuf (conn r n).
Proof.
  intros Hne (l & frag & ps & Hm & Ha & Hw & Ht). unfold on_the_way.
  inversion Ha as [? ? ? ? ?|? ? ps' ? H1 H2 H3 H4|? ? ? ? H1 H2 H3]; subst; [done|..].
  - destruct (mid_new _ _ _ _ p n H1 H2 H3 Hm) as [Hm' ->]. split; [|done].
    eexists _, _, ps'. rewrite fmap_app, (app_assoc out0). split; [exact Hm'|]. split; [done|].
    cbn [fmap list_fmap concat]. by rewrite <- !app_assoc.
  - destruct (mid_again _ _ _ _ p n H1 H2 Hm) as [Hm' ->]. split; [|done].
    eexists _, _, ps. rewrite fmap_app, (app_assoc out0). by split.
Qed.

Lemma on_the_way_end fc whole total out0 past p n :
  on_the_way fc whole total out0 [p] past n →
  ∃ n', handle p n = dispatchRMC table OnRMC r whole n' ∧
    mid fc total [] (out0 ++ ((λ p, (r, EncodePacket (ack_from fc p))) <$> past ++ [p])) n' ∧
    recvBuf (conn r n') = recvBuf (conn r n).
Proof.
  intros (l & frag & ps & Hm & Ha & Hw & Ht).
  inversion Ha as [? ? H1 H2 H3|? ? ps' ? H1 H2 H3 H4|? ? ? ? H1 H2 H3]; subst; [|by apply arrives_nonempty in H4|by apply arrives_nonempty in H3].
  destruct (mid_last _ _ _ _ p n H1 H2 H3 Hm) as (n' & Hh & Hm' & Hr). exists n'.
  cbn [fmap list_fmap concat]. rewrite app_nil_r. split; [done|]. split; [|done].
  by rewrite fmap_app, (app_assoc out0).
Qed.

(** *** What comes after the last fragment

    The message has been handed over; a fragment that comes again is acknowledged again, and
    that is all. *)

(** What a connection receives with: the handlers that answer on it do not touch it. *)
Definition receiver (c : Connection) : bytes * bytes * (list Z * list bool * nat) * (Z * Z * Z * Z) :=
  (recvBuf c, fragBuf c, (recus c, recusVus c, recusPos c), (srcType c, srcPort c, dstType c, dstPort c)).

Lemma receiver_same c c' :
  receiver c' = receiver c →
  recvBuf c' = recvBuf c ∧ fragBuf c' = fragBuf c ∧ from_conn c' = from_conn c ∧ ∀ l, ring_ok c l → ring_ok c' l.
Proof.
  unfold receiver, from_conn, ring_ok. intros [= -> -> -> -> -> -> -> -> ->]. done.
Qed.

(** From [n] to [n'] the process has sent [out] and heard connection [r] again; everything else is
    as it was: the state of the components, the registry, the goroutines, the other
    connections, and this one's identity, session, numbers and fragments. *)
Record only_acks (out : list (Ref * bytes)) n n' : Prop := mkOnlyAcks {
  oa_process : set_sent [] (set_heap ∅ n') = set_sent [] (set_heap ∅ n);
  oa_others : ∀ r', r' ≠ r → conn r' n' = conn r' n;
  oa_conn : set_recvBuf [] (set_lastSeen 0 (conn r n')) = set_recvBuf [] (set_lastSeen 0 (conn r n));
  oa_sent : sent n' = sent n ++ out
}.

Lemma only_acks_refl n : only_acks [] n n.
Proof. split; [done..|]. by rewrite app_nil_r. Qed.

Lemma only_acks_trans o1 o2 n1 n2 n3 : only_acks o1 n1 n2 → only_acks o2 n2 n3 → only_acks (o1 ++ o2) n1 n3.
Proof.
  intros [A1 B1 C1 D1] [A2 B2 C2 D2]. split; [congruence| |congruence|by rewrite D2, D1, app_assoc].
  intros r' Hr. by rewrite B2, B1.
Qed.

Lemma only_acks_buffer b n : only_acks [] n (upd r (set_recvBuf b) n).
Proof.
  split; [done| |by rewrite conn_upd_eq|by rewrite app_nil_r].
  intros r' Hr. by rewrite conn_upd_ne.
Qed.

(** A fragment the ring still has, after the message. *)
Lemma handle_late p n l :
  data_packet p → ring_ok (conn r n) l → PacketID p ∈ last_n 128 l →
  only_acks [(r, EncodePacket (ack_from (from_conn (conn r n)) p))] n (handle p n) ∧
  receiver (conn r (handle p n)) = receiver (conn r n).
Proof.
  intros [Ht Hr] Hring Hin. set (m := upd r (set_lastSeen (clock n)) n).
  assert (handle p n = send r (ack_of (conn r m) p) m) as ->.
  { transitivity (processData table OnRMC r p m); [unfold handlePacket; by rewrite Ht|].
    apply (processData_duplicate _ _ r p m l); [|done| |done].
    - unfold m, upd. cbn. rewrite lookup_insert_eq. by eexists.
    - unfold m. by rewrite conn_upd_eq. }
  unfold m, ack_of, ack_from. rewrite conn_upd_eq. split; [|by rewrite conn_send, conn_upd_eq].
  split; [done| |by rewrite conn_send, conn_upd_eq|done].
  intros r' Hr'. by rewrite conn_send, conn_upd_ne.
Qed.

(** *** The receiver, however the stream is cut *)
Section receive.
#[local] Set Default Proof Using "Type*".
Context (fc : Z → Z → Z → Z → bytes → Packet) (whole : bytes) (total : list Z) (out : list (Ref * bytes)).
Context (qs1 : list Packet).
Hypothesis handler_keeps : ∀ m, receiver (conn r (dispatchRMC table OnRMC r whole m)) = receiver (conn r m).

#[local] Abbreviation acks ps := ((λ p, (r, EncodePacket (ack_from fc p))) <$> ps).

(** The message was handed over, in [m], and [late] have come again since. *)
Definition handed (late : list Packet) n : Prop :=
  ∃ m, mid fc total [] (out ++ acks qs1) m ∧ only_acks (acks late) (dispatchRMC table OnRMC r whole m) n ∧
    ring_ok (conn r n) total ∧ fragBuf (conn r n) = [] ∧ from_conn (conn r n) = fc.

Definition phase (past : list Packet) n : Prop :=
  (∃ p todo, qs1 = past ++ p :: todo ∧ on_the_way fc whole total out (p :: todo) past n) ∨
  (∃ late, past = qs1 ++ late ∧ handed late n).

Lemma phase_buffer past b n : phase past n → phase past (upd r (set_recvBuf b) n).
Proof.
  intros [(p & todo & E & l & f & ps & Hm & Hrest)|(late & E & m & Hm & Ho & H1 & H2 & H3)].
  - left. exists p, todo. split; [done|]. exists l, f, ps. split; [by apply mid_upd|done].
  - right. exists late. split; [done|]. exists m. rewrite conn_upd_eq. split; [done|]. split; [|done].
    rewrite <- (app_nil_r (acks late)). eapply only_acks_trans; [done|apply only_acks_buffer].
Qed.

Lemma phase_step past p todo qs2 n :
  Forall (λ p, data_packet p ∧ PacketID p ∈ last_n 128 total) qs2 →
  qs1 ++ qs2 = past ++ p :: todo → phase past n →
  phase (past ++ [p]) (handle p n) ∧ recvBuf (conn r (handle p n)) = recvBuf (conn r n).
Proof.
  intros Hq2 E [(p' & todo' & E1 & Hw)|(late & -> & m & Hm & Ho & H1 & H2 & H3)].
  - assert (p' = p) as -> by (rewrite E1, <- app_assoc in E; apply app_inv_head in E; by injection E).
    destruct todo' as [|p2 todo'].
    + destruct (on_the_way_end _ _ _ _ _ _ _ Hw) as (m & -> & Hm & Hr).
      destruct (receiver_same _ _ (handler_keeps m)) as (K1 & K2 & K3 & K4). rewrite K1. split; [|done].
      right. exists []. rewrite app_nil_r. split; [done|]. exists m. rewrite E1, K2, K3. destruct Hm as (A & B & C & D & F).
      split; [done|]. split; [apply only_acks_refl|]. auto.
    + destruct (on_the_way_step _ _ _ _ (p2 :: todo') _ _ _ ltac:(done) Hw) as [Hw' ->]. split; [|done].
      left. exists p2, todo'. by rewrite <- app_assoc.
  - rewrite <- app_assoc in E. apply app_inv_head in E. rewrite E in Hq2.
    apply Forall_app in Hq2 as [_ [[Hd Hin] _]%Forall_cons].
    destruct (handle_late p n total Hd H1 Hin) as [Hl Hrec]. destruct (receiver_same _ _ Hrec) as (K1 & K2 & K3 & K4).
    rewrite K1. split; [|done]. right. exists (late ++ [p]). split; [by rewrite app_assoc|]. exists m.
    rewrite K2, K3, fmap_app. split; [done|]. split; [|auto]. eapply only_acks_trans; [done|]. by rewrite <- H3.
Qed.

Lemma receive_message l frag ps qs2 pieces n :
  mid fc l frag out n → arrives l ps qs1 → frag ++ concat (Payload <$> ps) = whole → l ++ (PacketID <$> ps) = total →
  Forall (λ p, data_packet p ∧ PacketID p ∈ last_n 128 total) qs2 →
  recvBuf (conn r n) = [] → Forall packet_ok (qs1 ++ qs2) →
  concat pieces = concat (EncodePacket <$> (qs1 ++ qs2)) → Forall (λ b, b ≠ []) pieces →
  let n' := foldl (λ n b, feed b n) n pieces in handed qs2 n' ∧ recvBuf (conn r n') = [].
Proof.
  intros Hm Ha Hw Ht Hq2 Hb Hok Hc Hne. cbv zeta.
  assert (phase [] n) as H0.
  { assert (∃ p todo, qs1 = p :: todo) as (p & todo & E) by (destruct Ha; eauto). left. exists p, todo. split; [done|].
    rewrite <- E. exists l, frag, ps. by rewrite app_nil_r. }
  assert (qs1 ++ qs2 ≠ []) as Hnil by (apply arrives_nonempty in Ha; by intros [? _]%app_eq_nil).
  pose proof (λ past p todo m, phase_step past p todo qs2 m Hq2) as Hstep.
  assert (∀ n', phase (qs1 ++ qs2) n' → handed qs2 n') as Hend.
  { intros n' [(p & todo & E & _)|(late & E & H)].
    - apply (f_equal length) in E. rewrite !length_app in E. cbn in E. lia.
    - by apply app_inv_head in E as ->. }
  revert Hok Hc Hnil Hstep Hend. generalize (qs1 ++ qs2) as qs0. intros qs0 Hok Hc Hnil Hstep Hend.
  destruct qs0 as [|lastp qs _] using rev_ind; [done|].
  destruct (feed_run phase qs lastp) with (pieces := pieces) (todo := qs) (past := @nil Packet) (n := n) as (n1 & Hp & Hr & ->);
    try done.
  - intros past b m. apply phase_buffer.
  - intros past p todo m Eq. apply (Hstep past p (todo ++ [lastp])). rewrite Eq. by rewrite <- app_assoc.
  - by rewrite Hb.
  - rewrite Hb, Hc. cbn [app]. rewrite <- (app_nil_r (concat _)). by apply DecodePackets_Encode.
  - destruct (Hstep qs lastp [] n1 eq_refl Hp) as [Hp' Hr']. split; [by apply Hend|]. by rewrite Hr'.
Qed.
End receive.
End stream.

(** ** The sender *)

(** The fragments as packets. *)
Fixpoint plan_packets (c : Connection) (seq : Z) (plan : list (bytes * Z)) : list Packet :=
  match plan with
  | [] => []
  | (chunk, id) :: plan =>
      from_conn c PacketDATA (Z.lor FlagReliable FlagNeedACK) id seq chunk :: plan_packets c (u16 (seq + 1)) plan
  end.

Lemma fragment_packets_plan c q plan : fragment_packets c q plan = EncodePacket <$> plan_packets c q plan.
Proof. revert q. induction plan as [|[ch id] plan IH]; intros q; [done|]. cbn. by rewrite IH. Qed.

Lemma plan_payloads c q plan : Payload <$> plan_packets c q plan = plan.*1.
Proof. revert q. induction plan as [|[ch id] plan IH]; intros q; [done|]. cbn. by rewrite <- (IH (u16 (q + 1))). Qed.

Lemma plan_ids c q plan : FragmentID <$> plan_packets c q plan = plan.*2.
Proof. revert q. induction plan as [|[ch id] plan IH]; intros q; [done|]. cbn. by rewrite <- (IH (u16 (q + 1))). Qed.

Lemma plan_numbers c q plan :
  is_u16 q → PacketID <$> plan_packets c q plan = (λ i, u16 (q + Z.of_nat i)) <$> seq 0 (length plan).
Proof.
  revert q. induction plan as [|[ch id] plan IH]; intros q Hq; [done|].
  cbn [plan_packets fmap list_fmap length seq]. rewrite Z.add_0_r, (wrap_small 16 q) by done. f_equal.
  rewrite <- fmap_S_seq. change (list_fmap Packet Z PacketID) with (fmap (M := list) PacketID).
  rewrite IH by (unfold is_u; pose proof (Z.mod_pos_bound (q + 1) (2 ^ 16)); unfold wrap; lia).
  rewrite <- list_fmap_compose. apply list_fmap_ext. intros i j _. unfold compose, wrap.
  rewrite Zplus_mod_idemp_l. f_equal. lia.
Qed.

(** The two ends' ports, as the wire carries them. *)
Definition ends_ok (c : Connection) : Prop :=
  is_u 4 (srcType c) ∧ is_u 4 (dstType c) ∧ is_u8 (srcPort c) ∧ is_u8 (dstPort c) ∧ is_u16 (outReliable c).

Lemma plan_ok c q plan :
  ends_ok c → is_u16 q → Forall (λ x, zlen x.1 < 65536 ∧ is_u8 x.2) plan →
  Forall (λ p, packet_ok p ∧ data_packet p) (plan_packets c q plan).
Proof.
  intros (H1 & H2 & H3 & H4 & _) Hq Hplan. revert q Hq.
  induction Hplan as [|[ch id] plan [Hch Hid] _ IH]; intros q Hq; [constructor|]. cbn [plan_packets]. constructor.
  - split; [|done]. unfold packet_ok, from_conn. cbn. split_and!; try done; by right.
  - apply IH. unfold is_u. pose proof (Z.mod_pos_bound (q + 1) (2 ^ 16)). unfold wrap. lia.
Qed.

Lemma run_fragments_buffer {App} fuel r rest id (n n' : NetOf App) :
  run_fragments fuel r rest id n = Some n' → recvBuf (conn r n') = recvBuf (conn r n).
Proof.
  revert rest id n. induction fuel as [|fuel IH]; intros rest id n; [done|]. cbn [run_fragments]. unfold send_next.
  destruct (state (conn r n) =? stateClosed); [by intros [= <-]|]. cbv zeta.
  assert (∀ ch k, recvBuf (conn r (sendOneFragment r ch k n)) = recvBuf (conn r n)) as Hs
    by (intros; by rewrite conn_sendOne).
  destruct (_ <? zlen rest); destruct (_ =? 0); try (by intros [= <-]); intros ->%IH; apply Hs.
Qed.

(** What [send_message] sends. *)
Lemma send_message_plan {App} r data (n : NetOf App) :
  state (conn r n) ≠ stateClosed →
  let size := Z.to_nat (frag_size (settings n)) in
  ∃ n' plan m, send_message r data n = Some n' ∧
    sent n' = sent n ++ ((λ p, (r, EncodePacket p)) <$> plan_packets (conn r n) (outReliable (conn r n)) plan) ∧
    recvBuf (conn r n') = recvBuf (conn r n) ∧
    concat plan.*1 = take (256 * size) data ∧ Forall (λ c, (length c ≤ size)%nat) plan.*1 ∧
    plan.*2 = (Z.of_nat <$> seq 1 m) ++ [0] ∧ (m < 256)%nat.
Proof.
  intros Hst size. assert (0 < frag_size (settings n)) as Hsz by (unfold frag_size; case_match; lia).
  unfold send_message, sendData. cbv zeta. destruct (Z.leb_spec (zlen data) (frag_size (settings n))) as [Hle|Hgt].
  - exists (sendOneFragment r data 0 n), [(data, 0)], 0%nat. unfold zlen in Hle.
    split_and!; [done| |by rewrite conn_sendOne| | |done|lia].
    + unfold sendOneFragment. by autorewrite with net_rw.
    + cbn. rewrite app_nil_r, take_ge; [done|]. unfold size. lia.
    + repeat constructor. cbn. unfold size. lia.
  - set (n0 := set_tasks _ n).
    destruct (fragments_of_a_message r data n0 Hst) as (n' & plan & m & Hrun & Hsent & Hc & Hf & Hi & Hm).
    exists n', plan, m. split; [done|]. split; [|by rewrite (run_fragments_buffer _ _ _ _ _ _ Hrun)].
    rewrite Hsent, fragment_packets_plan, <- list_fmap_compose. done.
Qed.

(** *** What travels

    The packets [ps] in order; at any moment, after the last one too, any packet may come again
    while its number is among the last 128 that have gone. *)
Inductive resent : list Packet → list Packet → list Packet → Prop :=
  | rs_end seen : resent seen [] []
  | rs_new seen p ps qs : resent (seen ++ [p]) ps qs → resent seen (p :: ps) (p :: qs)
  | rs_again seen p ps qs : p ∈ last_n 128 seen → resent seen ps qs → resent seen ps (p :: qs).

Lemma resent_refl seen ps : resent seen ps ps.
Proof. revert seen. induction ps as [|p ps IH]; intros seen; constructor. apply IH. Qed.

Lemma resent_over seen qs : resent seen [] qs → Forall (λ p, p ∈ last_n 128 seen) qs.
Proof.
  remember (@nil Packet) as ps eqn:E. induction 1 as [| |seen p ps qs Hp H IH]; [constructor|done|].
  constructor; auto.
Qed.

Lemma resent_elem seen ps qs p : resent seen ps qs → p ∈ qs → p ∈ seen ∨ p ∈ ps.
Proof.
  induction 1 as [seen|seen q ps qs _ IH|seen q ps qs Hq _ IH]; intros Hp; [by right| |];
    apply elem_of_cons in Hp as [->|Hp]; try (right; by left); try (by apply IH).
  - apply IH in Hp as [[?| ->%list_elem_of_singleton]%elem_of_app|?]; [by left|right; by left|right; by right].
  - left. by apply elem_of_drop in Hq.
Qed.

Lemma resent_all seen ps qs p : resent seen ps qs → p ∈ ps → p ∈ qs.
Proof.
  induction 1 as [|? ? ? ? _ IH|? ? ? ? _ _ IH]; [done| |by right; apply IH].
  intros [->|?]%elem_of_cons; [by left|right; by apply IH].
Qed.

Lemma last_n_app {A} k (l1 l2 : list A) x : x ∈ last_n k l2 → x ∈ last_n k (l1 ++ l2).
Proof.
  unfold last_n. rewrite length_app, !list_elem_of_lookup. intros [i Hi]. rewrite lookup_drop in Hi.
  exists (length l1 + (length l2 - k) + i - (length l1 + length l2 - k))%nat. rewrite lookup_drop, <- Hi, lookup_app_r by lia.
  f_equal. lia.
Qed.

(** To a receiver that has had none of their numbers, fragments that go this way arrive; what
    comes after the last of them it has had. *)
Lemma resent_arrives l seen ps qs :
  resent seen ps qs → Forall data_packet (seen ++ ps) → (∀ p, p ∈ ps → PacketID p ∉ l) →
  NoDup (PacketID <$> seen ++ ps) →
  (∃ ps' p, ps = ps' ++ [p] ∧ FragmentID p = 0 ∧ Forall (λ p, FragmentID p ≠ 0) ps') →
  ∃ qs1 qs2, qs = qs1 ++ qs2 ∧ arrives (l ++ (PacketID <$> seen)) ps qs1 ∧
    Forall (λ p, data_packet p ∧ PacketID p ∈ last_n 128 (l ++ (PacketID <$> seen ++ ps))) qs2.
Proof.
  assert (∀ p seen, p ∈ last_n 128 seen → Forall data_packet seen →
    data_packet p ∧ PacketID p ∈ last_n 128 (l ++ (PacketID <$> seen))) as Hhad.
  { intros p seen0 Hp Hd. split.
    - rewrite Forall_forall in Hd. apply Hd. by eapply elem_of_drop.
    - apply last_n_app. unfold last_n. rewrite length_fmap, <- fmap_drop. by apply list_elem_of_fmap_2. }
  assert (∀ p seen ps, (∀ q, q ∈ p :: ps → PacketID q ∉ l) → NoDup (PacketID <$> seen ++ p :: ps) →
    PacketID p ∉ last_n 128 (l ++ (PacketID <$> seen))) as Hnew.
  { intros p seen0 ps0 Hl Hn [Hin|Hin]%elem_of_drop%elem_of_app; [apply (Hl p); [by left|done]|].
    rewrite fmap_app in Hn. apply NoDup_app in Hn as (_ & Hn & _). apply (Hn _ Hin). by left. }
  intros H. induction H as [seen|seen p ps qs H IH|seen p ps qs Hp H IH]; intros Hd Hl Hn (ps' & lp & E & H0 & Hnz).
  - by destruct ps'.
  - assert (data_packet p) as Hdp by (rewrite Forall_app, Forall_cons in Hd; tauto).
    destruct ps' as [|p' ps'].
    + injection E as -> ->. exists [lp], qs. split; [done|]. split; [constructor; eauto|].
      apply resent_over in H. eapply Forall_impl; [exact H|]. intros q Hq. by apply Hhad.
    + injection E as <- ->. apply Forall_cons in Hnz as [Hp Hnz]. destruct IH as (qs1 & qs2 & -> & Ha & Hq2).
      * by rewrite <- app_assoc.
      * intros q Hq. apply Hl. by right.
      * by rewrite <- app_assoc.
      * by exists ps', lp.
      * exists (p :: qs1), qs2. rewrite fmap_app, app_assoc in Ha. rewrite <- app_assoc in Hq2.
        split; [done|]. split; [|done]. constructor; eauto.
  - destruct IH as (qs1 & qs2 & -> & Ha & Hq2); [done..|by exists ps', lp|].
    exists (p :: qs1), qs2. split; [done|]. split; [|done]. apply Forall_app in Hd as [Hd _].
    destruct (Hhad p seen Hp Hd). by constructor.
Qed.

(** ** The acknowledgements *)
Section acks.
Context {App : Type}.
#[local] Abbreviation Net := (NetOf App).
Implicit Types (n : Net).
Context `{MO : MapOrder}.
Context (file : option (gmap bytes authRecallPersisted)) (rand16 : Net → bytes).
Context (table : HandlerTable Net) (OnConnect OnDisconnect : option (Ref → Net → Net)).
Context (OnRMC : option (Ref → RMCMessage → Net → Net)) (custom : gmap Z (Ref → Packet → Net → Net)).
Context (r : Ref).
#[local] Abbreviation handle p n := (handlePacket file rand16 table OnConnect OnDisconnect OnRMC custom r p n).
#[local] Abbreviation feed b n := (Feed file rand16 table OnConnect OnDisconnect OnRMC custom r b n).

Definition ack_packet (p : Packet) : Prop :=
  p_Type p = PacketDATA ∧ HasFlag p FlagMultiACK = false ∧ HasFlag p FlagACK = true.

Lemma handle_ack p n :
  ack_packet p →
  conn r (handle p n) = ackPackets (PacketID p) [] (set_lastSeen (clock n) (conn r n)).
Proof.
  intros (H1 & H2 & H3). transitivity (conn r (processData table OnRMC r p (upd r (set_lastSeen (clock n)) n))).
  - unfold handlePacket. by rewrite H1.
  - unfold processData. rewrite H2, H3. by rewrite !conn_upd_eq.
Qed.

Definition forgotten (past : list Packet) n : Prop := ∀ p, p ∈ past → pending (conn r n) !! PacketID p = None.

Lemma forgotten_step past p n : ack_packet p → forgotten past n → forgotten (past ++ [p]) (handle p n).
Proof.
  intros Hp Hn q Hq. rewrite handle_ack, ackPackets_lookup by done. case_decide as E; [done|].
  apply elem_of_app in Hq as [Hq| ->%list_elem_of_singleton]; [by apply Hn|]. exfalso. apply E. left. lia.
Qed.

(** Acknowledgements, however they are cut, take what they name out of the pool. *)
Lemma receive_acks acks pieces n :
  acks ≠ [] → Forall (λ p, packet_ok p ∧ ack_packet p) acks → recvBuf (conn r n) = [] →
  concat pieces = concat (EncodePacket <$> acks) → Forall (λ b, b ≠ []) pieces →
  forgotten acks (foldl (λ n b, feed b n) n pieces).
Proof.
  intros Hne Hok Hb Hc Hp. destruct acks as [|lastp acks _] using rev_ind; [done|].
  pose proof Hok as [Ha Hl]%Forall_app. rewrite Forall_singleton in Hl. destruct Hl as [_ Hl].
  destruct (feed_run file rand16 table OnConnect OnDisconnect OnRMC custom r forgotten acks lastp) with
    (pieces := pieces) (todo := acks) (past := @nil Packet) (n := n) as (n1 & Hw & Hr & ->); try done.
  - intros past b m Hm q Hq. rewrite conn_upd_eq. by apply Hm.
  - intros past p todo m -> Hm. apply Forall_app in Ha as [_ [[_ Ha] _]%Forall_cons].
    split; [by apply forgotten_step|]. by rewrite handle_ack.
  - intros q Hq. by apply not_elem_of_nil in Hq.
  - by rewrite Hb.
  - rewrite Hb, Hc. cbn [app]. rewrite <- (app_nil_r (concat _)). apply DecodePackets_Encode; [|done].
    eapply Forall_impl; [exact Hok|]. by intros ? [? _].
  - by apply forgotten_step.
Qed.
End acks.

(** ** Handlers that leave the receiving half alone *)
Section keeping.
Context {App : Type}.
#[local] Abbreviation Net := (NetOf App).
Implicit Types (n : Net).

Lemma receiver_SendRMC r c m n : receiver (conn r (SendRMC c m n)) = receiver (conn r n).
Proof.
  unfold SendRMC, sendData. case_match; [|done]. unfold sendOneFragment. destruct (decide (c = r)) as [->|Hne].
  - by rewrite conn_upd_eq, conn_send, conn_upd_eq.
  - by rewrite conn_upd_ne, conn_send, conn_upd_ne.
Qed.

Lemma dispatch_receiver (table : HandlerTable Net) OnRMC r data :
  (∀ f req n, OnRMC = Some f → receiver (conn r (f r req n)) = receiver (conn r n)) →
  (∀ k h req n, handler table k = Some h → receiver (conn r (h r req n).2) = receiver (conn r n)) →
  ∀ n, receiver (conn r (dispatchRMC table OnRMC r data n)) = receiver (conn r n).
Proof.
  intros Hf Hh n. unfold dispatchRMC. destruct (ParseRMC _ _) as [[req|] [|]]; try done. case_match; [done|].
  set (m := match OnRMC with Some f => f r req n | None => n end).
  assert (receiver (conn r m) = receiver (conn r n)) as <- by (subst m; destruct OnRMC; eauto).
  destruct (handler table (Protocol req)) as [h|] eqn:E; [|apply receiver_SendRMC].
  specialize (Hh _ h req m E). destruct (h r req m) as [[resp|] m']; cbn [snd] in Hh; [|done].
  by rewrite receiver_SendRMC.
Qed.
End keeping.

(** ** From one end to the other *)
Section delivery.
Context {A B : Type} `{MO : MapOrder}.
Context (file1 file2 : option (gmap bytes authRecallPersisted)).
Context (rand1 : NetOf A → bytes) (rand2 : NetOf B → bytes).
Context (table1 : HandlerTable (NetOf A)) (table2 : HandlerTable (NetOf B)).
Context (OnConnect1 OnDisconnect1 : option (Ref → NetOf A → NetOf A)).
Context (OnConnect2 OnDisconnect2 : option (Ref → NetOf B → NetOf B)).
Context (OnRMC1 : option (Ref → RMCMessage → NetOf A → NetOf A)).
Context (OnRMC2 : option (Ref → RMCMessage → NetOf B → NetOf B)).
Context (custom1 : gmap Z (Ref → Packet → NetOf A → NetOf A)).
Context (custom2 : gmap Z (Ref → Packet → NetOf B → NetOf B)).
#[local] Abbreviation feed1 := (Feed file1 rand1 table1 OnConnect1 OnDisconnect1 OnRMC1 custom1).
#[local] Abbreviation feed2 := (Feed file2 rand2 table2 OnConnect2 OnDisconnect2 OnRMC2 custom2).

Lemma ack_from_ok c p : ends_ok c → packet_ok p ∧ data_packet p → packet_ok (ack_from (from_conn c) p) ∧ ack_packet (ack_from (from_conn c) p).
Proof.
  intros (H1 & H2 & H3 & H4 & _) [Hp [Ht _]]. unfold packet_ok in Hp.
  split; [|by split]. unfold packet_ok, ack_from, from_conn. cbn. rewrite Ht.
  split_and!; try done; try tauto; by right.
Qed.

(** The numbers of a message's fragments are different. *)
Lemma plan_numbers_NoDup c q plan :
  is_u16 q → (length plan ≤ 256)%nat → NoDup (PacketID <$> plan_packets c q plan).
Proof.
  intros Hq Hl. rewrite plan_numbers by done. apply NoDup_fmap_2_strong; [|apply NoDup_seq].
  intros i j [_ Hi]%elem_of_seq [_ Hj]%elem_of_seq E. unfold wrap in E.
  pose proof (Z.div_mod (q + Z.of_nat i) (2 ^ 16)). pose proof (Z.div_mod (q + Z.of_nat j) (2 ^ 16)). lia.
Qed.

(** What the receiver needs to know of the fragments of a message. *)
Definition fragments (q : Z) (data : bytes) (ps : list Packet) : Prop :=
  concat (Payload <$> ps) = data ∧ Forall (λ p, packet_ok p ∧ data_packet p) ps ∧ NoDup (PacketID <$> ps) ∧
  (∀ p, p ∈ ps → ∃ i, 0 ≤ i < 256 ∧ PacketID p = u16 (q + i)) ∧
  ∃ ps' p, ps = ps' ++ [p] ∧ FragmentID p = 0 ∧ Forall (λ p, FragmentID p ≠ 0) ps'.

Lemma plan_fragments c data plan m size :
  ends_ok c → size < 65536 → concat plan.*1 = data → Forall (λ x, zlen x ≤ size) plan.*1 →
  plan.*2 = (Z.of_nat <$> seq 1 m) ++ [0] → (m < 256)%nat →
  fragments (outReliable c) data (plan_packets c (outReliable c) plan).
Proof.
  intros He Hsz Hc Hch Hids Hm. assert (is_u16 (outReliable c)) as Hq by apply He.
  assert (length plan = S m) as Hpl by (rewrite <- (length_fmap snd), Hids, length_app, length_fmap, length_seq; cbn; lia).
  assert (∀ k, k ∈ plan.*2 → is_u8 k) as Hk.
  { intros k. rewrite Hids.
    intros [(i & -> & [? ?]%elem_of_seq)%list_elem_of_fmap| ->%list_elem_of_singleton]%elem_of_app; unfold is_u; lia. }
  split; [by rewrite plan_payloads|]. split; [|split; [apply plan_numbers_NoDup; [done|lia]|split]].
  - apply plan_ok; [done|done|]. apply Forall_forall. intros x Hx. split; [|by apply Hk, list_elem_of_fmap_2].
    rewrite Forall_fmap, Forall_forall in Hch. apply Hch in Hx. unfold compose in Hx. lia.
  - intros p Hp. apply (list_elem_of_fmap_2 PacketID) in Hp. rewrite plan_numbers in Hp by done.
    apply list_elem_of_fmap in Hp as (i & E & [_ Hi]%elem_of_seq). exists (Z.of_nat i). split; [lia|done].
  - pose proof (plan_ids c (outReliable c) plan) as E. rewrite Hids in E.
    destruct (plan_packets c (outReliable c) plan) as [|p ps _] using rev_ind; [by destruct (Z.of_nat <$> seq 1 m)|].
    rewrite fmap_app in E. apply app_inj_tail in E as [E1 E2]. exists ps, p. split_and!; [done|done|].
    apply Forall_forall. intros x Hx%(list_elem_of_fmap_2 FragmentID). rewrite E1 in Hx.
    apply list_elem_of_fmap in Hx as (k & -> & [? ?]%elem_of_seq). lia.
Qed.

(** C8: A message from one end to the other.  What SendRMC sends of a message of up to 256
    fragments reaches the handler of the other end whole and once, however the stream is cut
    into arrivals, and whichever fragments come again, before the last one has come or after, as
    long as they are among the last 128.  Until the message is handed over nothing of the
    process changes but the acknowledgements sent and the receiving half of the connection;
    and after, to a handler that leaves that half alone, as those of the package do, what comes
    again is acknowledged and changes nothing else.  The receiver has
    acknowledged every arrival and keeps nothing; and when the acknowledgements have come
    back, however they are cut, the sender's pool of retransmission has none of the message's
    fragments. *)
Theorem messages_arrive r1 (n1 : NetOf A) r2 (n2 : NetOf B) data l :
  state (conn r1 n1) ≠ stateClosed → ends_ok (conn r1 n1) → ends_ok (conn r2 n2) →
  recvBuf (conn r1 n1) = [] → recvBuf (conn r2 n2) = [] → fragBuf (conn r2 n2) = [] →
  frag_size (settings n1) < 65536 → zlen data ≤ 256 * frag_size (settings n1) →
  ring_ok (conn r2 n2) l → (∀ i, 0 ≤ i < 256 → u16 (outReliable (conn r1 n1) + i) ∉ l) →
  (∀ m, receiver (conn r2 (dispatchRMC table2 OnRMC2 r2 data m)) = receiver (conn r2 m)) →
  ∃ n1' ps, send_message r1 data n1 = Some n1' ∧ sent n1' = sent n1 ++ ((λ p, (r1, EncodePacket p)) <$> ps) ∧
    ∀ qs pieces, resent [] ps qs → concat pieces = concat (EncodePacket <$> qs) → Forall (λ b, b ≠ []) pieces →
    let n2'' := foldl (λ n b, feed2 r2 b n) n2 pieces in
    let acks ps := (λ p, (r2, ack_of (conn r2 n2) p)) <$> ps in
    ∃ qs1 qs2 n2', qs = qs1 ++ qs2 ∧ receiving r2 n2 n2' ∧ sent n2' = sent n2 ++ acks qs1 ∧
      fragBuf (conn r2 n2') = [] ∧ only_acks r2 (acks qs2) (dispatchRMC table2 OnRMC2 r2 data n2') n2'' ∧ fragBuf (conn r2 n2'') = [] ∧ recvBuf (conn r2 n2'') = [] ∧
      ∀ pieces', concat pieces' = concat (ack_of (conn r2 n2) <$> qs) → Forall (λ b, b ≠ []) pieces' →
        ∀ p, p ∈ ps → pending (conn r1 (foldl (λ n b, feed1 r1 b n) n1' pieces')) !! PacketID p = None.
Proof.
  intros Hst He1 He2 Hb1 Hb2 Hf2 Hsz Hlen Hring Hfresh Hkeep.
  destruct (send_message_plan r1 data n1 Hst) as (n1' & plan & m & Hsend & Hsent & Hb & Hc & Hch & Hids & Hm).
  assert (0 < frag_size (settings n1)) as Hpos by (unfold frag_size; case_match; lia).
  rewrite take_ge in Hc by (unfold zlen in Hlen; lia).
  destruct (plan_fragments (conn r1 n1) data plan m (frag_size (settings n1))) as (Hdata & Hps & Hnd & Hnum & Hshape); try done.
  { eapply Forall_impl; [exact Hch|]. unfold zlen. intros x. lia. }
  set (ps := plan_packets _ _ plan) in *. exists n1', ps. split; [done|]. split; [done|].
  intros qs pieces Hr Hpc Hne. cbv zeta. assert (Forall (λ p, packet_ok p ∧ data_packet p) qs) as Hqs.
  { rewrite Forall_forall in Hps |- *. intros p Hp. apply Hps.
    by destruct (resent_elem _ _ _ _ Hr Hp) as [H%not_elem_of_nil|]. }
  destruct (resent_arrives l [] ps qs Hr) as (qs1 & qs2 & -> & Harr & Hq2); [| |done|done|].
  { eapply Forall_impl; [exact Hps|]. by intros ? [_ ?]. }
  { intros p (i & Hi & ->)%Hnum. by apply Hfresh. }
  cbn [fmap list_fmap app] in Harr, Hq2. rewrite app_nil_r in Harr.
  destruct (receive_message file2 rand2 table2 OnConnect2 OnDisconnect2 OnRMC2 custom2 r2 n2 (from_conn (conn r2 n2)) data
    (l ++ (PacketID <$> ps)) (sent n2) qs1 Hkeep l [] ps qs2 pieces n2)
    as ((n2' & (_ & H2 & _ & H4 & Hrec) & Honly & _ & Hfrag & _) & Hbuf); try done.
  { eapply Forall_impl; [exact Hqs|]. by intros ? [? _]. }
  exists qs1, qs2, n2'. do 7 (split; [done|]).
  intros pieces' Hpc' Hne' p Hp.
  change (ack_of (conn r2 n2)) with (EncodePacket ∘ ack_from (from_conn (conn r2 n2))) in Hpc'.
  rewrite list_fmap_compose in Hpc'.
  refine (receive_acks file1 rand1 table1 OnConnect1 OnDisconnect1 OnRMC1 custom1 r1
    (ack_from (from_conn (conn r2 n2)) <$> (qs1 ++ qs2)) pieces' n1' _ _ _ _ _ (ack_from (from_conn (conn r2 n2)) p) _); try done.
  - destruct qs1; [by apply arrives_nonempty in Harr|done].
  - apply Forall_fmap. eapply Forall_impl; [exact Hqs|]. intros x. by apply ack_from_ok.
  - by rewrite Hb.
  - apply list_elem_of_fmap_2. by eapply resent_all.
Qed.
End delivery.

(** A message of two fragments.  The first one is sent twice, the stream is cut in the middle of
    it, both come again after the message has been handed over, and the acknowledgements come
    back one by one. *)
Section example.
#[local] Existing Instance canonical_order.
#[local] Abbreviation feed := (Feed None (λ _, []) (mkTable ∅ None) None None None ∅ 0%nat).

Lemma messages_arrive_witness :
  let data := Encode (NewRMCRequest switch0 0x15 2 7 (replicate 2000 x61)) in
  let acks ps := (λ p, (0%nat, ack_of (conn 0%nat (small true)) p)) <$> ps in
  ∃ n1' p1 p2, send_message 0%nat data (small false) = Some n1' ∧
    let bs := concat (EncodePacket <$> [p1; p1; p2; p2; p1]) in
    ∃ qs1 qs2 n2', [p1; p1; p2; p2; p1] = qs1 ++ qs2 ∧ receiving 0%nat (small true) n2' ∧ sent n2' = acks qs1 ∧
      only_acks 0%nat (acks qs2) (dispatchRMC (mkTable ∅ None) None 0%nat data n2')
        (foldl (λ n b, feed b n) (small true) [take 5 bs; drop 5 bs]) ∧
      ∀ p, p ∈ [p1; p2] →
        pending (conn 0%nat (foldl (λ n b, feed b n) n1' (ack_of (conn 0%nat (small true)) <$> [p1; p1; p2; p2; p1]))) !! PacketID p = None.
Proof.
  set (data := Encode _). cbv zeta.
  assert (∀ b, ends_ok (conn 0%nat (small b))) as He by (intros []; vm_compute; split_and!; congruence).
  assert (state (conn 0%nat (small false)) ≠ stateClosed) as Hst by (vm_compute; discriminate).
  assert (zlen data ≤ 256 * frag_size (settings (small false))) as Hlen by (vm_compute; discriminate).
  destruct (messages_arrive None None (λ _, []) (λ _, []) (mkTable ∅ None) (mkTable ∅ None) None None None None None None ∅ ∅
    0%nat (small false) 0%nat (small true) data [] Hst (He false) (He true) eq_refl eq_refl eq_refl eq_refl Hlen
    (small_ring true) (λ i _, not_elem_of_nil _) (dispatch_receiver (mkTable ∅ None) None 0%nat data ltac:(done) ltac:(done)))
    as (n1' & ps & Hsend & Hsent & Hrest).
  assert (length <$> (sent <$> send_message 0%nat data (small false)) = Some 2%nat) as E by (vm_compute; reflexivity).
  rewrite Hsend in E. cbn [fmap option_fmap option_map] in E. injection E as E.
  rewrite Hsent, length_app, length_fmap in E. change (length (sent (small false))) with 0%nat in E.
  destruct ps as [|p1 [|p2 [|]]]; try discriminate E.
  set (bs := concat (EncodePacket <$> [p1; p1; p2; p2; p1])).
  destruct (Hrest [p1; p1; p2; p2; p1] [take 5 bs; drop 5 bs]) as (qs1 & qs2 & n2' & H1 & H0 & H2 & _ & H4 & _ & _ & H5).
  - constructor. apply rs_again; [by left|]. constructor. apply rs_again; [by right; left|]. apply rs_again; [by left|]. constructor.
  - cbn [concat]. by rewrite app_nil_r, take_drop.
  - repeat constructor; discriminate.
  - exists n1', p1, p2. split; [exact Hsend|]. exists qs1, qs2, n2'. split; [exact H1|]. split; [exact H0|]. split; [exact H2|].
    split; [exact H4|]. apply H5; [reflexivity|]. repeat constructor; discriminate.
Defined.
End example.
