(* ===== verification/Transport.v ===== *)
(** * The transport's edge (src/server.go, src/proxyproto.go, the periodic part of src/reaper.go)

    The WebSocket server's events over the endpoint, the choice it makes for an HTTP request,
    the PROXY header in front of a connection, and the configuration of the reaper.  The
    WebSocket library is the source of the events; sockets are numbers. *)

From S2P Require Export EndpointProps.

(** ** The PROXY header (proxyproto.go) *)

(** [net.TCPAddr]: an address in the form [net.ParseIP] gives, and a port. *)
Record TCPAddr := mkTCPAddr { tcp_IP : bytes; tcp_Port : Z }.

Definition proxy_fields (line : bytes) : option TCPAddr :=
  match Fields (TrimSpace line) with
  | _ :: proto :: src :: _ :: port :: _ :: _ =>
      if bytes_eqb proto (str "TCP4") || bytes_eqb proto (str "TCP6") then
        match ParseIP src with Some ip => Some (mkTCPAddr ip (Atoi port).1) | None => None end
      else None
  | _ => None
  end.

(** [Accept], on everything the peer sends: the address of the header, and the bytes the
    connection goes on with.  A first line that never ends is read to its end and dropped. *)
Definition Accept (input : bytes) : option TCPAddr * bytes :=
  if bytes_eqb (take 6 input) (str "PROXY ") then
    match index_byte x0a input with
    | Some i => (proxy_fields (take (i + 1) input), drop (i + 1) input)
    | None => (None, [])
    end
  else (None, input).

(** ** The HTTP entry (the handler of [mux]) *)

(** [strings.ToLower(s) == "websocket"]: the Kelvin sign lowers to the letter k, and no other
    character outside ASCII lowers to a letter of the word. *)
Fixpoint lowers_to (w s : bytes) : bool :=
  match w with
  | [] => bool_decide (s = [])
  | c :: w =>
      match s with
      | d :: t =>
          if bool_decide (d = c) || bool_decide (Z_of_byte d = Z_of_byte c - 32) then lowers_to w t
          else if bool_decide (c = "k"%byte) && has_prefix [xe2; x84; xaa] s then lowers_to w (drop 3 s)
          else false
      | [] => false
      end
  end.

Inductive http_answer := Upgrade | Custom | NotFound.

Definition http_route (upgrade key : bytes) (custom : bool) : http_answer :=
  if lowers_to (str "websocket") upgrade || negb (bool_decide (key = [])) then Upgrade
  else if custom then Custom else NotFound.

(** ** The socket's events *)
Section server.
Context {App : Type}.
#[local] Abbreviation Net := (NetOf App).
Implicit Types (n : Net).
Context `{MO : MapOrder}.
Context (file : option (gmap bytes authRecallPersisted)) (rand16 : Net → bytes).
Context (table : HandlerTable Net).
Context (OnConnect OnDisconnect : option (Ref → Net → Net)).
Context (OnRMC : option (Ref → RMCMessage → Net → Net)).
Context (custom : gmap Z (Ref → Packet → Net → Net)).

(** The table of the live sockets, beside the endpoint. *)
Record Server := mkServer { conns : gmap Z Ref; net : Net }.
Definition NewServer n : Server := mkServer ∅ n.

Definition OpcodeBinary : Z := 2.

Definition OnOpen (socket : Z) (addr : bytes) (s : Server) : Server :=
  let '(r, n) := alloc (NewConnection addr) (net s) in mkServer (<[socket := r]> (conns s)) n.

Definition OnClose (socket : Z) (s : Server) : Server :=
  match conns s !! socket with
  | Some r => mkServer (delete socket (conns s)) (close OnDisconnect r (net s))
  | None => s
  end.

Definition OnMessage (socket opcode : Z) (message : bytes) (s : Server) : Server :=
  if negb (opcode =? OpcodeBinary) then s
  else
    match conns s !! socket with
    | Some r => mkServer (conns s) (Feed file rand16 table OnConnect OnDisconnect OnRMC custom r message (net s))
    | None => s
    end.

(** *** The reaper's loop (reaper.go) *)
Definition defaultReapIdleSeconds : Z := 600.
Definition defaultReapEverySecond : Z := 60.

(** [getenv]: the value of the variable. *)
Definition envSeconds (getenv : bytes → bytes) (key : bytes) (def : Z) : Z :=
  let v := getenv key in
  let deflt := s64 (def * second) in
  if bool_decide (v = []) then deflt
  else match Atoi v with (k, None) => if 0 <=? k then s64 (k * second) else deflt | _ => deflt end.

Definition ReapIdleTimeout (getenv : bytes → bytes) : Z :=
  envSeconds getenv (str "NEXTENDO_REAP_IDLE_SECONDS") defaultReapIdleSeconds.

(** The period and the threshold of the loop [StartReaper] starts; [None] when it is already
    started, or disabled. *)
Definition StartReaper (getenv : bytes → bytes) (started : bool) : option (Z * Z) :=
  let maxIdle := ReapIdleTimeout getenv in
  if maxIdle <=? 0 then None
  else if started then None
  else Some (envSeconds getenv (str "NEXTENDO_REAP_EVERY_SECONDS") defaultReapEverySecond, maxIdle).

(** One turn of the loop. *)
Definition reaper_turn (every maxIdle : Z) n : Net :=
  (ReapIdle OnDisconnect maxIdle (set_clock (clock n + Z.max 0 every) n)).2.

(** ** What the events come to *)

(** Every event is a run of steps of the endpoint, so that whatever holds in every state the
    endpoint reaches holds whatever the sockets do. *)
Definition endpoint_step n n' := net_step file rand16 table OnConnect OnDisconnect OnRMC custom n n'.

Lemma OnOpen_run socket addr s : rtc endpoint_step (net s) (net (OnOpen socket addr s)).
Proof. apply rtc_once. apply (net_accept _ _ _ _ _ _ _ _ addr). Qed.

Lemma OnClose_run socket s : rtc endpoint_step (net s) (net (OnClose socket s)).
Proof. unfold OnClose. case_match; [|done]. apply rtc_once. apply net_close. Qed.

Lemma OnMessage_run socket opcode message s : rtc endpoint_step (net s) (net (OnMessage socket opcode message s)).
Proof. unfold OnMessage. case_match; [done|]. case_match; [|done]. apply Feed_run. Qed.

Lemma close_matching_run pred n : rtc endpoint_step n (close_matching OnDisconnect pred n).2.
Proof.
  unfold close_matching. generalize 0 as k. generalize (snapshotConns n) as l. intros l. revert n.
  induction l as [|r l IH]; intros n k; [done|]. cbn [foldl]. destruct (pred (conn r n)); [|apply IH].
  eapply rtc_l; [apply net_close|]. apply IH.
Qed.

Lemma reaper_turn_run every maxIdle n : rtc endpoint_step n (reaper_turn every maxIdle n).
Proof.
  unfold reaper_turn. eapply rtc_l; [apply (net_clock _ _ _ _ _ _ _ _ (clock n + Z.max 0 every))|].
  unfold ReapIdle. case_match; [done|]. apply close_matching_run.
Qed.
End server.

(** ** The address behind a proxy *)
Definition word (w : bytes) : Prop := w ≠ [] ∧ Forall (λ c, visible c = true) w.

Lemma index_byte_app c p s : c ∉ p → index_byte c (p ++ c :: s) = Some (length p).
Proof.
  unfold index_byte. induction p as [|d p IH]; intros H.
  - cbn [app index_of has_prefix]. by rewrite bool_decide_true.
  - apply not_elem_of_cons in H as [Hd Hp]. cbn [app index_of has_prefix length].
    rewrite bool_decide_false by done. cbn [andb]. by rewrite IH.
Qed.

Lemma visible_ends c s :
  visible c = true →
  Forall (λ sp, has_prefix sp (c :: s) = false) spaces ∧ Forall (λ sp, has_prefix sp (c :: s) = false) (reverse <$> spaces).
Proof. intros H. destruct c; try (by vm_compute in H); split; repeat constructor. Qed.

Lemma trim_end_of_line k b r :
  visible b = true → trim_front (S (S k)) (reverse <$> spaces) (x0a :: x0d :: b :: r) = b :: r.
Proof.
  intros Hb. change (trim_front k (reverse <$> spaces) (b :: r) = b :: r).
  apply trim_front_id. by apply visible_ends.
Qed.

(** A line that starts and ends on a visible character, and its end of line. *)
Lemma TrimSpace_line a l b :
  visible a = true → visible b = true → TrimSpace (a :: l ++ [b; x0d; x0a]) = a :: l ++ [b].
Proof.
  intros Ha Hb. unfold TrimSpace.
  rewrite (trim_front_id _ spaces (a :: _)) by exact (proj1 (visible_ends a _ Ha)).
  assert (reverse (a :: l ++ [b; x0d; x0a]) = x0a :: x0d :: b :: reverse (a :: l)) as ->.
  { change (a :: l ++ [b; x0d; x0a]) with ((a :: l) ++ [b; x0d; x0a]). by rewrite reverse_app. }
  assert (length (a :: l ++ [b; x0d; x0a]) = S (S (S (S (length l))))) as ->
    by (cbn [length]; rewrite length_app; simpl; lia).
  rewrite trim_end_of_line by done. by rewrite <- reverse_snoc, reverse_involutive.
Qed.

Lemma visible_digit c : is_Some (digit_val c) → visible c = true.
Proof. unfold digit_val. intros [d H]. destruct c; try (by vm_compute in H); reflexivity. Qed.

Lemma word_Itoa n : word (Itoa n).
Proof.
  assert (∀ k, word (FormatUint k)) as H.
  { intros k. split; [apply FormatUint_nonempty|].
    eapply Forall_impl; [apply FormatUint_digits|]. intros c. apply visible_digit. }
  unfold Itoa. case_match; [|apply H]. split; [done|]. constructor; [done|apply H].
Qed.

Lemma word_of w : forallb visible w = true → w ≠ [] → word w.
Proof. intros H1 H2. split; [done|]. apply Forall_forall. intros c Hc. rewrite forallb_forall in H1. apply H1. by apply list_elem_of_In. Qed.

(** A run of words: no end of line in it, visible at its end. *)
Lemma join_words w ws :
  word w → Forall word ws →
  x0a ∉ join_with " "%byte (w :: ws) ∧ x0d ∉ join_with " "%byte (w :: ws) ∧
  ∃ l b, join_with " "%byte (w :: ws) = l ++ [b] ∧ visible b = true.
Proof.
  intros Hw Hws. revert w Hw. induction Hws as [|w2 ws Hw2 _ IH]; intros w [Hne Hv].
  - change (join_with " "%byte [w]) with w. rewrite Forall_forall in Hv.
    assert (x0a ∉ w ∧ x0d ∉ w) as [] by (split; intros H; by apply Hv in H).
    destruct w as [|b l _] using rev_ind; [done|]. split_and!; [done..|]. exists l, b. split; [done|].
    apply Hv, elem_of_app. right. by left.
  - change (join_with " "%byte (w :: w2 :: ws)) with (w ++ " "%byte :: join_with " "%byte (w2 :: ws)).
    destruct (IH w2 Hw2) as (Ha & Hd & l & b & E & Hb). rewrite Forall_forall in Hv.
    split_and!; [| |exists (w ++ " "%byte :: l), b; rewrite E; by rewrite <- app_assoc];
      rewrite elem_of_app, elem_of_cons; intros [H|[H|H]]; try done; by apply Hv in H.
Qed.

(** Behind a proxy, the console's connection has the address the proxy saw, and the bytes
    that follow the header. *)
Theorem proxied_address src dst dport ip port rest :
  word src → word dst → word dport → ParseIP src = Some ip → is_s64 port →
  Accept (join_with " "%byte [str "PROXY"; str "TCP4"; src; dst; Itoa port; dport] ++ [x0d; x0a] ++ rest) =
    (Some (mkTCPAddr ip port), rest).
Proof.
  intros Hs Hd Hp Hip Hport. set (ws := [str "PROXY"; str "TCP4"; src; dst; Itoa port; dport]).
  assert (Forall word ws) as Hws.
  { subst ws. repeat (apply Forall_cons; split); try done; try apply word_Itoa; by apply word_of. }
  destruct (join_words (str "PROXY") (tail ws)) as (Ha & _ & l & b & E & Hb); [by apply word_of|by inversion Hws|].
  change (str "PROXY" :: tail ws) with ws in *. set (h := join_with " "%byte ws) in *.
  assert (∃ l', h = "P"%byte :: l' ++ [b]) as [l' Eh].
  { assert (head h = Some "P"%byte) as Hh by done. assert (length h ≠ 1%nat) as HL by by (subst h ws; simpl; lia).
    rewrite E in Hh, HL. destruct l as [|c l]; [done|]. injection Hh as ->. by exists l. }
  assert (take 6 (h ++ [x0d; x0a] ++ rest) = str "PROXY ") as Hhead by done.
  unfold Accept. rewrite Hhead. change (bytes_eqb (str "PROXY ") (str "PROXY ")) with true. cbv iota.
  assert (h ++ [x0d; x0a] ++ rest = (h ++ [x0d]) ++ x0a :: rest) as -> by by rewrite <- app_assoc.
  rewrite index_byte_app by (rewrite elem_of_app, list_elem_of_singleton; by intros [|]).
  assert ((h ++ [x0d]) ++ x0a :: rest = (h ++ [x0d; x0a]) ++ rest) as -> by by rewrite <- !app_assoc.
  rewrite take_app_exact, drop_app_exact by (rewrite !length_app; simpl; lia). f_equal.
  unfold proxy_fields. rewrite Eh. change (("P"%byte :: l' ++ [b]) ++ [x0d; x0a]) with ("P"%byte :: (l' ++ [b]) ++ [x0d; x0a]).
  rewrite <- app_assoc. cbn [app]. rewrite TrimSpace_line, <- Eh by done.
  unfold h. rewrite Fields_join by exact Hws. cbn [ws]. change (bytes_eqb (str "TCP4") (str "TCP4")) with true.
  cbn [orb]. by rewrite Hip, Atoi_Itoa.
Qed.

Example proxied_ex :
  Accept (str "PROXY TCP4 203.0.113.7 10.0.0.1 50000 443" ++ [x0d; x0a] ++ str "hello")
  = (Some (mkTCPAddr (v4_prefix ++ [xcb; x00; x71; x07]) 50000), str "hello").
Proof. vm_compute. reflexivity. Qed.
Example http_route_ex : http_route (str "WebSocKet") [] true = Upgrade ∧ http_route [] [] false = NotFound.
Proof. done. Qed.
