(* ===== verification/Switches.v ===== *)
(** * The switches of the environment, and the package's small operations

    Each switch is a function of [getenv], as the package reads it when it starts; the models
    of the components take the values as parameters.  The last two sections are the dump of
    the relayed datagrams and the events of the socket library that change nothing. *)

From S2P Require Export Transport Relay MatchTypes.

(** ** The environment *)
Section environment.
Context (getenv : bytes → bytes).

Definition env_one (key : bytes) : bool := bytes_eqb (getenv key) (str "1").
Definition env_true (key : bytes) : bool := env_one key || bytes_eqb (getenv key) (str "true").

(** *** endpoint.go, prudp_lite.go *)

(** The pause between two fragments, in nanoseconds; none when it is not positive. *)
Definition fragmentPacing : Z :=
  let ms :=
    match getenv (str "NEXTENDO_FRAG_PACING_MS") with
    | [] => 15
    | v => match Atoi v with (n, None) => n | _ => 15 end
    end in
  s64 (ms * (second / 1000)).
Definition notifDiagRetransmit : bool := env_one (str "NEX_DIAG_RETRANSMIT").
Definition decouverteCleAcces : bool := env_one (str "NEX_DECOUVERTE_CLE").

(** *** matchmaking_handlers.go, notification.go, messagedelivery.go, eagle_handoff.go *)
Definition env_openParticipationDefault : bool := env_true (str "NEXTENDO_OPEN_PARTICIPATION").
Definition env_notifStrVideZero : bool := env_one (str "NEX_NOTIF_STRVIDE0").
Definition relaiInclutSource : bool := env_one (str "NEX_RELAI_INCLUT_SOURCE").
Definition notifParams32 : bool := env_one (str "NEX_NOTIF_PARAMS32").

(** *** solo_isolate.go *)
Definition solo_word (tok : bytes) (acc : gset Z) : gset Z :=
  match TrimSpace tok with
  | [] => acc
  | t => match ParseUint t with (v, None) => {[v]} ∪ acc | _ => acc end
  end.
Definition soloPIDsSet : gset Z := foldr solo_word ∅ (split_on ","%byte (getenv (str "NEX_SOLO_PIDS"))).

(** *** nattraversal.go, natbridge.go *)
Definition probeRepointEnabled : bool := env_true (str "NEXTENDO_PROBE_REPOINT").
Definition natFilePath : bytes :=
  match getenv (str "NNCS_NAT_FILE") with [] => str "/data/nat_endpoints.txt" | p => p end.

(** *** The files that keep a state; without a name nothing is kept. *)
Definition authRecallFile : bytes := getenv (str "NEXTENDO_AUTH_RECALL_FILE").
Definition boardFile : bytes := getenv (str "NEXTENDO_BOARD_FILE").
Definition tournamentFile : bytes := getenv (str "NEXTENDO_TOURNAMENT_FILE").
Definition CheminClassement : bytes := getenv (str "NEX_RANKING2_FICHIER").
Definition CheminStatsArbitre : bytes := getenv (str "NEX_REFEREE_STATS_FICHIER").
Definition env_smm2ProfilsFichier : bytes := getenv (str "SMM2_PROFILES_FILE").
Definition logProfileNames : bool := env_one (str "NEXTENDO_LOG_PROFILE_NAMES").
End environment.

(** Who is isolated: the numbers of the list, whatever their order. *)
Lemma soloPIDsSet_elem getenv p :
  p ∈ soloPIDsSet getenv ↔
  ∃ tok, tok ∈ split_on ","%byte (getenv (str "NEX_SOLO_PIDS")) ∧ TrimSpace tok ≠ [] ∧ ParseUint (TrimSpace tok) = (p, None).
Proof.
  unfold soloPIDsSet. induction (split_on _ _) as [|tok l IH]; cbn [foldr]; [set_solver|].
  assert (p ∈ solo_word tok (foldr solo_word ∅ l) ↔
          (TrimSpace tok ≠ [] ∧ ParseUint (TrimSpace tok) = (p, None)) ∨ p ∈ foldr solo_word ∅ l) as ->.
  { unfold solo_word. destruct (TrimSpace tok) eqn:E; [set_solver|].
    destruct (ParseUint _) as [v [e|]] eqn:Ev; [naive_solver|]. rewrite elem_of_union, elem_of_singleton. naive_solver. }
  rewrite IH. setoid_rewrite elem_of_cons. naive_solver.
Qed.

Definition empty_environment (_ : bytes) : bytes := [].
Example switches_off :
  fragmentPacing empty_environment = 15 * (second / 1000) ∧ elements (soloPIDsSet empty_environment) = [] ∧
  natFilePath empty_environment = str "/data/nat_endpoints.txt" ∧ env_true empty_environment (str "X") = false.
Proof. vm_compute. done. Qed.
Example solo_ex :
  let env k := if bytes_eqb k (str "NEX_SOLO_PIDS") then str " 1003, x,,7 " else [] in
  elements (soloPIDsSet env) = elements ({[7; 1003]} : gset Z).
Proof. vm_compute. done. Qed.

(** ** The dump of the relayed datagrams (relaypair.go)

    [stamp] is the time of day as the line prints it, [opens] what opening the file for
    appending says. *)
Definition relayDumpMax : Z := 20000.

(** [relayDumpF] is open once something is written; [relayDumpN] counts the lines. *)
Record RelayDump := mkDump { relayDumpF : option (list bytes); relayDumpN : Z }.
Definition relayDump0 : RelayDump := mkDump None 0.

(** The letter of the place the endpoint holds. *)
Definition coteDe (ps : pairSocket) (a : option UDPAddr) : bytes :=
  match a with
  | None => str "-"
  | Some a => if occupe false a ps then str "A" else if occupe true a ps then str "B" else str "?"
  end.

Definition volcarPaquete (RelayDumpPath stamp : bytes) (opens : bool) (port : Z) (ps : pairSocket)
    (src dst : option UDPAddr) (b : bytes) (d : RelayDump) : RelayDump :=
  if bool_decide (RelayDumpPath = []) then d
  else if relayDumpMax <=? relayDumpN d then d
  else
    let line :=
      stamp ++ str " :" ++ Itoa port ++ str " " ++ coteDe ps src ++ str "->" ++ coteDe ps dst ++ str " " ++
      Itoa (zlen b) ++ str " " ++ hex_encode b ++ [x0a] in
    match relayDumpF d with
    | None => if opens then mkDump (Some [line]) (relayDumpN d + 1) else d
    | Some ls => mkDump (Some (ls ++ [line])) (relayDumpN d + 1)
    end.

(** The dump has the lines it counts, and never more than the ceiling. *)
Definition dump_ok (d : RelayDump) : Prop :=
  relayDumpN d = zlen (default [] (relayDumpF d)) ∧ 0 ≤ relayDumpN d ≤ relayDumpMax.

Lemma volcarPaquete_ok path stamp opens port ps src dst b d :
  dump_ok d → dump_ok (volcarPaquete path stamp opens port ps src dst b d).
Proof.
  intros Hok. pose proof Hok as [H1 H2]. unfold volcarPaquete. case_bool_decide; [done|]. destruct (Z.leb_spec relayDumpMax (relayDumpN d)); [done|].
  destruct (relayDumpF d) as [ls|]; [|destruct opens; [|done]]; unfold dump_ok, zlen in *; cbn in *.
  - rewrite length_app. cbn. lia.
  - lia.
Qed.

Example volcar_ex :
  volcarPaquete (str "/tmp/d") (str "12:00:00.000000") true 40817
    (new_pair 1 2) (Some (mkUDP [x7f; x00; x00; x01] 9)) None [xab; x01] relayDump0 =
  mkDump (Some [str "12:00:00.000000 :40817 ?->- 2 ab01" ++ [x0a]]) 1.
Proof. vm_compute. reflexivity. Qed.

(** [pairRelayConfig]: where the relay is, its ports, and whether it is armed. *)
Definition pairRelayConfig (st : PairState) : bytes * Z * Z * bool :=
  (pairHost st, pairPortBase st, pairPortSpan st, PairRelayActive st).

Definition inactifDepuis (now d : Z) (ps : pairSocket) : bool := d <? now - ps_dernier ps.

(** The socket the reaper closes is the one it finds idle. *)
Lemma reap_pair_idle now st e :
  inactifDepuis now pairRelayTTL e.2 = false → reap_pair now st e = st.
Proof. unfold inactifDepuis, reap_pair. by intros ->. Qed.

Definition journalVolontaires (v : Volontaires) : bytes :=
  let '(n, ouvert) := RelayVolontairesStats v in
  Itoa (Z.of_nat n) ++ if ouvert then str " autorises + ELARGI A TOUS" else str " autorises".

(** ** Names and wrappers *)
Definition natClass_String (c : natClass) : bytes :=
  match c with
  | natOpen => str "open"
  | natModerate => str "moderate"
  | natStrict => str "strict"
  | natUnknown => str "unknown"
  end.

Definition NatPortForIP := natPortForIP.

Section wrappers.
Context {App : Type}.

(** [RegisterCustomPacketHandler]: the last handler of a type is the one that serves. *)
Definition RegisterCustomPacketHandler (packetType : Z) (h : Ref → Packet → NetOf App → NetOf App)
    (custom : gmap Z (Ref → Packet → NetOf App → NetOf App)) := <[packetType := h]> custom.

Definition SecureConnectionHandler : RMCHandler (NetOf App) := SecureConnectionHandlerWithConfig SwitchPia519Config.
Definition handleReplaceURL (r : Ref) (req : RMCMessage) (n : NetOf App) :=
  handleReplaceURLWithConfig (mkSecureConfig false 0 false) r req n.
End wrappers.

(** ** The socket library's other events, and the address behind a proxy *)

(** A ping is answered by an empty pong; neither event reaches the connection. *)
Inductive socket_write := WritePong (payload : bytes).
Definition OnPing {App} (payload : bytes) (s : Server (App := App)) : Server (App := App) * list socket_write := (s, [WritePong []]).
Definition OnPong {App} (payload : bytes) (s : Server (App := App)) : Server (App := App) := s.

(** [RemoteAddr] of a proxied connection: the header's address if it gave one. *)
Definition proxy_RemoteAddr (header : option TCPAddr) (peer : TCPAddr) : TCPAddr := default peer header.
