(* ===== verification/Login.v ===== *)
(** * From the login to the game server (src/ticketgranting.go with src/endpoint.go)

    The two processes of a session: the authentication endpoint answers a login with a
    ticket, and the secure endpoint, which shares a password with it and nothing else, admits
    the console that shows the ticket; or, without a ticket, the console that logged in from
    the same address. *)

From S2P Require Export Endpoint.

Section login.
Context {App : Type}.
#[local] Abbreviation Net := (NetOf App).
Implicit Types (n : Net).
Context `{MO : MapOrder}.
Context (file : option (gmap bytes authRecallPersisted)).
Context (cfg : AuthConfig) (ent : Entropy) (clk now : Z).

(** The user name and the extra data of a LoginEx request. *)
Definition login_args (req : RMCMessage) : bytes * bytes :=
  let '(u, i) := rString (NewStreamIn (Body req) (cfg_Settings cfg)) in (u, (ReadAll i).1).

(** The random source delivers, and the keys have the sizes the code asks for. *)
Definition mint_ok (p : Z) (sourceKey : bytes) : Prop :=
  (∃ k tk, rnd_session ent = Some k ∧ rnd_ticket ent = Some tk ∧ length tk = 16%nat ∧
     zlen k = KerberosKeySize (cfg_Settings cfg)) ∧
  0 ≤ session_key_length cfg ∧ key_ok sourceKey ∧ 0 < KerberosKeySize (cfg_Settings cfg) ≤ 256 ∧
  pid_ok (cfg_Settings cfg) p ∧ pid_ok (cfg_Settings cfg) (SecurePID cfg) ∧ is_u64 now.

(** Its ticket, with what each side reads in it. *)
Lemma mint_both p sourceKey :
  mint_ok p sourceKey →
  ∃ ticket key internal,
    mint_ticket cfg ent now p sourceKey = Ok ticket ∧ zlen key = KerberosKeySize (cfg_Settings cfg) ∧
    DecryptClientTicket ticket sourceKey (cfg_Settings cfg) = Ok (mkClientTicket key (SecurePID cfg) internal) ∧
    DecryptServerTicket internal (DeriveKey (cfg_Settings cfg) (SecurePassword cfg) (SecurePID cfg))
      (cfg_Settings cfg) = Ok (mkServerTicket now p key) ∧
    buf_ok internal.
Proof.
  intros ((k & tk & Hk & Htk & H16 & Hkl) & Hpos & Hs & Hsz & Hp & Hsp & Hnow).
  destruct (mint_ticket_total cfg ent now p sourceKey k tk Hk Htk Hkl Hpos Hs) as [ticket Ht].
  destruct (mint_ticket cfg ent now p sourceKey) as [ticket'|] eqn:E; [|done]. injection Ht as ->.
  assert (entropy_ok ent) as He by (intros b Hb; rewrite Htk in Hb; by injection Hb as <-).
  destruct (mint_ticket_ok cfg ent now p sourceKey ticket He Hp Hsp Hnow ltac:(lia) E)
    as (key & internal & Hkey & Hc & Hsrv & Hb).
  exists ticket, key, internal. rewrite Hk in Hkey. injection Hkey as ->. split_and!; try done.
Qed.

(** C10: From login to game.  When the game server's lookup accepts a login and the random
    source delivers, LoginEx answers success with a ticket.  Whoever has the source key reads
    a session key in it; with that key the console's CONNECT is admitted by any secure
    endpoint that derives its key from the same password, whatever the connection, and the
    connection then has the PID of the login and that session key. *)
Theorem login_then_connect remote req st p sourceKey r n cid check :
  resolve cfg (login_args req).1 (login_args req).2 = Ok (p, sourceKey, 0) →
  mint_ok p sourceKey →
  settings n = cfg_Settings cfg → (PIDSize (settings n) = 4 ∨ PIDSize (settings n) = 8) →
  Secure n = true → SecureKey n = DeriveKey (cfg_Settings cfg) (SecurePassword cfg) (SecurePID cfg) →
  is_u32 cid → is_u32 check →
  ∃ ticket key internal request st' n',
    handleLogin file cfg ent clk now remote req st =
      Ok (buildResponse cfg now req ResultCoreUnknown p ticket sourceKey, st') ∧
    DecryptClientTicket ticket sourceKey (cfg_Settings cfg) = Ok (mkClientTicket key (SecurePID cfg) internal) ∧
    client_request (cfg_Settings cfg) key p cid check = Ok request ∧
    processLoginRequest file r (connect_payload (cfg_Settings cfg) internal request) n =
      (Ok (le_bytes 4 4 ++ le_bytes 4 (u32 (check + 1))), n') ∧
    PID (conn r n') = p ∧ CID (conn r n') = cid ∧ sessionKey (conn r n') = key.
Proof.
  intros Hres Hmint Hset Hps Hsec Hkey Hcid Hck.
  destruct (mint_both p sourceKey Hmint) as (ticket & key & internal & Ht & Hkl & Hc & Hs & Hb).
  destruct Hmint as (_ & _ & _ & Hsz & Hp & _).
  destruct (kerberosEncrypt_ok key (Bytes_ ((wPID p ;;; wU32 cid ;;; wU32 check) (NewStreamOut (settings n)))))
    as (request & Hreq & _); [unfold key_ok; lia|].
  destruct (processLoginRequest_complete file r n internal (mkServerTicket now p key) p cid check request)
    as (n' & Hn' & H1 & H2 & H3); try done; rewrite ?Hset, ?Hkey; try done.
  exists ticket, key, internal, request. exists (remember file clk remote (login_args req).1 p st), n'. rewrite <- Hset.
  split_and!; [|by rewrite Hset|done|done|done|done|done].
  unfold handleLogin, login_args in *. destruct (rString _) as [u i]. destruct (ReadAll i) as [e i'].
  cbn [fst snd] in Hres. rewrite Hres. cbn [result_bind]. change (negb (0 =? 0)) with false. cbv iota.
  by rewrite Ht.
Qed.

(** The user name and the extra data of a login request, whichever its method. *)
Definition credentials_of (req : RMCMessage) : bytes * bytes :=
  if Method req =? MethodLoginWithContext then
    ((skip! rU8 in skip! rU32 in skip! rU32 in read! u := rString in read! e := ReadAll in rret (u, e))
       (NewStreamIn (Body req) (cfg_Settings cfg))).1
  else login_args req.

Definition is_login (req : RMCMessage) : bool :=
  (Method req =? MethodLogin) || (Method req =? MethodLoginEx) || (Method req =? MethodLoginWithContext).

(** C40: A login the lookup refuses leaves no trace.  Whichever of the three login methods is
    called, when the game server's lookup of the request's own user name and extra data answers
    a result code that is not zero, nothing is remembered: neither the address nor the name,
    and no ticket is made; the client gets that code, with the error bit set in the answer's
    first field (Login, LoginEx) or as an RMC error (method 6).  This is not about a login that
    the lookup accepts and whose ticket cannot be made: its address is remembered already. *)
Theorem refused_login_leaves_no_trace remote req st p k code :
  is_login req = true →
  resolve cfg (credentials_of req).1 (credentials_of req).2 = Ok (p, k, code) → code ≠ 0 →
  auth_Handler file cfg ent clk now remote req st =
    Ok (if Method req =? MethodLoginWithContext
        then NewRMCError (cfg_Settings cfg) ProtocolTicketGranting (CallID req) code
        else buildResponse cfg now req (Z.lor code Result.ResultErrorMask) 0 [] [], st).
Proof.
  unfold is_login, credentials_of, auth_Handler, login_args. intros Hl Hres Hne.
  destruct (Z.eqb_spec (Method req) MethodLoginWithContext) as [Hm|Hm].
  - rewrite Hm. cbn [Z.eqb Pos.eqb orb MethodLogin MethodLoginEx MethodLoginWithContext].
    unfold handleLoginWithContext. destruct (rbind _ _ _) as [[u e] i]. cbn [fst snd] in Hres. rewrite Hres.
    cbn [result_bind]. by rewrite (proj2 (Z.eqb_neq _ _)).
  - rewrite orb_false_r in Hl. rewrite Hl. unfold handleLogin. destruct (rString _) as [u i].
    destruct (ReadAll i) as [e i']. cbn [fst snd] in Hres. rewrite Hres. cbn [result_bind].
    by rewrite (proj2 (Z.eqb_neq _ _)).
Qed.

(** What a recall finds just after a login from the same address. *)
Lemma recall_after_remember t addr addr' p username st clk' :
  p ≠ 0 → ipHost addr' = ipHost addr → clk' - t ≤ authRecallTTL →
  (RecallAuthPID file clk' addr' (RememberLoginName username p (RememberAuthPID file t addr p st))).1 = Some p.
Proof.
  intros Hp Hh Ht. unfold RecallAuthPID, RememberLoginName, RememberAuthPID, authRecallInit.
  assert (expired clk' (mkRecall p t) = false) as He by (unfold expired; cbn [at_time]; lia).
  destruct (bool_decide (username = []) || (p =? 0)); destruct (authRecallOnce st) eqn:Eo;
    cbn [authRecallOnce authPIDByIP loginNameToPID pidToLoginName]; rewrite ?Eo;
    cbn [authRecallOnce authPIDByIP]; rewrite Hh, lookup_insert_eq; cbn [pid];
    rewrite (proj2 (Z.eqb_neq _ _)) by done; by rewrite He.
Qed.

(** The console that logged in may connect without a ticket.  Within the day a secure
    endpoint that shares the login table admits an empty CONNECT from the address of the
    login, whatever its port, under the PID of the login. *)
Theorem login_then_ticketless_connect addr req st resp st' p sourceKey r n :
  resolve cfg (login_args req).1 (login_args req).2 = Ok (p, sourceKey, 0) → p ≠ 0 →
  handleLogin file cfg ent clk now (Some addr) req st = Ok (resp, st') →
  Secure n = true → auth n = st' → ipHost (RemoteAddr (conn r n)) = ipHost addr →
  clock n - clk ≤ authRecallTTL →
  ∃ n', processLoginRequest file r [] n = (Ok [], n') ∧ PID (conn r n') = p ∧
        RemoteAddr (conn r n') = RemoteAddr (conn r n).
Proof.
  intros Hres Hp Hl Hs Ha Hh Ht.
  assert (st' = RememberLoginName (login_args req).1 p (RememberAuthPID file clk addr p st)) as Hst.
  { unfold handleLogin, login_args in *. destruct (rString _) as [u i]. destruct (ReadAll i) as [e i'].
    cbn [fst snd] in *. rewrite Hres in Hl. cbn [result_bind] in Hl.
    change (negb (0 =? 0)) with false in Hl. cbv iota in Hl. unfold remember in Hl.
    destruct (mint_ticket _ _ _ _ _) as [|[]]; by simplify_eq. }
  unfold processLoginRequest. rewrite Hs. cbn [negb]. rewrite bool_decide_true by done.
  rewrite Ha, Hst. pose proof (recall_after_remember clk addr (RemoteAddr (conn r n)) p (login_args req).1 st
    (clock n) Hp Hh Ht) as Hr. destruct (RecallAuthPID _ _ _ _) as [o a]. cbn [fst] in Hr. subst o.
  eexists. split; [reflexivity|]. rewrite !conn_upd_eq. done.
Qed.
End login.

(** ** A concrete account *)
Section demo.
#[local] Existing Instance canonical_order.

Definition cfg_demo : AuthConfig :=
  mkAuthConfig switch0 2 (str "password") None [] (str "branch:origin") 0
    (Some (λ _ _, Some (42, replicate 16 x05))) None false.
Definition ent_demo : Entropy := mkEntropy (Some (replicate 32 x01)) (Some (replicate 16 x02)).
Definition req_demo : RMCMessage :=
  NewRMCRequest switch0 ProtocolTicketGranting MethodLoginEx 1 (Bytes_ (wString (str "42") (NewStreamOut switch0))).
Definition addr_demo : bytes := str "203.0.113.7:50000".
Definition login_demo : result (RMCMessage * AuthState) :=
  handleLogin None cfg_demo ent_demo (1000 * second) 0 (Some addr_demo) req_demo auth_start.
Definition secure_demo (a : AuthState) : NetOf unit :=
  SetSecureAccount (str "password") 2 (NewEndpoint switch0 a (1060 * second) tt).

Lemma switch0_pid p : is_u64 p → pid_ok switch0 p.
Proof. intros Hp. by apply pid_ok_plain. Qed.

Lemma mint_demo : mint_ok cfg_demo ent_demo 0 42 (replicate 16 x05).
Proof.
  split; [exists (replicate 32 x01), (replicate 16 x02); by split_and!|].
  split; [vm_compute; discriminate|]. split; [vm_compute; by split|]. split; [vm_compute; by split|].
  split; [by apply switch0_pid|]. split; [by apply switch0_pid|done].
Qed.

Lemma login_then_connect_witness :
  mint_ok cfg_demo ent_demo 0 42 (replicate 16 x05) ∧
  ∃ internal request n',
    processLoginRequest None 0%nat (connect_payload switch0 internal request) (secure_demo auth_start) =
      (Ok (le_bytes 4 4 ++ le_bytes 4 (u32 (9 + 1))), n') ∧ PID (conn 0%nat n') = 42.
Proof.
  split; [exact mint_demo|].
  destruct (login_then_connect None cfg_demo ent_demo (1000 * second) 0 (Some addr_demo) req_demo auth_start
    42 (replicate 16 x05) 0%nat (secure_demo auth_start) 7 9)
    as (ticket & key & internal & request & st' & n' & _ & _ & _ & H & Hp & _);
    [reflexivity|exact mint_demo|reflexivity|right; reflexivity|reflexivity|reflexivity|done|done|].
  exists internal, request, n'. split; [exact H|exact Hp].
Defined.

(** The account 42 may log in, everybody else is refused. *)
Definition cfg_one : AuthConfig :=
  mkAuthConfig switch0 2 (str "password") None [] (str "branch:origin") 0
    (Some (λ u _, if bytes_eqb u (str "42") then Some (42, replicate 16 x05) else None)) None false.
Definition req_stranger : RMCMessage :=
  NewRMCRequest switch0 ProtocolTicketGranting MethodLoginEx 1 (Bytes_ (wString (str "43") (NewStreamOut switch0))).

Lemma refused_login_leaves_no_trace_witness :
  is_login req_stranger = true ∧
  (∃ p k, resolve cfg_one (credentials_of cfg_one req_stranger).1 (credentials_of cfg_one req_stranger).2 =
            Ok (p, k, ResultAuthTokenParseError)) ∧
  ∃ resp, auth_Handler None cfg_one ent_demo 0 0 (Some addr_demo) req_stranger auth_start = Ok (resp, auth_start).
Proof.
  assert (resolve cfg_one (credentials_of cfg_one req_stranger).1 (credentials_of cfg_one req_stranger).2 =
            Ok (0, [], ResultAuthTokenParseError)) as H by (vm_compute; reflexivity).
  split; [reflexivity|]. split; [by exists 0, []|]. eexists.
  exact (refused_login_leaves_no_trace None cfg_one ent_demo 0 0 (Some addr_demo) req_stranger auth_start
    0 [] ResultAuthTokenParseError eq_refl H ltac:(done)).
Defined.

(** The console comes back from another port. *)
Lemma login_then_ticketless_connect_witness :
  ∃ resp st', login_demo = Ok (resp, st') ∧
    let '(r, n) := alloc (NewConnection (str "203.0.113.7:61000")) (secure_demo st') in
    ∃ n', processLoginRequest None r [] n = (Ok [], n') ∧ PID (conn r n') = 42.
Proof.
  destruct login_demo as [[resp st']|e] eqn:E; [|vm_compute in E; discriminate E].
  exists resp, st'. split; [reflexivity|]. cbv zeta beta iota delta [alloc].
  destruct (login_then_ticketless_connect None cfg_demo ent_demo (1000 * second) 0 addr_demo req_demo auth_start
    resp st' 42 (replicate 16 x05) 0%nat
    (set_heap {[0%nat := NewConnection (str "203.0.113.7:61000")]} (secure_demo st'))) as (n' & H & Hp & _);
    [reflexivity|discriminate|exact E|reflexivity|reflexivity|vm_compute; reflexivity|vm_compute; discriminate|].
  exists n'. split; [exact H|exact Hp].
Defined.
End demo.
