(* ===== verification/Matchmaking.v ===== *)
(** * The matchmaker (src/matchmaking_handlers.go, matchmaking_acnh.go, matchmaking_local.go,
    matchmaking_notifdata.go, matchmaking_hebergement.go, notification.go)

    The store of gatherings and its RMC handlers, over the endpoint of Endpoint.v: a handler
    reads and writes the store inside the process state and sends notifications through the
    connections.  A gathering is identified by its key in the store. *)

From S2P Require Export Handlers MatchTypes.

Definition ProtocolMatchMaking : Z := 0x15.
Definition ProtocolMatchmakeExtension : Z := 0x6D.
Definition ProtocolMatchMakingExt : Z := 0x32.

Definition MethodUnregisterGathering : Z := 0x02.
Definition MethodFindBySingleID15 : Z := 0x15.
Definition MethodUpdateSessionURL : Z := 0x1B.
Definition MethodUpdateSessionHostV1 : Z := 0x28.
Definition MethodGetDetailedParticipants : Z := 0x0F.
Definition MethodUpdateSessionHost : Z := 0x2A.
Definition MethodMigrateGatheringOwnershipV1 : Z := 0x24.
Definition MethodUpdateGatheringOwnership : Z := 0x2B.
Definition MethodMigrateGatheringOwnership : Z := 0x2C.
Definition MethodCloseParticipation : Z := 0x01.
Definition MethodOpenParticipation : Z := 0x02.
Definition MethodCreateMatchmakeSessionWithParam : Z := 0x26.
Definition MethodJoinMatchmakeSessionWithParam : Z := 0x27.
Definition MethodAutoMatchmakeWithParamPostpone : Z := 0x28.
Definition MethodUpdateApplicationBuffer : Z := 0x0B.
Definition MethodModifyCurrentGameAttribute : Z := 0x08.
Definition MethodUpdateMatchmakeSessionAttribute : Z := 0x0C.
Definition MethodEndParticipation : Z := 0x1.

(** ** The store *)
Record gathering := mkG {
  session : MatchmakeSession;
  participants : list Z;
  hostConnID : Z;
  code : bytes
}.

Definition set_session (v : MatchmakeSession) (g : gathering) : gathering :=
  mkG v (participants g) (hostConnID g) (code g).
Definition set_participants (v : list Z) (g : gathering) : gathering :=
  mkG (session g) v (hostConnID g) (code g).
Definition set_code (v : bytes) (g : gathering) : gathering :=
  mkG (session g) (participants g) (hostConnID g) v.

(** A notification that waits for its delay: [time.AfterFunc]. *)
Record Timer := mkTimer { tm_caller : Ref; tm_parts : list Z; tm_gid : Z; tm_at : Z }.

(** [Matchmaking]'s mutable fields, with the globals of the same files: the recent session
    keys and the call counter of the notifications. *)
Record MM := mkMM {
  gatherings : gmap Z gathering;
  byCode : gmap bytes Z;
  nextGID : Z;
  codeRand : Z;
  notif : gmap Z (gmap Z NotificationEvent);
  recentKeys : gmap Z bytes;
  recentKeysOrder : list Z;
  notifCallCounter : Z;
  timers : list Timer
}.

Definition NewMatchmaking : MM := mkMM ∅ ∅ 1 0x1234 ∅ ∅ [] 0 [].

Definition set_gatherings (v : gmap Z gathering) (m : MM) : MM :=
  mkMM v (byCode m) (nextGID m) (codeRand m) (notif m) (recentKeys m) (recentKeysOrder m)
    (notifCallCounter m) (timers m).
Definition set_byCode (v : gmap bytes Z) (m : MM) : MM :=
  mkMM (gatherings m) v (nextGID m) (codeRand m) (notif m) (recentKeys m) (recentKeysOrder m)
    (notifCallCounter m) (timers m).
Definition set_nextGID (v : Z) (m : MM) : MM :=
  mkMM (gatherings m) (byCode m) v (codeRand m) (notif m) (recentKeys m) (recentKeysOrder m)
    (notifCallCounter m) (timers m).
Definition set_codeRand (v : Z) (m : MM) : MM :=
  mkMM (gatherings m) (byCode m) (nextGID m) v (notif m) (recentKeys m) (recentKeysOrder m)
    (notifCallCounter m) (timers m).
Definition set_notif (v : gmap Z (gmap Z NotificationEvent)) (m : MM) : MM :=
  mkMM (gatherings m) (byCode m) (nextGID m) (codeRand m) v (recentKeys m) (recentKeysOrder m)
    (notifCallCounter m) (timers m).
Definition set_recent (k : gmap Z bytes) (o : list Z) (m : MM) : MM :=
  mkMM (gatherings m) (byCode m) (nextGID m) (codeRand m) (notif m) k o
    (notifCallCounter m) (timers m).
Definition set_notifCallCounter (v : Z) (m : MM) : MM :=
  mkMM (gatherings m) (byCode m) (nextGID m) (codeRand m) (notif m) (recentKeys m) (recentKeysOrder m)
    v (timers m).
Definition set_timers (v : list Timer) (m : MM) : MM :=
  mkMM (gatherings m) (byCode m) (nextGID m) (codeRand m) (notif m) (recentKeys m) (recentKeysOrder m)
    (notifCallCounter m) v.

(** An update of one gathering, if it is there. *)
Definition upd_gathering (gid : Z) (f : gathering → gathering) (m : MM) : MM :=
  set_gatherings (alter f gid (gatherings m)) m.

(** ** The configuration of a title, and the process's environment *)
Record Config := mkConfig {
  UseSearchCriteria : bool;
  ParticipationNotificationDelay : Z;
  CreateSessionNotificationDelay : Z;
  NormalizeCreateSessionRV : bool;
  FindByParticipantEnabled : bool;
  FindByParticipantIDResolver : option (Z → Z);
  FindByParticipantHonorOptions : bool;
  FindByParticipantEchoRequestedID : bool;
  FindByParticipantVideVeutDireToutes : bool;
  SessionPartPersists : bool;
  JoinRespExistingCount : bool;
  NotifierDeparts : bool;
  OwnerLeaveUnregisters : bool;
  cfg_has_Endpoint : bool;
  FriendPIDs : option (Z → list Z);
  (* NEXTENDO_OPEN_PARTICIPATION, NEX_NOTIF_STRVIDE0, NEX_SOLO_PIDS *)
  openParticipationDefault : bool;
  notifStrVideZero : bool;
  soloPIDs : gset Z
}.

Definition isSoloPID (cfg : Config) (p : Z) : bool := bool_decide (p ∈ soloPIDs cfg).

(** ** Lists of PIDs *)
Definition containsPID (l : list Z) (p : Z) : bool := bool_decide (p ∈ l).
Definition removePID (l : list Z) (p : Z) : list Z := filter (λ q, q ≠ p) l.

(** ** Session keys kept for captures *)
Fixpoint trim_recent (order : list Z) (keys : gmap Z bytes) (excess : nat) : list Z * gmap Z bytes :=
  match excess, order with
  | S excess, gid :: order => trim_recent order (delete gid keys) excess
  | _, _ => (order, keys)
  end.

Definition rememberSessionKey (gid : Z) (key : bytes) (m : MM) : MM :=
  let '(order, keys) :=
    match recentKeys m !! gid with
    | Some _ => (recentKeysOrder m, recentKeys m)
    | None =>
        let order := recentKeysOrder m ++ [gid] in
        trim_recent order (recentKeys m) (length order - 16)
    end in
  set_recent (<[gid := key]> keys) order m.

Definition SessionKeyForGID (gid : Z) (m : MM) : option bytes :=
  match gatherings m !! gid with
  | Some g =>
      if bool_decide (ms_SessionKey (session g) = []) then recentKeys m !! gid
      else Some (ms_SessionKey (session g))
  | None => recentKeys m !! gid
  end.

(** ** The notification data of friends (matchmaking_notifdata.go) *)
Definition notif_put (p typ : Z) (ev : NotificationEvent) (m : MM) : MM :=
  set_notif (<[p := <[typ := ev]> (default ∅ (notif m !! p))]> (notif m)) m.
Definition notif_get (p typ : Z) (m : MM) : option NotificationEvent :=
  match notif m !! p with Some t => t !! typ | None => None end.
Definition notif_forget (p : Z) (m : MM) : MM := set_notif (delete p (notif m)) m.
Definition PublishNotification (p typ : Z) (ev : option NotificationEvent) (m : MM) : MM :=
  match ev with Some ev => notif_put p typ ev m | None => m end.

Definition friendNotificationsFor (cfg : Config) (p : Z) (types : list Z) (m : MM)
    : list NotificationEvent :=
  match FriendPIDs cfg with
  | None => []
  | Some friends =>
      concat ((λ friend,
        omap (λ typ, match notif_get friend typ m with
                     | Some ev => if Param2 ev =? 0 then None else Some ev
                     | None => None
                     end) types) <$> friends p)
  end.

(** ** Creation *)

(** The two parameters the server stamps on every session. *)
Definition server_params (p : MatchmakeParam) : MatchmakeParam :=
  mkParam (<[str "@GIR" := mkVariant VariantInt64 3 0 false [] 0 0]>
             (<[str "@SR" := mkVariant VariantBool 0 0 true [] 0 0]> (Params p))).

(** [finalizeCreatedSession]; [key] the random session key, [now] the date. *)
Definition finalizeCreatedSession (cfg : Config) (key : bytes) (now gid ownerPID : Z)
    (x : MatchmakeSession) : MatchmakeSession :=
  let x := set_identity gid ownerPID ownerPID x in
  let x := if ms_MaxParticipants x =? 0 then set_limits (ms_MinParticipants x) 12 x else x in
  let x := set_NumParticipants 1 x in
  let x := set_ms_SessionKey key x in
  let x := set_StartedTime now x in
  let x := set_SystemPasswordEnabled false x in
  let x := if openParticipationDefault cfg
           then set_OpenParticipation true (set_State 1 (set_UserPasswordEnabled false x)) else x in
  let x := set_Attribs (Attribs x ++ replicate (6 - length (Attribs x)) 0) x in
  set_Param (server_params (Param x)) x.

Section store.
Context `{MO : MapOrder}.

(** One gathering of the loop of [releaseAbandonedSolo]. *)
Definition release_one (p gardeGID : Z) (m : MM) (e : Z * gathering) : MM :=
  if (e.1 =? gardeGID) || negb (bool_decide (participants e.2 = [p])) then m
  else
    let m := set_gatherings (delete e.1 (gatherings m)) m in
    if bool_decide (code e.2 = []) then m else set_byCode (delete (code e.2) (byCode m)) m.

Definition releaseAbandonedSolo (p gardeGID : Z) (m : MM) : MM :=
  if p =? 0 then m else foldl (release_one p gardeGID) m (range (gatherings m)).

(** [createGathering]: the new key, and the store with it. *)
Definition createGathering (cfg : Config) (key : bytes) (now : Z) (p connID : Z)
    (src : MatchmakeSession) (m : MM) : Z * MM :=
  let gid := nextGID m in
  let m := set_nextGID (u32 (gid + 1)) m in
  let m := rememberSessionKey gid key m in
  let g := mkG (finalizeCreatedSession cfg key now gid p src) [p] connID [] in
  let m := set_gatherings (<[gid := g]> (gatherings m)) m in
  (gid, releaseAbandonedSolo p gid m).

(** The lookups by participant. *)
Definition GatheringIDByPID (p : Z) (m : MM) : option Z :=
  match find (λ e : Z * gathering, containsPID (participants e.2) p) (range (gatherings m)) with
  | Some (_, g) => Some (ms_ID (session g))
  | None => None
  end.
Definition GidDuParticipant (p : Z) (m : MM) : Z :=
  match find (λ e : Z * gathering, containsPID (participants e.2) p) (range (gatherings m)) with
  | Some (gid, _) => gid
  | None => 0
  end.
Definition SessionByPID (p : Z) (m : MM) : option (list Z) :=
  match find (λ e : Z * gathering, containsPID (participants e.2) p) (range (gatherings m)) with
  | Some (_, g) => Some (participants g)
  | None => None
  end.

(** [sessionOfParticipant]: the session that started last. *)
Definition latest (p : Z) (best : option gathering) (e : Z * gathering) : option gathering :=
  if containsPID (participants e.2) p then
    match best with
    | None => Some e.2
    | Some b => if StartedTime (session b) <? StartedTime (session e.2) then Some e.2 else best
    end
  else best.
Definition sessionOfParticipant (p : Z) (m : MM) : option gathering :=
  foldl (latest p) None (range (gatherings m)).
End store.

(** ** Room codes *)
Definition code_alphabet : bytes := str "ABCDEFGHIJKLMNPQRSTUVWXYZ23456789".

Fixpoint code_chars (n : nat) (x : Z) : bytes :=
  match n with
  | O => []
  | S n => nth (Z.to_nat (x mod 33)) code_alphabet x00 :: code_chars n (x `div` 33)
  end.

Definition makeCode (gid : Z) (m : MM) : bytes * MM :=
  let rnd := u32 (u32 (codeRand m * 1103515245) + 12345 + gid) in
  let c := code_chars 5 rnd in
  let m := set_codeRand rnd m in
  let m := set_byCode (<[c := gid]> (byCode m)) m in
  (c, upd_gathering gid (set_code c) m).

(** ** Partial updates (matchmaking_acnh.go) *)
Definition modFlagOpenParticipation : Z := 0x2.
Definition modFlagCodeword : Z := 0x4000.

Definition applySessionPart (p : UpdateMatchmakeSessionParam) (m : MM) : bool * MM :=
  match gatherings m !! u_GID p with
  | None => (false, m)
  | Some g =>
      let '(g, m) :=
        if negb (Z.land (ModificationFlags p) modFlagCodeword =? 0) ||
           negb (bool_decide (u_Codeword p = []))
        then (mkG (set_Codeword (u_Codeword p) (session g)) (participants g) (hostConnID g) (u_Codeword p),
              if bool_decide (u_Codeword p = []) then m
              else set_byCode (<[u_Codeword p := u_GID p]> (byCode m)) m)
        else (g, m) in
      let x := session g in
      let x := if bool_decide (Attributes p = []) then x else set_Attribs (Attributes p) x in
      let x := if bool_decide (ApplicationBuffer p = []) then x else set_ApplicationData (ApplicationBuffer p) x in
      let x := if u_GameMode p =? 0 then x else set_GameMode (u_GameMode p) x in
      let x := if u_MaxParticipants p =? 0 then x
               else set_limits (ms_MinParticipants x) (u_MaxParticipants p) x in
      let x := if Z.land (ModificationFlags p) modFlagOpenParticipation =? 0 then x
               else set_OpenParticipation (u_OpenParticipation p) x in
      (true, set_gatherings (<[u_GID p := set_session x g]> (gatherings m)) m)
  end.

Definition findSessionForOptions (src : MatchmakeSession) (options : Z) : MatchmakeSession :=
  let r := if Z.land options 1 =? 0 then set_ApplicationData [] src else src in
  if Z.land options 2 =? 0 then set_Param (mkParam ∅) r else r.

Definition sessionTrouvee (cfg : Config) (src : MatchmakeSession) (options : Z) : MatchmakeSession :=
  if FindByParticipantHonorOptions cfg then findSessionForOptions src options else src.

(** The loop of [modifyCurrentGameAttribute] that makes room for an index; [None] when it is
    still running after [fuel] turns. *)
Fixpoint grow_attribs (fuel : nat) (idx : Z) (l : list Z) : option (list Z) :=
  if u32 (zlen l) <=? idx then
    match fuel with
    | O => None
    | S fuel => grow_attribs fuel idx (l ++ [0])
    end
  else Some l.

(** [isTournamentIDList]. *)
Definition isTournamentIDList (body : bytes) : bool :=
  if (length body <? 8)%nat || negb (length body mod 4 =? 0)%nat then false
  else
    let n := le_val (take 4 body) in
    (0 <? n) && (n <=? 4096) && (n * 4 + 4 =? zlen body).
