(* ===== verification/Tournament.v ===== *)
(** * Mario Kart tournaments (src/tournament.go)

    The store of the tournaments players create: where the shared code sits in the opaque
    structure, how the server stamps it, and the operations on the store with their handlers.
    The random bytes of an operation are its arguments; the file is the list it holds. *)

From S2P Require Export Endpoint.

Definition MethodTournamentCreate : Z := 0x3D.
Definition MethodTournamentDelete : Z := 0x3E.
Definition tournamentCodeLen : nat := 12.
Definition tournamentMaxBlob : Z := 4096.
Definition tournamentMax : nat := 2000.
Definition tournamentNameLengthOffset : nat := 0x69.

Record Tournament := mkTournament {
  t_ID : Z;
  t_Owner : Z;
  t_Code : bytes;
  t_Mark : bytes;
  t_Blob : bytes;
  t_Participants : list Z;
  t_CreatedAt : Z
}.

Record tournamentStore := mkStore {
  byID : gmap Z Tournament;
  quarantined : list Tournament;
  nextID : Z
}.

Definition tournaments0 : tournamentStore := mkStore ∅ [] 1000.

(** ** The structure *)

(** Twelve random bytes as digits. *)
Definition newTournamentCode (rnd : bytes) : bytes := (λ v, digit_byte (Z_of_byte v mod 10)) <$> rnd.

(** The walk over the property list from [pos]; an entry takes at least four bytes, so
    [length b] turns are enough. *)
Fixpoint walk_properties (fuel : nat) (b : bytes) (pos : nat) : option nat :=
  match fuel with
  | O => None
  | S fuel =>
      if (length b <=? pos)%nat then None
      else if at_byte pos b =? 0xff then
        if (pos + 5 + 3 <=? length b)%nat then Some (pos + 5)%nat else None
      else if (length b <? pos + 2)%nat then None
      else
        let ty := at_byte (pos + 1) b in
        if ty =? 0x01 then walk_properties fuel b (pos + 4)
        else if ty =? 0x02 then walk_properties fuel b (pos + 5)
        else if ty =? 0x04 then walk_properties fuel b (pos + 7)
        else None
  end.

(** [tournamentCodeOffset]; [None] for -1. *)
Definition tournamentCodeOffset (b : bytes) : option nat :=
  if (length b <? tournamentNameLengthOffset + 2)%nat then None
  else
    let nameLen := le_val (slice tournamentNameLengthOffset (tournamentNameLengthOffset + 2) b) in
    if (nameLen <? 2) || negb (Z.land nameLen 1 =? 0) then None
    else
      let pos := (tournamentNameLengthOffset + 2 + Z.to_nat nameLen)%nat in
      if (length b <=? pos)%nat then None else walk_properties (length b) b pos.

Definition is_ascii_digit (c : byte) : bool := (48 <=? Z_of_byte c) && (Z_of_byte c <=? 57).
Definition validTournamentCode (code : bytes) : bool :=
  (length code =? tournamentCodeLen)%nat && forallb is_ascii_digit code.

Definition tournamentCodeMatches (b code : bytes) : bool :=
  match tournamentCodeOffset b with
  | None => false
  | Some i =>
      if negb (validTournamentCode code) then false
      else if (length b <? i + 2)%nat then false
      else
        let n := le_val (slice i (i + 2) b) in
        if negb (n =? 13) || (length b <? i + 2 + Z.to_nat n)%nat ||
           negb (at_byte (i + 2 + Z.to_nat n - 1) b =? 0)
        then false
        else bytes_eqb (slice (i + 2) (i + 2 + tournamentCodeLen) b) code
  end.

Definition validStoredTournament (t : Tournament) : bool :=
  if (t_ID t =? 0) || (length (t_Blob t) <? 12)%nat ||
     (tournamentMaxBlob + Z.of_nat tournamentCodeLen <? zlen (t_Blob t))
  then false
  else if negb (le_val (take 4 (t_Blob t)) =? t_ID t) then false
  else tournamentCodeMatches (t_Blob t) (t_Code t).

(** [copy(out[a:b], src)] for a slice inside [out]. *)
Definition overwrite (a : nat) (src out : bytes) : bytes := take a out ++ src ++ drop (a + length src) out.

(** The identifier and the mark of the first twelve bytes. *)
Definition stamp_header (payload : bytes) (id : Z) (mark : bytes) : bytes :=
  overwrite 4 (take 8 mark) (overwrite 0 (le_bytes 4 id) payload).

Definition stampTournament (payload : bytes) (id : Z) (mark code : bytes) : bytes :=
  if (length payload <? 12)%nat then payload
  else
    let out := stamp_header payload id mark in
    match tournamentCodeOffset out with
    | None => out
    | Some i =>
        if negb (validTournamentCode code) || negb (bytes_eqb (slice i (i + 3) out) [x01; x00; x00])
        then out
        else take i out ++ le_bytes 2 (zlen code + 1) ++ code ++ [x00] ++ drop (i + 3) out
    end.

(** ** The store *)

(** One entry of the file, [None] for nil. *)
Definition restore_one (st : tournamentStore) (t : option Tournament) : tournamentStore :=
  match t with
  | None => st
  | Some t =>
      if t_ID t =? 0 then st
      else
        let next := if nextID st <=? t_ID t then u32 (t_ID t + 1) else nextID st in
        if validStoredTournament t
        then mkStore (<[t_ID t := t]> (byID st)) (quarantined st) next
        else mkStore (byID st) (quarantined st ++ [t]) next
  end.

Definition tournamentInit (file : list (option Tournament)) (st : tournamentStore) : tournamentStore :=
  foldl restore_one st file.

(** What [tournamentFlusher] writes: the entries set aside, then the tournaments. *)
Definition tournamentFlusher `{MO : MapOrder} (st : tournamentStore) : list (option Tournament) :=
  Some <$> (quarantined st ++ (range (byID st)).*2).

(** [CreateTournament]; [mark] and [rnd] the random bytes, [now] the creation time. *)
Definition CreateTournament (mark rnd : bytes) (now owner : Z) (payload : bytes) (st : tournamentStore)
    : option Tournament * tournamentStore :=
  match tournamentCodeOffset payload with
  | None => (None, st)
  | Some i =>
      if bool_decide (payload = []) || (tournamentMaxBlob <? zlen payload) ||
         negb (bytes_eqb (slice i (i + 3) payload) [x01; x00; x00])
      then (None, st)
      else if (tournamentMax <=? size (byID st))%nat then (None, st)
      else
        let id := nextID st in
        let st := mkStore (byID st) (quarantined st) (u32 (nextID st + 1)) in
        let code := newTournamentCode rnd in
        let t := mkTournament id owner code mark (stampTournament payload id mark code) [owner] now in
        if negb (validStoredTournament t) then (None, st)
        else (Some t, mkStore (<[id := t]> (byID st)) (quarantined st) (nextID st))
  end.

Definition tournamentByID (id : Z) (st : tournamentStore) : option Tournament :=
  match byID st !! id with
  | Some t => if validStoredTournament t then Some t else None
  | None => None
  end.

Definition joinTournament (id p : Z) (st : tournamentStore) : bool * tournamentStore :=
  match byID st !! id with
  | None => (false, st)
  | Some t =>
      if negb (validStoredTournament t) then (false, st)
      else if bool_decide (p ∈ t_Participants t) then (true, st)
      else
        let t := mkTournament (t_ID t) (t_Owner t) (t_Code t) (t_Mark t) (t_Blob t)
                   (t_Participants t ++ [p]) (t_CreatedAt t) in
        (true, mkStore (<[id := t]> (byID st)) (quarantined st) (nextID st))
  end.

Definition deleteTournament (id p : Z) (st : tournamentStore) : bool * tournamentStore :=
  match byID st !! id with
  | None => (false, st)
  | Some t =>
      if negb (validStoredTournament t) || negb (t_Owner t =? p) then (false, st)
      else (true, mkStore (delete id (byID st)) (quarantined st) (nextID st))
  end.

(** ** Lists on the wire *)
Definition write_tournament (t : Tournament) : Writer :=
  wU8 1 ;;; wU32 (u32 (zlen (t_Blob t))) ;;; Write (t_Blob t).

Definition writeTournamentList (s : Settings) (l : list Tournament) : bytes :=
  let valid := filter (λ t, validStoredTournament t = true) l in
  Bytes_ ((wU32 (u32 (zlen valid)) ;;; wforeach write_tournament valid) (NewStreamOut s)).

(** The reading loop of [tournamentsByIDs]: it stops at the first read that fails, after
    having looked the zero it gave up. *)
Fixpoint read_found (k : nat) (st : tournamentStore) (i : StreamIn) : list Tournament :=
  match k with
  | O => []
  | S k =>
      match si_err i with
      | Some _ => []
      | None =>
          let '(id, i) := rU32 i in
          match tournamentByID id st with
          | Some t => t :: read_found k st i
          | None => read_found k st i
          end
      end
  end.

Section tournaments.
Context {App : Type} `{HT : !Substate tournamentStore App} `{MO : MapOrder}.
#[local] Abbreviation Net := (NetOf App).

(** The random bytes of a creation. *)
Context (rnd_mark rnd_code : Net → bytes).

Definition tstore (n : Net) : tournamentStore := get (app_state n).
Definition set_tstore (st : tournamentStore) (n : Net) : Net := set_app (put st (app_state n)) n.

Definition allTournaments (st : tournamentStore) : list Tournament :=
  filter (λ t, validStoredTournament t = true) (range (byID st)).*2.

Definition tproto : Z := 0x6D.
Definition t_ok (n : Net) (req : RMCMessage) (b : bytes) : RMCMessage :=
  NewRMCSuccess (settings n) tproto (Method req) (CallID req) b.

Definition createTournament (r : Ref) (req : RMCMessage) (n : Net) : option RMCMessage * Net :=
  let body := Body req in
  let bad := NewRMCError (settings n) tproto (CallID req) ResultCoreInvalidArgument in
  if (length body <? 5)%nat then (Some bad, n)
  else
    let ln := le_val (slice 1 5 body) in
    if (ln <=? 0) || (zlen body <? 5 + ln) then (Some bad, n)
    else
      let '(t, st) := CreateTournament (rnd_mark n) (rnd_code n) (clock n `div` second) (PID (conn r n))
                        (slice 5 (5 + Z.to_nat ln) body) (tstore n) in
      let n := set_tstore st n in
      match t with
      | None => (Some bad, n)
      | Some t =>
          (Some (t_ok n req (Bytes_ ((wU8 (at_byte 0 body) ;;; wU32 (u32 (zlen (t_Blob t))) ;;;
                                      Write (t_Blob t)) (NewStreamOut (settings n))))), n)
      end.

Definition tournamentsByIDs (r : Ref) (req : RMCMessage) (n : Net) : option RMCMessage * Net :=
  let '(k, i) := rU32 (NewStreamIn (Body req) (settings n)) in
  (Some (t_ok n req (writeTournamentList (settings n) (read_found (Z.to_nat k) (tstore n) i))), n).

Definition searchTournaments (r : Ref) (req : RMCMessage) (n : Net) : option RMCMessage * Net :=
  (Some (t_ok n req (writeTournamentList (settings n) (take 100 (allTournaments (tstore n))))), n).

Definition removeTournament (r : Ref) (req : RMCMessage) (n : Net) : option RMCMessage * Net :=
  let n' :=
    if (4 <=? length (Body req))%nat
    then set_tstore (deleteTournament (le_val (take 4 (Body req))) (PID (conn r n)) (tstore n)).2 n else n in
  (Some (t_ok n' req []), n').

Definition registerTournament (r : Ref) (req : RMCMessage) (n : Net) : option RMCMessage * Net :=
  let n' :=
    if (4 <=? length (Body req))%nat
    then set_tstore (joinTournament (le_val (take 4 (Body req))) (PID (conn r n)) (tstore n)).2 n else n in
  (Some (t_ok n' req []), n').

(** [TournamentSummaries]. *)
Definition summary (t : Tournament) : bytes :=
  [x01] ++ le_bytes 4 28 ++ le_bytes 4 (t_ID t) ++ le_bytes 4 (u32 (zlen (t_Participants t))) ++
  le_bytes 4 4 ++ le_bytes 4 0 ++ le_bytes 4 0 ++ le_bytes 4 0 ++ le_bytes 4 0.
Definition TournamentSummaries (st : tournamentStore) : bytes :=
  let l := allTournaments st in
  le_bytes 4 (u32 (zlen l)) ++ concat (summary <$> l).
End tournaments.
