(* ===== verification/TournamentFacts.v ===== *)
(** * Tournaments: the stamp and the store

    A well-formed structure is always accepted, and stamping it changes only what the server
    fills in; whatever players do, the store holds valid tournaments under their identifiers,
    each of which only its owner can take out. *)

From S2P Require Export Tournament.

(** ** The place of the code *)
Lemma walk_bounds fuel b pos i :
  walk_properties fuel b pos = Some i → (pos + 5 ≤ i ∧ i + 3 ≤ length b)%nat.
Proof.
  revert pos. induction fuel as [|fuel IH]; intros pos; cbn [walk_properties]; [done|].
  destruct (Nat.leb_spec (length b) pos); [done|].
  destruct (at_byte pos b =? 255).
  { destruct (Nat.leb_spec (pos + 5 + 3) (length b)); [|done]. intros [= <-]. lia. }
  destruct (Nat.ltb_spec (length b) (pos + 2)); [done|].
  destruct (_ =? 1); [intros [??]%IH; lia|]. destruct (_ =? 2); [intros [??]%IH; lia|].
  destruct (_ =? 4); [intros [??]%IH; lia|done].
Qed.

(** The walk depends on the bytes before the place it finds only. *)
Lemma walk_prefix fuel fuel' b b' pos i :
  walk_properties fuel b pos = Some i → (fuel ≤ fuel')%nat → (i + 3 ≤ length b')%nat →
  (∀ k, (pos ≤ k < i)%nat → at_byte k b' = at_byte k b) → walk_properties fuel' b' pos = Some i.
Proof.
  revert fuel' pos. induction fuel as [|fuel IH]; intros [|fuel'] pos Hw Hf Hl Hk; try done; [lia|].
  pose proof (walk_bounds _ _ _ _ Hw) as [Hb1 Hb2]. cbn [walk_properties] in *.
  destruct (Nat.leb_spec (length b) pos); [done|]. destruct (Nat.leb_spec (length b') pos); [lia|].
  rewrite !Hk by lia. destruct (at_byte pos b =? 255).
  { destruct (Nat.leb_spec (pos + 5 + 3) (length b)); [|done]. injection Hw as <-.
    by rewrite (proj2 (Nat.leb_le _ _)). }
  destruct (Nat.ltb_spec (length b) (pos + 2)); [done|]. destruct (Nat.ltb_spec (length b') (pos + 2)); [lia|].
  assert (∀ d, (d ≤ 7)%nat → walk_properties fuel b (pos + d) = Some i → walk_properties fuel' b' (pos + d) = Some i)
    as Hrec by (intros d Hd Hw'; apply IH; [done|lia|done|intros; apply Hk; lia]).
  destruct (_ =? 1); [apply Hrec; [lia|done]|]. destruct (_ =? 2); [apply Hrec; [lia|done]|].
  destruct (_ =? 4); [apply Hrec; [lia|done]|done].
Qed.

Lemma slice_ext a c b b' :
  (c ≤ length b)%nat → (c ≤ length b')%nat → (∀ k, (a ≤ k < c)%nat → nth k b' x00 = nth k b x00) →
  slice a c b' = slice a c b.
Proof.
  intros Hb Hb' Hk. destruct (decide (a ≤ c)%nat); [|unfold slice; by replace (c - a)%nat with 0%nat by lia].
  apply (nth_ext _ _ x00 x00); [by rewrite !length_slice|].
  rewrite length_slice by done. intros k Hlt. unfold slice. rewrite !nth_lookup, !lookup_take_lt by lia.
  rewrite !lookup_drop, <- !nth_lookup. apply Hk. lia.
Qed.

Lemma at_byte_nth k b b' : at_byte k b' = at_byte k b ↔ nth k b' x00 = nth k b x00.
Proof. unfold at_byte. split; [apply Z_of_byte_inj|by intros ->]. Qed.

Lemma offset_bounds b i : tournamentCodeOffset b = Some i → (tournamentNameLengthOffset + 9 ≤ i ∧ i + 3 ≤ length b)%nat.
Proof.
  unfold tournamentCodeOffset. destruct (_ <? _)%nat; [done|].
  set (nl := le_val _). destruct (Z.ltb_spec nl 2); [done|]. cbn [orb]. destruct (negb _); [done|].
  destruct (_ <=? _)%nat; [done|]. intros [? ?]%walk_bounds. lia.
Qed.

Lemma offset_prefix b b' i :
  tournamentCodeOffset b = Some i → (length b ≤ length b')%nat →
  (∀ k, (12 ≤ k < i)%nat → nth k b' x00 = nth k b x00) → tournamentCodeOffset b' = Some i.
Proof.
  intros Ho Hl Hk. pose proof (offset_bounds b i Ho) as [Hb1 Hb2]. revert Ho. unfold tournamentCodeOffset.
  unfold tournamentNameLengthOffset in *.
  destruct (Nat.ltb_spec (length b) (0x69 + 2)); [done|]. destruct (Nat.ltb_spec (length b') (0x69 + 2)); [lia|].
  rewrite (slice_ext _ _ b b') by (try lia; intros; apply Hk; lia).
  set (nl := le_val _). destruct ((nl <? 2) || _); [done|].
  destruct (Nat.leb_spec (length b) (0x69 + 2 + Z.to_nat nl)); [done|].
  intros Hw. pose proof (walk_bounds _ _ _ _ Hw). destruct (Nat.leb_spec (length b') (0x69 + 2 + Z.to_nat nl)); [lia|].
  apply (walk_prefix (length b) _ b); [done|done|lia|]. intros k Hk'. apply at_byte_nth, Hk. lia.
Qed.

(** ** The stamp *)
Lemma nth_app_drop (a c : bytes) k n : n = length a → (n ≤ k)%nat → nth k (a ++ c) x00 = nth (k - n) c x00.
Proof. intros -> ?. by rewrite app_nth2 by lia. Qed.

Lemma stamp_header_shape payload id mark :
  length mark = 8%nat → (12 ≤ length payload)%nat →
  stamp_header payload id mark = le_bytes 4 id ++ mark ++ drop 12 payload.
Proof.
  intros Hm Hl. unfold stamp_header, overwrite. rewrite length_le_bytes, take_0, app_nil_l, Nat.add_0_l.
  rewrite (take_ge mark) by lia. rewrite take_app_exact by by rewrite length_le_bytes.
  rewrite Hm. rewrite drop_app_ge by (rewrite length_le_bytes; lia). rewrite length_le_bytes, drop_drop. done.
Qed.

Lemma valid_new_code rnd : length rnd = 12%nat → validTournamentCode (newTournamentCode rnd) = true.
Proof.
  intros Hl. unfold validTournamentCode, newTournamentCode. rewrite length_fmap, Hl. cbn [Nat.eqb tournamentCodeLen andb].
  apply forallb_forall. intros c Hc. apply list_elem_of_In, list_elem_of_fmap in Hc as (v & -> & _).
  unfold is_ascii_digit, digit_byte. rewrite Z_of_byte_of_Z. pose proof (Z.mod_pos_bound (Z_of_byte v) 10).
  rewrite Z.mod_small by lia. apply andb_true_iff. lia.
Qed.

Section stamp.
Context (payload mark code : bytes) (id : Z) (i : nat).
Hypothesis Hoff : tournamentCodeOffset payload = Some i.
Hypothesis Hempty : slice i (i + 3) payload = [x01; x00; x00].
Hypothesis Hmark : length mark = 8%nat.
Hypothesis Hcode : validTournamentCode code = true.

Lemma code_length : length code = 12%nat.
Proof using Hcode. unfold validTournamentCode in Hcode. by apply andb_true_iff in Hcode as [?%Nat.eqb_eq _]. Qed.

Lemma stamp_shape :
  stampTournament payload id mark code =
    le_bytes 4 id ++ mark ++ slice 12 i payload ++ le_bytes 2 13 ++ code ++ [x00] ++ drop (i + 3) payload.
Proof using All.
  pose proof (offset_bounds _ _ Hoff) as [Hb1 Hb2]. unfold tournamentNameLengthOffset in Hb1.
  unfold stampTournament. destruct (Nat.ltb_spec (length payload) 12); [lia|].
  set (out := stamp_header payload id mark).
  assert (out = (le_bytes 4 id ++ mark) ++ drop 12 payload) as Hout
    by (unfold out; rewrite stamp_header_shape by done; by rewrite <- app_assoc).
  assert (length (le_bytes 4 id ++ mark) = 12%nat) as H12 by (rewrite length_app, length_le_bytes; lia).
  assert (length out = length payload) as Hlen by (rewrite Hout, length_app, H12, length_drop; lia).
  assert (∀ k, (12 ≤ k)%nat → nth k out x00 = nth k payload x00) as Hnth.
  { intros k Hk. rewrite Hout, (nth_app_drop _ _ k 12) by done. rewrite !nth_lookup, lookup_drop.
    by replace (12 + (k - 12))%nat with k by lia. }
  assert (tournamentCodeOffset out = Some i) as ->
    by (apply (offset_prefix payload); [done|lia|intros; apply Hnth; lia]).
  rewrite Hcode. rewrite (slice_ext i (i + 3) payload out) by (try lia; intros; apply Hnth; lia).
  rewrite Hempty. cbn [negb orb]. unfold bytes_eqb. rewrite bool_decide_true by done. cbn [negb].
  rewrite Hout, take_app_ge, H12 by lia. rewrite drop_app_ge, H12, drop_drop by lia.
  replace (12 + (i + 3 - 12))%nat with (i + 3)%nat by lia. unfold slice, zlen. rewrite code_length.
  by rewrite <- !app_assoc.
Qed.

Lemma stamp_ok :
  is_u32 id → id ≠ 0 → zlen payload ≤ tournamentMaxBlob →
  let b := stampTournament payload id mark code in
  tournamentCodeOffset b = Some i ∧ slice (i + 2) (i + 14) b = code ∧ le_val (take 4 b) = id ∧
  zlen b = zlen payload + 12 ∧ tournamentCodeMatches b code = true.
Proof using All.
  intros Hid Hne Hmax. cbv zeta. rewrite stamp_shape. pose proof code_length as Hc.
  pose proof (offset_bounds _ _ Hoff) as [Hb1 Hb2]. unfold tournamentNameLengthOffset in Hb1.
  set (pre := le_bytes 4 id ++ mark ++ slice 12 i payload).
  assert (length pre = i) as Hpre.
  { unfold pre. rewrite !length_app, length_le_bytes, length_slice by lia. lia. }
  set (b := pre ++ (le_bytes 2 13 ++ code ++ [x00] ++ drop (i + 3) payload)).
  assert (le_bytes 4 id ++ mark ++ slice 12 i payload ++ le_bytes 2 13 ++ code ++ [x00] ++ drop (i + 3) payload = b)
    as -> by (subst b pre; by rewrite <- !app_assoc).
  assert (length b = (length payload + 12)%nat) as Hlen.
  { subst b. rewrite !length_app, length_le_bytes, length_drop, Hpre, Hc. cbn [length]. lia. }
  assert (tournamentCodeOffset b = Some i) as Ho.
  { apply (offset_prefix payload); [done|lia|]. intros k Hk. subst b.
    rewrite app_nth1 by lia. unfold pre. rewrite app_assoc.
    rewrite (nth_app_drop _ _ k 12) by (rewrite ?length_app, ?length_le_bytes; lia).
    unfold slice. rewrite !nth_lookup, lookup_take_lt, lookup_drop by lia.
    by replace (12 + (k - 12))%nat with k by lia. }
  assert (slice i (i + 2) b = le_bytes 2 13) as Hs1 by (apply slice_mid; [done|rewrite length_le_bytes; lia]).
  assert (slice (i + 2) (i + 14) b = code) as Hs2.
  { subst b. rewrite app_assoc. apply slice_mid; rewrite length_app, length_le_bytes; lia. }
  split_and!; [done|done| |unfold zlen; lia|].
  - subst b pre. rewrite <- app_assoc, take_app_exact by done. by apply le_val_u32.
  - unfold tournamentCodeMatches. rewrite Ho, Hcode, Hs1. cbn [negb].
    destruct (Nat.ltb_spec (length b) (i + 2)); [lia|]. change (le_val (le_bytes 2 13)) with 13.
    cbn [Z.eqb Pos.eqb negb orb]. change (Z.to_nat 13) with 13%nat.
    destruct (Nat.ltb_spec (length b) (i + 2 + 13)); [lia|]. cbn [orb].
    assert (at_byte (i + 2 + 13 - 1) b = 0) as ->.
    { subst b. unfold at_byte. rewrite (nth_app_drop _ _ _ i) by lia. rewrite app_nth2 by (rewrite length_le_bytes; lia).
      rewrite app_nth2 by (rewrite length_le_bytes; lia). rewrite length_le_bytes, Hc.
      by replace (i + 2 + 13 - 1 - i - 2 - 12)%nat with 0%nat by lia. }
    cbn [Z.eqb negb]. unfold tournamentCodeLen. replace (i + 2 + 12)%nat with (i + 14)%nat by lia.
    rewrite Hs2. unfold bytes_eqb. by rewrite bool_decide_true.
Qed.
End stamp.

(** C21: A well-formed structure is accepted while there is room for another tournament.  Its
    size is within the limit and its empty code field is where a console looks for it.  The new
    tournament gets the next identifier and a code of twelve digits, its creator is its first
    participant, and the structure the others download is the creator's with three changes: the
    identifier in the first four bytes, the random mark in the next eight, and the code, with
    its length and its terminator, in the code field. *)
Theorem CreateTournament_accepts payload i mark rnd now owner st :
  tournamentCodeOffset payload = Some i → slice i (i + 3) payload = [x01; x00; x00] →
  zlen payload ≤ tournamentMaxBlob → (size (byID st) < tournamentMax)%nat →
  is_u32 (nextID st) → nextID st ≠ 0 → length mark = 8%nat → length rnd = 12%nat →
  ∃ t st', CreateTournament mark rnd now owner payload st = (Some t, st') ∧
    byID st' = <[nextID st := t]> (byID st) ∧ nextID st' = u32 (nextID st + 1) ∧
    t_ID t = nextID st ∧ t_Owner t = owner ∧ t_Participants t = [owner] ∧
    validStoredTournament t = true ∧
    tournamentCodeOffset (t_Blob t) = Some i ∧ slice (i + 2) (i + 14) (t_Blob t) = t_Code t ∧
    validTournamentCode (t_Code t) = true ∧
    t_Blob t = le_bytes 4 (nextID st) ++ mark ++ slice 12 i payload ++
               le_bytes 2 13 ++ t_Code t ++ [x00] ++ drop (i + 3) payload.
Proof.
  intros Ho He Hmax Hsize Hid Hne Hm Hr. unfold CreateTournament. rewrite Ho, He.
  pose proof (offset_bounds _ _ Ho) as [Hb1 Hb2]. unfold tournamentNameLengthOffset in Hb1.
  pose proof (valid_new_code rnd Hr) as Hcode. set (code := newTournamentCode rnd) in *.
  destruct (stamp_ok payload mark code (nextID st) i Ho He Hm Hcode Hid Hne Hmax) as (H1 & H2 & H3 & H4 & H5).
  rewrite bool_decide_false by (intros ->; simpl in *; lia).
  destruct (Z.ltb_spec tournamentMaxBlob (zlen payload)); [lia|].
  unfold bytes_eqb. rewrite bool_decide_true by done. cbn [negb orb].
  rewrite (proj2 (Nat.leb_gt _ _)) by done. cbn [nextID byID quarantined].
  set (t := mkTournament _ _ _ _ _ _ _).
  assert (validStoredTournament t = true) as Hv.
  { unfold t, validStoredTournament. cbn [t_ID t_Blob t_Code].
    destruct (Z.eqb_spec (nextID st) 0); [done|]. rewrite H3, Z.eqb_refl, H5.
    destruct (Nat.ltb_spec (length (stampTournament payload (nextID st) mark code)) 12);
      [unfold zlen in *; lia|].
    destruct (Z.ltb_spec (tournamentMaxBlob + Z.of_nat tournamentCodeLen)
                (zlen (stampTournament payload (nextID st) mark code))); [|done].
    unfold tournamentCodeLen in *. lia. }
  rewrite Hv. cbn [negb]. eexists t, _. split; [reflexivity|]. split_and!; try done.
  cbn [t_Blob t_Code]. by apply stamp_shape.
Qed.

(** ** The store *)

(** Every tournament is valid, under its own identifier, with its participants once each; the
    next identifier is above them all. *)
Definition tstore_ok (st : tournamentStore) : Prop :=
  0 < nextID st ∧
  ∀ id t, byID st !! id = Some t →
    t_ID t = id ∧ validStoredTournament t = true ∧ 0 < id < nextID st ∧ NoDup (t_Participants t).

(** What players do to it. *)
Inductive t_op :=
  | OpCreate (mark rnd : bytes) (now owner : Z) (payload : bytes)
  | OpJoin (id p : Z)
  | OpDelete (id p : Z).

Definition t_run (o : t_op) (st : tournamentStore) : tournamentStore :=
  match o with
  | OpCreate mark rnd now owner payload => (CreateTournament mark rnd now owner payload st).2
  | OpJoin id p => (joinTournament id p st).2
  | OpDelete id p => (deleteTournament id p st).2
  end.

Lemma valid_upd t ps :
  validStoredTournament (mkTournament (t_ID t) (t_Owner t) (t_Code t) (t_Mark t) (t_Blob t) ps (t_CreatedAt t)) =
  validStoredTournament t.
Proof. done. Qed.

(** A creation leaves the store alone but for the next identifier, or adds a valid tournament
    under it. *)
Lemma create_cases mark rnd now owner payload st :
  let st' := (CreateTournament mark rnd now owner payload st).2 in
  st' = st ∨ (nextID st' = u32 (nextID st + 1) ∧ byID st' = byID st) ∨
  (nextID st' = u32 (nextID st + 1) ∧ ∃ t, byID st' = <[nextID st := t]> (byID st) ∧ t_ID t = nextID st ∧
     validStoredTournament t = true ∧ t_Participants t = [owner]).
Proof.
  cbv zeta. unfold CreateTournament. destruct (tournamentCodeOffset payload); [|by left].
  destruct (_ || _); [by left|]. destruct (_ <=? _)%nat; [by left|].
  destruct (negb _) eqn:Hv; cbn [snd nextID byID]; right; [by left|right].
  split; [done|]. eexists. split_and!; try done. by apply negb_false_iff in Hv.
Qed.

(** C31: What players can do to the tournaments.  However they create, join and delete: the
    store stays well-formed; a tournament keeps its structure, its owner and its participants,
    which only grow at the end; and the one way a tournament goes is that its owner deletes
    it. *)
Theorem tournaments_safe o st :
  tstore_ok st → nextID st < 2 ^ 32 - 1 →
  tstore_ok (t_run o st) ∧
  ∀ id t, byID st !! id = Some t →
    match byID (t_run o st) !! id with
    | Some t' => t_Blob t' = t_Blob t ∧ t_Owner t' = t_Owner t ∧ t_Code t' = t_Code t ∧
        (t_Participants t' = t_Participants t ∨
         ∃ p, o = OpJoin id p ∧ p ∉ t_Participants t ∧ t_Participants t' = t_Participants t ++ [p])
    | None => o = OpDelete id (t_Owner t)
    end.
Proof.
  intros [Hpos Hok] Hlt. destruct o as [mark rnd now owner payload|id p|id p]; cbn [t_run].
  - assert (u32 (nextID st + 1) = nextID st + 1) as Hw by (apply wrap_small; unfold is_u; lia).
    destruct (create_cases mark rnd now owner payload st) as [->|[[Hn Hb]|(Hn & t0 & Hb & Hi & Hv & Hp)]].
    + split; [by split|]. intros id t Ht. rewrite Ht. auto.
    + rewrite Hw in Hn. unfold tstore_ok. rewrite Hn, Hb. split.
      * split; [lia|]. intros id t Ht. destruct (Hok id t Ht) as (?&?&?&?). split_and!; [done|done|lia|lia|done].
      * intros id t Ht. rewrite Ht. auto.
    + rewrite Hw in Hn. unfold tstore_ok. rewrite Hn, Hb. split.
      * split; [lia|]. intros id t Ht. destruct (decide (id = nextID st)) as [->|Hne].
        -- rewrite lookup_insert_eq in Ht. simplify_eq. rewrite Hp.
           split_and!; [done|done|lia|lia|apply NoDup_singleton].
        -- rewrite lookup_insert_ne in Ht by done. destruct (Hok id t Ht) as (?&?&?&?).
           split_and!; [done|done|lia|lia|done].
      * intros id t Ht. destruct (Hok id t Ht) as (_&_&?&_). rewrite lookup_insert_ne, Ht by lia. auto.
  - unfold joinTournament. destruct (byID st !! id) as [t0|] eqn:E;
      [|split; [by split|]; intros id' t Ht; cbn; rewrite Ht; auto].
    destruct (negb _); [split; [by split|]; intros id' t Ht; cbn; rewrite Ht; auto|].
    case_bool_decide as Hp; [split; [by split|]; intros id' t Ht; cbn; rewrite Ht; auto|].
    cbn [snd]. destruct (Hok id t0 E) as (H1 & H2 & H3 & H4). split.
    + split; [done|]. cbn [byID nextID]. intros id' t. destruct (decide (id' = id)) as [->|Hne].
      * rewrite lookup_insert_eq. intros [= <-]. split_and!; [done|by rewrite valid_upd|lia|lia|].
        cbn. apply NoDup_app. split_and!; [done|set_solver|apply NoDup_singleton].
      * rewrite lookup_insert_ne by done. apply Hok.
    + cbn [byID]. intros id' t Ht. destruct (decide (id' = id)) as [->|Hne].
      * rewrite lookup_insert_eq. simplify_eq. split_and!; try done. right. by exists p.
      * rewrite lookup_insert_ne, Ht by done. auto.
  - unfold deleteTournament. destruct (byID st !! id) as [t0|] eqn:E;
      [|split; [by split|]; intros id' t Ht; cbn; rewrite Ht; auto].
    destruct (Z.eqb_spec (t_Owner t0) p) as [Hp|]; rewrite ?orb_true_r;
      [|split; [by split|]; intros id' t Ht; cbn; rewrite Ht; auto].
    destruct (Hok id t0 E) as (H1 & -> & H3 & H4). cbn [negb orb snd]. split.
    + split; [done|]. cbn [byID nextID]. intros id' t [Hne Ht]%lookup_delete_Some. by apply Hok.
    + cbn [byID]. intros id' t Ht. destruct (decide (id' = id)) as [->|Hne].
      * rewrite lookup_delete_eq. by simplify_eq.
      * rewrite lookup_delete_ne, Ht by done. auto.
Qed.

(** The file the store is restored from: identifiers that leave room for the next one. *)
Definition file_entry_ok (e : option Tournament) : Prop :=
  match e with
  | Some t => 0 ≤ t_ID t < 2 ^ 32 - 1 ∧ NoDup (t_Participants t)
  | None => True
  end.

Lemma tstore_ok_init file st : Forall file_entry_ok file → tstore_ok st → tstore_ok (tournamentInit file st).
Proof.
  unfold tournamentInit. intros Hf. revert st. induction Hf as [|e file He _ IH]; intros st Hok; [done|].
  cbn [foldl]. apply IH. unfold restore_one. destruct e as [t|]; [|done]. destruct He as [Hid Hnd].
  destruct (Z.eqb_spec (t_ID t) 0); [done|]. destruct Hok as [Hpos Hok].
  rewrite (wrap_small 32 (t_ID t + 1)) by (unfold is_u; lia).
  set (next := if _ <=? _ then _ else _).
  assert (t_ID t < next ∧ nextID st ≤ next) as [Hn1 Hn2] by (subst next; destruct (Z.leb_spec (nextID st) (t_ID t)); lia).
  assert (∀ id t', byID st !! id = Some t' → t_ID t' = id ∧ validStoredTournament t' = true ∧ 0 < id < next ∧
    NoDup (t_Participants t')) as Hold by (intros id t' Ht'; destruct (Hok id t' Ht') as (?&?&?&?); split_and!; lia || done).
  destruct (validStoredTournament t) eqn:Hv; (split; [cbn [nextID]; lia|]); cbn [byID nextID]; [|exact Hold].
  intros id t'. destruct (decide (id = t_ID t)) as [->|Hne].
  - rewrite lookup_insert_eq. intros [= <-]. split_and!; done || lia.
  - rewrite lookup_insert_ne by done. apply Hold.
Qed.

(** ** A structure on concrete bytes: an empty name, no property, an empty code *)
Definition payload0 : bytes :=
  replicate 0x69 x00 ++ [x02; x00] ++ [x00; x00] ++ [xff; x00; x00; x00; x00] ++ [x01; x00; x00].
Definition rnd12 : bytes := [x07; x10; x2b; x00; x01; x02; x03; x04; x05; x06; x07; xff].

Example payload0_offset : tournamentCodeOffset payload0 = Some 114%nat.
Proof. vm_compute. done. Qed.

Lemma CreateTournament_accepts_witness :
  tournamentCodeOffset payload0 = Some 114%nat ∧
  ∃ t st', CreateTournament (replicate 8 xaa) rnd12 0 77 payload0 tournaments0 = (Some t, st') ∧
    t_ID t = 1000 ∧ t_Owner t = 77 ∧ tournamentCodeOffset (t_Blob t) = Some 114%nat.
Proof.
  split; [vm_compute; reflexivity|].
  destruct (CreateTournament_accepts payload0 114 (replicate 8 xaa) rnd12 0 77 tournaments0)
    as (t & st' & H1 & _ & _ & H2 & H3 & _ & _ & H4 & _);
    [vm_compute; reflexivity|vm_compute; reflexivity|vm_compute; discriminate|vm_compute; lia
    |vm_compute; done|vm_compute; discriminate|reflexivity|reflexivity|].
  exists t, st'. split_and!; [exact H1|exact H2|exact H3|exact H4].
Defined.

Definition tournaments1 : tournamentStore :=
  (CreateTournament (replicate 8 xaa) rnd12 0 77 payload0 tournaments0).2.

Lemma tournaments_safe_witness :
  tstore_ok tournaments1 ∧ is_Some (byID (t_run (OpDelete 1000 78) tournaments1) !! 1000).
Proof.
  assert (tstore_ok tournaments0) as H0 by (split; [done|intros id t; cbn; by rewrite lookup_empty]).
  assert (tstore_ok tournaments1) as H1.
  { refine (proj1 (tournaments_safe (OpCreate (replicate 8 xaa) rnd12 0 77 payload0) tournaments0 H0 _)). done. }
  split; [exact H1|].
  destruct (tournaments_safe (OpDelete 1000 78) tournaments1 H1 ltac:(vm_compute; done)) as [_ H].
  destruct (byID tournaments1 !! 1000) as [t|] eqn:E; [|vm_compute in E; discriminate E].
  assert (t_Owner t = 77) as Ho.
  { assert ((t_Owner <$> byID tournaments1 !! 1000) = Some 77) as Ht by (vm_compute; reflexivity).
    rewrite E in Ht. by injection Ht. }
  specialize (H 1000 t E). destruct (byID (t_run _ _) !! 1000) as [t'|]; [by exists t'|].
  exfalso. rewrite Ho in H. discriminate H.
Defined.

(** ** Restarts *)
Definition quarantine_ok (st : tournamentStore) : Prop :=
  Forall (λ t, t_ID t ≠ 0 ∧ validStoredTournament t = false) (quarantined st).

Lemma restore_quarantined l st :
  Forall (λ t, t_ID t ≠ 0 ∧ validStoredTournament t = false) l →
  let st' := tournamentInit (Some <$> l) st in
  byID st' = byID st ∧ quarantined st' = quarantined st ++ l.
Proof.
  intros Hl. revert st. induction Hl as [|t l [Hi Hv] _ IH]; intros st; [by rewrite app_nil_r|].
  cbn [fmap list_fmap]. change (tournamentInit (Some t :: (Some <$> l)) st) with
    (tournamentInit (Some <$> l) (restore_one st (Some t))).
  destruct (IH (restore_one st (Some t))) as [-> ->]. cbn [restore_one].
  rewrite (proj2 (Z.eqb_neq _ _) Hi), Hv. cbn [byID quarantined]. by rewrite <- app_assoc.
Qed.

Lemma restore_valid l st :
  Forall (λ e, t_ID e.2 = e.1 ∧ e.1 ≠ 0 ∧ validStoredTournament e.2 = true) l → NoDup l.*1 →
  let st' := tournamentInit (Some <$> l.*2) st in
  byID st' = list_to_map l ∪ byID st ∧ quarantined st' = quarantined st.
Proof.
  intros Hl. revert st. induction Hl as [|[k t] l (Hk & Hi & Hv) _ IH]; intros st Hnd;
    [split; [by rewrite list_to_map_nil, (left_id_L ∅ (∪))|done]|].
  apply NoDup_cons in Hnd as [Hni Hnd]. cbn [fmap list_fmap fst snd] in *. subst k.
  change (tournamentInit (Some t :: (Some <$> l.*2)) st) with (tournamentInit (Some <$> l.*2) (restore_one st (Some t))).
  destruct (IH (restore_one st (Some t)) Hnd) as [-> ->]. cbn [restore_one].
  rewrite (proj2 (Z.eqb_neq _ _) Hi), Hv. cbn [byID quarantined]. split; [|done].
  rewrite list_to_map_cons, <- insert_union_l, <- insert_union_r; [done|].
  by apply not_elem_of_list_to_map_1.
Qed.

(** A restart loses no tournament, and none of the entries set aside: what the flusher writes
    is restored as it was, in whatever order the map is visited. *)
Theorem tournaments_survive `{MO : MapOrder} st :
  tstore_ok st → quarantine_ok st →
  byID (tournamentInit (tournamentFlusher st) tournaments0) = byID st ∧
  quarantined (tournamentInit (tournamentFlusher st) tournaments0) = quarantined st.
Proof.
  intros [Hpos Hok] Hq. unfold tournamentFlusher, tournamentInit. rewrite fmap_app, foldl_app.
  destruct (restore_quarantined (quarantined st) tournaments0 Hq) as [Hb1 Hq1].
  destruct (restore_valid (range (byID st)) (tournamentInit (Some <$> quarantined st) tournaments0)) as [Hb2 Hq2].
  - apply Forall_forall. intros [k t] Hkt%elem_of_range. destruct (Hok k t Hkt) as (H1 & H2 & H3 & _). simpl.
    split_and!; [done|lia|done].
  - apply NoDup_fst_range.
  - unfold tournamentInit in *. rewrite Hb2, Hq2, Hb1, Hq1, list_to_map_range.
    split; [apply (right_id_L ∅ (∪))|done].
Qed.
