(* ===== verification/Ranking.v ===== *)
(** * Ranking: profiles and tournament boards (src/ranking.go, src/ranking_board.go)

    Protocol 0x70: the profile each player publishes and the others ask for, the results of
    the tournaments' races and the boards they make, with the two files they are kept in.  A
    file is what it holds, decoded from its JSON. *)

From S2P Require Export Handlers Tournament Base64.

Definition ProtocolRanking : Z := 0x70.
Definition MethodUploadCommonData : Z := 0x4.
Definition methodRankingGetCompetitionInfo : Z := 0x12.
Definition methodRankingCompetitionRanking : Z := 0x10.
Definition methodRankingCommonDataByPIDs : Z := 0x16.
Definition methodRankingSubmitScore : Z := 0x11.
Definition methodRankingSubmitTime : Z := 0x13.
Definition commonDataMaxLen : Z := 4096.
Definition commonDataMaxEntries : Z := 256.
Definition commonDataMaxStored : Z := 50000.
Definition scoreEntryBody : Z := 159.
Definition scoreProfileLen : nat := 132.
Definition scoreMaxPerBoard : nat := 100.

(** ** State *)
Record boardEntry := mkBoardEntry {
  b_PID : Z;
  b_Score : Z;
  b_Profile : bytes;
  b_At : Z
}.

(** A board is a tournament and a category. *)
Notation Boards := (gmap (Z * Z) (gmap Z boardEntry)).

(** The variables of the two files: the profiles, the results kept for study, the boards;
    whether each file has been read, and whether it is out of date. *)
Record RankState := mkRank {
  commonDataStore : gmap Z bytes;
  commonDataOnce : bool;
  commonDataDirty : bool;
  scoresStore : gmap bytes bytes;
  boards : Boards;
  boardOnce : bool;
  boardDirty : bool
}.
Definition rank0 : RankState := mkRank ∅ false false ∅ ∅ false false.

Definition set_common (v : gmap Z bytes) (d : bool) (st : RankState) : RankState :=
  mkRank v (commonDataOnce st) d (scoresStore st) (boards st) (boardOnce st) (boardDirty st).
Definition set_boards (v : Boards) (d : bool) (st : RankState) : RankState :=
  mkRank (commonDataStore st) (commonDataOnce st) (commonDataDirty st) (scoresStore st) v (boardOnce st) d.

(** ** Profiles *)

(** One entry of the file: a decimal PID and a profile in base64. *)
Definition load_profile (m : gmap Z bytes) (e : bytes * bytes) : gmap Z bytes :=
  match SscanfUint e.1, StdDecode e.2 with
  | Some p, Some blob => if bool_decide (blob = []) || (commonDataMaxLen <? zlen blob) then m else <[p := blob]> m
  | _, _ => m
  end.

(** An entry of the table, as [writeCommonData] visits it. *)
Definition write_profile (out : gmap bytes bytes) (e : Z * bytes) : gmap bytes bytes :=
  if Z.of_nat (size out) <? commonDataMaxStored then <[FormatUint e.1 := StdEncode e.2]> out else out.

Section ranking.
Context `{MO : MapOrder}.
(** What the files hold when they are read, [None] for none. *)
Context (common_file : option (gmap bytes bytes)).

Definition loadCommonData (file : gmap bytes bytes) (m : gmap Z bytes) : gmap Z bytes :=
  foldl load_profile m (range file).

Definition writeCommonData (m : gmap Z bytes) : gmap bytes bytes := foldl write_profile ∅ (range m).

Definition commonDataInit (st : RankState) : RankState :=
  if commonDataOnce st then st
  else
    let m := match common_file with Some f => loadCommonData f (commonDataStore st) | None => commonDataStore st end in
    mkRank m true (commonDataDirty st) (scoresStore st) (boards st) (boardOnce st) (boardDirty st).

(** A tick of [commonDataFlusher], with what it writes. *)
Definition commonDataFlush (st : RankState) : RankState * option (gmap bytes bytes) :=
  if commonDataDirty st then (set_common (commonDataStore st) false st, Some (writeCommonData (commonDataStore st)))
  else (st, None).

Definition PutCommonData (p : Z) (blob : bytes) (st : RankState) : RankState :=
  if bool_decide (blob = []) || (commonDataMaxLen <? zlen blob) then st
  else
    let st := commonDataInit st in
    set_common (<[p := blob]> (commonDataStore st)) true st.

Definition CommonData (p : Z) (st : RankState) : bytes * RankState :=
  let st := commonDataInit st in (default [] (commonDataStore st !! p), st).

Definition ForgetCommonData (p : Z) (st : RankState) : RankState :=
  set_common (delete p (commonDataStore st)) (commonDataDirty st) st.

(** The loop of [commonDataByPIDs] over the [k] PIDs left; [None] when a read fails. *)
Fixpoint profiles (k : nat) (i : StreamIn) (w : Writer) (st : RankState) : option Writer * RankState :=
  match k with
  | O => (Some w, st)
  | S k =>
      let '(p, i) := rPID i in
      match si_err i with
      | Some _ => (None, st)
      | None => let '(blob, st) := CommonData p st in profiles k i (w ;;; wQBuffer blob) st
      end
  end.

(** ** Results *)
Definition keepSubmittedScore (p method : Z) (body : bytes) (st : RankState) : RankState :=
  if bool_decide (body = []) || (commonDataMaxLen <? zlen body) then st
  else mkRank (commonDataStore st) (commonDataOnce st) (commonDataDirty st)
         (<[FormatUint p ++ "/"%byte :: FormatUint method := body]> (scoresStore st))
         (boards st) (boardOnce st) (boardDirty st).

Definition SubmittedScore (p method : Z) (st : RankState) : option bytes :=
  scoresStore st !! (FormatUint p ++ "/"%byte :: FormatUint method).

(** Tournament, category, score and profile of a result. *)
Definition parseScoreSubmission (body : bytes) : option (Z * Z * Z * bytes) :=
  if (length body <? 0x1d + scoreProfileLen)%nat then None
  else
    let tournament := le_val (slice 0x05 0x09 body) in
    let category := le_val (slice 0x09 0x0d body) in
    let score := le_val (slice 0x11 0x15 body) in
    if negb (le_val (slice 0x1b 0x1d body) =? Z.of_nat scoreProfileLen) then None
    else if tournament =? 0 then None
    else Some (tournament, category, score, slice 0x1d (0x1d + scoreProfileLen) body).

Record boardPersisted := mkPersistedBoard {
  bp_Tournament : Z;
  bp_Category : Z;
  bp_PID : Z;
  bp_Score : Z;
  bp_Profile : bytes;
  bp_At : Z
}.
Context (board_file : option (list boardPersisted)).

Definition restore_board (m : Boards) (p : boardPersisted) : Boards :=
  if negb (length (bp_Profile p) =? scoreProfileLen)%nat || (bp_Tournament p =? 0) then m
  else
    let k := (bp_Tournament p, bp_Category p) in
    <[k := <[bp_PID p := mkBoardEntry (bp_PID p) (bp_Score p) (bp_Profile p) (bp_At p * second)]>
             (default ∅ (m !! k))]> m.

Definition boardInit (st : RankState) : RankState :=
  if boardOnce st then st
  else
    let m := match board_file with Some l => foldl restore_board (boards st) l | None => boards st end in
    mkRank (commonDataStore st) (commonDataOnce st) (commonDataDirty st) (scoresStore st) m true (boardDirty st).

Definition board_rows (e : (Z * Z) * gmap Z boardEntry) : list boardPersisted :=
  (λ x, mkPersistedBoard e.1.1 e.1.2 x.1 (b_Score x.2) (b_Profile x.2) (b_At x.2 `div` second)) <$> range e.2.

(** A tick of [boardFlusher], with what it writes. *)
Definition boardFlush (st : RankState) : RankState * option (list boardPersisted) :=
  if boardDirty st then (set_boards (boards st) false st, Some (concat (board_rows <$> range (boards st))))
  else (st, None).

Definition recordScore (now p : Z) (body : bytes) (st : RankState) : bool * RankState :=
  let st := boardInit st in
  match parseScoreSubmission body with
  | None => (false, st)
  | Some (tour, cat, score, profile) =>
      let k := (tour, cat) in
      let m := default ∅ (boards st !! k) in
      let e :=
        match m !! p with
        | Some prev =>
            if score <=? b_Score prev then mkBoardEntry (b_PID prev) (b_Score prev) profile (b_At prev)
            else mkBoardEntry p score profile now
        | None => mkBoardEntry p score profile now
        end in
      (true, set_boards (<[k := <[p := e]> m]> (boards st)) true st)
  end.

(** ** Boards *)

(** The better score first, the older result first at equal scores. *)
Definition board_before (a b : boardEntry) : bool :=
  if negb (b_Score a =? b_Score b) then b_Score b <? b_Score a else b_At a <? b_At b.

Context `{SS : SliceSort}.

Definition boardFor (tour cat : Z) (st : RankState) : list boardEntry * RankState :=
  let st := boardInit st in
  (take scoreMaxPerBoard (sort_slice board_before (range (default ∅ (boards st !! (tour, cat)))).*2), st).

Definition nexDateTime (at_ : Z) : Z :=
  let secs := at_ `div` second in
  let '(year, month, day) := DateTime.civil (secs `div` 86400) in
  let t := secs `mod` 86400 in
  Z.lor (Z.lor (Z.lor (Z.lor (Z.lor (u64 (t `mod` 60))
    (u64 (Z.shiftl (t `mod` 3600 `div` 60) 6)))
    (u64 (Z.shiftl (t `div` 3600) 12)))
    (u64 (Z.shiftl day 17)))
    (u64 (Z.shiftl month 22)))
    (u64 (Z.shiftl year 26)).

(** A profile made 132 bytes long. *)
Definition fix_profile (prof : bytes) : bytes :=
  if (length prof =? scoreProfileLen)%nat then prof
  else take scoreProfileLen prof ++ replicate_zero (scoreProfileLen - length prof).

Definition board_row (i : nat) (e : boardEntry) : bytes :=
  [x00] ++ le_bytes 4 scoreEntryBody ++ le_bytes 4 (u32 (Z.of_nat i + 1)) ++ le_bytes 8 (b_PID e) ++
  le_bytes 4 (b_Score e) ++ le_bytes 8 (nexDateTime (b_At e)) ++ [xff] ++
  le_bytes 2 (Z.of_nat scoreProfileLen) ++ fix_profile (b_Profile e).

Definition board_page (cat : Z) (entries : list boardEntry) : bytes :=
  le_bytes 4 cat ++ le_bytes 4 (u32 (zlen entries)) ++ concat (imap board_row entries) ++
  le_bytes 4 (u32 (zlen entries)) ++ le_bytes 4 4 ++ replicate_zero 16.

Definition writeBoard (cat : Z) (entries : list boardEntry) : bytes :=
  let page := board_page cat entries in
  le_bytes 4 1 ++ [x00] ++ le_bytes 4 (u32 (zlen page)) ++ page.

(** [boardCategoryFor], for the order in which this call visits the boards. *)
Definition boardCategoryFor (order : MapOrder) (tour : Z) (st : RankState) : Z :=
  match filter (λ k, k.1 = tour) (range (MapOrder := order) (boards st)).*1 with
  | k :: _ => k.2
  | [] => 0
  end.

(** ** The handlers *)
Context {App : Type} `{HK : !Substate RankState App} `{HT : !Substate tournamentStore App}.
#[local] Abbreviation Net := (NetOf App).
Implicit Types (n : Net) (r : Ref) (req : RMCMessage).
(** The orders of the two calls of [boardCategoryFor] in one [competitionRanking]. *)
Context (order1 order2 : MapOrder).

Definition rank (n : Net) : RankState := comp n.

Definition uploadCommonData (r : Ref) (req : RMCMessage) (n : Net) : option RMCMessage * Net :=
  let n' :=
    match read_err n req rBuffer with
    | None => upd_comp (PutCommonData (PID (conn r n)) (read_body n req rBuffer)) n
    | Some _ => n
    end in
  (Some (ack n ProtocolRanking req), n').

Definition commonDataByPIDs (req : RMCMessage) (n : Net) : option RMCMessage * Net :=
  let vide := Some (reply n ProtocolRanking req (wU32 0)) in
  if (length (Body req) <? 4)%nat then (vide, n)
  else
    let '(count, i) := rU32 (NewStreamIn (Body req) (settings n)) in
    if bool_decide (is_Some (si_err i)) || (count =? 0) || (commonDataMaxEntries <? count) then (vide, n)
    else
      let '(w, st) := profiles (Z.to_nat count) i (wU32 count) (rank n) in
      let n' := set_comp st n in
      match w with
      | None => (vide, n')
      | Some w =>
          let body := Bytes_ (w (NewStreamOut (settings n))) in
          (Some (reply n ProtocolRanking req (wU8 0 ;;; wU32 (u32 (zlen body)) ;;; Write body)), n')
      end.

Definition competitionRanking (req : RMCMessage) (n : Net) : option RMCMessage * Net :=
  let empty := Some (reply n ProtocolRanking req (wU32 0)) in
  if (length (Body req) <? 13)%nat then (empty, n)
  else
    let tour := le_val (slice 5 9 (Body req)) in
    let '(entries, st) := boardFor tour (boardCategoryFor order1 tour (rank n)) (rank n) in
    let n' := set_comp st n in
    match entries with
    | [] => (empty, n')
    | _ =>
        (Some (NewRMCSuccess (settings n) ProtocolRanking (Method req) (CallID req)
                 (writeBoard (boardCategoryFor order2 tour st) entries)), n')
    end.

Definition submitScore (r : Ref) (req : RMCMessage) (n : Net) : option RMCMessage * Net :=
  let p := PID (conn r n) in
  let n' := upd_comp (keepSubmittedScore p (Method req) (Body req)) n in
  let n' :=
    if Method req =? methodRankingSubmitScore
    then upd_comp (λ st, (recordScore (clock n) p (Body req) st).2) n' else n' in
  (Some (NewRMCSuccess (settings n) ProtocolRanking (Method req) (CallID req) [x00]), n').

Definition RankingHandler (r : Ref) (req : RMCMessage) (n : Net) : option RMCMessage * Net :=
  let m := Method req in
  if m =? MethodUploadCommonData then uploadCommonData r req n
  else if m =? methodRankingCommonDataByPIDs then commonDataByPIDs req n
  else if m =? methodRankingGetCompetitionInfo then
    (Some (NewRMCSuccess (settings n) ProtocolRanking (Method req) (CallID req)
             (TournamentSummaries (get (app_state n)))), n)
  else if m =? methodRankingCompetitionRanking then competitionRanking req n
  else if (m =? methodRankingSubmitScore) || (m =? methodRankingSubmitTime) then submitScore r req n
  else (Some (notImplemented (settings n) ProtocolRanking req), n).
End ranking.
