(* ===== verification/RankingNames.v ===== *)
(** * The names in a published profile (src/ranking_names.go)

    The Mii name and the nickname read out of a Mario Kart profile for moderation.
    [IsGraphic] stands for Go's [unicode.IsGraphic], whose tables are data of the standard
    library; what is used of it is that control characters are not graphic. *)

From S2P Require Export Ranking.

Definition commonDataBlobLen : Z := 132.
Definition commonDataMiiNameOff : nat := 20.
Definition commonDataMiiNameLen : nat := 22.
Definition commonDataNickOff : nat := 96.
Definition commonDataMaxNameRunes : nat := 32.

(** [utf16.Decode]: a surrogate that is not half of a pair is U+FFFD. *)
Fixpoint utf16_decode (units : list Z) : list Z :=
  match units with
  | [] => []
  | u :: rest =>
      if (u <? 0xD800) || (0xE000 <=? u) then u :: utf16_decode rest
      else
        match rest with
        | v :: rest' =>
            if (u <? 0xDC00) && (0xDC00 <=? v) && (v <? 0xE000)
            then (0x10000 + Z.shiftl (u - 0xD800) 10 + (v - 0xDC00)) :: utf16_decode rest'
            else 0xFFFD :: utf16_decode rest
        | [] => [0xFFFD]
        end
  end.

Section names.
Context `{MO : MapOrder} (IsGraphic : Z → bool).

(** The loop of [sanitizeName]: [n] characters may still be written. *)
Fixpoint sanitize_loop (fuel n : nat) (s : bytes) : bytes :=
  match fuel, s with
  | S fuel, _ :: t =>
      match rune_len s with
      | None => sanitize_loop fuel n t
      | Some k =>
          let r := rune_value (take k s) in
          if (r =? 0xFFFD) || negb (IsGraphic r) then sanitize_loop fuel n (drop k s)
          else take k s ++ (if (n <=? 1)%nat then [] else sanitize_loop fuel (n - 1) (drop k s))
      end
  | _, _ => []
  end.

(** A turn takes a byte at least. *)
Definition sanitizeName (s : bytes) : bytes := TrimSpace (sanitize_loop (length s) commonDataMaxNameRunes s).

Definition decodeBytesZ (b : bytes) : bytes :=
  sanitizeName (match index_byte x00 b with Some i => take i b | None => b end).

(** The units up to the terminator; an odd last byte is left out. *)
Fixpoint utf16_units (n : nat) (b : bytes) : list Z :=
  match n, b with
  | S n, lo :: hi :: b =>
      let u := Z.lor (Z_of_byte lo) (Z.shiftl (Z_of_byte hi) 8) in
      if u =? 0 then [] else u :: utf16_units n b
  | _, _ => []
  end.

Definition decodeUTF16LE (b : bytes) : bytes :=
  sanitizeName (concat (rune_bytes <$> utf16_decode (utf16_units commonDataMaxNameRunes b))).

Definition CommonDataNames (blob : bytes) : option (bytes * bytes) :=
  if negb (zlen blob =? commonDataBlobLen) then None
  else Some (decodeUTF16LE (slice commonDataMiiNameOff (commonDataMiiNameOff + commonDataMiiNameLen) blob),
             decodeBytesZ (drop commonDataNickOff blob)).

Definition CommonDataNamesForPID (file : option (gmap bytes bytes)) (p : Z) (st : RankState)
    : option (bytes * bytes) * RankState :=
  let '(blob, st) := CommonData file p st in (CommonDataNames blob, st).

(** ** A name cannot forge a log line *)
Context (Hctl : ∀ r, r < 0x20 ∨ r = 0x7F → IsGraphic r = false).

Definition clean (c : byte) : Prop := 0x20 ≤ Z_of_byte c ∧ Z_of_byte c ≠ 0x7F.

Lemma sanitize_loop_clean fuel n s :
  Forall clean (sanitize_loop fuel n s) ∧ (length (sanitize_loop fuel n s) ≤ 4 * max 1 n)%nat.
Proof using Hctl.
  revert n s. induction fuel as [|fuel IH]; intros n s; [split; [constructor|simpl; lia]|].
  destruct s as [|c t]; [split; [constructor|simpl; lia]|]. cbn [sanitize_loop].
  destruct (rune_len (c :: t)) as [k|] eqn:Ek; [|apply IH]. cbv zeta.
  destruct ((rune_value (take k (c :: t)) =? 0xFFFD) || negb (IsGraphic (rune_value (take k (c :: t))))) eqn:Eg; [apply IH|].
  apply orb_false_iff in Eg as [_ Eg%negb_false_iff].
  destruct (rune_len_bounds _ _ Ek) as [Hk Hl].
  assert (Forall clean (take k (c :: t))) as Hc.
  { destruct (decide (2 ≤ k)%nat) as [H2|H2].
    - eapply Forall_impl; [exact (rune_len_high _ _ Ek H2)|]. unfold clean. simpl. intros d. lia.
    - destruct (rune_len_ascii _ _ Ek ltac:(lia)) as (c' & t' & [= <- <-] & -> & Hlt). cbn [take] in *.
      constructor; [|constructor]. change (rune_value [c]) with (Z_of_byte c) in Eg. unfold clean.
      destruct (decide (Z_of_byte c < 0x20)); [by rewrite Hctl in Eg by auto|].
      destruct (decide (Z_of_byte c = 0x7F)); [by rewrite Hctl in Eg by auto|]. lia. }
  destruct (Nat.leb_spec n 1).
  - rewrite app_nil_r. split; [done|]. rewrite length_take. lia.
  - destruct (IH (n - 1)%nat (drop k (c :: t))) as [H1 H2]. split; [by apply Forall_app|].
    rewrite length_app, length_take. lia.
Qed.

(** Whatever a console publishes, the names read out of it hold no control character, and at
    most thirty-two characters. *)
Theorem names_are_clean blob mii nick :
  CommonDataNames blob = Some (mii, nick) →
  Forall clean mii ∧ Forall clean nick ∧ (length mii ≤ 128)%nat ∧ (length nick ≤ 128)%nat.
Proof using Hctl.
  assert (∀ s, Forall clean (sanitizeName s) ∧ (length (sanitizeName s) ≤ 128)%nat) as H.
  { intros s. unfold sanitizeName. destruct (sanitize_loop_clean (length s) commonDataMaxNameRunes s) as [H1 H2]. split.
    - rewrite Forall_forall in *. intros c Hc%TrimSpace_sub. by apply H1.
    - etrans; [apply length_TrimSpace|]. etrans; [exact H2|]. done. }
  unfold CommonDataNames. case_match; [done|]. intros [= <- <-]. unfold decodeUTF16LE, decodeBytesZ.
  split_and!; apply H.
Qed.
End names.

Example utf16_ex : concat (rune_bytes <$> utf16_decode (utf16_units 32 [x4d; x00; xe9; x00; x00; x00; x41; x00])) = str "M" ++ [xc3; xa9].
Proof. vm_compute. reflexivity. Qed.
