(* ===== verification/RankingProps.v ===== *)
(** * What the Ranking protocol guarantees

    Profiles survive a restart and are answered in the order they are asked for; a tournament
    board keeps each player's best result and shows the best hundred in order; and what goes
    wrong with the category of a board. *)

From S2P Require Export Ranking.

(** ** Profiles *)

(** What [PutCommonData] lets into the table, of as many players as the file takes. *)
Definition profile_ok (p : Z) (blob : bytes) : Prop := is_u64 p ∧ blob ≠ [] ∧ zlen blob ≤ commonDataMaxLen.

Definition profiles_ok (m : gmap Z bytes) : Prop :=
  map_Forall profile_ok m ∧ Z.of_nat (size m) ≤ commonDataMaxStored.

Lemma write_profiles_ok (l : list (Z * bytes)) (out : gmap bytes bytes) :
  NoDup l.*1 → Forall (λ e, is_u64 e.1) l → (∀ e, e ∈ l → out !! FormatUint e.1 = None) →
  Z.of_nat (size out) + zlen l ≤ commonDataMaxStored →
  foldl write_profile out l = list_to_map ((λ e, (FormatUint e.1, StdEncode e.2)) <$> l) ∪ out.
Proof.
  revert out. induction l as [|[p b] l IH]; intros out Hnd Hu Hout Hsz; [by simpl; rewrite (left_id_L ∅ (∪))|].
  cbn [foldl fmap list_fmap fst snd length] in *. apply NoDup_cons in Hnd as [Hni Hnd].
  apply Forall_cons in Hu as [Hp Hu]. unfold write_profile at 2. cbn [fst snd].
  unfold zlen in Hsz. cbn [length] in Hsz. destruct (Z.ltb_spec (Z.of_nat (size out)) commonDataMaxStored); [|lia].
  assert (out !! FormatUint p = None) as Hp0 by (apply (Hout (p, b)); by left).
  rewrite IH; [|done|done| |].
  - simpl. rewrite <- insert_union_l, <- insert_union_r; [done|].
    apply not_elem_of_list_to_map_1. rewrite <- list_fmap_compose.
    intros ([q c] & E & Hin)%list_elem_of_fmap. cbn in E. rewrite Forall_forall in Hu.
    apply FormatUint_inj in E as ->; [|done|by apply (Hu (q, c))]. apply Hni.
    by apply (list_elem_of_fmap_2 fst l (q, c)).
  - intros [q c] Hin. cbn. rewrite lookup_insert_ne; [apply (Hout (q, c)); by right|].
    rewrite Forall_forall in Hu. intros E. apply FormatUint_inj in E as ->; [|done|by apply (Hu (q, c))].
    apply Hni. by apply (list_elem_of_fmap_2 fst l (q, c)).
  - rewrite map_size_insert_None by done. unfold zlen. lia.
Qed.

Lemma load_profiles_ok (l : list (Z * bytes)) (m : gmap Z bytes) :
  Forall (λ e, profile_ok e.1 e.2) l →
  foldl load_profile m ((λ e, (FormatUint e.1, StdEncode e.2)) <$> l) = foldl (λ m e, <[e.1 := e.2]> m) m l.
Proof.
  intros H. revert m. induction H as [|[p b] l (Hp & Hb & Hl) _ IH]; intros m; [done|].
  cbn [fmap list_fmap foldl fst snd] in *. rewrite <- IH. f_equal. unfold load_profile. cbn [fst snd].
  rewrite SscanfUint_FormatUint, StdDecode_StdEncode by done. rewrite bool_decide_false by done.
  destruct (Z.ltb_spec commonDataMaxLen (zlen b)); [lia|done].
Qed.

(** The profiles survive a restart.  The file the flusher writes, when there are no more
    players than it takes, is read back as the same table, in whatever orders the table, the
    file and its JSON are visited. *)
Theorem profiles_survive (MO MO' : MapOrder) m :
  profiles_ok m →
  loadCommonData (MO := MO') (writeCommonData (MO := MO) m) ∅ = m.
Proof.
  intros [Hm Hsz]. unfold loadCommonData, writeCommonData.
  assert (Forall (λ e, profile_ok e.1 e.2) (range (MapOrder := MO) m)) as Hl.
  { apply Forall_forall. intros [p b] Hin%elem_of_range. by apply (Hm p b). }
  rewrite write_profiles_ok; [|apply NoDup_fst_range| | |by unfold zlen; rewrite map_size_empty, length_range].
  - rewrite (right_id_L ∅ (∪)). set (f := λ e : Z * bytes, (FormatUint e.1, StdEncode e.2)).
    assert (∀ l : list (Z * bytes), NoDup l.*1 → Forall (λ e, is_u64 e.1) l → NoDup (f <$> l).*1) as Hnd.
    { intros l Hnd Hu. rewrite <- list_fmap_compose. induction l as [|[p b] l IH]; [constructor|].
      cbn in *. apply NoDup_cons in Hnd as [Hni Hnd]. apply Forall_cons in Hu as [Hp Hu].
      constructor; [|by apply IH]. intros ([q c] & E & Hin)%list_elem_of_fmap. cbn in E.
      rewrite Forall_forall in Hu. apply FormatUint_inj in E as ->; [|done|by apply (Hu (q, c))].
      apply Hni. by apply (list_elem_of_fmap_2 fst l (q, c)). }
    assert (∃ l, range (MapOrder := MO') (list_to_map (f <$> range (MapOrder := MO) m) : gmap bytes bytes) = f <$> l ∧ l ≡ₚ range (MapOrder := MO) m) as (l & -> & Hp).
    { pose proof (range_perm (MapOrder := MO') (list_to_map (f <$> range (MapOrder := MO) m) : gmap bytes bytes)) as Hp.
      rewrite map_to_list_to_map in Hp by (apply Hnd; [apply NoDup_fst_range|]; eapply Forall_impl; [exact Hl|]; by intros ? []).
      apply Permutation_map_inv in Hp as (l & -> & Hp). by exists l. }
    rewrite load_profiles_ok by by rewrite Hp. rewrite foldl_insert_nodup by (rewrite Hp; apply NoDup_fst_range).
    rewrite (right_id_L ∅ (∪)). rewrite (list_to_map_proper l (range (MapOrder := MO) m)); [apply list_to_map_range| |done].
    rewrite Hp. apply NoDup_fst_range.
  - eapply Forall_impl; [exact Hl|]. by intros ? [].
  - intros. apply lookup_empty.
Qed.

Section answers.
Context `{MO : MapOrder} (common_file : option (gmap bytes bytes)).

Lemma commonDataInit_twice st : commonDataInit common_file (commonDataInit common_file st) = commonDataInit common_file st.
Proof. unfold commonDataInit at 2. destruct (commonDataOnce st) eqn:E; [done|]. by unfold commonDataInit; rewrite E. Qed.

(** The profile of a player, the file read if it was not yet. *)
Definition profile_of (st : RankState) (p : Z) : bytes :=
  default [] (commonDataStore (commonDataInit common_file st) !! p).

Lemma profiles_run s ps pre w st :
  Forall (pid_ok s) ps →
  ∃ bs w' st', writes s (wforeach wPID ps) bs ∧
    profiles common_file (length ps) (at_ s pre bs) w st = (Some w', st') ∧
    (∀ buf, w' (mkOut s buf) = wforeach (λ p, wQBuffer (profile_of st p)) ps (w (mkOut s buf))) ∧
    commonDataInit common_file st' = commonDataInit common_file st.
Proof.
  intros Hps. revert pre w st. induction Hps as [|p ps Hp _ IH]; intros pre w st.
  { exists [], w, st. split_and!; [intros buf; by rewrite app_nil_r|done|done|done]. }
  destruct (rt1_PID s p Hp) as (b & _ & W & R).
  destruct (IH (pre ++ b) (w ;;; wQBuffer (profile_of st p)) (commonDataInit common_file st)) as (bs & w' & st' & W' & E & Hw & Hi).
  exists (b ++ bs), w', st'. rewrite wforeach_cons. split_and!.
  - by apply writes_seq.
  - cbn [length profiles]. rewrite R. cbn [si_err at_]. unfold CommonData. fold (profile_of st p). exact E.
  - intros buf. rewrite Hw, wforeach_cons. unfold wseq. f_equal. f_equal.
    unfold profile_of. by rewrite commonDataInit_twice.
  - by rewrite Hi, commonDataInit_twice.
Qed.

Lemma writes_foreach {A} s (f : A → Writer) (g : A → bytes) l :
  (∀ x, x ∈ l → writes s (f x) (g x)) → writes s (wforeach f l) (concat (g <$> l)).
Proof.
  induction l as [|x l IH]; intros H; [intros buf; by rewrite app_nil_r|].
  rewrite wforeach_cons. cbn [fmap list_fmap concat].
  apply writes_seq; [apply H; by left|]. apply IH. intros y Hy. apply H. by right.
Qed.
End answers.

(** The profiles a console asks for come back in the order it named the players in, one for
    each, empty for a player who has published none. *)
Theorem profiles_in_order `{MO : MapOrder} {App} `{HK : !Substate RankState App} file ps req (n : NetOf App) :
  (1 ≤ length ps)%nat → (length ps ≤ 256)%nat → Forall (pid_ok (settings n)) ps →
  Body req = body (settings n) (wU32 (zlen ps) ;;; wforeach wPID ps) →
  let inner := le_bytes 4 (zlen ps) ++
    concat ((λ p, let b := profile_of file (rank n) p in le_bytes 2 (u16 (zlen b)) ++ b) <$> ps) in
  (commonDataByPIDs file req n).1 =
    Some (NewRMCSuccess (settings n) ProtocolRanking (Method req) (CallID req)
            ([x00] ++ le_bytes 4 (u32 (zlen inner)) ++ inner)).
Proof.
  intros H1 H2 Hps Hb inner. unfold commonDataByPIDs. set (s := settings n) in *.
  destruct (profiles_run file s ps (le_bytes 4 (zlen ps)) (wU32 (zlen ps)) (rank n) Hps) as (bs & w' & st' & W & E & Hw & _).
  assert (Body req = le_bytes 4 (zlen ps) ++ bs) as Hbody.
  { rewrite Hb. apply body_writes. by apply writes_seq. }
  assert (length (Body req) <? 4 = false)%nat as ->.
  { apply Nat.ltb_ge. rewrite Hbody, length_app, length_le_bytes. lia. }
  assert (is_u32 (zlen ps)) as Hu by (unfold is_u, zlen; lia).
  assert (rU32 (NewStreamIn (Body req) s) = (zlen ps, at_ s (le_bytes 4 (zlen ps)) bs)) as ->.
  { destruct (rt1_U32 s (zlen ps) Hu) as (b & _ & W' & R).
    assert (b = le_bytes 4 (zlen ps)) as -> by (specialize (W' []); by injection W').
    rewrite Hbody. apply (R [] bs). }
  cbn [si_err at_]. rewrite bool_decide_false by (by intros []). unfold zlen in *.
  rewrite (proj2 (Z.eqb_neq _ _)) by lia. change commonDataMaxEntries with 256.
  rewrite (proj2 (Z.ltb_ge _ _)) by lia. cbn [orb]. rewrite Nat2Z.id.
  change (at_ s _ bs) with (at_ s (le_bytes 4 (Z.of_nat (length ps))) bs). rewrite E. cbn [fst].
  f_equal. unfold reply. fold s. f_equal.
  assert (Bytes_ (w' (NewStreamOut s)) = inner) as ->; [|done].
  unfold NewStreamOut. rewrite Hw.
  change (wU32 ?x (mkOut s [])) with (mkOut s (le_bytes 4 x)).
  rewrite (writes_foreach s _ (λ p, le_bytes 2 (u16 (zlen (profile_of file (rank n) p))) ++ profile_of file (rank n) p)); [done|].
  intros p _. by apply writes_seq.
Qed.

(** ** Boards *)
Lemma board_before_strict : strict_weak board_before.
Proof. split; unfold board_before; [intros x y|intros x y z]; repeat case_match; lia. Qed.

Definition entries_of (st : RankState) (k : Z * Z) : gmap Z boardEntry := default ∅ (boards st !! k).

(** Depositing a result.  The player's line has the better of the two scores, dated from when
    it was reached, and the profile sent last; nobody else's line changes, on that board or
    another; and what is not a result changes no board. *)
Theorem recordScore_spec file now p body st :
  boardOnce st = true →
  let '(ok, st') := recordScore file now p body st in
  match parseScoreSubmission body with
  | None => ok = false ∧ st' = st
  | Some (tour, cat, score, profile) =>
      ok = true ∧ boardDirty st' = true ∧
      ∀ k q, entries_of st' k !! q =
        if decide (k = (tour, cat) ∧ q = p) then
          match entries_of st k !! p with
          | Some e =>
              Some (mkBoardEntry (if score <=? b_Score e then b_PID e else p) (b_Score e `max` score) profile
                      (if score <=? b_Score e then b_At e else now))
          | None => Some (mkBoardEntry p score profile now)
          end
        else entries_of st k !! q
  end.
Proof.
  intros Honce. unfold recordScore, boardInit. rewrite Honce.
  destruct (parseScoreSubmission body) as [[[[tour cat] score] profile]|]; [|done].
  split; [done|]. split; [done|]. intros k q. unfold entries_of. cbn [boards set_boards].
  destruct (decide (k = (tour, cat))) as [->|Hk].
  - rewrite lookup_insert_eq. cbn [default from_option id].
    destruct (decide (q = p)) as [->|Hq].
    + rewrite lookup_insert_eq, decide_True by done.
      destruct (default ∅ (boards st !! (tour, cat)) !! p) as [e|]; [|done].
      destruct (Z.leb_spec score (b_Score e)); do 2 f_equal; lia.
    + rewrite lookup_insert_ne by done. by rewrite decide_False by tauto.
  - rewrite lookup_insert_ne by done. by rewrite decide_False by tauto.
Qed.

Lemma StronglySorted_take {A} (R : A → A → Prop) k l : StronglySorted R l → StronglySorted R (take k l).
Proof. rewrite <- (take_drop k l) at 1. apply StronglySorted_app_1_l. Qed.

(** A board as it is shown: at most a hundred of the tournament's results in that category,
    the better score first and the older first at equal scores; when some are left out,
    there are a hundred better or as good. *)
Theorem boardFor_spec `{MO : MapOrder} `{SS : SliceSort} file tour cat st :
  boardOnce st = true →
  let l := (boardFor file tour cat st).1 in
  (length l ≤ scoreMaxPerBoard)%nat ∧
  (∀ e, e ∈ l → ∃ p, entries_of st (tour, cat) !! p = Some e) ∧
  StronglySorted (λ a b, b_Score b < b_Score a ∨ b_Score a = b_Score b ∧ b_At a ≤ b_At b) l ∧
  ∀ p e, entries_of st (tour, cat) !! p = Some e →
    e ∈ l ∨ (length l = scoreMaxPerBoard ∧
             ∀ x, x ∈ l → b_Score e < b_Score x ∨ b_Score x = b_Score e ∧ b_At x ≤ b_At e).
Proof.
  intros Honce. unfold boardFor, boardInit. rewrite Honce. cbn [fst]. fold (entries_of st (tour, cat)).
  set (m := entries_of st (tour, cat)). set (all := sort_slice board_before (range m).*2).
  pose proof (sort_slice_strongly board_before board_before_strict (range m).*2) as Hs. fold all in Hs.
  assert (∀ e, e ∈ all ↔ ∃ p, m !! p = Some e) as Hall.
  { intros e. unfold all. rewrite elem_of_sort_slice, list_elem_of_fmap. split.
    - intros ([p e'] & -> & H%elem_of_range). eauto.
    - intros [p H]. exists (p, e). split; [done|]. by apply elem_of_range. }
  assert (∀ a b, not_after board_before a b → b_Score b < b_Score a ∨ b_Score a = b_Score b ∧ b_At a ≤ b_At b) as Hna.
  { intros a b. unfold not_after, board_before. repeat case_match; lia. }
  cbv zeta. split_and!.
  - rewrite length_take. lia.
  - intros e He. apply Hall. eapply elem_of_take in He as (i & Hi & _). by eapply list_elem_of_lookup_2.
  - eapply StronglySorted_weaken; [exact Hna|]. by apply StronglySorted_take.
  - intros p e He. assert (e ∈ all) as Hin by (apply Hall; eauto).
    rewrite <- (take_drop scoreMaxPerBoard all) in Hin, Hs.
    apply elem_of_app in Hin as [|Hin]; [by left|]. right. split.
    + rewrite length_take. apply list_elem_of_lookup in Hin as [i Hi].
      rewrite lookup_drop in Hi. apply lookup_lt_Some in Hi. lia.
    + intros x Hx. apply Hna. by eapply (StronglySorted_app_1_elem_of _ _ _ _ _ Hs).
Qed.

(** ** The file of the boards *)

(** What [recordScore] lets into the boards. *)
Definition boards_ok (m : Boards) : Prop :=
  map_Forall (λ k b, map_Forall (λ p e, k.1 ≠ 0 ∧ b_PID e = p ∧ length (b_Profile e) = scoreProfileLen) b) m.

(** An entry as it is read back: its date to the second. *)
Definition to_second (e : boardEntry) : boardEntry :=
  mkBoardEntry (b_PID e) (b_Score e) (b_Profile e) (b_At e `div` second * second).

Lemma restore_rows k (l : list (Z * boardEntry)) m :
  NoDup l.*1 → Forall (λ x, k.1 ≠ 0 ∧ b_PID x.2 = x.1 ∧ length (b_Profile x.2) = scoreProfileLen) l →
  (∀ p, p ∈ l.*1 → default ∅ (m !! k) !! p = None) →
  ∀ k' p, default ∅ (foldl restore_board m ((λ x, mkPersistedBoard k.1 k.2 x.1 (b_Score x.2) (b_Profile x.2)
                                                     (b_At x.2 `div` second)) <$> l) !! k') !! p =
    if decide (k' = k) then
      match (list_to_map l : gmap Z boardEntry) !! p with
      | Some e => Some (to_second e)
      | None => default ∅ (m !! k) !! p
      end
    else default ∅ (m !! k') !! p.
Proof.
  revert m. induction l as [|[q e] l IH]; intros m Hnd Hl Hm k' p.
  { cbn. rewrite lookup_empty. by destruct (decide (k' = k)) as [->|]. }
  cbn [fmap list_fmap foldl fst snd] in *. apply NoDup_cons in Hnd as [Hni Hnd].
  apply Forall_cons in Hl as [(Hk & Hq & Hlen) Hl]. cbn [fst snd] in *.
  set (row := mkPersistedBoard _ _ _ _ _ _).
  assert (restore_board m row = <[k := <[q := to_second e]> (default ∅ (m !! k))]> m) as ->.
  { unfold restore_board, row. cbn. rewrite Hlen, Nat.eqb_refl. cbn [negb orb].
    rewrite (proj2 (Z.eqb_neq _ _)) by done. destruct k as [t c]. cbn. unfold to_second. by rewrite <- Hq. }
  rewrite IH; [|done|done|].
  - destruct (decide (k' = k)) as [->|Hne]; [|by rewrite lookup_insert_ne].
    rewrite lookup_insert_eq. cbn [default from_option id]. simpl.
    destruct (decide (p = q)) as [->|Hpq].
    + by rewrite lookup_insert_eq, lookup_insert_eq, not_elem_of_list_to_map_1.
    + by rewrite !lookup_insert_ne.
  - intros p' Hp'. rewrite lookup_insert_eq. cbn [default from_option id].
    rewrite lookup_insert_ne by congruence. apply Hm. by right.
Qed.

(** The boards survive a restart: what the flusher writes is read back as the same boards, the
    date of each result truncated to the second, in whatever order the maps are visited. *)
Theorem boards_survive (MO : MapOrder) m :
  boards_ok m →
  ∀ k p, default ∅ (foldl restore_board ∅ (concat (board_rows <$> range m)) !! k) !! p =
         to_second <$> default ∅ (m !! k) !! p.
Proof.
  intros Hok k p.
  assert (∀ (l : list ((Z * Z) * gmap Z boardEntry)) (m0 : Boards), NoDup l.*1 →
    (∀ k b, (k, b) ∈ l → m !! k = Some b ∧ default ∅ (m0 !! k) = ∅) →
    ∀ k p, default ∅ (foldl restore_board m0 (concat (board_rows <$> l)) !! k) !! p =
      match (list_to_map l : Boards) !! k with
      | Some b => to_second <$> b !! p
      | None => default ∅ (m0 !! k) !! p
      end) as H.
  { clear k p. induction l as [|[k0 b0] l IH]; intros m0 Hnd Hl k p; [by simpl; rewrite lookup_empty|].
    cbn [fmap list_fmap concat fst] in *. apply NoDup_cons in Hnd as [Hni Hnd]. rewrite foldl_app.
    destruct (Hl k0 b0 ltac:(left)) as [Hb0 H0].
    assert (∀ k' p', default ∅ (foldl restore_board m0 (board_rows (k0, b0)) !! k') !! p' =
      if decide (k' = k0) then to_second <$> b0 !! p' else default ∅ (m0 !! k') !! p') as Hrows.
    { intros k' p'. unfold board_rows. cbn [fst snd]. rewrite restore_rows.
      - destruct (decide (k' = k0)); [|done]. rewrite list_to_map_range, H0, lookup_empty.
        by destruct (b0 !! p').
      - apply NoDup_fst_range.
      - apply Forall_forall. intros [p1 e1] Hin%elem_of_range. by apply (Hok k0 b0 Hb0 p1 e1).
      - intros. by rewrite H0, lookup_empty. }
    rewrite IH; [|done|].
    - simpl. destruct (decide (k = k0)) as [->|].
      + rewrite lookup_insert_eq, not_elem_of_list_to_map_1 by done. by rewrite Hrows, decide_True.
      + rewrite lookup_insert_ne by done. destruct (list_to_map l !! k); [done|]. by rewrite Hrows, decide_False.
    - intros k' b' Hin. destruct (Hl k' b' ltac:(by right)) as [? Hm0]. split; [done|].
      apply map_eq. intros p'. rewrite Hrows, decide_False, Hm0; [done|]. intros ->. apply Hni.
      by apply (list_elem_of_fmap_2 fst l (k0, b')). }
  rewrite H; [|apply NoDup_fst_range|].
  - rewrite list_to_map_range. destruct (m !! k); [done|]. simpl. by rewrite !lookup_empty.
  - intros k' b' Hin%elem_of_range. split; [done|]. by rewrite lookup_empty.
Qed.

(** ** On concrete boards *)
Definition rank_net (st : RankState) : NetOf (RankState * tournamentStore) :=
  (alloc (set_PID 100 (NewConnection [])) (NewEndpoint (NewSwitchSettings [] 40302) auth_start 0 (st, tournaments0))).2.

Definition profile0 : bytes := replicate_zero scoreProfileLen.

(** A result of 5000 points, or of another score, in tournament 7 and category [cat]. *)
Definition result (cat score : Z) : bytes :=
  [x00] ++ le_bytes 4 156 ++ le_bytes 4 7 ++ le_bytes 4 cat ++ le_bytes 4 0 ++ le_bytes 4 score ++
  replicate_zero 6 ++ le_bytes 2 132 ++ profile0.

Definition ask_board : RMCMessage :=
  NewRMCRequest (NewSwitchSettings [] 40302) ProtocolRanking methodRankingCompetitionRanking 1
    ([x00] ++ le_bytes 4 8 ++ le_bytes 4 7 ++ le_bytes 4 0).

Definition saved_boards : list boardPersisted := [mkPersistedBoard 7 393 100 5000 profile0 0].
Definition two_categories : RankState :=
  mkRank ∅ true false ∅ (foldl restore_board ∅ (saved_boards ++ [mkPersistedBoard 7 394 200 6000 profile0 0])) true false.

Definition answer_body (a : option RMCMessage * NetOf (RankState * tournamentStore)) : option bytes := Body <$> a.1.

(** Two slips of the category of a board.  It is looked up before the file is read, so that
    the first request after a restart is answered with no board, and the second with the
    board that was there all along.  And it is looked up twice in a map that may be visited in
    two orders: when a tournament has results in two categories, one board may be sent under
    the other's name. *)
Theorem board_category_slips :
  let ask o1 o2 n := competitionRanking (MO := canonical_order) (SS := merge_slices) (Some saved_boards) o1 o2 ask_board n in
  let n0 := rank_net rank0 in
  let n1 := (ask canonical_order canonical_order n0).2 in
  let entry p s := mkBoardEntry p s profile0 0 in
  answer_body (ask canonical_order canonical_order n0) = Some (le_bytes 4 0) ∧
  answer_body (ask canonical_order canonical_order n1) = Some (writeBoard 393 [entry 100 5000]) ∧
  ∃ c c' e, c ≠ c' ∧ entries_of two_categories (7, c) !! b_PID e = Some e ∧
    answer_body (ask canonical_order reversed_order (rank_net two_categories)) = Some (writeBoard c' [e]).
Proof.
  cbv zeta. split; [vm_compute; reflexivity|]. split; [vm_compute; reflexivity|].
  first [exists 393, 394, (mkBoardEntry 100 5000 profile0 0); split; [done|]; split; vm_compute; reflexivity
        |exists 394, 393, (mkBoardEntry 200 6000 profile0 0); split; [done|]; split; vm_compute; reflexivity].
Qed.

Lemma profiles_survive_witness :
  let m : gmap Z bytes := {[ 100 := str "mario"; 200 := [x00; xff] ]} in
  profiles_ok m ∧ loadCommonData (MO := reversed_order) (writeCommonData (MO := canonical_order) m) ∅ = m.
Proof.
  intros m. assert (profiles_ok m) as H.
  { split; [|vm_compute; done]. apply map_Forall_insert_2; [by vm_compute|].
    by apply map_Forall_singleton. }
  split; [exact H|]. exact (profiles_survive canonical_order reversed_order m H).
Defined.

Lemma profiles_in_order_witness :
  let n := rank_net (mkRank {[ 200 := [xaa] ]} true false ∅ ∅ true false) in
  let s := NewSwitchSettings [] 40302 in
  let req := NewRMCRequest s ProtocolRanking methodRankingCommonDataByPIDs 1 (body s (wU32 2 ;;; wforeach wPID [100; 200])) in
  Forall (pid_ok s) [100; 200] ∧
  (commonDataByPIDs (MO := canonical_order) None req n).1 =
    Some (NewRMCSuccess s ProtocolRanking methodRankingCommonDataByPIDs 1
            ([x00] ++ le_bytes 4 9 ++ le_bytes 4 2 ++ [x00; x00] ++ [x01; x00; xaa])).
Proof.
  intros n s req. assert (Forall (pid_ok s) [100; 200]) as H.
  { repeat (apply Forall_cons; split; [by apply pid_ok_plain|]). apply Forall_nil, I. }
  split; [exact H|].
  exact (profiles_in_order (MO := canonical_order) None [100; 200] req n ltac:(simpl; lia) ltac:(simpl; lia) H eq_refl).
Defined.

Lemma recordScore_spec_witness :
  let st := (recordScore None 10 100 (result 393 5000) (mkRank ∅ true false ∅ ∅ true false)).2 in
  let st' := (recordScore None 20 100 (result 393 4000) st).2 in
  boardOnce st = true ∧ entries_of st' (7, 393) !! 100 = Some (mkBoardEntry 100 5000 profile0 10).
Proof.
  intros st st'. assert (boardOnce st = true) as H by reflexivity. split; [exact H|].
  pose proof (recordScore_spec None 20 100 (result 393 4000) st H) as Hs.
  exact (eq_trans (proj2 (proj2 Hs) (7, 393) 100) ltac:(vm_compute; reflexivity)).
Defined.

Lemma boardFor_spec_witness :
  let st := (recordScore None 20 200 (result 393 4000) (recordScore None 10 100 (result 393 5000) (mkRank ∅ true false ∅ ∅ true false)).2).2 in
  boardOnce st = true ∧
  (length (boardFor (MO := canonical_order) (SS := merge_slices) None 7 393 st).1 ≤ scoreMaxPerBoard)%nat ∧
  (boardFor (MO := canonical_order) (SS := merge_slices) None 7 393 st).1 =
    [mkBoardEntry 100 5000 profile0 10; mkBoardEntry 200 4000 profile0 20].
Proof.
  intros st. assert (boardOnce st = true) as H by reflexivity. split; [exact H|]. split.
  - apply (boardFor_spec (MO := canonical_order) (SS := merge_slices) None 7 393 st H).
  - vm_compute. reflexivity.
Defined.

Lemma boards_survive_witness :
  boards_ok (boards two_categories) ∧
  default ∅ (foldl restore_board ∅ (concat (board_rows (MO := canonical_order) <$> range (MapOrder := canonical_order) (boards two_categories))) !! (7, 394)) !! 200 =
    Some (mkBoardEntry 200 6000 profile0 0).
Proof.
  assert (boards_ok (boards two_categories)) as H by (apply (bool_decide_unpack _); vm_compute; done).
  split; [exact H|].
  exact (eq_trans (boards_survive canonical_order (boards two_categories) H (7, 394) 200) ltac:(vm_compute; reflexivity)).
Defined.
