(* ===== verification/Dashboard.v ===== *)
(** * What the dashboard is shown (src/dashboard_data.go)

    Copies of the live gatherings and connections.  The store holds no nil gathering and the
    registry no nil connection, so that the two guards against them never skip. *)

From S2P Require Export Matchmaking.

Record GatheringInfo := mkGatheringInfo {
  gi_ID : Z;
  gi_OwnerPID : Z;
  gi_HostPID : Z;
  gi_Participants : list Z;
  gi_GameMode : Z;
  VR : Z;
  gi_Attribs : list Z;
  MaxPart : Z;
  gi_State : Z;
  gi_Code : bytes
}.

Record ConnInfo := mkConnInfo { ci_PID : Z; ci_ID : Z; ci_Addr : bytes }.

Section snapshots.
Context `{MO : MapOrder}.

Definition gathering_info (e : Z * gathering) : GatheringInfo :=
  let x := session e.2 in
  mkGatheringInfo e.1 (ms_OwnerPID x) (ms_HostPID x) (participants e.2) (GameMode x)
    (default 0 (Attribs x !! 1%nat)) (Attribs x) (ms_MaxParticipants x) (g_State (ms_Gathering x)) (code e.2).

Definition Snapshot (m : MM) : list GatheringInfo := gathering_info <$> range (gatherings m).

Definition SnapshotConnections {App} (n : NetOf App) : list ConnInfo :=
  (λ e, let c := conn e.2 n in mkConnInfo (PID c) (ID c) (RemoteAddr c)) <$> range (connections n).

(** Every live gathering is shown, once, as it is. *)
Lemma Snapshot_spec m :
  NoDup (gi_ID <$> Snapshot m) ∧
  ∀ i, i ∈ Snapshot m ↔ ∃ g, gatherings m !! gi_ID i = Some g ∧ i = gathering_info (gi_ID i, g).
Proof.
  unfold Snapshot. split.
  - rewrite <- list_fmap_compose. change (gi_ID ∘ gathering_info) with (fst : Z * gathering → Z). apply NoDup_fst_range.
  - intros i. rewrite list_elem_of_fmap. split.
    + intros ([gid g] & -> & H%elem_of_range). by exists g.
    + intros (g & Hg & ->). exists (gi_ID i, g). split; [done|]. by apply elem_of_range.
Qed.

(** As many connections as the registry holds. *)
Lemma SnapshotConnections_length {App} (n : NetOf App) : length (SnapshotConnections n) = size (connections n).
Proof. unfold SnapshotConnections. by rewrite length_fmap, length_range. Qed.
End snapshots.
