(* ===== verification/MatchHandlers.v ===== *)
(** * The matchmaking handlers (src/matchmaking_handlers.go and its companions)

    One definition per handler, over any process state that has a matchmaking store in it. *)

From S2P Require Export Matchmaking.

Section handlers.
Context {App : Type} `{HM : !Substate MM App} `{MO : MapOrder}.
#[local] Abbreviation Net := (NetOf App).
Implicit Types (n : Net) (r : Ref) (req : RMCMessage).
Context (cfg : Config).

(** [randomBytes(32)], and the callbacks of the title. *)
Context (rnd32 : Net → bytes).
Context (OnSessionReady : option (Z → list Z → Net → Net)).
Context (OnFriendSessionCreated : option (Z → Z → Net → Net)).

Definition mm (n : Net) : MM := get (app_state n).
Definition set_mm (m : MM) (n : Net) : Net := set_app (put m (app_state n)) n.
Definition upd_mm (f : MM → MM) (n : Net) : Net := set_mm (f (mm n)) n.

(** ** Responses *)
Definition boolResponse (n : Net) (proto : Z) (req : RMCMessage) (v : bool) : RMCMessage :=
  reply n proto req (wBool v).
Definition emptyList (n : Net) (proto : Z) (req : RMCMessage) : RMCMessage := reply n proto req (wU32 0).

(** ** Notifications *)
Definition SendNotification (target : Ref) (ev : NotificationEvent) (n : Net) : Net :=
  let s := settings n in
  let b := Bytes_ (WriteStructure (H := NotificationEvent_Levels (notifStrVideZero cfg)) ev (NewStreamOut s)) in
  let counter := u32 (notifCallCounter (mm n) + 1) in
  let n := upd_mm (set_notifCallCounter counter) n in
  SendRMC target (NewRMCRequest s ProtocolNotifications MethodProcessNotificationEvent
                    (u32 (0xFFFE0000 + counter)) b) n.

(** To the newest connection of a PID, if there is one. *)
Definition notify_pid (p : Z) (ev : NotificationEvent) (n : Net) : Net :=
  match FindConnectionByPID p n with
  | None => n
  | Some target => SendNotification target ev n
  end.

Definition notify_all (ps : list Z) (ev : NotificationEvent) (n : Net) : Net :=
  foldl (λ n p, notify_pid p ev n) n ps.

Definition notifyParticipation (caller : Ref) (ps : list Z) (gid : Z) (joinMessage : bytes) (n : Net) : Net :=
  let p := PID (conn caller n) in
  let event who := mkEvent p NotificationParticipate gid who joinMessage (Z.of_nat (length ps)) in
  let n := notify_all ps (event p) n in
  let n := foldl (λ n q, if q =? p then n else SendNotification caller (event q) n) n ps in
  match OnSessionReady with Some f => f gid ps n | None => n end.

(** [notifyParticipationAfter]: at once, or when the timer fires. *)
Definition notifyParticipationAfter (caller : Ref) (ps : list Z) (gid delay : Z) (n : Net) : Net :=
  if delay <=? 0 then notifyParticipation caller ps gid [] n
  else upd_mm (λ m, set_timers (timers m ++ [mkTimer caller ps gid (clock n + delay)]) m) n.

Definition notifyParticipationWithDelay (caller : Ref) (ps : list Z) (gid : Z) (n : Net) : Net :=
  notifyParticipationAfter caller ps gid (ParticipationNotificationDelay cfg) n.

(** The [i]-th timer fires: whoever left meanwhile is not announced, and nobody is when
    the caller left or came back on another connection. *)
Definition fire_timer (i : nat) (n : Net) : Net :=
  match timers (mm n) !! i with
  | None => n
  | Some t =>
      let n := upd_mm (λ m, set_timers (delete i (timers m)) m) n in
      let p := PID (conn (tm_caller t) n) in
      match gatherings (mm n) !! tm_gid t with
      | None => n
      | Some g =>
          if negb (containsPID (participants g) p) ||
             negb (bool_decide (FindConnectionByPID p n = Some (tm_caller t)))
          then n
          else notifyParticipation (tm_caller t)
                 (filter (λ q, q ∈ participants g) (tm_parts t)) (tm_gid t) [] n
      end
  end.

(** ** NAT classes of the members *)
Definition conn_class (r : Ref) (n : Net) : natClass :=
  let '(nm, nf) := NATBehaviour (conn r n) in classifyNAT nm nf.
Definition pidNATClass (p : Z) (n : Net) : natClass :=
  match FindConnectionByPID p n with
  | None => natUnknown
  | Some r => conn_class r n
  end.
Definition gatheringNATCompatible (joiner : natClass) (members : list Z) (joinerPID : Z) (n : Net) : bool :=
  forallb (λ p, (p =? joinerPID) || natCompatible joiner (pidNATClass p n)) members.

(** ** AutoMatchmake *)

(** The conditions of the loop on one candidate, those of the [if] first. *)
Definition lobby_open (src : MatchmakeSession) (g : gathering) : bool :=
  (GameMode (session g) =? GameMode src) && OpenParticipation (session g) &&
  motDePasseCompatible (session g) src &&
  (u16 (zlen (participants g)) <? ms_MaxParticipants (session g)).

Definition candidate (param : AutoMatchmakeParam) (cls : natClass) (p : Z) (n : Net) (g : gathering) : bool :=
  lobby_open (Session param) g &&
  (negb (UseSearchCriteria cfg) || criteriaAccept (Criteria param) (session g) (zlen (participants g))) &&
  gatheringNATCompatible cls (participants g) p n.

(** The loop: the first candidate whose owner is there, and the first whose owner is not. *)
Fixpoint find_lobby (param : AutoMatchmakeParam) (cls : natClass) (p : Z) (n : Net)
    (l : list (Z * gathering)) (repli : option Z) : option Z * option Z :=
  match l with
  | [] => (None, repli)
  | (gid, g) :: l =>
      if candidate param cls p n g then
        match FindConnectionByPID (ms_OwnerPID (session g)) n with
        | None => find_lobby param cls p n l (match repli with None => Some gid | _ => repli end)
        | Some _ => (Some gid, repli)
        end
      else find_lobby param cls p n l repli
  end.

Definition choose_lobby (param : AutoMatchmakeParam) (r : Ref) (n : Net) : option Z :=
  let p := PID (conn r n) in
  if isSoloPID cfg p then None
  else match find_lobby param (conn_class r n) p n (range (gatherings (mm n))) None with
       | (Some gid, _) => Some gid
       | (None, repli) => repli
       end.

(** [NumParticipants] follows the list. *)
Definition recount (g : gathering) : gathering :=
  set_session (set_NumParticipants (u32 (zlen (participants g))) (session g)) g.

Definition add_participant (p : Z) (g : gathering) : gathering :=
  if containsPID (participants g) p then g else set_participants (participants g ++ [p]) g.

Definition create_for (src : MatchmakeSession) (r : Ref) (n : Net) : Z * MM :=
  createGathering cfg (rnd32 n) (DateTime.NowDateTime (clock n)) (PID (conn r n)) (ID (conn r n)) src (mm n).

Definition autoMatchmake (r : Ref) (req : RMCMessage) (n : Net) : option RMCMessage * Net :=
  match read_err n req (rExtract zero_Auto) with
  | Some _ => (Some (fail n ProtocolMatchmakeExtension req ResultCoreInvalidArgument), n)
  | None =>
      let param := read_body n req (rExtract zero_Auto) in
      let p := PID (conn r n) in
      let '(gid, m) :=
        match choose_lobby param r n with
        | Some gid => (gid, upd_gathering gid (add_participant p) (mm n))
        | None =>
            let '(gid, m) := create_for (Session param) r n in
            (gid, if isSoloPID cfg p
                  then upd_gathering gid
                         (λ g, set_session (set_limits 1 (ms_MaxParticipants (session g)) (session g)) g) m
                  else m)
        end in
      let m := upd_gathering gid recount m in
      let n := set_mm m n in
      match gatherings m !! gid with
      | None => (None, n)
      | Some g =>
          let resp := reply n ProtocolMatchmakeExtension req (wAdd (session g)) in
          (Some resp, notifyParticipationWithDelay r (participants g) (ms_ID (session g)) n)
      end
  end.

(** ** CreateMatchmakeSession *)

(** [NormalizeCreateSessionRV] on the stored session. *)
Definition normalize_rv (g : gathering) : gathering :=
  let x := session g in
  match Params (Param x) !! str "@RV" with
  | Some rv =>
      if (v_Type rv =? VariantUint64) && (v_Uint rv <=? 2 ^ 63 - 1)
      then set_session (set_Param (mkParam (<[str "@RV" := mkVariant VariantInt64 (v_Uint rv) 0 false [] 0 0]>
                          (Params (Param x)))) x) g
      else g
  | None => g
  end.

Definition createSession (r : Ref) (req : RMCMessage) (n : Net) : option RMCMessage * Net :=
  match read_err n req (rExtract zero_Auto) with
  | Some _ => (Some (fail n ProtocolMatchmakeExtension req ResultCoreInvalidArgument), n)
  | None =>
      let param := read_body n req (rExtract zero_Auto) in
      let '(gid, m) := create_for (Session param) r n in
      let m := if NormalizeCreateSessionRV cfg then upd_gathering gid normalize_rv m else m in
      let n := set_mm m n in
      match gatherings m !! gid with
      | None => (None, n)
      | Some g =>
          let resp := reply n ProtocolMatchmakeExtension req (wAdd (session g)) in
          let n := match OnFriendSessionCreated with Some f => f (PID (conn r n)) gid n | None => n end in
          let delay := if 0 <? CreateSessionNotificationDelay cfg then CreateSessionNotificationDelay cfg
                       else ParticipationNotificationDelay cfg in
          (Some resp, notifyParticipationAfter r (participants g) gid delay n)
      end
  end.

(** ** JoinMatchmakeSession *)
Definition joinSession (r : Ref) (req : RMCMessage) (n : Net) : option RMCMessage * Net :=
  let gid := read_body n req (skip! rU8 in read! sub := rSubstream in rret ((rU32 sub).1)) in
  let p := PID (conn r n) in
  match gatherings (mm n) !! gid with
  | None => (Some (fail n ProtocolMatchmakeExtension req ResultRendezVousSessionVoid), n)
  | Some g =>
      let joined := negb (containsPID (participants g) p) in
      if joined && (0 <? ms_MaxParticipants (session g)) &&
         (ms_MaxParticipants (session g) <=? u16 (zlen (participants g)))
      then (Some (fail n ProtocolMatchmakeExtension req ResultRendezVousSessionFull), n)
      else
        let g' := recount (add_participant p g) in
        let n := upd_mm (upd_gathering gid (λ _, g')) n in
        let result :=
          if JoinRespExistingCount cfg && joined
          then set_NumParticipants (u32 (zlen (participants g))) (session g') else session g' in
        let resp := reply n ProtocolMatchmakeExtension req (wAdd result) in
        (Some resp, if joined then notifyParticipationWithDelay r (participants g') gid n else n)
  end.

(** ** Lookups *)

(** What a session looks like to who has no business with its key. *)
Definition scrub (x : MatchmakeSession) : MatchmakeSession := set_UserPassword [] (set_ms_SessionKey [] x).

Definition findByGatheringIDDetail (r : Ref) (req : RMCMessage) (n : Net) : option RMCMessage * Net :=
  match gatherings (mm n) !! read_body n req rU32 with
  | None => (Some (fail n ProtocolMatchmakeExtension req ResultRendezVousSessionVoid), n)
  | Some g => (Some (reply n ProtocolMatchmakeExtension req (wAdd (session g))), n)
  end.

Definition findBySingleID (r : Ref) (req : RMCMessage) (n : Net) : option RMCMessage * Net :=
  match gatherings (mm n) !! read_body n req rU32 with
  | None => (Some (fail n ProtocolMatchmakeExtension req ResultRendezVousSessionVoid), n)
  | Some g => (Some (reply n ProtocolMatchmakeExtension req (wAdd (scrub (session g)))), n)
  end.

Definition write_sessions (l : list MatchmakeSession) : Writer :=
  wU32 (u32 (zlen l)) ;;; wforeach wAdd l.

Definition findByGidList (r : Ref) (req : RMCMessage) (n : Net) : option RMCMessage * Net :=
  let gids := read_body n req (ReadList rU32) in
  let sessions := omap (λ gid, (λ g, scrub (session g)) <$> gatherings (mm n) !! gid) gids in
  (Some (reply n ProtocolMatchmakeExtension req (write_sessions sessions)), n).

(** The session a browse with code [wantCode] shows of a gathering, if any. *)
Definition browse_one (wantCode : bytes) (g : gathering) : option MatchmakeSession :=
  let x := session g in
  if negb (OpenParticipation x) then None
  else if bool_decide (wantCode = []) then
    if UserPasswordEnabled x then None else Some (scrub x)
  else if negb (bool_decide (Codeword x = wantCode)) && negb (bool_decide (code g = wantCode)) then None
  else Some (set_UserPassword [] x).

Definition browseNoHolder (r : Ref) (req : RMCMessage) (n : Net) : option RMCMessage * Net :=
  let wantCode :=
    if bool_decide (Body req = []) then []
    else match read_err n req (rExtract zero_Criteria) with
         | Some _ => []
         | None => c_Codeword (read_body n req (rExtract zero_Criteria))
         end in
  let sessions := omap (λ e : Z * gathering, browse_one wantCode e.2) (range (gatherings (mm n))) in
  (Some (reply n ProtocolMatchmakeExtension req (write_sessions sessions)), n).

Definition findBySingleID15 (r : Ref) (req : RMCMessage) (n : Net) : option RMCMessage * Net :=
  match gatherings (mm n) !! read_body n req rU32 with
  | None => (Some (reply n ProtocolMatchMaking req (wBool false)), n)
  | Some g => (Some (reply n ProtocolMatchMaking req (wBool true ;;; wAdd (session g))), n)
  end.

Definition playing_of (pid_ : Z) (n : Net) : option SimplePlayingSession :=
  match find (λ e : Z * gathering, containsPID (participants e.2) pid_) (range (gatherings (mm n))) with
  | Some (gid, g) =>
      Some (mkPlaying pid_ gid (GameMode (session g)) (nth 0 (Attribs (session g)) 0))
  | None => None
  end.

Definition playingSession (r : Ref) (req : RMCMessage) (n : Net) : option RMCMessage * Net :=
  let '(pids, includeSelf) :=
    read_body n req (read! l := ReadList rPID in read! b := rBool in rret (l, b)) in
  let sessions := omap (λ p, if (p =? PID (conn r n)) && negb includeSelf then None else playing_of p n) pids in
  (Some (reply n ProtocolMatchmakeExtension req (WriteList sessions wAdd)), n).

Definition getDetailedParticipants (r : Ref) (req : RMCMessage) (n : Net) : option RMCMessage * Net :=
  let ps := match gatherings (mm n) !! read_body n req rU32 with Some g => participants g | None => [] end in
  (Some (reply n ProtocolMatchMaking req
           (wU32 (u32 (zlen ps)) ;;; wforeach (λ p, wAdd (mkDetails p [] [] 1)) ps)), n).

(** The answer of [findByParticipant] for the [i]-th PID asked, under the PID it resolves to. *)
Definition find_result (options asked resolved : Z) (n : Net) : option FindMatchmakeSessionByParticipantResult :=
  match sessionOfParticipant resolved (mm n) with
  | None => None
  | Some g =>
      let x := set_UserPassword [] (sessionTrouvee cfg (session g) options) in
      if FindByParticipantEchoRequestedID cfg && negb (asked =? resolved) then
        Some (mkFindResult asked
          (set_identity (ms_ID x)
             (if ms_OwnerPID x =? resolved then asked else ms_OwnerPID x)
             (if ms_HostPID x =? resolved then asked else ms_HostPID x) x))
      else Some (mkFindResult resolved x)
  end.

(** The answer for an empty list of PIDs, where the title reads it as "any". *)
Definition find_any (options p : Z) (e : Z * gathering) : option FindMatchmakeSessionByParticipantResult :=
  match participants e.2 with
  | [] => None
  | host :: _ =>
      if containsPID (participants e.2) p then None
      else Some (mkFindResult host (set_UserPassword [] (sessionTrouvee cfg (session e.2) options)))
  end.

Definition findByParticipant (r : Ref) (req : RMCMessage) (n : Net) : option RMCMessage * Net :=
  let param := read_body n req (rExtract (mkFindParam [] 0 (mkBlockList 0))) in
  let ids := PrincipalIDs param in
  let resolver := match FindByParticipantIDResolver cfg with Some f => f | None => λ p, p end in
  let results :=
    if bool_decide (ids = []) && FindByParticipantVideVeutDireToutes cfg
    then omap (find_any (Options param) (PID (conn r n))) (range (gatherings (mm n)))
    else omap (λ p, find_result (Options param) p (resolver p) n) ids in
  (Some (reply n ProtocolMatchmakeExtension req (wU32 (u32 (zlen results)) ;;; wforeach wAdd results)), n).

(** ** Codes *)
Definition privateRoomCreate (r : Ref) (req : RMCMessage) (n : Net) : option RMCMessage * Net :=
  let '(c, m) := makeCode (read_body n req rU32) (mm n) in
  let n := set_mm m n in
  let b := Bytes_ ((wString c ;;; wU64 0) (NewStreamOut (settings n))) in
  (Some (reply n ProtocolMatchmakeExtension req (wU8 0 ;;; wBuffer b)), n).

Definition resolveCode (r : Ref) (req : RMCMessage) (n : Net) : option RMCMessage * Net :=
  let c := read_body n req rString in
  let c :=
    if negb (length c =? 5)%nat && (5 <? length (Body req))%nat
    then (rString (NewStreamIn (drop 5 (Body req)) (settings n))).1 else c in
  (Some (reply n ProtocolMatchmakeExtension req (wU32 (default 0 (byCode (mm n) !! c)))), n).

(** ** Updates *)
Definition unregister (r : Ref) (req : RMCMessage) (n : Net) : Net :=
  let gid := read_body n req rU32 in
  match gatherings (mm n) !! gid with
  | Some g =>
      if ms_OwnerPID (session g) =? PID (conn r n)
      then upd_mm (λ m, set_gatherings (delete gid (gatherings m)) m) n else n
  | None => n
  end.

(** Closing keeps the caller and who still has a connection. *)
Definition prune (p : Z) (n : Net) (g : gathering) : gathering :=
  let alive := filter (λ q, q = p ∨ is_Some (FindConnectionByPID q n)) (participants g) in
  if bool_decide (alive = participants g) then g else recount (set_participants alive g).

Definition setParticipation (r : Ref) (req : RMCMessage) (open : bool) (n : Net) : option RMCMessage * Net :=
  let gid := read_body n req rU32 in
  let change g :=
    let g := set_session (set_OpenParticipation open (session g)) g in
    if open then g else prune (PID (conn r n)) n g in
  let n' := upd_mm (upd_gathering gid change) n in
  (Some (ack n' ProtocolMatchmakeExtension req), n').

Definition updateSessionPart (r : Ref) (req : RMCMessage) (n : Net) : option RMCMessage * Net :=
  let n' :=
    if SessionPartPersists cfg then
      match read_err n req (rExtract zero_Update) with
      | None => upd_mm (λ m, (applySessionPart (read_body n req (rExtract zero_Update)) m).2) n
      | Some _ => n
      end
    else n in
  (Some (ack n' ProtocolMatchmakeExtension req), n').

(** The first participant, whom the owner-only updates ask for. *)
Definition first_is (p : Z) (g : gathering) : bool :=
  match participants g with q :: _ => q =? p | [] => false end.

(** An empty participant list has owner 0. *)
Definition updateApplicationBuffer (r : Ref) (req : RMCMessage) (n : Net) : option RMCMessage * Net :=
  let '(gid, buf) := read_body n req (read! g := rU32 in read! b := rBuffer in rret (g, b)) in
  let p := PID (conn r n) in
  match gatherings (mm n) !! gid with
  | None => (Some (fail n ProtocolMatchmakeExtension req ResultRendezVousSessionVoid), n)
  | Some g =>
      let owner := match participants g with q :: _ => q | [] => 0 end in
      if owner =? p then
        let n := upd_mm (upd_gathering gid (λ g, set_session (set_ApplicationData buf (session g)) g)) n in
        (Some (ack n ProtocolMatchmakeExtension req), n)
      else (Some (fail n ProtocolMatchmakeExtension req ResultCoreAccessDenied), n)
  end.

(** [None]: the loop never ends.  Otherwise it has room after at most [attribIndex + 1]
    turns. *)
Definition modifyCurrentGameAttribute (r : Ref) (req : RMCMessage) (n : Net)
    : option (option RMCMessage * Net) :=
  let '(gid, idx, v) := read_body n req (read! g := rU32 in read! i := rU32 in read! v := rU32 in rret (g, i, v)) in
  match gatherings (mm n) !! gid with
  | Some g =>
      if first_is (PID (conn r n)) g then
        match grow_attribs (S (Z.to_nat idx)) idx (Attribs (session g)) with
        | None => None
        | Some l =>
            let x := set_Attribs (<[Z.to_nat idx := v]> l) (session g) in
            let n := upd_mm (upd_gathering gid (set_session x)) n in
            Some (Some (ack n ProtocolMatchmakeExtension req), n)
        end
      else Some (Some (ack n ProtocolMatchmakeExtension req), n)
  | None => Some (Some (ack n ProtocolMatchmakeExtension req), n)
  end.

Definition updateMatchmakeSessionAttribute (r : Ref) (req : RMCMessage) (n : Net) : option RMCMessage * Net :=
  let rd := read! g := rU32 in read! l := ReadList rU32 in rret (g, l) in
  let '(gid, attribs) := read_body n req rd in
  let n' :=
    match gatherings (mm n) !! gid, read_err n req rd with
    | Some g, None =>
        if first_is (PID (conn r n)) g
        then upd_mm (upd_gathering gid (λ g, set_session (set_Attribs attribs (session g)) g)) n else n
    | _, _ => n
    end in
  (Some (ack n' ProtocolMatchmakeExtension req), n').

(** ** Ownership *)

(** The first candidate that takes part comes to the front, the front takes its place. *)
Fixpoint migrate_to (candidates ps : list Z) : list Z :=
  match candidates with
  | [] => ps
  | c :: candidates =>
      match list_find (λ q, q = c) ps, ps with
      | Some (i, _), first :: _ => <[0%nat := c]> (<[i := first]> ps)
      | _, _ => migrate_to candidates ps
      end
  end.

Definition migrateGatheringOwnership (r : Ref) (req : RMCMessage) (hasParticipantsOnly : bool) (n : Net)
    : option RMCMessage * Net :=
  let '(gid, candidates) :=
    read_body n req (read! g := rU32 in read! l := ReadList rPID in
                     if hasParticipantsOnly then skip! rBool in rret (g, l) else rret (g, l)) in
  let n' :=
    match gatherings (mm n) !! gid with
    | Some g =>
        if bool_decide (participants g = []) then n
        else
          let g' := set_participants (migrate_to candidates (participants g)) g in
          notifyParticipation r (participants g') gid [] (upd_mm (upd_gathering gid (λ _, g')) n)
    | None => n
    end in
  (Some (ack n' ProtocolMatchMaking req), n').

Definition updateGatheringOwnership (r : Ref) (req : RMCMessage) (n : Net) : option RMCMessage * Net :=
  (Some (boolResponse n ProtocolMatchMaking req true), n).

Definition endParticipation (r : Ref) (req : RMCMessage) (n : Net) : Net :=
  let gid := read_body n req rU32 in
  match gatherings (mm n) !! gid with
  | Some g =>
      let ps := removePID (participants g) (PID (conn r n)) in
      if bool_decide (ps = []) then upd_mm (λ m, set_gatherings (delete gid (gatherings m)) m) n
      else upd_mm (upd_gathering gid (λ g, recount (set_participants ps g))) n
  | None => n
  end.

(** ** Departures *)
Record departure := mkDeparture { d_gid : Z; d_ancien : Z; d_nouveau : Z; d_participants : list Z }.

(** What [RemovePlayer] collects under the lock: migrations, orphans, notices to owners. *)
Record leaving := mkLeaving {
  lv_mm : MM;
  lv_migrer : list departure;
  lv_orphans : list departure;
  lv_prevenir : list (Ref * Z)
}.

Definition drop_gathering (gid : Z) (c : bytes) (m : MM) : MM :=
  let m := set_gatherings (delete gid (gatherings m)) m in
  if bool_decide (c = []) then m else set_byCode (delete c (byCode m)) m.

(** One gathering of the loop. *)
Definition leave_one (p : Z) (n : Net) (st : leaving) (e : Z * gathering) : leaving :=
  let '(gid, g) := e in
  let '(mkLeaving m mig orph prev) := st in
  let ps := removePID (participants g) p in
  if (length ps =? length (participants g))%nat then st
  else match ps with
  | [] => mkLeaving (drop_gathering gid (code g) m) mig orph prev
  | nouveau :: _ =>
      let x := session g in
      let owner_left := ms_OwnerPID x =? p in
      if owner_left && (negb (NotifierDeparts cfg) || (Z.land (ms_Flags x) 0x10 =? 0)) then
        mkLeaving (drop_gathering gid (code g) m) mig
          (if OwnerLeaveUnregisters cfg then orph ++ [mkDeparture gid p 0 ps] else orph) prev
      else
        let x := if owner_left then set_identity (ms_ID x) nouveau nouveau x else x in
        let mig := if owner_left then mig ++ [mkDeparture gid p nouveau ps] else mig in
        let g := recount (mkG x ps (hostConnID g) (code g)) in
        let m := set_gatherings (<[gid := g]> (gatherings m)) m in
        let prev :=
          if NotifierDeparts cfg && cfg_has_Endpoint cfg then
            match FindConnectionByPID (ms_OwnerPID x) n with
            | Some c => prev ++ [(c, gid)]
            | None => prev
            end
          else prev in
        mkLeaving m mig orph prev
  end.

Definition RemovePlayer (p : Z) (n : Net) : Net :=
  if p =? 0 then n
  else
    let n := upd_mm (notif_forget p) n in
    let st := foldl (leave_one p n) (mkLeaving (mm n) [] [] []) (range (gatherings (mm n))) in
    let n := set_mm (lv_mm st) n in
    let n :=
      if cfg_has_Endpoint cfg then
        let n := foldl (λ n d, notify_all (d_participants d)
                   (mkEvent (d_ancien d) NotificationOwnershipChanged (d_gid d) (d_nouveau d) [] 0) n)
                   n (lv_migrer st) in
        foldl (λ n d, notify_all (d_participants d)
                   (mkEvent (d_ancien d) NotificationGatheringUnregistered (d_gid d) 0 [] 0) n)
                   n (lv_orphans st)
      else n in
    foldl (λ n a, SendNotification a.1
             (mkEvent p NotificationParticipantDisconnected a.2 p [] 0) n) n (lv_prevenir st).

(** [MigrerHebergementDepuis] (matchmaking_hebergement.go), one gathering at a time. *)
Definition rehost_one (p : Z) (n : Net) (acc : MM * list departure) (e : Z * gathering)
    : MM * list departure :=
  let '(gid, g) := e in
  let '(m, faits) := acc in
  let x := session g in
  if negb (ms_HostPID x =? p) && negb (ms_OwnerPID x =? p) then acc
  else
    match list_find (λ q, q ≠ p ∧ is_Some (FindConnectionByPID q n)) (participants g) with
    | None => acc
    | Some (_, q) =>
        match FindConnectionByPID q n with
        | None => acc
        | Some c =>
            let h := PID (conn c n) in
            let ps := h :: filter (λ y, y ≠ h) (participants g) in
            let g := mkG (set_identity (ms_ID x) h h x) ps (ID (conn c n)) (code g) in
            (set_gatherings (<[gid := g]> (gatherings m)) m, faits ++ [mkDeparture gid p h ps])
        end
    end.

Definition MigrerHebergementDepuis (p : Z) (n : Net) : Z * Net :=
  if (p =? 0) || negb (cfg_has_Endpoint cfg) then (0, n)
  else
    let '(m, faits) := foldl (rehost_one p n) (mm n, []) (range (gatherings (mm n))) in
    let n := set_mm m n in
    (zlen faits,
     foldl (λ n d, notify_all
              (match gatherings (mm n) !! d_gid d with Some g => participants g | None => [] end)
              (mkEvent (d_ancien d) NotificationOwnershipChanged (d_gid d) (d_nouveau d) [] 0) n) n faits).

(** ** Notification data of friends *)
Definition pushed (ev : NotificationEvent) : NotificationEvent :=
  mkEvent (PIDSource ev) (u32 (n_Type ev * 1000)) (Param1 ev) (Param2 ev) (StrParam ev) 0.

Definition pushNotifDataToFriends (r : Ref) (ev : NotificationEvent) (n : Net) : Net :=
  match FriendPIDs cfg with
  | None => n
  | Some friends => notify_all (friends (PID (conn r n))) (pushed ev) n
  end.

Definition updateNotificationData (r : Ref) (req : RMCMessage) (n : Net) : option RMCMessage * Net :=
  let rd := read! t := rU32 in read! a := rPID in read! b := rPID in read! c := rString in rret (t, a, b, c) in
  match read_err n req rd with
  | Some _ => (Some (fail n ProtocolMatchmakeExtension req ResultCoreInvalidArgument), n)
  | None =>
      let '(t, a, b, c) := read_body n req rd in
      let ev := mkEvent (PID (conn r n)) t a b c 0 in
      let n := upd_mm (notif_put (PID (conn r n)) t ev) n in
      let n := pushNotifDataToFriends r ev n in
      (Some (ack n ProtocolMatchmakeExtension req), n)
  end.

Definition getFriendNotificationData (r : Ref) (req : RMCMessage) (list_ : bool) (n : Net)
    : option RMCMessage * Net :=
  let rd : Reader (list Z) := if list_ then ReadList rU32 else read! t := rS32 in rret [u32 t] in
  match read_err n req rd with
  | Some _ => (Some (fail n ProtocolMatchmakeExtension req ResultCoreInvalidArgument), n)
  | None =>
      let events := friendNotificationsFor cfg (PID (conn r n)) (read_body n req rd) (mm n) in
      let resp := reply n ProtocolMatchmakeExtension req
        (wU32 (u32 (zlen events)) ;;;
         wforeach (WriteStructure (H := NotificationEvent_Levels (notifStrVideZero cfg))) events) in
      (Some resp, foldl (λ n ev, SendNotification r (pushed ev) n) n events)
  end.
End handlers.
