(* ===== verification/DataStore.v ===== *)
(** * The data store of Super Mario Maker 2 (src/datastore_smm2.go,
    src/datastore_smm2_persist.go)

    The players' profiles: registration, synchronisation, lookup by the identifiers the game
    uses, and the file that keeps them.  What the game server plugs in (translation of
    identifiers, countries, counters) are functions of a record. *)

From S2P Require Export Handlers TicketGranting.

Definition ProtocolDataStoreSMM2 : Z := 0x73.
Definition MethodDataStoreRegisterUser : Z := 47.
Definition MethodDataStoreGetUsers : Z := 48.
Definition MethodDataStoreSyncUserProfile : Z := 49.
Definition MethodDataStoreSearchCoursesPostedBy : Z := 74.
Definition MethodDataStoreGetEventCourseStatus : Z := 154.
Definition MethodDataStoreCanPostCourse : Z := 60.
Definition MethodDataStoreGetMiiClothes : Z := 63.
Definition ResultDataStoreNotFound : Z := 0x00690004.
Definition smm2QuotaPublication : Z := 32.
Definition smm2MaxPublications : Z := 32.

(** ** Strings in a JSON file

    [json.Marshal] writes each byte that is not part of a valid UTF-8 rune as U+FFFD. *)
Fixpoint json_text_loop (fuel : nat) (s : bytes) : bytes :=
  match fuel, s with
  | S fuel, c :: r =>
      match rune_len s with
      | Some k => take k s ++ json_text_loop fuel (drop k s)
      | None => [xef; xbf; xbd] ++ json_text_loop fuel r
      end
  | _, _ => []
  end.
(** A string written to JSON and read back; each turn takes a byte at least. *)
Definition json_text (s : bytes) : bytes := json_text_loop (length s) s.

(** Valid UTF-8: nothing is replaced. *)
Definition utf8 (s : bytes) : Prop := json_text s = s.
#[export] Instance utf8_dec s : Decision (utf8 s).
Proof. unfold utf8. apply _. Defined.

(** ** Profiles *)
Record SMM2Profil := mkProfil {
  pr_PID : Z;
  Nom : bytes;
  pr_Mii : bytes;
  Langue : Z;
  Pays : bytes;
  Appareil : bytes;
  Unk : list Z
}.
Definition zero_profil : SMM2Profil := mkProfil 0 [] [] 0 [] [] (replicate 4 0).

Record SMM2StatsJoueur := mkStatsJoueur {
  Parties : Z;
  Reussites : Z;
  Tentatives : Z;
  PremieresReussites : Z;
  Records : Z
}.

(** What the game server plugs in. *)
Record SMM2Callbacks := mkCallbacks {
  SMM2PIDJoueurFn : option (Z → Z);
  SMM2PaysFn : option (Z → bytes → bytes);
  SMM2StatsMultijoueurFn : option (Z → gmap Z Z);
  SMM2RecordsEndlessFn : option (Z → Z * Z * Z * Z);
  SMM2SuperMondeIDFn : option (Z → bytes);
  SMM2CompteurPublies : option (Z → Z);
  SMM2CompteurStats : option (Z → SMM2StatsJoueur);
  SMM2MasqueBooleensFn : option Z
}.

(** [smm2Profils], and the profiles the file holds ([None] when there is no file or it cannot
    be read). *)
Record SMM2State := mkSMM2 {
  smm2Profils : gmap Z SMM2Profil;
  smm2ProfilsFichier : option (list SMM2Profil)
}.
Definition smm2_0 : SMM2State := mkSMM2 ∅ None.

Definition SMM2ProfilDe (p : Z) (st : SMM2State) : option SMM2Profil := smm2Profils st !! p.
Definition SMM2PseudoDe (p : Z) (st : SMM2State) : bytes := match SMM2ProfilDe p st with Some pr => Nom pr | None => [] end.
Definition SMM2MiiDe (p : Z) (st : SMM2State) : bytes := match SMM2ProfilDe p st with Some pr => pr_Mii pr | None => [] end.

(** *** The file *)

(** A profile as the file gives it back. *)
Definition json_profil (p : SMM2Profil) : SMM2Profil :=
  mkProfil (pr_PID p) (json_text (Nom p)) (pr_Mii p) (Langue p) (json_text (Pays p)) (json_text (Appareil p)) (Unk p).

Definition charger_un (m : gmap Z SMM2Profil) (p : SMM2Profil) : gmap Z SMM2Profil :=
  if pr_PID p =? 0 then m else <[pr_PID p := p]> m.

(** [SMM2ChargerProfils]; [persiste]: [SMM2_PROFILES_FILE] is set.  The keys of the JSON object
    are distinct. *)
Definition SMM2ChargerProfils (persiste : bool) (st : SMM2State) : SMM2State :=
  match smm2ProfilsFichier st with
  | Some l => if persiste then mkSMM2 (foldl charger_un (smm2Profils st) l) (smm2ProfilsFichier st) else st
  | None => st
  end.

Section save.
Context `{MO : MapOrder}.

Definition smm2SauverProfils (persiste written : bool) (st : SMM2State) : SMM2State :=
  if persiste && written
  then
    let m : gmap bytes SMM2Profil := foldl (λ m e, <[FormatUint (pr_PID e.2) := e.2]> m) ∅ (range (smm2Profils st)) in
    mkSMM2 (smm2Profils st) (Some (json_profil <$> (range m).*2))
  else st.
End save.

(** ** What the game server says *)
Section callbacks.
Context (cb : SMM2Callbacks).

Definition SMM2Pays (p : Z) (declare : bytes) : bytes :=
  match SMM2PaysFn cb with
  | None => declare
  | Some f => let c := f p declare in if bool_decide (c = []) then declare else c
  end.
Definition SMM2PIDJoueur (id : Z) : Z := match SMM2PIDJoueurFn cb with None => id | Some f => f id end.
Definition SMM2StatsMultijoueur (p : Z) : gmap Z Z := match SMM2StatsMultijoueurFn cb with None => ∅ | Some f => f p end.
Definition SMM2RecordsEndless (p : Z) : Z * Z * Z * Z := match SMM2RecordsEndlessFn cb with None => (0, 0, 0, 0) | Some f => f p end.
Definition SMM2SuperMondeID (p : Z) : bytes := match SMM2SuperMondeIDFn cb with None => [] | Some f => f p end.
Definition SMM2NombrePublies (p : Z) : Z := match SMM2CompteurPublies cb with None => 0 | Some f => f p end.
Definition SMM2StatsDe (p : Z) : SMM2StatsJoueur :=
  match SMM2CompteurStats cb with None => mkStatsJoueur 0 0 0 0 0 | Some f => f p end.
Definition SMM2MasqueBooleens : Z := default 0 (SMM2MasqueBooleensFn cb).

(** ** Writing a profile *)
Definition code_alphabet : bytes := str "0123456789BCDFGHJKLMNPQRSTVWXY".

Fixpoint code_digits (k : nat) (v : Z) : bytes :=
  match k with
  | O => []
  | S k => nth (Z.to_nat (v mod 30)) code_alphabet x00 :: code_digits k (v / 30)
  end.
Definition codeMakerDe (p : Z) : bytes := code_digits 9 p.

Definition dateTimeEpoqueNex : Z := DateTime.MakeDateTime 1970 1 1 0 0 0.

(** A structure written by hand: with headers its version and its length first. *)
Definition wStruct (version : Z) (w : Writer) : Writer := λ o,
  if StructHeader (so_settings o)
  then (wU8 version ;;; wBuffer (Bytes_ (w (NewStreamOut (so_settings o))))) o
  else Write (Bytes_ (w (NewStreamOut (so_settings o)))) o.

Definition wUnk (u : list Z) : Writer := wforeach wU16 u.

Section write.
Context `{MO : MapOrder}.

(** The table whose keys are the positions of the values. *)
Definition stats_map (vals : list Z) : gmap Z Z := list_to_map (imap (λ i v, (Z.of_nat i, v)) vals).
Definition wStats (vals : list Z) : Writer := WriteMap (stats_map vals) wU8 wU32.

(** The last fields of the structure. *)
Definition user_info_tail (p : SMM2Profil) : Writer :=
  wBool false ;;; wDateTime dateTimeEpoqueNex ;;; wBool false ;;;
  wStruct 0 (wBool false ;;; wDateTime dateTimeEpoqueNex) ;;;
  wStringVideZero (SMM2SuperMondeID (pr_PID p)) ;;; wStats [0] ;;; wBool true.

Definition ecrireUserInfo (p : SMM2Profil) : Writer :=
  let st := SMM2StatsDe (pr_PID p) in
  let '(r0, r1, r2, r3) := SMM2RecordsEndless (pr_PID p) in
  let flag k := negb (Z.land SMM2MasqueBooleens k =? 0) in
  wStruct 3
    (wPID (pr_PID p) ;;; wString (codeMakerDe (pr_PID p)) ;;; wString (Nom p) ;;; wStruct 0 (wUnk (Unk p)) ;;;
     wQBuffer (pr_Mii p) ;;; wString (SMM2Pays (pr_PID p) (Pays p)) ;;; wU8 0 ;;; wDateTime dateTimeEpoqueNex ;;;
     wBool (flag 1) ;;; wBool (flag 2) ;;; wBool (flag 4) ;;;
     wStats [Parties st; Reussites st; Tentatives st; 0] ;;; wStats [0; 0] ;;; wStats [r0; r1; r2; r3] ;;;
     WriteMap (SMM2StatsMultijoueur (pr_PID p)) wU8 wU32 ;;; wStats [0] ;;; wU32 0 ;;;
     wStats [PremieresReussites st; Records st] ;;; wStats [SMM2NombrePublies (pr_PID p); smm2MaxPublications] ;;;
     user_info_tail p).
End write.
End callbacks.

(** ** Reading a structure by hand

    With headers the fields are read from a stream of their own: the reader gives the value
    and the error of the stream the fields came from. *)
Definition rStruct {A} (rd : Reader A) : Reader (A * option error) :=
  read! s := rask in
  if StructHeader s then
    skip! rU8 in read! sub := rSubstream in
    let '(a, i) := rd sub in rret (a, si_err i)
  else λ i, let '(a, i') := rd i in ((a, si_err i'), i').

Definition rUnk : Reader (list Z) := rrepeat 4 rU16.

(** The fields of a registration, and the error of the nested structure. *)
Definition rRegister (p : Z) : Reader (SMM2Profil * option error) :=
  read! nom := rString in
  read! u := rStruct rUnk in
  read! mii := rQBuffer in read! l := rU8 in read! pays := rString in read! app := rString in
  rret (mkProfil p nom mii l pays app u.1, u.2).

(** Those of a synchronisation. *)
Definition rSync : Reader (bytes * (list Z * option error) * bytes) :=
  read! nom := rString in
  read! u := rStruct rUnk in
  read! mii := rQBuffer in
  rret (nom, u, mii).

Definition rAsked : Reader (list Z) := read! l := ReadList rPID in skip! rU32 in rret l.

(** ** The handlers *)
Section handlers.
Context {App : Type} `{HD : !Substate SMM2State App} `{MO : MapOrder}.
#[local] Abbreviation Net := (NetOf App).
Implicit Types (n : Net) (r : Ref) (req : RMCMessage).
Context (cb : SMM2Callbacks) (persiste : bool) (written : Net → bool).

Definition smm2 (n : Net) : SMM2State := comp n.
Definition store_profil (p : Z) (pr : SMM2Profil) (n : Net) : Net :=
  upd_comp (λ st, smm2SauverProfils persiste (written n) (mkSMM2 (<[p := pr]> (smm2Profils st)) (smm2ProfilsFichier st))) n.

Definition profilPourIdentifiant (demande : Z) (n : Net) : option SMM2Profil :=
  match SMM2ProfilDe demande (smm2 n) with
  | Some p => Some p
  | None => match PIDForLoginName (FormatUint demande) (auth n) with
            | Some p => SMM2ProfilDe p (smm2 n)
            | None => None
            end
  end.

(** The players asked for: translated, at most 256, the caller when there is none. *)
Definition asked_pids (r : Ref) (req : RMCMessage) (n : Net) : list Z :=
  let l := take 256 (SMM2PIDJoueur cb <$> (read_body n req (rStruct rAsked)).1) in
  match l with [] => [PID (conn r n)] | _ => l end.

Definition handleDataStoreGetUsers (r : Ref) (req : RMCMessage) (n : Net) : RMCMessage :=
  let rep := (λ p, profilPourIdentifiant p n) <$> asked_pids r req n in
  let trouves := omap id rep in
  reply n ProtocolDataStoreSMM2 req
    (wU32 (u32 (zlen trouves)) ;;; wforeach (ecrireUserInfo cb) trouves ;;;
     wU32 (u32 (zlen rep)) ;;;
     wforeach (λ o, wResult (match o with Some _ => 0 | None => ResultDataStoreNotFound end)) rep).

Definition handleDataStoreRegisterUser (r : Ref) (req : RMCMessage) (n : Net) : option RMCMessage * Net :=
  let '((p, _), err) := read_body n req (rStruct (rRegister (PID (conn r n)))) in
  match err with
  | Some _ => (Some (fail n ProtocolDataStoreSMM2 req ResultCoreInvalidArgument), n)
  | None => (Some (ack n ProtocolDataStoreSMM2 req), store_profil (PID (conn r n)) p n)
  end.

Definition handleDataStoreSearchCoursesPostedBy (req : RMCMessage) (n : Net) : RMCMessage :=
  reply n ProtocolDataStoreSMM2 req (wU32 0 ;;; wBool false).
Definition handleDataStoreCanPostCourse (req : RMCMessage) (n : Net) : RMCMessage :=
  reply n ProtocolDataStoreSMM2 req (wBool true ;;; wU32 0).

(** The profile after a synchronisation; [None] when the request does not read. *)
Definition sync_profil (req : RMCMessage) (n : Net) (p : SMM2Profil) : option SMM2Profil :=
  if bool_decide (Body req = []) then None
  else
    let '((nom, (tenue, uerr), mii), err) := read_body n req (rStruct rSync) in
    match err, uerr with
    | None, None =>
        Some (mkProfil (pr_PID p) (if bool_decide (nom = []) then Nom p else nom)
                (if bool_decide (mii = []) then pr_Mii p else mii) (Langue p) (Pays p) (Appareil p) tenue)
    | _, _ => None
    end.

Definition handleDataStoreSyncUserProfile (r : Ref) (req : RMCMessage) (n : Net) : option RMCMessage * Net :=
  match SMM2ProfilDe (PID (conn r n)) (smm2 n) with
  | None => (Some (fail n ProtocolDataStoreSMM2 req ResultDataStoreNotFound), n)
  | Some p =>
      let '(p, n) :=
        match sync_profil req n p with
        | Some p => (p, store_profil (PID (conn r n)) p n)
        | None => (p, n)
        end in
      (Some (reply n ProtocolDataStoreSMM2 req
               (wStruct 0
                  (wU64 (Publique (settings n) (pr_PID p)) ;;; wString (Nom p) ;;; wStruct 0 (wUnk (Unk p)) ;;;
                   wQBuffer (pr_Mii p) ;;; wU8 (Langue p) ;;; wString (SMM2Pays cb (pr_PID p) (Pays p)) ;;; wU8 0 ;;;
                   wBool false ;;; wBool false))), n)
  end.

(** [DataStoreSMM2Handler]. *)
Definition DataStoreSMM2Handler (r : Ref) (req : RMCMessage) (n : Net) : option RMCMessage * Net :=
  let m := Method req in
  if m =? MethodDataStoreRegisterUser then handleDataStoreRegisterUser r req n
  else if m =? MethodDataStoreGetUsers then (Some (handleDataStoreGetUsers r req n), n)
  else if m =? MethodDataStoreSearchCoursesPostedBy then (Some (handleDataStoreSearchCoursesPostedBy req n), n)
  else if m =? MethodDataStoreSyncUserProfile then handleDataStoreSyncUserProfile r req n
  else if m =? MethodDataStoreCanPostCourse then (Some (handleDataStoreCanPostCourse req n), n)
  else if (m =? MethodDataStoreGetEventCourseStatus) || (m =? MethodDataStoreGetMiiClothes) then
    (Some (ack n ProtocolDataStoreSMM2 req), n)
  else (Some (notImplemented (settings n) ProtocolDataStoreSMM2 req), n).
End handlers.
