(* ===== verification/DataStoreProps.v ===== *)
(** * What the data store guarantees

    A maker code stands for one player; the profiles survive a restart; what a registration
    that does not read leaves behind. *)

From S2P Require Export DataStore.

(** ** Maker codes *)
Lemma lookup_nth {A} (l : list A) i d : (i < length l)%nat → l !! i = Some (nth i l d).
Proof. intros [x Hx]%lookup_lt_is_Some_2. by rewrite nth_lookup, Hx. Qed.

Lemma code_digit_inj a b : 0 ≤ a < 30 → 0 ≤ b < 30 → nth (Z.to_nat a) code_alphabet x00 = nth (Z.to_nat b) code_alphabet x00 → a = b.
Proof.
  intros Ha Hb E. assert (NoDup code_alphabet) as Hnd by (apply (bool_decide_unpack _); vm_compute; done).
  assert (Z.to_nat a < length code_alphabet)%nat by (change (length code_alphabet) with 30%nat; lia).
  assert (Z.to_nat b < length code_alphabet)%nat by (change (length code_alphabet) with 30%nat; lia).
  assert (Z.to_nat a = Z.to_nat b); [|lia].
  eapply NoDup_lookup; [exact Hnd|by apply (lookup_nth _ _ x00)|]. rewrite E. by apply lookup_nth.
Qed.

Lemma code_digits_eq k a b : 0 ≤ a → 0 ≤ b → code_digits k a = code_digits k b ↔ a mod 30 ^ Z.of_nat k = b mod 30 ^ Z.of_nat k.
Proof.
  revert a b. induction k as [|k IH]; intros a b Ha Hb; [simpl; by rewrite !Z.mod_1_r|].
  rewrite Nat2Z.inj_succ, Z.pow_succ_r by lia. cbn [code_digits].
  assert (0 < 30 ^ Z.of_nat k) as Hp by (apply Z.pow_pos_nonneg; lia).
  rewrite !(Z.rem_mul_r _ 30) by lia.
  pose proof (Z.mod_pos_bound a 30 ltac:(lia)). pose proof (Z.mod_pos_bound b 30 ltac:(lia)).
  specialize (IH (a / 30) (b / 30) ltac:(apply Z.div_pos; lia) ltac:(apply Z.div_pos; lia)). split.
  - intros [= E1 E2]. apply code_digit_inj in E1; [|done..]. rewrite IH in E2. congruence.
  - intros E. assert (a mod 30 = b mod 30 ∧ (a / 30) mod 30 ^ Z.of_nat k = (b / 30) mod 30 ^ Z.of_nat k) as [E1 E2].
    { pose proof (Z.mod_pos_bound (a / 30) _ Hp). pose proof (Z.mod_pos_bound (b / 30) _ Hp). nia. }
    rewrite E1. f_equal. by apply IH.
Qed.

(** Two players have the same maker code exactly when their PIDs are equal modulo 30 to
    the ninth, nineteen thousand billions: below that the code stands for one player. *)
Theorem codeMakerDe_stands_for p q :
  0 ≤ p → 0 ≤ q → codeMakerDe p = codeMakerDe q ↔ p mod 30 ^ 9 = q mod 30 ^ 9.
Proof. intros. by apply (code_digits_eq 9). Qed.
Lemma codeMakerDe_stands_for_witness : codeMakerDe 1800001206 = codeMakerDe (1800001206 + 30 ^ 9).
Proof. apply codeMakerDe_stands_for; [lia|lia|reflexivity]. Defined.

(** ** The file *)

(** A profile stored under its PID whose strings are valid UTF-8. *)
Definition profil_ok (k : Z) (p : SMM2Profil) : Prop :=
  pr_PID p = k ∧ 0 < k < 2 ^ 64 ∧ utf8 (Nom p) ∧ utf8 (Pays p) ∧ utf8 (Appareil p).

Lemma json_profil_ok k p : profil_ok k p → json_profil p = p.
Proof. intros (_ & _ & H1 & H2 & H3). destruct p. unfold json_profil, utf8 in *. simpl in *. congruence. Qed.

Lemma charger_list (l : list SMM2Profil) (m : gmap Z SMM2Profil) :
  NoDup (pr_PID <$> l) → Forall (λ p, pr_PID p ≠ 0) l →
  ∀ k, foldl charger_un m l !! k = match list_find (λ p, pr_PID p = k) l with Some (_, p) => Some p | None => m !! k end.
Proof.
  revert m. induction l as [|p l IH]; intros m Hnd Hz k; [done|]. simpl in Hnd. apply NoDup_cons in Hnd as [Hp Hnd].
  apply Forall_cons in Hz as [Hz0 Hz]. cbn [foldl list_find]. rewrite IH by done. unfold charger_un.
  rewrite (proj2 (Z.eqb_neq _ _)) by done. destruct (decide (pr_PID p = k)) as [<-|Hne].
  - destruct (list_find _ l) as [[i q]|] eqn:E; [|by rewrite lookup_insert_eq].
    exfalso. apply list_find_Some in E as (E & Eq & _). apply Hp. rewrite <- Eq.
    apply list_elem_of_fmap_2. by eapply list_elem_of_lookup_2.
  - rewrite lookup_insert_ne by done. by destruct (list_find _ l) as [[]|].
Qed.

Section restart.
Context `{MO : MapOrder}.
Implicit Types (m : gmap Z SMM2Profil).

Lemma saved_list (l : list (Z * SMM2Profil)) (t : bytes) p :
  NoDup l.*1 → Forall (λ e, profil_ok e.1 e.2) l →
  foldl (λ (m : gmap bytes SMM2Profil) e, <[FormatUint (pr_PID e.2) := e.2]> m) ∅ l !! t = Some p ↔
  (pr_PID p, p) ∈ l ∧ t = FormatUint (pr_PID p).
Proof.
  induction l as [|[k q] l IH] using rev_ind; intros Hnd Hok; [simpl; rewrite lookup_empty; set_solver|].
  rewrite foldl_app. simpl. rewrite fmap_app, NoDup_app in Hnd. destruct Hnd as (Hnd & Hdis & _).
  rewrite Forall_app, Forall_singleton in Hok. destruct Hok as [Hok (Hq & Hr & _)]. simpl in Hq, Hr. specialize (IH Hnd Hok).
  rewrite elem_of_app, list_elem_of_singleton. destruct (decide (t = FormatUint (pr_PID q))) as [->|Ht].
  - rewrite lookup_insert_eq. split.
    + intros [= <-]. split; [right; by rewrite Hq|done].
    + intros [[Hin|[= _ ->]] E]; [|done]. exfalso.
      rewrite Forall_forall in Hok. pose proof (Hok _ Hin) as (_ & Hp & _). simpl in Hp.
      apply FormatUint_inj in E; [|unfold is_u; lia..].
      apply (Hdis k); [|set_solver]. rewrite <- Hq, E. by apply (list_elem_of_fmap_2 fst l (pr_PID p, p)).
  - rewrite lookup_insert_ne by done. rewrite IH. split; [naive_solver|].
    intros [[Hin|[= _ ->]] E]; [done|congruence].
Qed.

Definition saved (m : gmap Z SMM2Profil) : gmap bytes SMM2Profil :=
  foldl (λ (t : gmap bytes SMM2Profil) e, <[FormatUint (pr_PID e.2) := e.2]> t) ∅ (range m).

Lemma saved_lookup m t p :
  map_Forall profil_ok m → saved m !! t = Some p ↔ m !! pr_PID p = Some p ∧ t = FormatUint (pr_PID p).
Proof.
  intros Hm. unfold saved. rewrite saved_list; [by rewrite elem_of_range|apply NoDup_fst_range|].
  apply Forall_forall. intros [k q] Hin%elem_of_range. by apply Hm.
Qed.

(** The profiles survive a restart: the file a registration writes gives the table back
    as it was, in whatever order the table and the file are visited, as long as the strings of
    the profiles are valid UTF-8 (JSON replaces the rest). *)
Theorem profiles_survive_restart m file :
  map_Forall profil_ok m →
  smm2Profils (SMM2ChargerProfils true (mkSMM2 ∅ (smm2ProfilsFichier (smm2SauverProfils true true (mkSMM2 m file))))) = m.
Proof.
  intros Hm. simpl. fold (saved m). unfold SMM2ChargerProfils. simpl. apply map_eq. intros k.
  assert (∀ p, p ∈ (range (saved m)).*2 ↔ m !! pr_PID p = Some p) as Hin.
  { intros p. rewrite list_elem_of_fmap. split.
    - intros ([t q] & -> & Hq%elem_of_range). by apply saved_lookup in Hq as [? _].
    - intros Hp. exists (FormatUint (pr_PID p), p). split; [done|]. apply elem_of_range. by apply saved_lookup. }
  assert (json_profil <$> (range (saved m)).*2 = (range (saved m)).*2) as ->.
  { rewrite <- (list_fmap_id (range (saved m)).*2) at 2. apply list_fmap_ext. intros i p Hp.
    apply (json_profil_ok (pr_PID p)), Hm, Hin. by eapply list_elem_of_lookup_2. }
  rewrite charger_list, lookup_empty.
  - destruct (list_find _ _) as [[i p]|] eqn:E.
    + apply list_find_Some in E as (E & <- & _). symmetry. apply Hin. by eapply list_elem_of_lookup_2.
    + destruct (m !! k) as [p|] eqn:Ek; [|done]. apply list_find_None in E. rewrite Forall_forall in E.
      pose proof (Hm k p Ek) as (Hk & _). exfalso. apply (E p); [|done]. apply Hin. by rewrite Hk.
  - pose proof (NoDup_fst_range (saved m)) as Hnd.
    assert ((range (saved m)).*1 = FormatUint <$> (pr_PID <$> (range (saved m)).*2)) as E.
    { rewrite <- !list_fmap_compose. apply list_fmap_ext. intros i [t p] Hp. simpl.
      apply list_elem_of_lookup_2, elem_of_range, saved_lookup in Hp as [_ ->]; done. }
    rewrite E in Hnd. by apply NoDup_fmap_1 in Hnd.
  - apply Forall_forall. intros p Hp%Hin. pose proof (Hm _ _ Hp) as (_ & ? & _). lia.
Qed.
End restart.
Lemma profiles_survive_restart_witness :
  let MO := canonical_order in
  let m := {[7 := mkProfil 7 (str "Ana") [x01; xff] 1 (str "FR") [] [0; 0; 0; 0]]} : gmap Z SMM2Profil in
  map_Forall profil_ok m ∧
  smm2Profils (SMM2ChargerProfils true (mkSMM2 ∅ (smm2ProfilsFichier (smm2SauverProfils true true (mkSMM2 m None))))) = m.
Proof.
  cbv zeta. set (m := {[7 := _]}).
  assert (map_Forall profil_ok m) as Hm.
  { intros k p. unfold m. rewrite lookup_singleton_Some. intros [<- <-].
    split; [reflexivity|]. split; [lia|]. repeat split; vm_compute; reflexivity. }
  split; [exact Hm|]. exact (@profiles_survive_restart canonical_order m None Hm).
Defined.

(** ** A registration that does not read *)
Definition smm2_net : NetOf SMM2State := NewEndpoint (NewSwitchSettings [] 40302) auth_start 0 smm2_0.

(** RegisterUser is documented to keep nothing when the reading fails, but it looks at
    the error of the outer structure only: a registration whose nested structure is cut short
    (here empty) is accepted and its profile stored, the missing numbers as zeros.  The
    synchronisation, on the same bytes, looks at both and keeps nothing. *)
Theorem half_read_profile_is_kept :
  let MO := canonical_order in
  let s := NewSwitchSettings [] 40302 in
  let body := Bytes_ (wStruct 0 (wString (str "Ana") ;;; wStruct 0 (λ o, o) ;;; wQBuffer [] ;;; wU8 1 ;;;
                                 wString (str "FR") ;;; wString []) (NewStreamOut s)) in
  let req := NewRMCRequest s ProtocolDataStoreSMM2 MethodDataStoreRegisterUser 1 body in
  let '(resp, n) := handleDataStoreRegisterUser false (λ _, true) 1%nat req smm2_net in
  resp = Some (ack smm2_net ProtocolDataStoreSMM2 req) ∧
  (SMM2ProfilDe 0 (smm2 n) = Some (mkProfil 0 (str "Ana") [] 1 (str "FR") [] [0; 0; 0; 0])) ∧
  sync_profil req smm2_net zero_profil = None.
Proof. vm_compute. done. Qed.
