(* ===== verification/Saves.v ===== *)
(** * Saving the profiles, in every interleaving (src/datastore_smm2_persist.go)

    Two connections may register at the same time: each stores its profile in the [sync.Map]
    and calls smm2SauverProfils, which takes smm2EcritureMu, walks the map entry by entry
    while other registrations go on, and replaces the file before it lets go of the lock.
    DataStore.v runs a save in one go; here its steps interleave. *)

From S2P Require Export DataStoreProps.

Section saves.
Context `{MO : MapOrder}.

(** ** The state of the savers

    The goroutines that have stored a profile and are still before the lock are alike: their
    number says it all.  The one that holds it is walking the map, with the keys that were
    there when it started and what it has copied, or about to replace the file. *)
Inductive holder :=
  | Free
  | Ranging (start : gset Z) (copy : gmap Z SMM2Profil)
  | Writing (copy : gmap Z SMM2Profil).

Record Savers := mkSavers { sv : SMM2State; waiting_savers : nat; lock : holder }.

(** The profiles stored are [profil_ok]; the handler stores any, but only such ones come back
    from the file as they were ([forgotten_profile] below).  [sync.Map.Range] visits a key once at most, each key that stays in the map during the walk
    once, and may see or miss the ones that come during it; the value is the one at the
    visit. *)
Inductive saver_step (s : Savers) : Savers → Prop :=
  | sv_store p pr : profil_ok p pr →
      saver_step s (mkSavers (mkSMM2 (<[p := pr]> (smm2Profils (sv s))) (smm2ProfilsFichier (sv s)))
                      (S (waiting_savers s)) (lock s))
  | sv_lock k : lock s = Free → waiting_savers s = S k →
      saver_step s (mkSavers (sv s) k (Ranging (dom (smm2Profils (sv s))) ∅))
  | sv_visit start copy k v : lock s = Ranging start copy → copy !! k = None → smm2Profils (sv s) !! k = Some v →
      saver_step s (mkSavers (sv s) (waiting_savers s) (Ranging start (<[k := v]> copy)))
  | sv_walked start copy : lock s = Ranging start copy → start ⊆ dom copy →
      saver_step s (mkSavers (sv s) (waiting_savers s) (Writing copy))
  | sv_write copy : lock s = Writing copy →
      saver_step s (mkSavers
        (mkSMM2 (smm2Profils (sv s))
           (smm2ProfilsFichier (smm2SauverProfils true true (mkSMM2 copy (smm2ProfilsFichier (sv s))))))
        (waiting_savers s) Free).

(** Nobody is saving. *)
Definition quiet_savers (s : Savers) : Prop := waiting_savers s = 0%nat ∧ lock s = Free.

(** The file a save of [m] writes. *)
Definition file_of (m : gmap Z SMM2Profil) : option (list SMM2Profil) :=
  smm2ProfilsFichier (smm2SauverProfils true true (mkSMM2 m None)).

Lemma file_of_save m f : smm2ProfilsFichier (smm2SauverProfils true true (mkSMM2 m f)) = file_of m.
Proof. done. Qed.

(** ** The invariant

    The copies are of entries the map has or had; and every entry of the map is on its way to
    the file: somebody is still before the lock, or the holder has it or will meet it, or the
    file has it. *)
Definition carried (s : Savers) (k : Z) (v : SMM2Profil) : Prop :=
  waiting_savers s ≠ 0%nat ∨
  match lock s with
  | Free => True
  | Ranging start copy => copy !! k = Some v ∨ k ∈ start ∧ copy !! k = None
  | Writing copy => copy !! k = Some v
  end.

Definition savers_ok (s : Savers) : Prop :=
  map_Forall profil_ok (smm2Profils (sv s)) ∧
  match lock s with
  | Free => waiting_savers s = 0%nat → smm2ProfilsFichier (sv s) = file_of (smm2Profils (sv s))
  | Ranging start copy =>
      start ⊆ dom (smm2Profils (sv s)) ∧ dom copy ⊆ dom (smm2Profils (sv s)) ∧
      ∀ k v, smm2Profils (sv s) !! k = Some v → carried s k v
  | Writing copy =>
      dom copy ⊆ dom (smm2Profils (sv s)) ∧ ∀ k v, smm2Profils (sv s) !! k = Some v → carried s k v
  end.

Lemma dom_insert_mono (A : gset Z) (m : gmap Z SMM2Profil) k v : A ⊆ dom m → A ⊆ dom (<[k := v]> m).
Proof. rewrite dom_insert. set_solver. Qed.

Lemma savers_ok_step s s' : saver_step s s' → savers_ok s → savers_ok s'.
Proof.
  destruct s as [[m f] w l]. unfold savers_ok, carried.
  intros [p pr Hpr|k Hl Hw|start copy k v Hl Hk Hv|start copy Hl Hs|copy Hl]; cbn in *; subst; intros [Hm H].
  - split; [by apply map_Forall_insert_2|]. destruct l; [done|..].
    + destruct H as (H1 & H2 & _). split_and!; [by apply dom_insert_mono..|]. intros. by left.
    + destruct H as (H1 & _). split; [by apply dom_insert_mono|]. intros. by left.
  - split; [done|]. split_and!; [done|rewrite dom_empty; apply empty_subseteq|]. intros k' v Hv. right. right. split; [|done].
    by apply elem_of_dom_2 in Hv.
  - split; [done|]. destruct H as (H1 & H2 & H3). split_and!; [done| |].
    + rewrite dom_insert. apply elem_of_dom_2 in Hv. set_solver.
    + intros k' v' Hv'. destruct (H3 k' v' Hv') as [|[Hc|[Hin Hc]]]; [by left|right..].
      * left. rewrite lookup_insert_ne by congruence. done.
      * destruct (decide (k' = k)) as [->|Hne]; [left; rewrite lookup_insert_eq; congruence|].
        right. by rewrite lookup_insert_ne.
  - split; [done|]. destruct H as (H1 & H2 & H3). split; [done|]. intros k v Hv.
    destruct (H3 k v Hv) as [|[Hc|[Hin Hc]]]; [by left|by right|].
    apply Hs, elem_of_dom in Hin. rewrite Hc in Hin. by destruct Hin.
  - split; [done|]. intros ->. destruct H as (H1 & H2). change (file_of copy = file_of m). f_equal. apply map_eq. intros k.
    destruct (m !! k) as [v|] eqn:E; [by destruct (H2 k v E)|].
    apply not_elem_of_dom. intros Hin. apply H1, elem_of_dom in Hin. rewrite E in Hin. by destruct Hin.
Qed.

Lemma savers_ok_run s s' : rtc saver_step s s' → savers_ok s → savers_ok s'.
Proof. induction 1; [done|]. intros Hs. eauto using savers_ok_step. Qed.

(** *** The savers are done in the end *)

(** Steps left before the holder is done, and before everybody is. *)
Definition holder_steps (m : gmap Z SMM2Profil) (l : holder) : nat :=
  match l with
  | Free => 0
  | Ranging start copy => size (start ∖ dom copy) + 2
  | Writing _ => 1
  end.

Definition alone_step (s s' : Savers) : Prop := saver_step s s' ∧ smm2Profils (sv s') = smm2Profils (sv s).

Lemma alone_write m f w copy : ∃ f', alone_step (mkSavers (mkSMM2 m f) w (Writing copy)) (mkSavers (mkSMM2 m f') w Free).
Proof. eexists. split; [by eapply sv_write|done]. Qed.

(** The holder, left alone, writes the file and lets go. *)
Lemma holder_ends n m f w l :
  (holder_steps m l ≤ n)%nat → (∀ start copy, l = Ranging start copy → start ⊆ dom m) →
  ∃ f', rtc alone_step (mkSavers (mkSMM2 m f) w l) (mkSavers (mkSMM2 m f') w Free).
Proof.
  revert l. induction n as [|n IH]; intros [|start copy|copy] Hn Hd; cbn in Hn; try lia; [by exists f|by exists f| |].
  - destruct (decide (start ⊆ dom copy)) as [Hs|Hs].
    + destruct (alone_write m f w copy) as [f' H]. exists f'.
      eapply rtc_l; [|by apply rtc_once]. split; [by eapply sv_walked|done].
    + assert (∃ k, k ∈ start ∧ k ∉ dom copy) as (k & Hk & Hc).
      { destruct (set_choose_or_empty (start ∖ dom copy)) as [[k Hk]|Hemp].
        - apply elem_of_difference in Hk as []. by exists k.
        - exfalso. apply Hs. intros k Hk. destruct (decide (k ∈ dom copy)) as [|Hn']; [done|].
          assert (k ∈ start ∖ dom copy) as Hx by (by apply elem_of_difference).
          rewrite Hemp in Hx. by apply elem_of_empty in Hx. }
      pose proof (Hd start copy eq_refl k Hk) as Hv. apply elem_of_dom in Hv as [v Hv].
      destruct (IH (Ranging start (<[k := v]> copy))) as [f' H].
      * cbn. rewrite dom_insert_L. replace (start ∖ ({[k]} ∪ dom copy)) with ((start ∖ dom copy) ∖ {[k]}) by set_solver.
        rewrite size_difference by set_solver. rewrite size_singleton.
        assert (size (start ∖ dom copy) ≠ 0%nat) by (apply size_non_empty_iff; set_solver). lia.
      * intros s c [= <- <-]. by apply (Hd start copy).
      * exists f'. eapply rtc_l; [|exact H]. split; [|done].
        eapply (sv_visit (mkSavers (mkSMM2 m f) w (Ranging start copy))); [done|by apply not_elem_of_dom|done].
  - destruct (alone_write m f w copy) as [f' H]. exists f'. by apply rtc_once.
Qed.

Lemma savers_end w m f : ∃ f', rtc alone_step (mkSavers (mkSMM2 m f) w Free) (mkSavers (mkSMM2 m f') 0 Free).
Proof.
  revert f. induction w as [|w IH]; intros f; [by exists f|].
  destruct (holder_ends (holder_steps m (Ranging (dom m) ∅)) m f w (Ranging (dom m) ∅)) as [f1 H1]; [done|by intros ?? [= <- <-]|].
  destruct (IH f1) as [f2 H2]. exists f2. etrans; [|exact H2]. eapply rtc_l; [|exact H1].
  split; [by apply (sv_lock (mkSavers (mkSMM2 m f) (S w) Free))|done].
Qed.

(** C19: No interleaving of registrations loses one.  The profiles are those of players who have
    logged in, with texts in UTF-8, as [profil_ok] says: a file keeps nothing of PID 0 and
    replaces bytes that are not UTF-8.  However the stores, the waits for the lock, the walks
    over the map and the writes of any number of registrations of such profiles interleave,
    with writes that go through: from any point the saves end, without changing a profile; and
    whenever nobody is saving, a restart from the file that is there has exactly the profiles
    the map has. *)
Theorem saves_lose_nothing m0 s :
  map_Forall profil_ok m0 →
  rtc saver_step (mkSavers (mkSMM2 m0 (file_of m0)) 0 Free) s →
  (∃ s', rtc alone_step s s' ∧ quiet_savers s') ∧
  (quiet_savers s →
   smm2Profils (SMM2ChargerProfils true (mkSMM2 ∅ (smm2ProfilsFichier (sv s)))) = smm2Profils (sv s)).
Proof.
  intros Hm0 Hrun. assert (savers_ok s) as [Hm Hl].
  { apply (savers_ok_run _ _ Hrun). by split. }
  destruct s as [[m f] w l]. cbn in Hm, Hl. split.
  - destruct (holder_ends (holder_steps m l) m f w l) as [f1 H1]; [done| |].
    { intros start copy ->. apply Hl. }
    destruct (savers_end w m f1) as [f2 H2]. eexists. split; [by etrans|done].
  - intros [Hw Hf]. cbn in Hw, Hf. subst. cbn. rewrite (Hl eq_refl). exact (profiles_survive_restart m None Hm).
Qed.
End saves.

(** The profile of a connection that has not logged in is stored and written, and not read back. *)
Example forgotten_profile :
  let MO := canonical_order in
  let pr := mkProfil 0 (str "Ana") [x01] 1 (str "FR") [] [0; 0; 0; 0] in
  file_of {[0 := pr]} = Some [json_profil pr] ∧
  smm2Profils (SMM2ChargerProfils true (mkSMM2 ∅ (file_of {[0 := pr]}))) = ∅.
Proof. vm_compute. done. Qed.

(** Two registrations, the second while the first one's goroutine holds the lock and has passed
    its own entry: the walk in progress misses it, and the goroutine that stored it waits and
    saves again. *)
Lemma saves_lose_nothing_witness :
  let MO := canonical_order in
  let ana := mkProfil 7 (str "Ana") [x01; xff] 1 (str "FR") [] [0; 0; 0; 0] in
  let bob := mkProfil 9 (str "Bob") [x02] 2 (str "BE") [] [0; 0; 0; 0] in
  let s0 := mkSavers (mkSMM2 ∅ (file_of ∅)) 0 Free in
  ∃ s, rtc saver_step s0 s ∧ smm2Profils (sv s) = {[7 := ana; 9 := bob]} ∧ waiting_savers s = 1%nat ∧
    lock s = Free ∧
    ∃ s', rtc alone_step s s' ∧ quiet_savers s'.
Proof.
  intros MO ana bob s0.
  assert (profil_ok 7 ana) as Ha by (split; [reflexivity|]; split; [lia|]; repeat split; vm_compute; reflexivity).
  assert (profil_ok 9 bob) as Hb by (split; [reflexivity|]; split; [lia|]; repeat split; vm_compute; reflexivity).
  exists (mkSavers (mkSMM2 {[7 := ana; 9 := bob]} (file_of {[7 := ana]})) 1 Free).
  assert (rtc saver_step s0 (mkSavers (mkSMM2 {[7 := ana; 9 := bob]} (file_of {[7 := ana]})) 1 Free)) as Hrun.
  { eapply rtc_l; [by apply (sv_store s0 7 ana)|].
    eapply rtc_l; [by eapply sv_lock|].
    eapply rtc_l; [eapply (sv_visit _ _ _ 7 ana); [done|done|reflexivity]|].
    eapply rtc_l; [by apply (sv_store _ 9 bob)|].
    eapply rtc_l; [eapply sv_walked; [done|vm_compute; set_solver]|].
    eapply rtc_l; [by eapply sv_write|].
    match goal with |- rtc _ ?a ?b => replace a with b; [done|] end.
    vm_compute. reflexivity. }
  split_and!; [exact Hrun|done|done|done|].
  by apply (saves_lose_nothing ∅ _ (map_Forall_empty _) Hrun).
Defined.
