(* ===== verification/Referee.v ===== *)
(** * The referee (src/referee.go, src/referee_stats.go)

    Rounds are numbered and their parameter kept as it came; the reports at the end of a round
    feed the players' records, kept by player and category and written to a file.  A handler
    runs whole: the locks it takes one after the other are one step here. *)

From S2P Require Export MatchHandlers.

Definition ProtocolMatchmakeReferee : Z := 0x78.
Definition MethodRefereeStartRound : Z := 1.
Definition MethodRefereeGetStartRoundParam : Z := 2.
Definition MethodRefereeEndRound : Z := 3.
Definition MethodRefereeEndRoundPartialReport : Z := 4.
Definition MethodRefereeEndRoundWithoutReport : Z := 5.
Definition MethodRefereeGetRoundParticipants : Z := 6.
Definition MethodRefereeGetStatsPrimary : Z := 9.
Definition MethodRefereeGetStatsPrimaries : Z := 10.
Definition MethodRefereeGetStatsAll : Z := 11.
Definition MethodRefereeCreateStats : Z := 12.
Definition MethodRefereeGetOrCreateStats : Z := 13.
Definition MethodRefereeResetStats : Z := 14.

(** ** Structures *)
Record MatchmakeRefereeStats := mkStats {
  UniqueID : Z;
  s_Category : Z;
  s_PID : Z;
  RecentDisconnection : Z;
  RecentViolation : Z;
  RecentMismatch : Z;
  RecentWin : Z;
  RecentLoss : Z;
  RecentDraw : Z;
  TotalDisconnect : Z;
  TotalViolation : Z;
  TotalMismatch : Z;
  TotalWin : Z;
  TotalLoss : Z;
  TotalDraw : Z;
  RatingValue : Z
}.
#[export] Instance MatchmakeRefereeStats_eq_dec : EqDecision MatchmakeRefereeStats.
Proof. solve_decision. Defined.

#[export] Instance RefereeStats_Structure : Structure MatchmakeRefereeStats := λ s,
  [ mkLevel 0
      (Some (wU64 (UniqueID s) ;;; wU32 (s_Category s) ;;; wPID (s_PID s) ;;; wU32 (RecentDisconnection s) ;;;
             wU32 (RecentViolation s) ;;; wU32 (RecentMismatch s) ;;; wU32 (RecentWin s) ;;; wU32 (RecentLoss s) ;;;
             wU32 (RecentDraw s) ;;; wU32 (TotalDisconnect s) ;;; wU32 (TotalViolation s) ;;; wU32 (TotalMismatch s) ;;;
             wU32 (TotalWin s) ;;; wU32 (TotalLoss s) ;;; wU32 (TotalDraw s) ;;; wU32 (RatingValue s)))
      (Some (λ _, read! a := rU64 in read! b := rU32 in read! c := rPID in read! d := rU32 in read! e := rU32 in
                  read! f := rU32 in read! g := rU32 in read! h := rU32 in read! i := rU32 in read! j := rU32 in
                  read! k := rU32 in read! l := rU32 in read! m := rU32 in read! n := rU32 in read! o := rU32 in
                  read! p := rU32 in rret (mkStats a b c d e f g h i j k l m n o p))) ].

Record MatchmakeRefereeStatsTarget := mkTarget { tg_PID : Z; tg_Category : Z }.
Definition zero_target : MatchmakeRefereeStatsTarget := mkTarget 0 0.
#[export] Instance RefereeTarget_Structure : Structure MatchmakeRefereeStatsTarget := λ t,
  [ mkLevel 0 (Some (wPID (tg_PID t) ;;; wU32 (tg_Category t)))
      (Some (λ _, read! p := rPID in read! c := rU32 in rret (mkTarget p c))) ].

Record MatchmakeRefereeStatsInitParam := mkInit { ip_Category : Z; InitialRatingValue : Z }.
Definition zero_init : MatchmakeRefereeStatsInitParam := mkInit 0 0.
#[export] Instance RefereeInit_Structure : Structure MatchmakeRefereeStatsInitParam := λ p,
  [ mkLevel 0 (Some (wU32 (ip_Category p) ;;; wU32 (InitialRatingValue p)))
      (Some (λ _, read! c := rU32 in read! r := rU32 in rret (mkInit c r))) ].

Record MatchmakeRefereePersonalRoundResult := mkRoundResult {
  rr_PID : Z;
  PersonalRoundResultFlag : Z;
  RoundWinLoss : Z;
  RatingValueChange : Z;
  Buffer : bytes;
  ReportSummaryMode : Z;
  EventID : Z
}.
Definition zero_result : MatchmakeRefereePersonalRoundResult := mkRoundResult 0 0 0 0 [] 0 0.
#[export] Instance RoundResult_Structure : Structure MatchmakeRefereePersonalRoundResult := λ r,
  [ mkLevel 0
      (Some (wPID (rr_PID r) ;;; wU32 (PersonalRoundResultFlag r) ;;; wU32 (RoundWinLoss r) ;;;
             wS32 (RatingValueChange r) ;;; wQBuffer (Buffer r) ;;; wU8 (ReportSummaryMode r) ;;; wU32 (EventID r)))
      (Some (λ _, read! a := rPID in read! b := rU32 in read! c := rU32 in read! d := rS32 in read! e := rQBuffer in
                  read! f := rU8 in read! g := rU32 in rret (mkRoundResult a b c d e f g))) ].

Record MatchmakeRefereeEndRoundParam := mkEndRound {
  RoundID : Z;
  PersonalRoundResults : list MatchmakeRefereePersonalRoundResult
}.
Definition zero_end : MatchmakeRefereeEndRoundParam := mkEndRound 0 [].
#[export] Instance EndRound_Structure : Structure MatchmakeRefereeEndRoundParam := λ p,
  [ mkLevel 0
      (Some (wU64 (RoundID p) ;;; wU32 (u32 (zlen (PersonalRoundResults p))) ;;; wforeach wAdd (PersonalRoundResults p)))
      (Some (λ p, read! id := rU64 in read! k := rU32 in
                  λ i, if (128 <? k) || bool_decide (is_Some (si_err i)) then (mkEndRound id (PersonalRoundResults p), i)
                       else (read! l := rrepeat (Z.to_nat k) (rExtract zero_result) in rret (mkEndRound id l)) i)) ].

(** ** The records *)

(** A record is kept under a player and a category. *)
Notation cleStats := (Z * Z)%type.
Notation Bilans := (gmap cleStats MatchmakeRefereeStats).

(** A line of the file; its value may be null. *)
Definition ligneStats : Type := cleStats * option MatchmakeRefereeStats.

(** The records, whether they have changed since the file was written, and the file. *)
Record MagasinStats := mkMagasin {
  parCle : Bilans;
  ms_modifie : bool;
  ms_file : option (list ligneStats)
}.
Definition stats0 : MagasinStats := mkMagasin ∅ false None.

Definition new_stats (p categorie rating : Z) : MatchmakeRefereeStats :=
  mkStats (Z.lxor p (u64 (Z.shiftl categorie 48))) categorie p 0 0 0 0 0 0 0 0 0 0 0 0 rating.

Definition obtenirOuCreer (p categorie rating : Z) (m : MagasinStats) : MatchmakeRefereeStats * MagasinStats :=
  match parCle m !! (p, categorie) with
  | Some s => (s, m)
  | None => let s := new_stats p categorie rating in (s, mkMagasin (<[(p, categorie) := s]> (parCle m)) true (ms_file m))
  end.

Definition lire (p categorie : Z) (m : MagasinStats) : MatchmakeRefereeStats :=
  default (mkStats 0 categorie p 0 0 0 0 0 0 0 0 0 0 0 0 0) (parCle m !! (p, categorie)).

(** The counters of a record after a result. *)
Definition count_result (winloss : Z) (s : MatchmakeRefereeStats) : MatchmakeRefereeStats :=
  let bump (w l d : Z) :=
    mkStats (UniqueID s) (s_Category s) (s_PID s) (RecentDisconnection s) (RecentViolation s) (RecentMismatch s)
      (u32 (RecentWin s + w)) (u32 (RecentLoss s + l)) (u32 (RecentDraw s + d)) (TotalDisconnect s) (TotalViolation s)
      (TotalMismatch s) (u32 (TotalWin s + w)) (u32 (TotalLoss s + l)) (u32 (TotalDraw s + d)) (RatingValue s) in
  if winloss =? 1 then bump 1 0 0 else if winloss =? 2 then bump 0 1 0 else if winloss =? 3 then bump 0 0 1 else s.

(** The rating after a change: it never goes below zero. *)
Definition apply_rating (delta rating : Z) : Z :=
  if (delta <? 0) && (rating <? u32 (s32 (- delta))) then 0 else u32 (rating + delta).

Definition set_rating (v : Z) (s : MatchmakeRefereeStats) : MatchmakeRefereeStats :=
  mkStats (UniqueID s) (s_Category s) (s_PID s) (RecentDisconnection s) (RecentViolation s) (RecentMismatch s)
    (RecentWin s) (RecentLoss s) (RecentDraw s) (TotalDisconnect s) (TotalViolation s) (TotalMismatch s) (TotalWin s)
    (TotalLoss s) (TotalDraw s) v.

Definition appliquerResultat (categorie : Z) (m : MagasinStats) (r : MatchmakeRefereePersonalRoundResult) : MagasinStats :=
  let '(s, m) := obtenirOuCreer (rr_PID r) categorie 0 m in
  let s := count_result (RoundWinLoss r) s in
  let s := set_rating (apply_rating (RatingValueChange r) (RatingValue s)) s in
  mkMagasin (<[(rr_PID r, categorie) := s]> (parCle m)) true (ms_file m).

Definition reinitialiser (p : Z) (m : MagasinStats) : MagasinStats :=
  let kept := filter (λ e, e.1.1 ≠ p) (parCle m) in
  mkMagasin kept (ms_modifie m || negb (bool_decide (kept = parCle m))) (ms_file m).

(** One line read back by [Charger]. *)
Definition load_line (l : Bilans) (e : ligneStats) : Bilans :=
  match e.2 with Some s => <[e.1 := s]> l | None => l end.

Definition Charger (persiste : bool) (m : MagasinStats) : MagasinStats :=
  match ms_file m with
  | Some lignes => if persiste then mkMagasin (foldl load_line (parCle m) lignes) (ms_modifie m) (ms_file m) else m
  | None => m
  end.

Section lists.
Context `{MO : MapOrder}.

Definition toutesCategories (p : Z) (m : MagasinStats) : list MatchmakeRefereeStats :=
  (filter (λ e, e.1.1 = p) (range (parCle m))).*2.

(** [written] says whether the file could be written. *)
Definition Ecrire (persiste written : bool) (m : MagasinStats) : MagasinStats :=
  if persiste && ms_modifie m then
    mkMagasin (parCle m) false (if written then Some ((λ e, (e.1, Some e.2)) <$> range (parCle m)) else ms_file m)
  else m.
End lists.

(** ** The state of the referee *)
Record RefereeState := mkReferee {
  compteurManches : Z;
  manches : gmap Z bytes;
  StatsArbitre : MagasinStats
}.
Definition referee0 : RefereeState := mkReferee 0 ∅ stats0.

Definition set_stats (m : MagasinStats) (st : RefereeState) : RefereeState := mkReferee (compteurManches st) (manches st) m.

(** [mancheParam]; empty for an unknown round. *)
Definition mancheParam (manche : Z) (st : RefereeState) : bytes := default [] (manches st !! manche).

(** The header of a structure, read by hand. *)
Definition rHeader : Reader unit :=
  read! s := rask in if StructHeader s then skip! rU8 in skip! rU32 in rret tt else rret tt.

Definition refereeCategorie (corps : bytes) (s : Settings) : Z :=
  if bool_decide (corps = []) then 0
  else
    let '(cat, i) := (skip! rHeader in rU32) (NewStreamIn corps s) in
    match si_err i with Some _ => 0 | None => cat end.

Definition rPIDs : Reader (option (list Z)) :=
  skip! rHeader in skip! rU32 in skip! rU32 in read! k := rU32 in
  λ i, if (128 <? k) || bool_decide (is_Some (si_err i)) then (None, i)
       else (read! l := rrepeat (Z.to_nat k) rPID in rret (Some l)) i.

Definition refereePIDs (corps : bytes) (s : Settings) : list Z :=
  let '(l, i) := rPIDs (NewStreamIn corps s) in
  match si_err i with Some _ => [] | None => default [] l end.

Section referee.
Context {App : Type} `{HM : !Substate MM App} `{HR : !Substate RefereeState App} `{MO : MapOrder}.
#[local] Abbreviation Net := (NetOf App).
Implicit Types (n : Net) (r : Ref) (req : RMCMessage).
Context (cfg : Config).
(** [NEX_REFEREE_STATS_FICHIER] is set; a write goes through; [RefereeEndpoint] is this
    endpoint (unset, nobody is told). *)
Context (persiste : bool) (written : Net → bool) (joinable : bool).

Definition ref_ (n : Net) : RefereeState := comp n.
Definition stats_of (n : Net) : MagasinStats := StatsArbitre (ref_ n).
Definition upd_stats (f : MagasinStats → MagasinStats) (n : Net) : Net :=
  upd_comp (λ st, set_stats (f (StatsArbitre st)) st) n.
Definition save_stats (n : Net) : Net := upd_stats (Ecrire persiste (written n)) n.

Definition startRound (r : Ref) (req : RMCMessage) (n : Net) : option RMCMessage * Net :=
  let manche := u64 (compteurManches (ref_ n) + 1) in
  let n := upd_comp (λ st, mkReferee manche (<[manche := Body req]> (manches st)) (StatsArbitre st)) n in
  let tell n p :=
    if joinable then notify_pid cfg p (mkEvent (PID (conn r n)) NotificationRefereeRoundStarted manche 0 [] 0) n else n in
  let n := foldl tell n (refereePIDs (Body req) (settings n)) in
  (Some (reply n ProtocolMatchmakeReferee req (wU64 manche)), n).

Definition getStartRoundParam (req : RMCMessage) (n : Net) : RMCMessage :=
  match manches (ref_ n) !! read_body n req rU64 with
  | None => notImplemented (settings n) ProtocolMatchmakeReferee req
  | Some param => reply n ProtocolMatchmakeReferee req (Write param)
  end.

Definition endRound (req : RMCMessage) (n : Net) : Net :=
  let p := read_body n req (rExtract zero_end) in
  let cat := refereeCategorie (mancheParam (RoundID p) (ref_ n)) (settings n) in
  save_stats (upd_stats (λ m, foldl (appliquerResultat cat) m (PersonalRoundResults p)) n).

Definition getRoundParticipants (req : RMCMessage) (n : Net) : RMCMessage :=
  let pids := refereePIDs (mancheParam (read_body n req rU64) (ref_ n)) (settings n) in
  reply n ProtocolMatchmakeReferee req (WriteList pids wPID).

(** [CreateStats], and the first half of [GetOrCreateStats]. *)
Definition createStats (r : Ref) (req : RMCMessage) (n : Net) : Net :=
  let p := read_body n req (rExtract zero_init) in
  save_stats (upd_stats (λ m, (obtenirOuCreer (PID (conn r n)) (ip_Category p) (InitialRatingValue p) m).2) n).

Definition getOrCreateStats (r : Ref) (req : RMCMessage) (n : Net) : option RMCMessage * Net :=
  let p := read_body n req (rExtract zero_init) in
  let n := createStats r req n in
  (Some (reply n ProtocolMatchmakeReferee req (wAdd (lire (PID (conn r n)) (ip_Category p) (stats_of n)))), n).

Definition getStatsPrimary (req : RMCMessage) (n : Net) : RMCMessage :=
  let t := read_body n req (rExtract zero_target) in
  reply n ProtocolMatchmakeReferee req (wAdd (lire (tg_PID t) (tg_Category t) (stats_of n))).

(** The targets of [GetStatsPrimaries]; [None] past 128. *)
Definition rTargets : Reader (option (list MatchmakeRefereeStatsTarget)) :=
  read! k := rU32 in
  if 128 <? k then rret None
  else read! l := rrepeat (Z.to_nat k) (rExtract zero_target) in rret (Some l).

Definition getStatsPrimaries (req : RMCMessage) (n : Net) : RMCMessage :=
  match read_body n req rTargets with
  | None => notImplemented (settings n) ProtocolMatchmakeReferee req
  | Some cibles =>
      reply n ProtocolMatchmakeReferee req
        (WriteList cibles (λ t, wAdd (lire (tg_PID t) (tg_Category t) (stats_of n))) ;;;
         WriteList cibles (λ _, wResult 0x00010001))
  end.

Definition getStatsAll (req : RMCMessage) (n : Net) : RMCMessage :=
  let t := read_body n req (rExtract zero_target) in
  reply n ProtocolMatchmakeReferee req (WriteList (toutesCategories (tg_PID t) (stats_of n)) wAdd).

Definition resetStats (r : Ref) (n : Net) : Net := save_stats (upd_stats (reinitialiser (PID (conn r n))) n).

(** [MatchmakeRefereeHandler]. *)
Definition MatchmakeRefereeHandler (r : Ref) (req : RMCMessage) (n : Net) : option RMCMessage * Net :=
  let m := Method req in
  let proto := ProtocolMatchmakeReferee in
  if m =? MethodRefereeStartRound then startRound r req n
  else if m =? MethodRefereeGetStartRoundParam then (Some (getStartRoundParam req n), n)
  else if (m =? MethodRefereeEndRound) || (m =? MethodRefereeEndRoundPartialReport) then
    let n := endRound req n in (Some (ack n proto req), n)
  else if m =? MethodRefereeEndRoundWithoutReport then (Some (ack n proto req), n)
  else if m =? MethodRefereeGetRoundParticipants then (Some (getRoundParticipants req n), n)
  else if m =? MethodRefereeCreateStats then
    let n := createStats r req n in (Some (ack n proto req), n)
  else if m =? MethodRefereeGetOrCreateStats then getOrCreateStats r req n
  else if m =? MethodRefereeGetStatsPrimary then (Some (getStatsPrimary req n), n)
  else if m =? MethodRefereeGetStatsPrimaries then (Some (getStatsPrimaries req n), n)
  else if m =? MethodRefereeGetStatsAll then (Some (getStatsAll req n), n)
  else if m =? MethodRefereeResetStats then
    let n := resetStats r n in (Some (ack n proto req), n)
  else (Some (notImplemented (settings n) proto req), n).
End referee.
