(* ===== verification/RefereeProps.v ===== *)
(** * What the referee guarantees

    The record of a player is what the results reported since the last reset make it; the
    records survive a restart; rounds are numbered from one and their parameter is given back
    as it came. *)

From S2P Require Export Referee.

(** ** The rating *)
Lemma apply_rating_spec delta rating :
  is_s 32 delta → is_u 32 rating → apply_rating delta rating = u32 (Z.max 0 (rating + delta)).
Proof.
  unfold is_s, is_u, apply_rating. change (32 - 1) with 31. intros Hd Hr.
  assert (delta < 0 → u32 (s32 (- delta)) = - delta) as Hn.
  { intros Hneg. destruct (decide (delta = - 2 ^ 31)) as [->|]; [reflexivity|].
    assert (signed 32 (- delta) = - delta) as ->.
    { unfold signed, wrap. rewrite Z.mod_small by lia. destruct (Z.ltb_spec (- delta) (2 ^ (32 - 1))); [done|lia]. }
    apply Z.mod_small. lia. }
  destruct (Z.ltb_spec delta 0); simpl; [rewrite Hn by done; destruct (Z.ltb_spec rating (- delta)); simpl|].
  - by replace (Z.max 0 (rating + delta)) with 0 by lia.
  - f_equal. lia.
  - f_equal. lia.
Qed.

(** ** The records *)

(** What changes the records. *)
Inductive stats_op :=
  | OpCreate (p categorie rating : Z)
  | OpResult (categorie : Z) (r : MatchmakeRefereePersonalRoundResult)
  | OpReset (p : Z)
  | OpSave (written : bool)
  | OpRestart.

(** The specification of one player's record in one category: victories, defeats, draws and
    the rating, and nothing when there is no record. *)
Record bilan := mkBilan { victoires : Z; defaites : Z; nuls : Z; cote : Z }.

Definition after_result (r : MatchmakeRefereePersonalRoundResult) (b : bilan) : bilan :=
  let plus k := if RoundWinLoss r =? k then 1 else 0 in
  mkBilan (victoires b + plus 1) (defaites b + plus 2) (nuls b + plus 3) (u32 (Z.max 0 (cote b + RatingValueChange r))).

Definition bilan_step (p c : Z) (o : option bilan) (op : stats_op) : option bilan :=
  match op with
  | OpCreate p' c' rating => if decide ((p', c') = (p, c)) then Some (default (mkBilan 0 0 0 rating) o) else o
  | OpResult c' r => if decide ((rr_PID r, c') = (p, c)) then Some (after_result r (default (mkBilan 0 0 0 0) o)) else o
  | OpReset p' => if decide (p' = p) then None else o
  | OpSave _ | OpRestart => o
  end.
Definition bilan_of (p c : Z) (ops : list stats_op) : option bilan := foldl (bilan_step p c) None ops.

(** The record that stands for it. *)
Definition record_of (p c : Z) (b : bilan) : MatchmakeRefereeStats :=
  mkStats (Z.lxor p (u64 (Z.shiftl c 48))) c p 0 0 0 (u32 (victoires b)) (u32 (defaites b)) (u32 (nuls b))
    0 0 0 (u32 (victoires b)) (u32 (defaites b)) (u32 (nuls b)) (cote b).

Section records.
Context `{MO : MapOrder}.

Definition stats_step (m : MagasinStats) (op : stats_op) : MagasinStats :=
  match op with
  | OpCreate p c rating => (obtenirOuCreer p c rating m).2
  | OpResult c r => appliquerResultat c m r
  | OpReset p => reinitialiser p m
  | OpSave written => Ecrire true written m
  | OpRestart => Charger true (mkMagasin ∅ false (ms_file m))
  end.
Definition stats_run (ops : list stats_op) : MagasinStats := foldl stats_step stats0 ops.

(** The values come from the wire; every write of the file goes through, and the process is
    only restarted with nothing left to write. *)
Fixpoint ops_ok (m : MagasinStats) (ops : list stats_op) : Prop :=
  match ops with
  | [] => True
  | op :: ops =>
      match op with
      | OpCreate _ _ rating => is_u 32 rating
      | OpResult _ r => is_s 32 (RatingValueChange r)
      | OpReset _ => True
      | OpSave written => written = true
      | OpRestart => ms_modifie m = false
      end ∧ ops_ok (stats_step m op) ops
  end.

(** The file holds the records when nothing is left to write. *)
Definition file_records (m : MagasinStats) : Bilans := foldl load_line ∅ (default [] (ms_file m)).

Lemma load_lines (l : list (cleStats * MatchmakeRefereeStats)) (m : Bilans) :
  foldl load_line m ((λ e, (e.1, Some e.2)) <$> l) = foldl (λ (m : Bilans) e, <[e.1 := e.2]> m) m l.
Proof. revert m. induction l as [|e l IH]; intros m; [done|]. simpl. apply IH. Qed.

Lemma foldl_insert_to_map (l : list (cleStats * MatchmakeRefereeStats)) (m : Bilans) :
  NoDup l.*1 → foldl (λ (m : Bilans) e, <[e.1 := e.2]> m) m l = list_to_map l ∪ m.
Proof.
  revert m. induction l as [|[k a] l IH]; intros m Hnd; simpl; [by rewrite map_empty_union|].
  apply NoDup_cons in Hnd as [Hk Hnd]. rewrite IH by done.
  rewrite <- insert_union_r by (by apply not_elem_of_list_to_map_1). by rewrite insert_union_l.
Qed.

Lemma file_of_records (m : Bilans) : foldl load_line ∅ ((λ e, (e.1, Some e.2)) <$> range m) = m.
Proof.
  rewrite load_lines, foldl_insert_to_map by apply NoDup_fst_range. by rewrite list_to_map_range, map_union_empty.
Qed.

Lemma count_record p c r b :
  count_result (RoundWinLoss r) (record_of p c b) =
  record_of p c (mkBilan (victoires (after_result r b)) (defaites (after_result r b)) (nuls (after_result r b)) (cote b)).
Proof.
  assert (∀ x, u32 (u32 x + 1) = u32 (x + 1)) as Hw by (intros; unfold wrap; by rewrite Z.add_mod_idemp_l by done).
  assert (∀ x, u32 (u32 x + 0) = u32 (x + 0)) as Hw0 by (intros; unfold wrap; by rewrite Z.add_mod_idemp_l by done).
  unfold count_result, record_of, after_result.
  destruct (Z.eqb_spec (RoundWinLoss r) 1) as [E|]; [rewrite ?E; simpl; by rewrite Hw, !Hw0|].
  destruct (Z.eqb_spec (RoundWinLoss r) 2) as [E|]; [rewrite ?E; simpl; by rewrite Hw, !Hw0|].
  destruct (Z.eqb_spec (RoundWinLoss r) 3) as [E|]; [rewrite ?E; simpl; by rewrite Hw, !Hw0|]. simpl. by rewrite !Z.add_0_r.
Qed.

Lemma result_record p c r b :
  is_u 32 (cote b) → is_s 32 (RatingValueChange r) →
  (let s := count_result (RoundWinLoss r) (record_of p c b) in
   set_rating (apply_rating (RatingValueChange r) (RatingValue s)) s) = record_of p c (after_result r b).
Proof. intros Hb Hr. rewrite count_record. simpl. by rewrite apply_rating_spec. Qed.

(** The invariant: every record is the one its history makes; the file is up to date unless
    something is left to write. *)
Definition stats_rel (ops : list stats_op) (m : MagasinStats) : Prop :=
  (∀ p c, parCle m !! (p, c) = record_of p c <$> bilan_of p c ops) ∧
  (∀ p c b, bilan_of p c ops = Some b → is_u 32 (cote b)) ∧
  (ms_modifie m = false → file_records m = parCle m).

Lemma bilan_of_snoc p c ops op : bilan_of p c (ops ++ [op]) = bilan_step p c (bilan_of p c ops) op.
Proof. unfold bilan_of. by rewrite foldl_app. Qed.

Lemma ops_ok_snoc m ops op :
  ops_ok m (ops ++ [op]) ↔ ops_ok m ops ∧ ops_ok (foldl stats_step m ops) [op].
Proof.
  revert m. induction ops as [|o ops IH]; intros m; cbn [app ops_ok foldl]; [naive_solver|]. rewrite IH. naive_solver.
Qed.

Lemma stats_rel_create p c rating ops m :
  is_u 32 rating → stats_rel ops m → stats_rel (ops ++ [OpCreate p c rating]) (obtenirOuCreer p c rating m).2.
Proof.
  intros Hr (Hm & Hb & Hf). unfold obtenirOuCreer, stats_rel. pose proof (Hm p c) as E.
  destruct (parCle m !! (p, c)) as [s|] eqn:Es; simpl; (split; [|split]).
  - intros p' c'. rewrite bilan_of_snoc. simpl. case_decide as Hd; [|done]. simplify_eq.
    destruct (bilan_of p' c' ops); simplify_eq/=. by rewrite Es.
  - intros p' c' b. rewrite bilan_of_snoc. simpl. case_decide as Hd; [|apply Hb]. simplify_eq.
    destruct (bilan_of p' c' ops) eqn:Eb; simplify_eq/=. intros [= <-]. by eapply Hb.
  - exact Hf.
  - intros p' c'. rewrite bilan_of_snoc. simpl. case_decide as Hd; [|by rewrite lookup_insert_ne].
    simplify_eq. rewrite lookup_insert_eq. by destruct (bilan_of p' c' ops).
  - intros p' c' b. rewrite bilan_of_snoc. simpl. case_decide as Hd; [|apply Hb]. simplify_eq.
    destruct (bilan_of p' c' ops); simplify_eq/=. by intros [= <-].
  - done.
Qed.

Lemma stats_rel_result c r ops m :
  is_s 32 (RatingValueChange r) → stats_rel ops m → stats_rel (ops ++ [OpResult c r]) (appliquerResultat c m r).
Proof.
  intros Hr (Hm & Hb & Hf). unfold appliquerResultat, obtenirOuCreer, stats_rel.
  set (b := default (mkBilan 0 0 0 0) (bilan_of (rr_PID r) c ops)).
  assert (is_u 32 (cote b)) as Hcb.
  { unfold b. destruct (bilan_of _ _ _) eqn:Eb; simpl; [by eapply Hb|done]. }
  assert ((match parCle m !! (rr_PID r, c) with Some s => (s, m) | None => (new_stats (rr_PID r) c 0,
             mkMagasin (<[(rr_PID r, c) := new_stats (rr_PID r) c 0]> (parCle m)) true (ms_file m)) end).1 =
          record_of (rr_PID r) c b) as E.
  { unfold b. rewrite Hm. by destruct (bilan_of _ _ _). }
  destruct (match parCle m !! (rr_PID r, c) with Some _ => _ | None => _ end) as [s m'] eqn:Em. simpl in E. subst s.
  assert (∀ k, k ≠ (rr_PID r, c) → parCle m' !! k = parCle m !! k) as Hoth.
  { intros k Hk. destruct (parCle m !! (rr_PID r, c)); simplify_eq/=; [done|]. by rewrite lookup_insert_ne. }
  pose proof (result_record (rr_PID r) c r b Hcb Hr) as Hs. cbv zeta in Hs. rewrite Hs. simpl. split; [|split; [|done]].
  - intros p' c'. rewrite bilan_of_snoc. simpl. case_decide as Hd.
    + simplify_eq. by rewrite lookup_insert_eq.
    + rewrite lookup_insert_ne, Hoth by congruence. apply Hm.
  - intros p' c' b'. rewrite bilan_of_snoc. simpl. case_decide as Hd; [|apply Hb]. intros [= <-]. simpl.
    by apply wrap_is_u.
Qed.

Lemma stats_rel_reset p ops m : stats_rel ops m → stats_rel (ops ++ [OpReset p]) (reinitialiser p m).
Proof.
  intros (Hm & Hb & Hf). unfold reinitialiser, stats_rel. simpl. split; [|split].
  - intros p' c'. rewrite bilan_of_snoc, map_lookup_filter, Hm. simpl.
    destruct (bilan_of p' c' ops); simpl; case_decide; try done; simpl; by case_guard.
  - intros p' c' b. rewrite bilan_of_snoc. simpl. case_decide; [done|apply Hb].
  - intros [Hmod Hk%negb_false_iff%bool_decide_eq_true]%orb_false_iff. rewrite Hk. by apply Hf.
Qed.

Lemma stats_rel_run ops : ops_ok stats0 ops → stats_rel ops (stats_run ops).
Proof.
  induction ops as [|op ops IH] using rev_ind; [done|]. intros [Hok [Hop _]]%ops_ok_snoc.
  specialize (IH Hok). unfold stats_run. rewrite foldl_app. simpl. fold (stats_run ops) in *.
  destruct op as [p c rating|c r|p|w|].
  - by apply stats_rel_create.
  - by apply stats_rel_result.
  - by apply stats_rel_reset.
  - subst w. destruct IH as (Hm & Hb & Hf). simpl. unfold Ecrire. simpl. destruct (ms_modifie _) eqn:Emod; split_and!;
      try (intros p c; rewrite bilan_of_snoc; apply Hm); try (intros p c b; rewrite bilan_of_snoc; apply Hb); [|by intros _; apply Hf].
    intros _. unfold file_records. apply file_of_records.
  - destruct IH as (Hm & Hb & Hf). simpl. specialize (Hf Hop). unfold Charger. simpl.
    assert (foldl load_line ∅ (default [] (ms_file (stats_run ops))) = parCle (stats_run ops)) as E by exact Hf.
    destruct (ms_file (stats_run ops)) as [l|] eqn:El; unfold stats_rel, file_records; simpl in *; split_and!;
      try (intros p c b; rewrite bilan_of_snoc; apply Hb); try (intros p c; rewrite bilan_of_snoc, E; apply Hm); by rewrite ?El.
Qed.

(** C17: at any point of any history of creations, results, resets, writes and restarts, one
    after the other, in which every write of the file goes through and the process is restarted
    only when nothing is left to write, a player's record in a category is exactly what the
    results reported since the last reset make it: the victories, defeats and draws counted,
    recent and total alike, and the rating moved by each change without ever going below zero;
    such writes and restarts lose nothing; and there is no record where nothing was created or
    reported.  A write that fails, or two that overlap as in Ranking2Props.v, are not in such a
    history. *)
Theorem records_follow_results ops p c :
  ops_ok stats0 ops → parCle (stats_run ops) !! (p, c) = record_of p c <$> bilan_of p c ops.
Proof. intros H1. by apply stats_rel_run. Qed.
End records.

Definition winner (p : Z) (delta : Z) : MatchmakeRefereePersonalRoundResult := mkRoundResult p 0 1 delta [] 0 0.
Lemma records_follow_results_witness :
  let MO := canonical_order in
  let ops := [OpCreate 7 100 1500; OpResult 100 (winner 7 20); OpSave true; OpRestart; OpResult 100 (winner 7 (-30))] in
  ops_ok stats0 ops ∧
  parCle (stats_run ops) !! (7, 100) = Some (record_of 7 100 (mkBilan 2 0 0 1490)).
Proof.
  cbv zeta. set (ops := [_; _; _; _; _]).
  assert (@ops_ok canonical_order stats0 ops) as H1 by (vm_compute; repeat split; discriminate).
  split; [exact H1|]. rewrite (@records_follow_results canonical_order ops 7 100 H1). vm_compute. reflexivity.
Defined.

(** ** The rounds *)
Section rounds.
Context {App : Type} `{HM : !Substate MM App} `{HR : !Substate RefereeState App} `{MO : MapOrder}.
Context `{HI : !Independent RefereeState MM App}.
#[local] Abbreviation Net := (NetOf App).
Implicit Types (n : Net) (r : Ref) (req : RMCMessage).
Context (cfg : Config) (joinable : bool).

Lemma ref_notify p ev n : ref_ (notify_pid cfg p ev n) = ref_ n.
Proof using HI.
  unfold notify_pid. case_match; [|done]. unfold SendNotification, SendRMC, sendData, ref_, comp.
  assert (∀ f m, get (S := RefereeState) (app_state (upd_mm f m)) = get (app_state m)) as Hu
    by (intros; unfold upd_mm, set_mm; simpl; apply get_other).
  case_match; by rewrite <- (Hu (set_notifCallCounter (u32 (notifCallCounter (mm n) + 1))) n).
Qed.

Lemma ref_tell (l : list Z) (ev : Net → NotificationEvent) n :
  ref_ (foldl (λ n p, if joinable then notify_pid cfg p (ev n) n else n) n l) = ref_ n.
Proof using HI.
  revert n. induction l as [|p l IH]; intros n; [done|]. simpl. rewrite IH. case_match; [apply ref_notify|done].
Qed.

Lemma startRound_state r req n :
  let '(resp, n') := startRound cfg joinable r req n in
  let manche := u64 (compteurManches (ref_ n) + 1) in
  ref_ n' = mkReferee manche (<[manche := Body req]> (manches (ref_ n))) (StatsArbitre (ref_ n)) ∧
  resp = Some (reply n' ProtocolMatchmakeReferee req (wU64 manche)).
Proof using HI.
  unfold startRound. set (manche := u64 _). set (n1 := upd_comp _ n).
  assert (ref_ n1 = mkReferee manche (<[manche := Body req]> (manches (ref_ n))) (StatsArbitre (ref_ n))) as E1
    by (unfold n1, ref_; by rewrite comp_upd).
  split; [|done]. rewrite <- E1. exact (ref_tell _ (λ m, mkEvent (PID (conn r m)) NotificationRefereeRoundStarted manche 0 [] 0) n1).
Qed.

(** The rounds opened one after the other. *)
Definition rounds_run (reqs : list (Ref * RMCMessage)) n : Net :=
  foldl (λ n x, (startRound cfg joinable x.1 x.2 n).2) n reqs.

(** The rounds are numbered from one, in the order they are opened, and each keeps its
    parameter: whoever asks for the parameter of the i-th round is given the body of the
    request that opened it, byte for byte, and no other round exists. *)
Theorem rounds_keep_their_parameter reqs n :
  ref_ n = referee0 → Z.of_nat (length reqs) < 2 ^ 64 →
  compteurManches (ref_ (rounds_run reqs n)) = Z.of_nat (length reqs) ∧
  (∀ k, manches (ref_ (rounds_run reqs n)) !! k =
     if decide (1 ≤ k) then (λ x, Body x.2) <$> reqs !! Z.to_nat (k - 1) else None) ∧
  ∀ i x q, reqs !! i = Some x → Body q = le_bytes 8 (Z.of_nat i + 1) →
    getStartRoundParam q (rounds_run reqs n) = reply (rounds_run reqs n) ProtocolMatchmakeReferee q (Write (Body x.2)).
Proof using HI.
  intros H0 Hlen.
  assert (compteurManches (ref_ (rounds_run reqs n)) = Z.of_nat (length reqs) ∧
    ∀ k, manches (ref_ (rounds_run reqs n)) !! k =
      if decide (1 ≤ k) then (λ x, Body x.2) <$> reqs !! Z.to_nat (k - 1) else None) as [Hc Hm].
  { revert Hlen. induction reqs as [|x reqs IH] using rev_ind; intros Hlen.
    - simpl. rewrite H0. simpl. split; [done|]. intros k. rewrite lookup_empty. by case_decide.
    - rewrite length_app in Hlen. simpl in Hlen. destruct IH as [Hc Hm]; [lia|].
      assert (rounds_run (reqs ++ [x]) n = (startRound cfg joinable x.1 x.2 (rounds_run reqs n)).2) as ->
        by (unfold rounds_run; by rewrite foldl_app).
      pose proof (startRound_state x.1 x.2 (rounds_run reqs n)) as Hs.
      destruct (startRound _ _ _ _ _) as [resp n']. simpl. destruct Hs as [-> _]. simpl. rewrite Hc.
      rewrite wrap_small by (unfold is_u; lia). rewrite length_app. simpl. split; [lia|]. intros k.
      destruct (decide (k = Z.of_nat (length reqs) + 1)) as [->|Hk].
      + rewrite lookup_insert_eq, decide_True by lia. rewrite lookup_app_r by lia.
        replace (Z.to_nat _ - length reqs)%nat with 0%nat by lia. done.
      + rewrite lookup_insert_ne, Hm by congruence. case_decide; [|done]. destruct (decide (k < Z.of_nat (length reqs) + 1)).
        * by rewrite lookup_app_l by lia.
        * rewrite !lookup_ge_None_2; [done|rewrite length_app; simpl; lia|lia]. }
  split; [done|]. split; [done|]. intros i x q Hx Hq. unfold getStartRoundParam.
  pose proof (lookup_lt_Some _ _ _ Hx) as Hi.
  assert (read_body (rounds_run reqs n) q rU64 = Z.of_nat i + 1) as ->.
  { unfold read_body. rewrite Hq. 
    destruct (rt_whole (settings (rounds_run reqs n)) (wU64 (Z.of_nat i + 1)) rU64 (Z.of_nat i + 1)) as (j & E & _ & _);
      [apply rt1_rt, rt1_U64; unfold is_u; lia|].
    change (Bytes_ (wU64 (Z.of_nat i + 1) (NewStreamOut (settings (rounds_run reqs n))))) with (le_bytes 8 (Z.of_nat i + 1)) in E.
    by rewrite E. }
  rewrite Hm, decide_True by lia. replace (Z.to_nat (Z.of_nat i + 1 - 1)) with i by lia. by rewrite Hx.
Qed.
End rounds.

Definition referee_net : NetOf (RefereeState * MM) :=
  NewEndpoint (NewSwitchSettings [] 40302) auth_start 0 (referee0, NewMatchmaking).
Definition round_req (method : Z) (b : bytes) : RMCMessage :=
  NewRMCRequest (NewSwitchSettings [] 40302) ProtocolMatchmakeReferee method 1 b.
Definition referee_cfg : Config :=
  mkConfig false 0 0 false false None false false false false false true false true None true false ∅.

Lemma rounds_keep_their_parameter_witness :
  let MO := canonical_order in
  let reqs := [(1%nat, round_req MethodRefereeStartRound [x01]); (2%nat, round_req MethodRefereeStartRound [x02; x03])] in
  let q := round_req MethodRefereeGetStartRoundParam (le_bytes 8 2) in
  let n := rounds_run referee_cfg true reqs referee_net in
  ref_ referee_net = referee0 ∧
  getStartRoundParam q n = reply n ProtocolMatchmakeReferee q (Write [x02; x03]).
Proof.
  cbv zeta. set (reqs := [_; _]). split; [reflexivity|].
  destruct (@rounds_keep_their_parameter _ _ _ canonical_order Independent_pair referee_cfg true reqs referee_net eq_refl) as (_ & _ & H1);
    [reflexivity|]. exact (H1 1%nat (2%nat, round_req MethodRefereeStartRound [x02; x03]) (round_req MethodRefereeGetStartRoundParam (le_bytes 8 2)) eq_refl eq_refl).
Defined.
