(* ===== verification/SessionURLs.v ===== *)
(** * GetSessionURLs and protocol 0x15 (src/matchmaking_handlers.go)

    The stations a joiner is given for the host of its gathering, at once or when the host has
    reported them, and the dispatch of the MatchMaking protocol. *)

From S2P Require Export MatchHandlers NatTraversal.

Definition MethodGetSessionURLs : Z := 0x29.
Definition hostReplaceURLWait : Z := 2500 * (second / 1000).
Definition hostReplaceURLPoll : Z := 100 * (second / 1000).

Section session_urls.
Context {App : Type} `{HM : !Substate MM App} `{HN : !Substate NatState App} `{MO : MapOrder}.
#[local] Abbreviation Net := (NetOf App).
Implicit Types (n : Net) (r : Ref) (req : RMCMessage).
Context (cfg : Config) (bcfg : BridgeConfig).
Context (nat_file : Z → option bytes) (listen : Z → Z → bool).
Context (OnSessionReady : option (Z → list Z → Net → Net)).
(** [SessionStations], the titles' own stations. *)
Context (SessionStations : option (Ref → Ref → Net → list StationURL)).

Definition sessionURLsResponse (req : RMCMessage) (urls : list StationURL) (n : Net) : RMCMessage :=
  reply n ProtocolMatchMaking req (WriteList urls wStationURL).

Definition relayedFor (joiner host : Ref) (urls : list StationURL) (n : Net) : list StationURL * Net :=
  if negb (relay_active n) || bool_decide (urls = []) then (urls, n)
  else
    let '(res, n) := pair_relay listen (PID (conn joiner n)) (PID (conn host n))
                       (PublicIPOf (conn joiner n)) (PublicIPOf (conn host n)) n in
    match res with
    | Some (rHost, rPort) => (RelayStations urls rHost rPort, n)
    | None => (urls, n)
    end.

Definition bridge_pair (joiner host : Ref) (n : Net) : (list StationURL * bridgeStatus) * Net :=
  let '(res, c) := bridgeSessionStationsForPair bcfg (nat_file (clock n)) (clock n) (conn joiner n) (conn host n)
                     (ns_cache (ns n)) in
  (res, upd_comp (set_cache c) n).

Definition getSessionURLs (r : Ref) (req : RMCMessage) (n : Net) : option RMCMessage * Net :=
  let g := gatherings (mm n) !! read_body n req rU32 in
  match g with
  | None =>
      if OwnerLeaveUnregisters cfg
      then (Some (fail n ProtocolMatchMaking req ResultRendezVousSessionVoid), n)
      else (Some (sessionURLsResponse req [] n), n)
  | Some g =>
      match FindConnectionByID (hostConnID g) n with
      | None => (Some (sessionURLsResponse req [] n), n)
      | Some host =>
          match SessionStations with
          | Some f => (Some (sessionURLsResponse req (f r host n) n), n)
          | None =>
              let '((urls, status), n) := bridge_pair r host n in
              if decide (status = bridgeNoRVCID) then
                (None, upd_comp (λ st, set_waiting (ns_waiting st ++ [mkWaiter r req host (clock n + hostReplaceURLWait)]) st) n)
              else
                let '(urls, n) := relayedFor r host urls n in (Some (sessionURLsResponse req urls n), n)
          end
      end
  end.

(** The goroutine of the [i]-th waiter wakes up: it answers when the bridge is ready, or when
    its time is over with what the host has reported; it sleeps on otherwise. *)
Definition waiter_wakes (i : nat) (n : Net) : Net :=
  match ns_waiting (ns n) !! i with
  | None => n
  | Some w =>
      let done n := upd_comp (λ st, set_waiting (delete i (ns_waiting st)) st) n in
      let answer urls n :=
        let '(urls, n) := relayedFor (w_joiner w) (w_host w) urls n in
        SendRMC (w_joiner w) (sessionURLsResponse (w_req w) urls n) n in
      let '((urls, status), n) := bridge_pair (w_joiner w) (w_host w) n in
      if decide (status = bridgeOK) then answer urls (done n)
      else if clock n <? w_deadline w then n
      else answer (stations (conn (w_host w) n)) (done n)
  end.

(** [MatchMakingHandler]. *)
Definition MatchMakingHandler (r : Ref) (req : RMCMessage) (n : Net) : option RMCMessage * Net :=
  let m := Method req in
  let proto := ProtocolMatchMaking in
  if m =? MethodGetSessionURLs then getSessionURLs r req n
  else if m =? MethodGetDetailedParticipants then getDetailedParticipants r req n
  else if m =? MethodUnregisterGathering then
    let n := unregister r req n in (Some (boolResponse n proto req true), n)
  else if m =? MethodUpdateSessionURL then (Some (boolResponse n proto req true), n)
  else if (m =? MethodUpdateSessionHost) || (m =? MethodUpdateSessionHostV1) then (Some (ack n proto req), n)
  else if m =? MethodMigrateGatheringOwnership then migrateGatheringOwnership cfg OnSessionReady r req true n
  else if m =? MethodMigrateGatheringOwnershipV1 then migrateGatheringOwnership cfg OnSessionReady r req false n
  else if m =? MethodUpdateGatheringOwnership then updateGatheringOwnership r req n
  else if m =? MethodFindBySingleID15 then findBySingleID15 r req n
  else (Some (notImplemented (settings n) proto req), n).
End session_urls.
