(* ===== verification/MatchDispatch.v ===== *)
(** * The matchmaker's RMC dispatch (src/matchmaking_handlers.go, src/messagedelivery.go)

    The methods of protocols 0x6D and 0x32 and the relay of protocol 0x1B, over a process
    state that holds the matchmaking store and the tournaments, and the steps the matchmaker
    takes: what a client asks, a timer, a departure, a change of host. *)

From S2P Require Export MatchHandlers Tournament.

Definition ProtocolMessageDelivery : Z := 0x1B.
Definition MethodDeliverMessage : Z := 0x01.

Definition MethodUpdateMatchmakeSessionPart : Z := 0x2C.
Definition MethodUpdateProgressScore : Z := 0x22.
Definition MethodFindMatchmakeSessionBySingleID : Z := 0x31.
Definition MethodFindMatchmakeSessionByGatheringIDDetail : Z := 0x29.
Definition MethodCustomPlayingSession : Z := 0x3C.
Definition MethodCustomFriendsQuery : Z := 0x41.
Definition MethodCustomPrivateRoomCreate : Z := 0x44.
Definition MethodCustomResolveCode : Z := 0x45.
Definition MethodFindByParticipant : Z := 0x33.
Definition MethodBrowseNoHolder : Z := 0x34.
Definition MethodSSBUArenaCode : Z := 0x37.
Definition MethodSSBUArenaResolve : Z := 0x38.
Definition MethodFindByGidList : Z := 0x30.
Definition MethodSSBUPreMatch : Z := 0x3A.
Definition MethodTournamentSearch : Z := 0x39.
Definition MethodTournamentJoin : Z := 0x3F.
Definition MethodUpdateNotificationData : Z := 9.
Definition MethodGetFriendNotificationData : Z := 10.
Definition MethodGetFriendNotificationDataList : Z := 13.

Section dispatch.
Context {App : Type} `{HM : !Substate MM App} `{HT : !Substate tournamentStore App} `{MO : MapOrder}.
#[local] Abbreviation Net := (NetOf App).
Implicit Types (n : Net) (r : Ref) (req : RMCMessage).
Context (cfg : Config).
Context (rnd32 rnd_mark rnd_code : Net → bytes).
Context (OnSessionReady : option (Z → list Z → Net → Net)).
Context (OnFriendSessionCreated : option (Z → Z → Net → Net)).
(* NEX_RELAI_INCLUT_SOURCE *)
Context (relaiInclutSource : bool).

(** [ExtensionHandler]; [None] when the method never returns. *)
Definition ExtensionHandler (r : Ref) (req : RMCMessage) (n : Net) : option (option RMCMessage * Net) :=
  let m := Method req in
  let on k := m =? k in
  let proto := ProtocolMatchmakeExtension in
  if on MethodCloseParticipation || on MethodOpenParticipation
  then Some (setParticipation r req (on MethodOpenParticipation) n)
  else if on MethodAutoMatchmakeWithParamPostpone then Some (autoMatchmake cfg rnd32 OnSessionReady r req n)
  else if on MethodCreateMatchmakeSessionWithParam
  then Some (createSession cfg rnd32 OnSessionReady OnFriendSessionCreated r req n)
  else if on MethodJoinMatchmakeSessionWithParam then Some (joinSession cfg OnSessionReady r req n)
  else if on MethodFindMatchmakeSessionBySingleID then Some (findBySingleID r req n)
  else if on MethodFindMatchmakeSessionByGatheringIDDetail then Some (findByGatheringIDDetail r req n)
  else if on MethodCustomPrivateRoomCreate then Some (privateRoomCreate r req n)
  else if on MethodCustomResolveCode then Some (resolveCode r req n)
  else if on MethodCustomPlayingSession then Some (playingSession r req n)
  else if on MethodFindByParticipant then
    Some (if FindByParticipantEnabled cfg then findByParticipant cfg r req n
          else (Some (emptyList n proto req), n))
  else if on MethodCustomFriendsQuery then Some (Some (emptyList n proto req), n)
  else if on MethodUpdateNotificationData then Some (updateNotificationData cfg r req n)
  else if on MethodGetFriendNotificationData then Some (getFriendNotificationData cfg r req false n)
  else if on MethodGetFriendNotificationDataList then Some (getFriendNotificationData cfg r req true n)
  else if on MethodUpdateMatchmakeSessionPart then Some (updateSessionPart cfg r req n)
  else if on MethodUpdateApplicationBuffer then Some (updateApplicationBuffer r req n)
  else if on MethodModifyCurrentGameAttribute then modifyCurrentGameAttribute r req n
  else if on MethodUpdateMatchmakeSessionAttribute then Some (updateMatchmakeSessionAttribute r req n)
  else if on MethodSSBUArenaCode then Some (privateRoomCreate r req n)
  else if on MethodSSBUArenaResolve then Some (resolveCode r req n)
  else if on MethodFindByGidList then Some (findByGidList r req n)
  else if on MethodBrowseNoHolder then Some (browseNoHolder r req n)
  else if on MethodSSBUPreMatch then
    Some (if isTournamentIDList (Body req) then tournamentsByIDs r req n
          else (Some (reply n proto req (wU32 2)), n))
  else if on MethodTournamentSearch then Some (searchTournaments r req n)
  else if on MethodTournamentCreate then Some (createTournament rnd_mark rnd_code r req n)
  else if on MethodTournamentDelete then Some (removeTournament r req n)
  else if on MethodTournamentJoin then Some (registerTournament r req n)
  else if on MethodUpdateProgressScore then Some (Some (ack n proto req), n)
  else Some (Some (notImplemented (settings n) proto req), n).

(** [MatchMakingExtHandler]. *)
Definition MatchMakingExtHandler (r : Ref) (req : RMCMessage) (n : Net) : option RMCMessage * Net :=
  if Method req =? MethodEndParticipation
  then let n := endParticipation r req n in (Some (boolResponse n ProtocolMatchMakingExt req true), n)
  else (Some (notImplemented (settings n) ProtocolMatchMakingExt req), n).

(** ** Message delivery *)

(** One gathering of the loop of [MessageDeliveryHandler]: the recipients so far and their
    gathering. *)
Definition best_room (p : Z) (best : list Z * Z) (e : Z * gathering) : list Z * Z :=
  let ps := participants e.2 in
  if containsPID ps p &&
     ((length best.1 <? length ps)%nat || ((length ps =? length best.1)%nat && (best.2 <? e.1)))
  then (ps, e.1) else best.

Definition recipients (p : Z) (n : Net) : list Z * Z :=
  foldl (best_room p) ([], 0) (range (gatherings (mm n))).

Definition relay_one (r : Ref) (req : RMCMessage) (n : Net) (p : Z) : Net :=
  if (p =? PID (conn r n)) && negb relaiInclutSource then n
  else match FindConnectionByPID p n with
       | None => n
       | Some c => SendRMC c (NewRMCRequest (settings n) ProtocolMessageDelivery MethodDeliverMessage
                                (CallID req) (Body req)) n
       end.

Definition MessageDeliveryHandler (r : Ref) (req : RMCMessage) (n : Net) : option RMCMessage * Net :=
  (None, foldl (relay_one r req) n (recipients (PID (conn r n)) n).1).

(** ** The matchmaker's steps

    A request on any connection, in any order; the methods of protocol 0x15 one by one; a
    timer; a departure; a change of host; and the rest of the process, which leaves the
    matchmaker's store alone. *)
Inductive mm_step (n : Net) : Net → Prop :=
  | step_ext r req resp n' : ExtensionHandler r req n = Some (resp, n') → mm_step n n'
  | step_end r req : mm_step n (MatchMakingExtHandler r req n).2
  | step_unregister r req : mm_step n (unregister r req n)
  | step_migrate r req b : mm_step n (migrateGatheringOwnership cfg OnSessionReady r req b n).2
  | step_deliver r req : mm_step n (MessageDeliveryHandler r req n).2
  | step_timer i : mm_step n (fire_timer cfg OnSessionReady i n)
  | step_leave p : mm_step n (RemovePlayer cfg p n)
  | step_rehost p : mm_step n (MigrerHebergementDepuis cfg p n).2
  | step_elsewhere n' : mm n' = mm n → mm_step n n'.

Definition mm_reachable (n : Net) : Prop :=
  ∃ n0 : Net, mm n0 = NewMatchmaking ∧ rtc mm_step n0 n.
End dispatch.
