(* ===== verification/MatchFacts.v ===== *)
(** * The matchmaker's invariant and what its handlers do

    Frame lemmas (notifications leave the store alone), the invariant every step of the
    matchmaker keeps, and the behaviour of the main handlers: the match AutoMatchmake picks,
    the capacity of a lobby, the departure of a player, room codes, session keys. *)

From S2P Require Export MatchDispatch.

(** ** Well-formed gatherings

    Nobody is listed twice, the announced number of participants is the list's length (in 32
    bits) and the session carries the identifier it is stored under. *)
Definition g_ok (gid : Z) (g : gathering) : Prop :=
  NoDup (participants g) ∧ NumParticipants (session g) = u32 (zlen (participants g)) ∧
  ms_ID (session g) = gid.

Definition mm_ok (m : MM) : Prop := map_Forall g_ok (gatherings m).

Lemma mm_ok_same m m' : gatherings m' = gatherings m → mm_ok m → mm_ok m'.
Proof. unfold mm_ok. by intros ->. Qed.

Lemma mm_ok_upd gid f m :
  (∀ g, gatherings m !! gid = Some g → g_ok gid g → g_ok gid (f g)) → mm_ok m → mm_ok (upd_gathering gid f m).
Proof.
  intros Hf Hok gid' g' Hg'. cbn in Hg'. destruct (decide (gid' = gid)) as [->|Hne].
  - rewrite lookup_alter_eq in Hg'. destruct (gatherings m !! gid) as [g|] eqn:E; [|done].
    cbn in Hg'. simplify_eq. eauto.
  - rewrite lookup_alter_ne in Hg' by done. by apply Hok.
Qed.

Lemma upd_upd_gathering gid f f' m :
  upd_gathering gid f' (upd_gathering gid f m) = upd_gathering gid (f' ∘ f) m.
Proof.
  unfold upd_gathering. cbn [gatherings set_gatherings]. unfold set_gatherings. f_equal; [|done..]. apply map_eq. intros i. destruct (decide (i = gid)) as [->|Hne].
  - rewrite !lookup_alter_eq. by destruct (gatherings m !! gid).
  - by rewrite !lookup_alter_ne.
Qed.

Lemma mm_ok_insert gid g m : g_ok gid g → mm_ok m → mm_ok (set_gatherings (<[gid := g]> (gatherings m)) m).
Proof. intros. by apply map_Forall_insert_2. Qed.

Lemma mm_ok_delete gid m : mm_ok m → mm_ok (set_gatherings (delete gid (gatherings m)) m).
Proof. intros. by apply map_Forall_delete. Qed.

Lemma mm_ok_drop gid c m : mm_ok m → mm_ok (drop_gathering gid c m).
Proof. intros Hok. unfold drop_gathering. destruct (bool_decide (c = [])); by apply mm_ok_delete. Qed.

Lemma g_ok_session gid g x :
  ms_ID x = ms_ID (session g) → NumParticipants x = NumParticipants (session g) →
  g_ok gid g → g_ok gid (set_session x g).
Proof. unfold g_ok. cbn. by intros -> ->. Qed.

(** Any list without duplicates, once counted. *)
Lemma g_ok_recount gid g : NoDup (participants g) → ms_ID (session g) = gid → g_ok gid (recount g).
Proof. by unfold g_ok. Qed.

Lemma NoDup_add_participant p g : NoDup (participants g) → NoDup (participants (add_participant p g)).
Proof.
  intros Hnd. unfold add_participant, containsPID. case_bool_decide as Hin; [done|]. cbn.
  apply NoDup_app. split_and!; [done| |apply NoDup_singleton].
  intros x Hx. by rewrite list_elem_of_singleton; intros ->.
Qed.

Lemma g_ok_removePID gid p g : g_ok gid g → NoDup (removePID (participants g) p).
Proof. intros (Hnd & _). by apply NoDup_filter. Qed.

Lemma g_ok_created cfg key now gid p connID src :
  g_ok gid (mkG (finalizeCreatedSession cfg key now gid p src) [p] connID []).
Proof.
  unfold g_ok, finalizeCreatedSession. cbn [participants session].
  split_and!; [apply NoDup_singleton| |]; repeat case_match; done.
Qed.

Section facts.
Context {App : Type} `{HM : !Substate MM App} `{HT : !Substate tournamentStore App} `{MO : MapOrder}.
#[local] Abbreviation Net := (NetOf App).
Implicit Types (n : Net) (r : Ref) (req : RMCMessage) (m : MM) (g : gathering).

(** ** The store inside the process *)
Lemma mm_set_mm m n : mm (set_mm m n) = m.
Proof. unfold mm, set_mm. cbn. apply get_put. Qed.
Lemma mm_upd_mm f n : mm (upd_mm f n) = f (mm n).
Proof. apply mm_set_mm. Qed.
Lemma app_SendRMC c msg n : app_state (SendRMC c msg n) = app_state n.
Proof. unfold SendRMC, sendData. by case_match. Qed.
Lemma mm_SendRMC c msg n : mm (SendRMC c msg n) = mm n.
Proof. unfold mm. by rewrite app_SendRMC. Qed.

(** The gatherings, codes and the next identifier are left alone. *)
Definition quiet (n n' : Net) : Prop :=
  gatherings (mm n') = gatherings (mm n) ∧ byCode (mm n') = byCode (mm n) ∧
  nextGID (mm n') = nextGID (mm n).

#[export] Instance quiet_refl : PreOrder quiet.
Proof.
  split; [done|]. intros a b c (H1 & H2 & H3) (H4 & H5 & H6). split_and!; congruence.
Qed.

Lemma quiet_foldl {A} (f : Net → A → Net) l n : (∀ n x, quiet n (f n x)) → quiet n (foldl f n l).
Proof.
  intros Hf. revert n. induction l as [|x l IH]; intros n; [done|]. cbn [foldl].
  by rewrite <- IH.
Qed.

Context (cfg : Config).
Lemma quiet_SendNotification c ev n : quiet n (SendNotification cfg c ev n).
Proof. unfold SendNotification, quiet. by rewrite mm_SendRMC, mm_upd_mm. Qed.
Lemma quiet_notify_pid p ev n : quiet n (notify_pid cfg p ev n).
Proof. unfold notify_pid. case_match; [apply quiet_SendNotification|done]. Qed.
Lemma quiet_notify_all ps ev n : quiet n (notify_all cfg ps ev n).
Proof. apply quiet_foldl. intros. apply quiet_notify_pid. Qed.

(** ** Every operation keeps the gatherings well-formed *)
Lemma mm_ok_quiet n n' : quiet n n' → mm_ok (mm n) → mm_ok (mm n').
Proof. intros (Hg & _). by apply mm_ok_same. Qed.

Lemma mm_ok_release p garde m : mm_ok m → mm_ok (releaseAbandonedSolo p garde m).
Proof.
  unfold releaseAbandonedSolo. case_match; [done|]. generalize (range (gatherings m)) as l.
  intros l. revert m. induction l as [|e l IH]; intros m Hok; [done|]. cbn [foldl]. apply IH.
  unfold release_one. case_match; [done|]. by apply (mm_ok_drop e.1 (code e.2)).
Qed.

Lemma gatherings_remember gid key m : gatherings (rememberSessionKey gid key m) = gatherings m.
Proof.
  unfold rememberSessionKey. destruct (recentKeys m !! gid); [done|]. by destruct (trim_recent _ _ _).
Qed.

Lemma mm_ok_create key now p connID src m :
  mm_ok m → mm_ok (createGathering cfg key now p connID src m).2.
Proof.
  intros Hok. unfold createGathering. cbn [snd]. apply mm_ok_release, mm_ok_insert; [apply g_ok_created|].
  eapply mm_ok_same, Hok. by rewrite gatherings_remember.
Qed.


Lemma mm_ok_set_mm m n : mm_ok m → mm_ok (mm (set_mm m n)).
Proof. by rewrite mm_set_mm. Qed.
Lemma mm_ok_create_for rnd src r n gid m :
  create_for cfg rnd src r n = (gid, m) → mm_ok (mm n) → mm_ok m.
Proof.
  intros E Hok. replace m with (create_for cfg rnd src r n).2 by by rewrite E.
  by apply mm_ok_create.
Qed.

Lemma g_ok_join gid p g : g_ok gid g → g_ok gid (recount (add_participant p g)).
Proof.
  intros (Hnd & _ & Hid). apply g_ok_recount; [by apply NoDup_add_participant|].
  unfold add_participant. by case_match.
Qed.

Lemma g_ok_normalize gid g : g_ok gid g → g_ok gid (normalize_rv g).
Proof. intros. unfold normalize_rv. repeat case_match; by try apply g_ok_session. Qed.


(** The operations that change the gatherings directly. *)
Lemma mm_ok_upd_mm f n : mm_ok (f (mm n)) → mm_ok (mm (upd_mm f n)).
Proof. by rewrite mm_upd_mm. Qed.

Lemma mm_ok_upd_net gid f n :
  (∀ g, gatherings (mm n) !! gid = Some g → g_ok gid g → g_ok gid (f g)) →
  mm_ok (mm n) → mm_ok (mm (upd_mm (upd_gathering gid f) n)).
Proof. intros. by apply mm_ok_upd_mm, mm_ok_upd. Qed.

Lemma mm_ok_delete_net gid n :
  mm_ok (mm n) → mm_ok (mm (upd_mm (λ m, set_gatherings (delete gid (gatherings m)) m) n)).
Proof. intros. by apply mm_ok_upd_mm, mm_ok_delete. Qed.

Lemma g_ok_prune gid p n g : g_ok gid g → g_ok gid (prune p n g).
Proof.
  intros (Hnd & Hn & Hid). unfold prune. case_bool_decide; [done|].
  apply g_ok_recount; [by apply NoDup_filter|done].
Qed.

Lemma mm_ok_setParticipation r req b n : mm_ok (mm n) → mm_ok (mm (setParticipation r req b n).2).
Proof.
  apply mm_ok_upd_net. intros g _ Hg. apply (g_ok_session _ _ (set_OpenParticipation b (session g))) in Hg; [|done..].
  destruct b; [done|]. by apply g_ok_prune.
Qed.

Lemma mm_ok_applySessionPart p m : mm_ok m → mm_ok (applySessionPart p m).2.
Proof.
  intros Hok. unfold applySessionPart. destruct (gatherings m !! u_GID p) as [g|] eqn:E; [|done].
  apply Hok in E as Hg.
  lazymatch goal with |- context [let '(g, m) := ?pick in _] =>
    assert (gatherings pick.2 = gatherings m ∧ g_ok (u_GID p) pick.1) as [Hm Hg'];
    [|destruct pick as [g' m']] end.
  { case_match; [|done]. cbn [fst snd]. split; [by destruct (bool_decide (u_Codeword p = []))|].
    by apply Hg. }
  cbn [fst snd] in *. apply mm_ok_insert; [|by eapply mm_ok_same].
  apply g_ok_session; [repeat case_match; done..|done].
Qed.

Lemma mm_ok_updateSessionPart r req n : mm_ok (mm n) → mm_ok (mm (updateSessionPart cfg r req n).2).
Proof.
  intros Hok. unfold updateSessionPart. cbn [snd]. destruct (SessionPartPersists cfg); [|done].
  destruct (read_err n req _); [done|]. by apply mm_ok_upd_mm, mm_ok_applySessionPart.
Qed.

Lemma mm_ok_updateApplicationBuffer r req n :
  mm_ok (mm n) → mm_ok (mm (updateApplicationBuffer r req n).2).
Proof.
  intros Hok. unfold updateApplicationBuffer. destruct (read_body n req _) as [gid buf].
  destruct (gatherings (mm n) !! gid); [|done].
  lazymatch goal with |- context [if ?b =? ?c then _ else _] => destruct (b =? c) end; [|done].
  apply mm_ok_upd_net; [|done]. intros. by apply g_ok_session.
Qed.

Lemma mm_ok_modify r req n res :
  modifyCurrentGameAttribute r req n = Some res → mm_ok (mm n) → mm_ok (mm res.2).
Proof.
  unfold modifyCurrentGameAttribute. destruct (read_body n req _) as [[gid idx] v].
  destruct (gatherings (mm n) !! gid) as [g|] eqn:E; [|by intros [= <-]].
  destruct (first_is (PID (conn r n)) g); [|by intros [= <-]].
  destruct (grow_attribs _ _ _) as [l|]; [|done]. intros [= <-] Hok.
  apply mm_ok_upd_net; [|done]. intros g' Hg' Hok'. simplify_eq. by apply g_ok_session.
Qed.

Lemma mm_ok_updateAttribs r req n :
  mm_ok (mm n) → mm_ok (mm (updateMatchmakeSessionAttribute r req n).2).
Proof.
  intros Hok. unfold updateMatchmakeSessionAttribute. destruct (read_body n req _) as [gid attribs].
  cbn [snd]. destruct (gatherings (mm n) !! gid); [|done]. destruct (read_err n req _); [done|].
  destruct (first_is _ _); [|done]. apply mm_ok_upd_net; [|done]. intros. by apply g_ok_session.
Qed.

Lemma mm_ok_privateRoomCreate r req n : mm_ok (mm n) → mm_ok (mm (privateRoomCreate r req n).2).
Proof.
  intros Hok. unfold privateRoomCreate, makeCode. cbn [snd]. rewrite mm_set_mm.
  apply mm_ok_upd; [|by eapply mm_ok_same]. intros g _. done.
Qed.

Lemma mm_ok_unregister r req n : mm_ok (mm n) → mm_ok (mm (unregister r req n)).
Proof.
  intros Hok. unfold unregister. destruct (gatherings (mm n) !! _); [|done].
  case_match; [by apply mm_ok_delete_net|done].
Qed.

Lemma mm_ok_endParticipation r req n : mm_ok (mm n) → mm_ok (mm (endParticipation r req n)).
Proof.
  intros Hok. unfold endParticipation. destruct (gatherings (mm n) !! _) as [g|] eqn:E; [|done].
  case_bool_decide; [by apply mm_ok_delete_net|]. apply mm_ok_upd_net; [|done].
  intros g' Hg' Hok'. simplify_eq. apply g_ok_recount; [by eapply g_ok_removePID|apply Hok'].
Qed.

(** ** Departures *)
Lemma removePID_length l p : (length (removePID l p) =? length l)%nat = negb (containsPID l p).
Proof.
  unfold removePID, containsPID. induction l as [|q l IH]; [by rewrite bool_decide_false by set_solver|].
  destruct (decide (q = p)) as [->|Hne].
  - rewrite filter_cons_False by auto. rewrite bool_decide_true by set_solver. cbn.
    apply Nat.eqb_neq. pose proof (length_filter (λ q, q ≠ p) l). lia.
  - rewrite filter_cons_True by done. cbn [length]. change (S ?a =? S ?b)%nat with (a =? b)%nat.
    rewrite IH. f_equal. apply bool_decide_ext. rewrite elem_of_cons. naive_solver.
Qed.

(** What the departure of [p] leaves of a gathering. *)
Definition survivor (p : Z) (g : gathering) : option gathering :=
  let x := session g in
  let keep x := Some (recount (mkG x (removePID (participants g) p) (hostConnID g) (code g))) in
  if containsPID (participants g) p then
    match removePID (participants g) p with
    | [] => None
    | next :: _ =>
        if ms_OwnerPID x =? p then
          if NotifierDeparts cfg && negb (Z.land (ms_Flags x) 0x10 =? 0)
          then keep (set_identity (ms_ID x) next next x) else None
        else keep x
    end
  else Some g.

Lemma lookup_drop gid c m k :
  gatherings (drop_gathering gid c m) !! k = if decide (k = gid) then None else gatherings m !! k.
Proof.
  unfold drop_gathering. destruct (bool_decide (c = [])); cbn [gatherings set_gatherings set_byCode];
    case_decide; subst; by rewrite ?lookup_delete_eq, ?lookup_delete_ne.
Qed.

Lemma leave_one_lookup p n st e k :
  gatherings (lv_mm st) !! e.1 = Some e.2 →
  gatherings (lv_mm (leave_one cfg p n st e)) !! k =
    if decide (k = e.1) then survivor p e.2 else gatherings (lv_mm st) !! k.
Proof.
  destruct st as [m mig orph prev], e as [gid g]. cbn [fst snd lv_mm]. intros Hg.
  unfold leave_one, survivor. rewrite removePID_length.
  destruct (containsPID (participants g) p); cbn [negb]; [|case_decide; by subst].
  destruct (removePID (participants g) p) as [|next ps]; cbn [lv_mm]; [apply lookup_drop|].
  destruct (ms_OwnerPID (session g) =? p); cbn [andb];
    [destruct (NotifierDeparts cfg), (Z.land (ms_Flags (session g)) 16 =? 0); cbn [negb orb andb lv_mm]|];
    try apply lookup_drop; cbn [lv_mm gatherings set_gatherings]; case_decide; subst;
    by rewrite ?lookup_insert_eq, ?lookup_insert_ne.
Qed.

Lemma RemovePlayer_lookup p n gid :
  p ≠ 0 → gatherings (mm (RemovePlayer cfg p n)) !! gid = gatherings (mm n) !! gid ≫= survivor p.
Proof.
  intros Hp. unfold RemovePlayer. rewrite (proj2 (Z.eqb_neq _ _)) by done.
  cbv zeta. set (n1 := upd_mm (notif_forget p) n).
  set (st := foldl (leave_one cfg p n1) _ _).
  transitivity (gatherings (lv_mm st) !! gid).
  { match goal with |- gatherings (mm ?n') !! _ = _ => assert (quiet (set_mm (lv_mm st) n1) n') as (Hq & _) end;
      [|by rewrite Hq, mm_set_mm].
    etrans; [|apply quiet_foldl; intros; apply quiet_SendNotification].
    destruct (cfg_has_Endpoint cfg); [|done].
    etrans; [|apply quiet_foldl; intros; apply quiet_notify_all].
    apply quiet_foldl; intros; apply quiet_notify_all. }
  pose proof (range_pointwise (λ st, gatherings (lv_mm st)) (leave_one cfg p n1) (λ _, survivor p)
    (mkLeaving (mm n1) [] [] []) (λ st e k, leave_one_lookup p n1 st e k) gid) as Hst.
  cbn [lv_mm] in Hst. fold st in Hst. rewrite Hst. subst n1. by rewrite mm_upd_mm.
Qed.

Lemma mm_ok_pointwise (h : Z → gathering → option gathering) m m' :
  (∀ gid, gatherings m' !! gid = gatherings m !! gid ≫= h gid) →
  (∀ gid g g', h gid g = Some g' → g_ok gid g → g_ok gid g') → mm_ok m → mm_ok m'.
Proof.
  intros Hm Hh Hok gid g' Hg'. rewrite Hm in Hg'.
  destruct (gatherings m !! gid) as [g|] eqn:E; [|done]. eauto.
Qed.

Lemma mm_ok_RemovePlayer p n : mm_ok (mm n) → mm_ok (mm (RemovePlayer cfg p n)).
Proof.
  intros Hok. destruct (decide (p = 0)) as [->|Hp]; [done|].
  apply (mm_ok_pointwise (λ _, survivor p) (mm n)); [intros; by apply RemovePlayer_lookup| |done].
  intros gid g g' Hs Hg. apply (g_ok_removePID _ p) in Hg as Hnd. destruct Hg as (Hg1 & Hg2 & Hid).
  revert Hs. unfold survivor. destruct (containsPID _ _); [|by intros [= <-]].
  destruct (removePID (participants g) p) as [|next ps]; [done|].
  repeat case_match; try done; intros [= <-]; by apply g_ok_recount.
Qed.

(** What [releaseAbandonedSolo] leaves: everything but the other gatherings where [p] is
    alone. *)
Lemma release_lookup p garde m gid :
  p ≠ 0 →
  gatherings (releaseAbandonedSolo p garde m) !! gid =
    gatherings m !! gid ≫= λ g, if (gid =? garde) || negb (bool_decide (participants g = [p])) then Some g else None.
Proof.
  intros Hp. unfold releaseAbandonedSolo. rewrite (proj2 (Z.eqb_neq _ _)) by done.
  apply (range_pointwise gatherings (release_one p garde) (λ gid g,
    if (gid =? garde) || negb (bool_decide (participants g = [p])) then Some g else None)).
  intros m' [k g] k' Hk. cbn [fst snd] in *. unfold release_one. cbn [fst snd].
  destruct (_ || _); [case_decide; by subst|]. exact (lookup_drop k (code g) m' k').
Qed.

(** ** A change of host *)
Lemma FindConnectionByPID_pid q n c : FindConnectionByPID q n = Some c → PID (conn c n) = q.
Proof. intros H. pose proof (FindConnectionByPID_newest q n) as Hc. rewrite H in Hc. apply Hc. Qed.

(** The participant who takes over: the first one, other than [p], who can be reached. *)
Definition taker (p : Z) (n : Net) (ps : list Z) : option (nat * Z) :=
  list_find (λ q, q ≠ p ∧ is_Some (FindConnectionByPID q n)) ps.

(** What becomes of a gathering whose host [p] cannot be reached any more. *)
Definition rehosted (p : Z) (n : Net) (g : gathering) : gathering :=
  let x := session g in
  if negb (ms_HostPID x =? p) && negb (ms_OwnerPID x =? p) then g
  else match taker p n (participants g) with
       | None => g
       | Some (_, q) =>
           match FindConnectionByPID q n with
           | None => g
           | Some c => mkG (set_identity (ms_ID x) q q x) (q :: filter (λ y, y ≠ q) (participants g))
                         (ID (conn c n)) (code g)
           end
       end.

Lemma rehost_one_lookup p n acc e k :
  gatherings acc.1 !! e.1 = Some e.2 →
  gatherings (rehost_one p n acc e).1 !! k =
    if decide (k = e.1) then Some (rehosted p n e.2) else gatherings acc.1 !! k.
Proof.
  destruct acc as [m faits], e as [gid g]. cbn [fst snd]. intros Hg. unfold rehost_one, rehosted, taker.
  assert (gatherings m !! k = if decide (k = gid) then Some g else gatherings m !! k) as Hk
    by (case_decide; by subst).
  destruct (negb _ && negb _); [done|]. destruct (list_find _ (participants g)) as [[i q]|]; [|done].
  destruct (FindConnectionByPID q n) as [c|] eqn:E; [|done]. cbn [fst gatherings set_gatherings].
  rewrite (FindConnectionByPID_pid q n c) by done.
  case_decide; subst; by rewrite ?lookup_insert_eq, ?lookup_insert_ne.
Qed.

Lemma rehost_lookup p n gid :
  p ≠ 0 → cfg_has_Endpoint cfg = true →
  gatherings (mm (MigrerHebergementDepuis cfg p n).2) !! gid = rehosted p n <$> gatherings (mm n) !! gid.
Proof.
  intros Hp He. unfold MigrerHebergementDepuis. rewrite (proj2 (Z.eqb_neq _ _)), He by done. cbn [orb negb].
  pose proof (range_pointwise (λ acc : MM * list departure, gatherings acc.1) (rehost_one p n)
    (λ _ g, Some (rehosted p n g)) (mm n, []) (λ acc e k, rehost_one_lookup p n acc e k) gid) as Hst.
  cbn [fst] in Hst. destruct (foldl _ _ _) as [m faits]. cbn [fst snd] in *.
  lazymatch goal with |- gatherings (mm ?n') !! _ = _ => assert (quiet (set_mm m n) n') as (Hq & _) end.
  { apply quiet_foldl. intros. apply quiet_notify_all. }
  rewrite Hq, mm_set_mm, Hst. by destruct (gatherings (mm n) !! gid).
Qed.

Lemma rehosted_perm p n g : NoDup (participants g) → participants (rehosted p n g) ≡ₚ participants g.
Proof.
  intros Hnd. unfold rehosted. destruct (negb _ && negb _); [done|].
  destruct (taker p n (participants g)) as [[i q]|] eqn:E; [|done].
  destruct (FindConnectionByPID q n); [|done]. cbn [participants].
  unfold taker in E. apply list_find_Some in E as (Hi & _).
  apply list_elem_of_lookup_2 in Hi. revert Hnd Hi. generalize (participants g) as l.
  induction l as [|y l IH]; [by intros _ ?%elem_of_nil|].
  intros [Hy Hnd]%NoDup_cons [->|Hin]%elem_of_cons.
  - rewrite filter_cons_False by auto. by rewrite (filter_id (λ z, z ≠ y) l) by (intros x Hx ->; done).
  - rewrite filter_cons_True by (intros ->; done). rewrite Permutation_swap. by rewrite IH.
Qed.

Lemma mm_ok_rehost p n : mm_ok (mm n) → mm_ok (mm (MigrerHebergementDepuis cfg p n).2).
Proof.
  intros Hok. destruct (decide (p = 0)) as [->|Hp]; [done|].
  destruct (cfg_has_Endpoint cfg) eqn:He;
    [|by unfold MigrerHebergementDepuis; rewrite He, orb_true_r].
  intros gid g' Hg'. rewrite rehost_lookup in Hg' by done.
  apply fmap_Some in Hg' as (g & Hg & ->). apply Hok in Hg as (Hnd & Hn & Hid).
  pose proof (rehosted_perm p n g Hnd) as Hperm. split_and!; [by rewrite Hperm| |];
    unfold zlen; rewrite ?Hperm; unfold rehosted in *; by repeat case_match.
Qed.

(** ** The candidate who becomes the owner *)
Lemma migrate_to_perm cs ps : migrate_to cs ps ≡ₚ ps.
Proof.
  induction cs as [|c cs IH]; [done|]. cbn [migrate_to].
  destruct (list_find _ ps) as [[i q]|] eqn:E; [|done]. destruct ps as [|first ps]; [done|].
  apply list_find_Some in E as (Hi & -> & _).
  etrans; [|apply (swap_perm 0 i); apply lookup_lt_Some in Hi; simpl in *; lia].
  unfold swap. by rewrite (nth_lookup_Some _ _ _ _ Hi).
Qed.

Lemma quiet_delivery b r req n : quiet n (MessageDeliveryHandler b r req n).2.
Proof.
  apply quiet_foldl. intros n' p. unfold relay_one. case_match; [done|]. case_match; [|done].
  unfold quiet. by rewrite mm_SendRMC.
Qed.

Lemma quiet_updateNotificationData r req n : quiet n (updateNotificationData cfg r req n).2.
Proof.
  unfold updateNotificationData. destruct (read_err n req _); [done|].
  destruct (read_body n req _) as [[[t a] b] c]. cbn [snd]. unfold pushNotifDataToFriends.
  destruct (FriendPIDs cfg); [etrans; [|apply quiet_notify_all]|]; unfold quiet; by rewrite mm_upd_mm.
Qed.

Lemma quiet_getFriendNotificationData r req b n : quiet n (getFriendNotificationData cfg r req b n).2.
Proof.
  unfold getFriendNotificationData. cbv zeta. destruct (read_err n req _); [done|]. cbn [snd].
  apply quiet_foldl. intros. apply quiet_SendNotification.
Qed.

(** The tournament handlers change another component. *)
#[local] Set Default Proof Using "Type*".
Context `{HI : !Independent MM tournamentStore App}.
Lemma mm_set_tstore st n : mm (set_tstore st n) = mm n.
Proof. unfold mm, set_tstore. cbn. apply get_other. Qed.

Lemma quiet_createTournament rm rc r req n : quiet n (createTournament rm rc r req n).2.
Proof.
  unfold createTournament. case_match; [done|]. case_match; [done|].
  destruct (CreateTournament _ _ _ _ _ _) as [[t|] st]; cbn [snd]; unfold quiet; by rewrite mm_set_tstore.
Qed.

Lemma quiet_removeTournament r req n : quiet n (removeTournament r req n).2.
Proof.
  unfold removeTournament. cbn [snd]. case_match; [|done]. unfold quiet. by rewrite mm_set_tstore.
Qed.

Lemma quiet_registerTournament r req n : quiet n (registerTournament r req n).2.
Proof.
  unfold registerTournament. cbn [snd]. case_match; [|done]. unfold quiet. by rewrite mm_set_tstore.
Qed.

Lemma quiet_tournamentsByIDs r req n : quiet n (tournamentsByIDs r req n).2.
Proof. unfold tournamentsByIDs. by destruct (rU32 _). Qed.
End facts.

(** ** With the callbacks of the title

    [OnSessionReady] and [OnFriendSessionCreated] belong to the game server: they are assumed
    to leave the gatherings alone. *)
Section steps.
#[local] Set Default Proof Using "Type*".
Context {App : Type} `{HM : !Substate MM App} `{MO : MapOrder}.
#[local] Abbreviation Net := (NetOf App).
Implicit Types (n : Net) (r : Ref) (req : RMCMessage) (m : MM) (g : gathering).
Context (cfg : Config).
Context (OnSessionReady : option (Z → list Z → Net → Net)).
Context (OnFriendSessionCreated : option (Z → Z → Net → Net)).
Hypothesis Hready : ∀ f gid ps n, OnSessionReady = Some f → quiet n (f gid ps n).
Hypothesis Hcreated : ∀ f p gid n, OnFriendSessionCreated = Some f → quiet n (f p gid n).

Lemma quiet_ready gid ps n :
  quiet n (match OnSessionReady with Some f => f gid ps n | None => n end).
Proof.
  assert (∀ o, (∀ f, o = Some f → quiet n (f gid ps n)) →
    quiet n (match o with Some f => f gid ps n | None => n end)) as H by (intros [f|]; auto; done).
  apply H. intros f. by apply Hready.
Qed.

Lemma quiet_notifyParticipation c ps gid j n : quiet n (notifyParticipation cfg OnSessionReady c ps gid j n).
Proof.
  unfold notifyParticipation. etrans; [apply quiet_notify_all|].
  lazymatch goal with |- quiet ?a (match OnSessionReady with Some _ => _ | None => ?b end) =>
    assert (quiet a b) as Hq end.
  { apply quiet_foldl. intros n' x. case_match; [reflexivity|apply quiet_SendNotification]. }
  etrans; [exact Hq|]. apply quiet_ready.
Qed.

Lemma quiet_notifyAfter c ps gid d n : quiet n (notifyParticipationAfter cfg OnSessionReady c ps gid d n).
Proof.
  unfold notifyParticipationAfter. case_match; [apply quiet_notifyParticipation|].
  unfold quiet. by rewrite mm_upd_mm.
Qed.

Lemma quiet_created p gid n :
  quiet n (match OnFriendSessionCreated with Some f => f p gid n | None => n end).
Proof.
  assert (∀ o, (∀ f, o = Some f → quiet n (f p gid n)) →
    quiet n (match o with Some f => f p gid n | None => n end)) as H by (intros [f|]; auto; done).
  apply H. intros f. by apply Hcreated.
Qed.

Lemma mm_ok_after n c ps gid d :
  mm_ok (mm n) → mm_ok (mm (notifyParticipationAfter cfg OnSessionReady c ps gid d n)).
Proof. apply mm_ok_quiet, quiet_notifyAfter. Qed.

Lemma mm_ok_autoMatchmake rnd r req n :
  mm_ok (mm n) → mm_ok (mm (autoMatchmake cfg rnd OnSessionReady r req n).2).
Proof.
  intros Hok. unfold autoMatchmake. destruct (read_err n req _) as [|]; [done|].
  set (param := read_body n req _).
  lazymatch goal with |- context [let '(gid, m) := ?pick in _] =>
    assert (mm_ok (upd_gathering pick.1 recount pick.2)) as Hm; [|destruct pick as [gid m]] end.
  { destruct (choose_lobby cfg param r n) as [gid|]; cbn [fst snd].
    - rewrite upd_upd_gathering. apply mm_ok_upd; [|done]. intros. by apply g_ok_join.
    - destruct (create_for cfg rnd (Session param) r n) as [gid m] eqn:E.
      assert (mm_ok m) by by eapply mm_ok_create_for.
      cbn [fst snd]. case_match; rewrite ?upd_upd_gathering; apply mm_ok_upd; try done;
        intros g _ (Hnd & _ & Hid); by apply g_ok_recount. }
  cbn [fst snd] in Hm. destruct (gatherings (upd_gathering gid recount m) !! gid) as [g|]; cbn [snd].
  - by apply mm_ok_after, mm_ok_set_mm.
  - by apply mm_ok_set_mm.
Qed.

Lemma mm_ok_createSession rnd r req n :
  mm_ok (mm n) → mm_ok (mm (createSession cfg rnd OnSessionReady OnFriendSessionCreated r req n).2).
Proof.
  intros Hok. unfold createSession. destruct (read_err n req _) as [|]; [done|].
  set (src := Session _). destruct (create_for cfg rnd src r n) as [gid m] eqn:E.
  assert (mm_ok m) as Hm by by eapply mm_ok_create_for.
  set (m' := if NormalizeCreateSessionRV cfg then _ else _).
  assert (mm_ok m') as Hm'.
  { unfold m'. case_match; [|done]. apply mm_ok_upd; [|done]. intros. by apply g_ok_normalize. }
  destruct (gatherings m' !! gid); cbn [snd]; [|by apply mm_ok_set_mm].
  apply mm_ok_after. eapply mm_ok_quiet; [apply quiet_created|by apply mm_ok_set_mm].
Qed.

Lemma mm_ok_joinSession r req n :
  mm_ok (mm n) → mm_ok (mm (joinSession cfg OnSessionReady r req n).2).
Proof.
  intros Hok. unfold joinSession. destruct (gatherings (mm n) !! _) as [g|] eqn:E; [|done].
  case_match; [done|]. cbn [snd].
  lazymatch goal with |- context [upd_mm ?f n] => assert (mm_ok (mm (upd_mm f n))) as Hm end.
  { rewrite mm_upd_mm. apply mm_ok_upd; [|done]. intros g' Hg'. simplify_eq. apply g_ok_join. }
  case_match; [by apply mm_ok_after|done].
Qed.

Lemma mm_ok_migrate r req b n :
  mm_ok (mm n) → mm_ok (mm (migrateGatheringOwnership cfg OnSessionReady r req b n).2).
Proof.
  intros Hok. unfold migrateGatheringOwnership. destruct (read_body n req _) as [gid cs]. cbn [snd].
  destruct (gatherings (mm n) !! gid) as [g|] eqn:E; [|done]. case_bool_decide; [done|].
  eapply mm_ok_quiet; [apply quiet_notifyParticipation|]. apply mm_ok_upd_net; [|done].
  intros g' Hg' (Hnd & Hn & Hid). simplify_eq. pose proof (migrate_to_perm cs (participants g')) as Hp.
  split_and!; cbn [participants session set_participants]; unfold zlen; by rewrite ?Hp.
Qed.

Lemma mm_ok_timer i n : mm_ok (mm n) → mm_ok (mm (fire_timer cfg OnSessionReady i n)).
Proof.
  intros Hok. unfold fire_timer. destruct (timers (mm n) !! i) as [t|]; [|done].
  assert (mm_ok (mm (upd_mm (λ m, set_timers (delete i (timers m)) m) n))) as Hm
    by (apply mm_ok_upd_mm; by eapply mm_ok_same).
  destruct (gatherings _ !! _); [|done]. case_match; [done|].
  eapply mm_ok_quiet; [apply quiet_notifyParticipation|done].
Qed.

(** *** The dispatch, and every reachable state *)
Context `{HT : !Substate tournamentStore App} `{HI : !Independent MM tournamentStore App}.
Context (rnd32 rnd_mark rnd_code : Net → bytes) (relaiInclutSource : bool).

Lemma quiet_lookup_handlers r req n :
  (findBySingleID r req n).2 = n ∧ (findByGatheringIDDetail r req n).2 = n ∧
  (resolveCode r req n).2 = n ∧ (playingSession r req n).2 = n ∧
  (findByParticipant cfg r req n).2 = n ∧ (findByGidList r req n).2 = n ∧
  (browseNoHolder r req n).2 = n ∧ (searchTournaments r req n).2 = n.
Proof using Type.
  unfold findBySingleID, findByGatheringIDDetail, playingSession.
  destruct (read_body n req (read! l := ReadList rPID in _)). split_and!; try done; by case_match.
Qed.

Lemma mm_ok_ExtensionHandler r req n res :
  ExtensionHandler cfg rnd32 rnd_mark rnd_code OnSessionReady OnFriendSessionCreated r req n = Some res →
  mm_ok (mm n) → mm_ok (mm res.2).
Proof.
  intros H Hok. revert H. unfold ExtensionHandler.
  destruct (quiet_lookup_handlers r req n) as (E1 & E2 & E3 & E4 & E5 & E6 & E7 & E8).
  repeat lazymatch goal with
  | |- (if ?b then modifyCurrentGameAttribute _ _ _ else _) = _ → _ =>
      destruct b; [intros H'; by eapply mm_ok_modify|]
  | |- (if ?b then _ else _) = _ → _ =>
      destruct b; [intros [= <-]; try case_match; rewrite ?E1, ?E2, ?E3, ?E4, ?E5, ?E6, ?E7, ?E8;
        first [ done
              | solve [auto using mm_ok_setParticipation, mm_ok_autoMatchmake, mm_ok_createSession,
                mm_ok_joinSession, mm_ok_privateRoomCreate, mm_ok_updateSessionPart,
                mm_ok_updateApplicationBuffer, mm_ok_updateAttribs]
              | eapply mm_ok_quiet, Hok; auto using quiet_updateNotificationData,
                quiet_getFriendNotificationData, quiet_tournamentsByIDs, quiet_createTournament,
                quiet_removeTournament, quiet_registerTournament ] |]
  end.
  by intros [= <-].
Qed.

Lemma mm_ok_step n n' :
  mm_step cfg rnd32 rnd_mark rnd_code OnSessionReady OnFriendSessionCreated relaiInclutSource n n' →
  mm_ok (mm n) → mm_ok (mm n').
Proof.
  intros [r req resp n1 H|r req|r req|r req b|r req|i|p|p|n1 H] Hok.
  - by apply (mm_ok_ExtensionHandler r req n (resp, n1)).
  - unfold MatchMakingExtHandler. case_match; [by apply mm_ok_endParticipation|done].
  - by apply mm_ok_unregister.
  - by apply mm_ok_migrate.
  - eapply mm_ok_quiet, Hok. apply quiet_delivery.
  - by apply mm_ok_timer.
  - by apply mm_ok_RemovePlayer.
  - by apply mm_ok_rehost.
  - by rewrite H.
Qed.
End steps.

(** ** The lobby AutoMatchmake looks for *)
Section search.
Context {App : Type} `{HM : !Substate MM App} `{MO : MapOrder}.
#[local] Abbreviation Net := (NetOf App).
Implicit Types (n : Net) (r : Ref) (g : gathering).
Context (cfg : Config).

(** The lobby suits the search: same mode, open, password compatible, not full, the search
    criteria when the title honours them, and nobody in it whose NAT cannot reach the
    player's. *)
Definition suits (param : AutoMatchmakeParam) (r : Ref) (n : Net) (g : gathering) : Prop :=
  GameMode (session g) = GameMode (Session param) ∧
  OpenParticipation (session g) = true ∧
  motDePasseCompatible (session g) (Session param) = true ∧
  u16 (zlen (participants g)) < ms_MaxParticipants (session g) ∧
  (UseSearchCriteria cfg = true → criteriaAccept (Criteria param) (session g) (zlen (participants g)) = true) ∧
  (∀ p, p ∈ participants g → p ≠ PID (conn r n) → natCompatible (conn_class r n) (pidNATClass p n) = true).

Definition owner_there (n : Net) (g : gathering) : Prop :=
  is_Some (FindConnectionByPID (ms_OwnerPID (session g)) n).

Lemma candidate_suits param r n g :
  candidate cfg param (conn_class r n) (PID (conn r n)) n g = true ↔ suits param r n g.
Proof.
  unfold candidate, lobby_open, gatheringNATCompatible, suits.
  rewrite !andb_true_iff, orb_true_iff, negb_true_iff, Z.eqb_eq, Z.ltb_lt, forallb_forall.
  assert ((∀ p, In p (participants g) →
            (p =? PID (conn r n)) || natCompatible (conn_class r n) (pidNATClass p n) = true) ↔
          (∀ p, p ∈ participants g → p ≠ PID (conn r n) →
            natCompatible (conn_class r n) (pidNATClass p n) = true)) as ->.
  { apply forall_proper. intros p. rewrite list_elem_of_In, orb_true_iff, Z.eqb_eq.
    destruct (decide (p = PID (conn r n))); naive_solver. }
  destruct (UseSearchCriteria cfg); naive_solver.
Qed.

Lemma find_lobby_spec param r n l repli :
  match find_lobby cfg param (conn_class r n) (PID (conn r n)) n l repli with
  | (Some gid, _) => ∃ g, (gid, g) ∈ l ∧ suits param r n g ∧ owner_there n g
  | (None, repli') =>
      (∀ gid g, (gid, g) ∈ l → suits param r n g → ¬ owner_there n g) ∧
      (repli' = repli ∧ (repli = None → ∀ gid g, (gid, g) ∈ l → ¬ suits param r n g) ∨
       repli = None ∧ ∃ gid g, repli' = Some gid ∧ (gid, g) ∈ l ∧ suits param r n g)
  end.
Proof.
  revert repli. induction l as [|[gid g] l IH]; intros repli; cbn [find_lobby].
  { split; [by intros ?? ?%elem_of_nil|]. left. split; [done|]. by intros _ ?? ?%elem_of_nil. }
  destruct (candidate _ _ _ _ _ g) eqn:Ec.
  - apply candidate_suits in Ec. destruct (FindConnectionByPID (ms_OwnerPID (session g)) n) as [c|] eqn:Eo.
    { exists g. split_and!; [by left|done|]. unfold owner_there. by rewrite Eo. }
    assert (¬ owner_there n g) by (unfold owner_there; rewrite Eo; by intros []%is_Some_None).
    specialize (IH (match repli with None => Some gid | _ => repli end)).
    destruct (find_lobby _ _ _ _ _ l _) as [[gid'|] repli'].
    + destruct IH as (g' & Hin & Hs). exists g'. split; [by right|done].
    + destruct IH as (Hno & Hr). split; [by intros gid' g' [[= -> ->]|?]%elem_of_cons; eauto|].
      destruct repli; [left; destruct Hr as [[-> _]|[? _]]; done|]. right. split; [done|].
      destruct Hr as [[-> _]|[? _]]; [|done]. exists gid, g. split_and!; [done|by left|done].
  - assert (¬ suits param r n g) by (rewrite <- candidate_suits, Ec; done).
    specialize (IH repli). destruct (find_lobby _ _ _ _ _ l _) as [[gid'|] repli'].
    + destruct IH as (g' & Hin & Hs). exists g'. split; [by right|done].
    + destruct IH as (Hno & Hr). split; [by intros gid' g' [[= -> ->]|?]%elem_of_cons; eauto|].
      destruct Hr as [[-> Hr]|(-> & gid' & g' & ? & ? & ?)].
      * left. split; [done|]. intros Hn gid' g' [[= -> ->]|?]%elem_of_cons; [done|eauto].
      * right. split; [done|]. exists gid', g'. split_and!; [done|by right|done].
Qed.

Lemma choose_lobby_suits param r n gid :
  choose_lobby cfg param r n = Some gid → ∃ g, gatherings (mm n) !! gid = Some g ∧ suits param r n g.
Proof.
  unfold choose_lobby. destruct (isSoloPID _ _); [done|].
  pose proof (find_lobby_spec param r n (range (gatherings (mm n))) None) as H.
  destruct (find_lobby _ _ _ _ _ _ None) as [[gid'|] repli]; intros [= <-] || intros ->.
  - destruct H as (g & Hin%elem_of_range & Hs & _). by exists g.
  - destruct H as (_ & [[? _]|(_ & gid' & g & [= ->] & Hin%elem_of_range & Hs)]); [done|by exists g].
Qed.
End search.
