(* ===== verification/Lobby.v ===== *)
(** * The lobbies, abstractly

    What the matchmaker promises about its lobbies, as a machine small enough to be read at
    once: numbered rooms with their players, their owner, the host that stood for them and their
    capacity, and the moves one player may make.  The process is proved to run this machine
    (ProcessProps.v); what the machine keeps, it keeps. *)

From S2P Require Export MatchFacts.

Record room := mkRoom { members : list Z; owner : Z; host : Z; limit : Z }.
Record hall := mkHall { rooms : gmap Z room; next_room : Z }.

Definition with_members (l : list Z) (x : room) : room := mkRoom l (owner x) (host x) (limit x).
(** The count is kept in 16 bits; a capacity of 0 is none. *)
Definition full (x : room) : bool := (0 <? limit x) && (limit x <=? u16 (zlen (members x))).

(** The hall on the way from [h] to [h'], when the rooms [ks] are done. *)
Section half_way.
Context (h h' : hall).
Definition half_way (ks : list Z) : gmap Z room :=
  foldr (λ k m, partial_alter (λ _, rooms h' !! k) k m) (rooms h) ks.

Lemma half_way_lookup ks k : half_way ks !! k = if decide (k ∈ ks) then rooms h' !! k else rooms h !! k.
Proof.
  induction ks as [|y ks IH]; [by rewrite decide_False by set_solver|].
  change (half_way (y :: ks)) with (partial_alter (λ _, rooms h' !! y) y (half_way ks)).
  destruct (decide (k = y)) as [->|Hne].
  - rewrite lookup_partial_alter_eq. by rewrite decide_True by set_solver.
  - rewrite lookup_partial_alter_ne by done. rewrite IH. by apply decide_ext; set_solver.
Qed.
End half_way.

(** ** The machine

    The moves of player [p], where [here] says who has a connection. *)
Section machine.
Context (here : Z → bool) (p : Z).

Inductive room_step (x : room) : option room → Prop :=
  | rm_join : p ∉ members x → full x = false → room_step x (Some (with_members (members x ++ [p]) x))
  | rm_leave : room_step x (Some (with_members (removePID (members x) p) x))
  (* The owner leaves, the room is another member's. *)
  | rm_bequeath q : owner x = p → q ∈ members x → q ≠ p →
      room_step x (Some (mkRoom (removePID (members x) p) q q (limit x)))
  (* Those without a connection are taken off the list. *)
  | rm_sweep : room_step x (Some (with_members (filter (λ q, q = p ∨ here q = true) (members x)) x))
  | rm_rearrange l : l ≡ₚ members x → room_step x (Some (with_members l x))
  (* A member who can be reached takes over from an owner or a host who cannot. *)
  | rm_relieve q : owner x = p ∨ host x = p → q ∈ members x → q ≠ p → here q = true →
      room_step x (Some (mkRoom (q :: filter (λ y, y ≠ q) (members x)) q q (limit x)))
  | rm_resize v : room_step x (Some (mkRoom (members x) (owner x) (host x) v))
  | rm_close : owner x = p ∨ (∀ q, q ∈ members x → q = p) → room_step x None.

Definition room_move (o o' : option room) : Prop := ∃ x, o = Some x ∧ room_step x o'.
Definition room_run (x : room) (o : option room) : Prop := rtc room_move (Some x) o.

Inductive hall_move (h : hall) : hall → Prop :=
  | hl_room gid x o : rooms h !! gid = Some x → room_step x o →
      hall_move h (mkHall (partial_alter (λ _, o) gid (rooms h)) (next_room h)).
Definition moves : hall → hall → Prop := rtc hall_move.

(** A new room, under the next number: in 32 bits, so that after 2^32 rooms it may be the
    number of a room that stands. *)
Definition opened (v : Z) (h : hall) : hall :=
  mkHall (<[next_room h := mkRoom [p] p p v]> (rooms h)) (u32 (next_room h + 1)).

(** What one request of [p] comes to: moves, and at most one new room. *)
Inductive turn (h h' : hall) : Prop :=
  | turn_moves : moves h h' → turn h h'
  | turn_open v h1 : moves h h1 → moves (opened v h1) h' → turn h h'.

(** ** Runs *)
Lemma room_once x o : room_step x o → room_run x o.
Proof. intros H. apply rtc_once. by exists x. Qed.
Lemma room_stay x : room_run x (Some x).
Proof. apply rtc_refl. Qed.

Lemma hall_eq h h' : rooms h = rooms h' → next_room h = next_room h' → h = h'.
Proof. destruct h, h'. cbn. congruence. Qed.

(** A run of one room is a run of the hall. *)
Lemma hall_in_room h gid x o :
  rooms h !! gid = Some x → room_run x o →
  moves h (mkHall (partial_alter (λ _, o) gid (rooms h)) (next_room h)).
Proof.
  intros Hx Hr. assert (∀ a, rtc room_move a o → rooms h !! gid = a →
    moves h (mkHall (partial_alter (λ _, o) gid (rooms h)) (next_room h))) as H; [|by eapply H].
  clear Hx Hr x. intros a Hr. revert h. induction Hr as [o|a b o (x & -> & Hs) _ IH]; intros h Ha.
  - replace (mkHall _ _) with h; [apply rtc_refl|]. destruct h as [m k]. apply hall_eq; [|done]. cbn in *. subst.
    symmetry. by apply partial_alter_id.
  - eapply rtc_l; [by eapply hl_room|]. specialize (IH (mkHall (partial_alter (λ _, b) gid (rooms h)) (next_room h))).
    cbn [rooms next_room] in IH. rewrite lookup_partial_alter_eq in IH. specialize (IH eq_refl).
    by rewrite partial_alter_partial_alter_eq in IH.
Qed.

(** Rooms that each make a run of their own, together. *)
Section together.
Context (h h' : hall).
Hypothesis Hnext : next_room h' = next_room h.
Hypothesis Hrooms : ∀ gid,
  match rooms h !! gid with Some x => room_run x (rooms h' !! gid) | None => rooms h' !! gid = None end.

Lemma half_way_run ks : NoDup ks → moves h (mkHall (half_way h h' ks) (next_room h)).
Proof using All.
  induction ks as [|k ks IH]; intros Hnd; [replace (mkHall _ _) with h; [apply rtc_refl|by destruct h]|].
  apply NoDup_cons in Hnd as [Hk Hnd]. etrans; [by apply IH|]. specialize (Hrooms k).
  pose proof (half_way_lookup h h' ks k) as Hl. rewrite decide_False in Hl by done.
  destruct (rooms h !! k) as [x|] eqn:E.
  - by apply (hall_in_room (mkHall (half_way h h' ks) (next_room h)) k x).
  - replace (half_way h h' (k :: ks)) with (half_way h h' ks); [apply rtc_refl|]. symmetry.
    apply partial_alter_id. by rewrite Hl, Hrooms.
Qed.

Lemma hall_together : moves h h'.
Proof using All.
  replace h' with (mkHall (half_way h h' (elements (dom (rooms h)))) (next_room h)); [apply half_way_run, NoDup_elements|].
  apply hall_eq; [|done]. apply map_eq. intros k. cbn [rooms]. rewrite half_way_lookup.
  case_decide as Hk; [done|]. rewrite elem_of_elements, not_elem_of_dom in Hk. specialize (Hrooms k).
  rewrite Hk in *. done.
Qed.
End together.

#[export] Instance moves_preorder : PreOrder moves.
Proof. apply rtc_po. Qed.

(** Moves before and after a turn are part of it. *)
Lemma turn_refl h : turn h h.
Proof. apply turn_moves, rtc_refl. Qed.
Lemma turn_r h h1 h' : turn h h1 → moves h1 h' → turn h h'.
Proof.
  intros [Hm|v k Hm Hm'] H.
  - apply turn_moves. by etrans.
  - eapply turn_open; [done|]. by etrans.
Qed.
Lemma turn_l h h1 h' : moves h h1 → turn h1 h' → turn h h'.
Proof.
  intros H [Hm|v k Hm Hm'].
  - apply turn_moves. by etrans.
  - eapply turn_open; [|done]. by etrans.
Qed.
End machine.


(** The machine looks at the connections through [here] alone. *)
Lemma room_step_here here here' p x o :
  (∀ q, here q = here' q) → room_step here p x o → room_step here' p x o.
Proof.
  intros E []; try by econstructor.
  - replace (filter _ (members x)) with (filter (λ q, q = p ∨ here' q = true) (members x)); [constructor|].
    apply list_filter_iff. intros q. by rewrite E.
  - apply rm_relieve; [done..|]. by rewrite <- E.
Qed.

Lemma moves_here here here' p h h' : (∀ q, here q = here' q) → moves here p h h' → moves here' p h h'.
Proof.
  intros E. apply rtc_subrel. intros a b [gid x o Hx Hs].
  eapply hl_room; [done|]. by eapply room_step_here.
Qed.
Lemma turn_here here here' p h h' : (∀ q, here q = here' q) → turn here p h h' → turn here' p h h'.
Proof.
  intros E [Hm|v h1 H1 H2]; [apply turn_moves|eapply turn_open]; by eapply moves_here.
Qed.

(** ** What the machine keeps *)
Section kept.
Context (here : Z → bool) (p : Z).

Lemma moves_invariant (I : hall → Prop) :
  (∀ h h', hall_move here p h h' → I h → I h') → ∀ h h', moves here p h h' → I h → I h'.
Proof. intros Hs h h' Hr. induction Hr; eauto. Qed.

Lemma turn_invariant (I : hall → Prop) :
  (∀ h h', hall_move here p h h' → I h → I h') → (∀ h v, I h → I (opened p v h)) →
  ∀ h h', turn here p h h' → I h → I h'.
Proof.
  intros Hs Ho h h' [Hm|v h1 H1 H2] Hh; [by eapply moves_invariant|].
  eapply moves_invariant; [done|exact H2|]. apply Ho. by eapply moves_invariant.
Qed.

(** What holds of every room, once it holds of a new one and every move keeps it. *)
Lemma rooms_invariant (P : Z → room → Prop) :
  (∀ gid x x', room_step here p x (Some x') → P gid x → P gid x') →
  (∀ gid v, P gid (mkRoom [p] p p v)) →
  ∀ h h', turn here p h h' → map_Forall P (rooms h) → map_Forall P (rooms h').
Proof.
  intros Hs Ho. apply (turn_invariant (λ h, map_Forall P (rooms h))).
  - intros h h' [gid x o Hx Hr] Hp k y. cbn [rooms]. destruct (decide (k = gid)) as [->|Hne].
    + rewrite lookup_partial_alter_eq. intros ->. eauto.
    + rewrite lookup_partial_alter_ne by done. apply Hp.
  - intros h v Hp. by apply map_Forall_insert_2.
Qed.

(** Nobody is entered but [p]. *)
Lemma room_step_members x x' q :
  room_step here p x (Some x') → q ∈ members x' → q = p ∨ q ∈ members x.
Proof.
  intros Hs. inversion Hs as [| | | | | | |]; subst; cbn; unfold removePID;
    rewrite ?elem_of_app, ?elem_of_cons, ?list_elem_of_filter, ?elem_of_nil; try tauto.
  - match goal with H : _ ≡ₚ _ |- _ => rewrite H end. tauto.
  - intros [->|[_ H']]; tauto.
Qed.

Lemma hall_members (R : Z → Prop) h h' :
  R p → turn here p h h' →
  map_Forall (λ _ x, ∀ q, q ∈ members x → R q) (rooms h) → map_Forall (λ _ x, ∀ q, q ∈ members x → R q) (rooms h').
Proof.
  intros Hp. apply rooms_invariant.
  - intros _ x x' Hs Hx q [->|Hq]%(room_step_members x x' q Hs); auto.
  - intros _ v q. cbn. by intros ->%list_elem_of_singleton.
Qed.

(** Whoever has a connection stays in a room that stands, unless they leave or the owner
    closes it. *)
Definition stays q gid h : Prop := ∃ x, rooms h !! gid = Some x ∧ q ∈ members x ∧ owner x ≠ p.

Lemma room_stays q x o :
  q ≠ p → here q = true → room_step here p x o → q ∈ members x → owner x ≠ p →
  ∃ x', o = Some x' ∧ q ∈ members x' ∧ owner x' ≠ p.
Proof.
  intros Hqp Hq Hs Hin Hown. destruct Hs as [| |?|  |l Hl|z ? ? ? ?|?|[?|Hp]]; [..|done|by apply Hp in Hin];
    (eexists; split; [reflexivity|]); cbn; unfold removePID; rewrite ?elem_of_app, ?elem_of_cons, ?list_elem_of_filter; try tauto.
  - by rewrite Hl.
  - destruct (decide (q = z)) as [->|]; tauto.
Qed.

Lemma moves_stays q gid h h' :
  q ≠ p → here q = true → moves here p h h' → stays q gid h → stays q gid h'.
Proof.
  intros Hqp Hq. apply (moves_invariant (stays q gid)). intros a b [k x o Hx Hs] (x' & Hx' & Hin & Hown).
  unfold stays. cbn [rooms]. destruct (decide (gid = k)) as [->|Hne]; [|rewrite lookup_partial_alter_ne by done; by exists x'].
  rewrite lookup_partial_alter_eq. assert (x' = x) as -> by congruence. by eapply room_stays.
Qed.

Lemma moves_next h h' : moves here p h h' → next_room h' = next_room h.
Proof. intros Hm. apply (moves_invariant (λ k, next_room k = next_room h)) in Hm; [done| |done]. by intros a b []. Qed.

Lemma turn_stays q gid h h' :
  q ≠ p → here q = true → gid ≠ next_room h → turn here p h h' → stays q gid h → stays q gid h'.
Proof.
  intros Hqp Hq Hne [Hm|v h1 H1 H2] Hs; [by eapply moves_stays|]. eapply moves_stays; [done..|].
  apply (moves_stays q gid h h1) in Hs as (x & Hx & Hin & Hown); [|done..]. exists x. split_and!; [|done..].
  cbn. by rewrite lookup_insert_ne by (rewrite (moves_next h h1 H1); congruence).
Qed.

(** Numbers are handed out in order: while they have not run out, a room that stands has a
    number below the next one. *)
Definition numbered (h : hall) : Prop := ∀ gid, is_Some (rooms h !! gid) → 0 < gid < next_room h.

Lemma turn_numbered h h' : 0 < next_room h < 2 ^ 32 - 1 → turn here p h h' → numbered h → numbered h' ∧ 0 < next_room h'.
Proof.
  assert (∀ a b, moves here p a b → numbered a → numbered b) as Hmv.
  { apply (moves_invariant numbered). intros a b [k x o Hx _] Ha gid [y Hy]. cbn in *.
    destruct (decide (gid = k)) as [->|Hne]; [apply Ha; by eexists|].
    rewrite lookup_partial_alter_ne in Hy by done. apply Ha. by eexists. }
  intros Hb [Hm|v h1 H1 H2] Hh.
  - split; [by eapply Hmv|]. rewrite (moves_next _ _ Hm). lia.
  - rewrite (moves_next _ _ H2). cbn [next_room opened]. rewrite (moves_next _ _ H1).
    rewrite wrap_small by (unfold is_u; lia). split; [|lia]. apply (Hmv _ _ H2). intros gid [y Hy]. cbn in *.
    rewrite (moves_next _ _ H1) in *. rewrite wrap_small by (unfold is_u; lia).
    destruct (decide (gid = next_room h)) as [->|Hne]; [lia|]. rewrite lookup_insert_ne in Hy by done.
    pose proof (Hmv _ _ H1 Hh gid ltac:(by eexists)) as Hg. rewrite (moves_next _ _ H1) in Hg. lia.
Qed.
End kept.

(** ** The matchmaker's store as a hall *)
Definition room_of (g : gathering) : room :=
  mkRoom (participants g) (ms_OwnerPID (session g)) (ms_HostPID (session g)) (ms_MaxParticipants (session g)).
Definition hall_of (m : MM) : hall := mkHall (room_of <$> gatherings m) (nextGID m).

Lemma hall_room m gid : rooms (hall_of m) !! gid = room_of <$> gatherings m !! gid.
Proof. apply lookup_fmap. Qed.

Lemma hall_of_same m m' :
  gatherings m' = gatherings m → nextGID m' = nextGID m → hall_of m' = hall_of m.
Proof. unfold hall_of. by intros -> ->. Qed.

Lemma hall_of_run here p m m' :
  nextGID m' = nextGID m →
  (∀ gid, match gatherings m !! gid with
          | Some g => room_run here p (room_of g) (room_of <$> gatherings m' !! gid)
          | None => gatherings m' !! gid = None
          end) →
  moves here p (hall_of m) (hall_of m').
Proof.
  intros Hn Hr. apply hall_together; [done|]. intros gid. cbn [hall_of rooms]. rewrite !lookup_fmap.
  specialize (Hr gid). destruct (gatherings m !! gid) as [g|]; [done|]. cbn. by rewrite Hr.
Qed.

#[export] Hint Resolve room_stay room_once : nex.
