(* ===== verification/Process.v ===== *)
(** * The game server's process

    The package is a library: a title's server makes an endpoint, gives it the handlers of the
    protocols the title speaks and the callbacks it wants, and opens the transport.  Here are
    the state of such a process, the handlers the package has for it, what the title must
    promise of its own code, and the steps the process takes: whatever arrives on whatever
    connection, the goroutines, the timers, the waiting joiners, the reaper. *)

From S2P Require Export Frame Lobby SessionURLs Stations Utility Ranking Ranking2 Referee DataStore.

(** ** The state *)
Record Process (Game : Type) := mkProcess {
  p_mm : MM;
  p_tournaments : tournamentStore;
  p_nat : NatState;
  p_rank : RankState;
  p_rank2 : Ranking2Store;
  p_referee : RefereeState;
  p_smm2 : SMM2State;
  p_game : Game
}.
Arguments mkProcess {Game}.
Arguments p_mm {Game}.
Arguments p_tournaments {Game}.
Arguments p_nat {Game}.
Arguments p_rank {Game}.
Arguments p_rank2 {Game}.
Arguments p_referee {Game}.
Arguments p_smm2 {Game}.
Arguments p_game {Game}.

Section substates.
Context {G : Type}.
#[local] Abbreviation P := (Process G).
#[local] Obligation Tactic := by intros; repeat match goal with p : Process _ |- _ => destruct p end.

#[export] Program Instance Substate_mm : Substate MM P := {| get := p_mm; put := λ x p,
  mkProcess x (p_tournaments p) (p_nat p) (p_rank p) (p_rank2 p) (p_referee p) (p_smm2 p) (p_game p) |}.
#[export] Program Instance Substate_tournaments : Substate tournamentStore P := {| get := p_tournaments; put := λ x p,
  mkProcess (p_mm p) x (p_nat p) (p_rank p) (p_rank2 p) (p_referee p) (p_smm2 p) (p_game p) |}.
#[export] Program Instance Substate_nat : Substate NatState P := {| get := p_nat; put := λ x p,
  mkProcess (p_mm p) (p_tournaments p) x (p_rank p) (p_rank2 p) (p_referee p) (p_smm2 p) (p_game p) |}.
#[export] Program Instance Substate_rank : Substate RankState P := {| get := p_rank; put := λ x p,
  mkProcess (p_mm p) (p_tournaments p) (p_nat p) x (p_rank2 p) (p_referee p) (p_smm2 p) (p_game p) |}.
#[export] Program Instance Substate_rank2 : Substate Ranking2Store P := {| get := p_rank2; put := λ x p,
  mkProcess (p_mm p) (p_tournaments p) (p_nat p) (p_rank p) x (p_referee p) (p_smm2 p) (p_game p) |}.
#[export] Program Instance Substate_referee : Substate RefereeState P := {| get := p_referee; put := λ x p,
  mkProcess (p_mm p) (p_tournaments p) (p_nat p) (p_rank p) (p_rank2 p) x (p_smm2 p) (p_game p) |}.
#[export] Program Instance Substate_smm2 : Substate SMM2State P := {| get := p_smm2; put := λ x p,
  mkProcess (p_mm p) (p_tournaments p) (p_nat p) (p_rank p) (p_rank2 p) (p_referee p) x (p_game p) |}.

#[export] Instance Independent_tournaments : Independent MM tournamentStore P.
Proof. done. Qed.
#[export] Instance Independent_nat : Independent MM NatState P.
Proof. done. Qed.
#[export] Instance Independent_rank : Independent MM RankState P.
Proof. done. Qed.
#[export] Instance Independent_rank2 : Independent MM Ranking2Store P.
Proof. done. Qed.
#[export] Instance Independent_referee : Independent MM RefereeState P.
Proof. done. Qed.
#[export] Instance Independent_smm2 : Independent MM SMM2State P.
Proof. done. Qed.
End substates.

(** ** What code that is not the matchmaker's may do

    It stays inside the frame and leaves the gatherings alone. *)
Definition idle {App} `{HM : !Substate MM App} (n n' : NetOf App) : Prop := frame n n' ∧ quiet n n'.

#[export] Instance idle_preorder {App} `{HM : !Substate MM App} : PreOrder (@idle App HM).
Proof. split; [by split|]. intros a b c [] []. split; by etrans. Qed.

(** ** Who the matchmaker may list *)
Definition listed (q : Z) (m : MM) : Prop := ∃ gid g, gatherings m !! gid = Some g ∧ q ∈ participants g.

(** What a request of player [p] may do: stay inside the frame, keep the gatherings
    well-formed, and move [p] through the lobbies by the rules of Lobby.v. *)
Definition here {App} `{MO : MapOrder} (n : NetOf App) (q : Z) : bool :=
  bool_decide (is_Some (FindConnectionByPID q n)).

Record touches {App} `{HM : !Substate MM App} `{MO : MapOrder} (p : Z) (n n' : NetOf App) : Prop := mkTouches {
  t_frame : frame n n';
  t_ok : mm_ok (mm n) → mm_ok (mm n');
  t_lobby : turn (here n) p (hall_of (mm n)) (hall_of (mm n'))
}.

Section touches.
Context {App : Type} `{HM : !Substate MM App} `{MO : MapOrder}.
Implicit Types (n : NetOf App).

Lemma here_frame n n' q : frame n n' → here n' q = here n q.
Proof. intros F. unfold here. by rewrite (FindConnectionByPID_frame q _ _ F). Qed.

#[export] Instance touches_refl p : Reflexive (@touches App HM MO p).
Proof. intros n. split; [done|auto|apply turn_refl]. Qed.

Lemma hall_of_quiet n n' : quiet n n' → hall_of (mm n') = hall_of (mm n).
Proof. intros (Hg & _ & Hn). by apply hall_of_same. Qed.

(** What is idle may come before and after. *)
Lemma touches_idle p a b c : touches p a b → idle b c → touches p a c.
Proof.
  intros [F O L] [F' Q]. split; [by etrans|intros Ha; apply (mm_ok_same (mm b)); [apply Q|auto]|].
  by rewrite (hall_of_quiet b c).
Qed.
Lemma idle_touches p n n' : idle n n' → touches p n n'.
Proof. apply touches_idle. done. Qed.

(** Whoever a turn lists is the player it is about, or was listed. *)
Lemma hall_listed H p m m' q : turn H p (hall_of m) (hall_of m') → listed q m' → q = p ∨ listed q m.
Proof.
  intros Hr (gid & g & Hg & Hq).
  assert (map_Forall (λ _ x, ∀ q, q ∈ members x → q = p ∨ listed q m) (rooms (hall_of m'))) as Hall.
  { eapply hall_members; [by left|exact Hr|]. intros k x Hk y Hy. cbn in Hk. rewrite lookup_fmap in Hk.
    apply fmap_Some in Hk as (g' & Hg' & ->). right. by exists k, g'. }
  apply (Hall gid (room_of g)); [|done]. cbn. by rewrite lookup_fmap, Hg.
Qed.

Lemma t_listed p n n' : touches p n n' → ∀ q, listed q (mm n') → q = p ∨ listed q (mm n).
Proof. intros T q. eapply hall_listed, T. Qed.
End touches.

(** The interface between a handler and the process it runs in. *)
Class Polite {App} `{HM : !Substate MM App} `{MO : MapOrder} (h : RMCHandler (NetOf App)) : Prop :=
  polite : ∀ r req n, touches (PID (conn r n)) n (h r req n).2.

(** ** An operation in two pieces

    What it does until it releases the matchmaker's lock, and the rest, with what it remembers
    from the first piece: others may come in between, and the rest is then done in the state
    they have left. *)
Record split {App} `{HM : !Substate MM App} `{MO : MapOrder} {A} (player : NetOf App → Z)
    (f : NetOf App → A * NetOf App) := mkSplit {
  Local : Type;
  locked : NetOf App → Local * NetOf App;
  unlocked : Local → NetOf App → A * NetOf App;
  split_whole : ∀ n, f n = unlocked (locked n).1 (locked n).2;
  locked_touches : ∀ n, touches (player n) n (locked n).2;
  unlocked_idle : ∀ l n, idle n (unlocked l n).2
}.
Arguments locked {App HM MO A player f}.
Arguments unlocked {App HM MO A player f}.
Arguments locked_touches {App HM MO A player f}.

Section process.
Context {G : Type} (order1 order2 : MapOrder) `{MO : MapOrder} `{SS : SliceSort}.
#[local] Abbreviation Net := (NetOf (Process G)).
Implicit Types (n : Net) (r : Ref) (req : RMCMessage).

(** *** The configuration of the title *)
Context (file : option (gmap bytes authRecallPersisted)) (rand16 rnd32 rnd_mark rnd_code : Net → bytes).
Context (cfg : Config) (bcfg : BridgeConfig) (scfg : SecureConnectionConfig) (uenv : UtilityEnv) (cb : SMM2Callbacks).
Context (nat_file : Z → option bytes) (listen : Z → Z → bool).
Context (relaiInclutSource probeRepoint relaySigVide persiste joinable : bool) (relaySigServer : Z).
Context (written : Net → bool).
Context (commonFile : option (gmap bytes bytes)) (boardFile : option (list boardPersisted)).

(** *** Its callbacks *)
Context (OnSessionReady : option (Z → list Z → Net → Net)) (OnFriendSessionCreated : option (Z → Z → Net → Net)).
Context (OnNATProperties : option (Z → Z → Z → Z → Net → Net)).
Context (SessionStations : option (Ref → Ref → Net → list StationURL)).
Context (OnConnect : option (Ref → Net → Net)) (OnRMC : option (Ref → RMCMessage → Net → Net)).
Context (custom : gmap Z (Ref → Packet → Net → Net)).

(** *** The handlers of the package

    A method of the matchmaking extension that never returns holds the matchmaker's lock for
    ever: nothing the process does from then on is seen from outside, and the model goes on
    without it. *)
Definition serve_extension (r : Ref) (req : RMCMessage) (n : Net) : option RMCMessage * Net :=
  default (None, n) (ExtensionHandler cfg rnd32 rnd_mark rnd_code OnSessionReady OnFriendSessionCreated r req n).

Inductive package : Z → RMCHandler Net → Prop :=
  | pkg_extension : package ProtocolMatchmakeExtension serve_extension
  | pkg_matchmaking_ext : package ProtocolMatchMakingExt MatchMakingExtHandler
  | pkg_matchmaking : package ProtocolMatchMaking
      (MatchMakingHandler cfg bcfg nat_file listen OnSessionReady SessionStations)
  | pkg_delivery : package ProtocolMessageDelivery (MessageDeliveryHandler relaiInclutSource)
  | pkg_traversal : package ProtocolNATTraversal
      (NATTraversalHandler nat_file listen probeRepoint relaySigVide relaySigServer OnNATProperties)
  | pkg_secure : package ProtocolSecureConnection (SecureConnectionHandlerWithConfig scfg)
  | pkg_utility : package ProtocolUtility (λ r req n, (UtilityHandler uenv r req n, n))
  | pkg_ranking : package ProtocolRanking (RankingHandler commonFile boardFile order1 order2)
  | pkg_ranking2 : package ProtocolRanking2 (Ranking2Handler persiste written)
  | pkg_referee : package ProtocolMatchmakeReferee (MatchmakeRefereeHandler cfg persiste written joinable)
  | pkg_smm2 : package ProtocolDataStoreSMM2 (DataStoreSMM2Handler cb persiste written).

(** The table of a title: handlers of the package, and polite ones of its own. *)
Definition wired (table : HandlerTable Net) : Prop :=
  ∀ k h, handler table k = Some h → package k h ∨ Polite h.

(** What the title's own callbacks must keep to. *)
Record callbacks_idle : Prop := mkIdleCallbacks {
  cb_ready : ∀ f gid ps n, OnSessionReady = Some f → idle n (f gid ps n);
  cb_created : ∀ f p gid n, OnFriendSessionCreated = Some f → idle n (f p gid n);
  cb_nat : ∀ f p a b c n, OnNATProperties = Some f → idle n (f p a b c n);
  cb_connect : ∀ f r n, OnConnect = Some f → idle n (f r n);
  cb_rmc : ∀ f r m n, OnRMC = Some f → idle n (f r m n);
  cb_custom : ∀ k h r p n, custom !! k = Some h → idle n (h r p n)
}.

(** What the title wires to the departure of a connection. *)
Definition OnDisconnect : option (Ref → Net → Net) := Some (λ r n, RemovePlayer cfg (PID (conn r n)) n).

(** *** The steps of the process

    A request, a departure, a change of host are steps as wholes and in two pieces. *)
Context (table : HandlerTable Net).

(** The end of a connection, before the title hears of it. *)
Definition closing (r : Ref) (n : Net) : Net := unregisterConnection r (upd r (set_state stateClosed) n).

Inductive process_step n : Net → Prop :=
  | ps_net n' : net_step file rand16 table OnConnect OnDisconnect OnRMC custom n n' → process_step n n'
  | ps_timer i : process_step n (fire_timer cfg OnSessionReady i n)
  | ps_waiter i : process_step n (waiter_wakes bcfg nat_file listen i n)
  | ps_rehost p : process_step n (MigrerHebergementDepuis cfg p n).2
  | ps_request r req h (sp : split (λ n, PID (conn r n)) (h r req)) :
      handler table (Protocol req) = Some h → process_step n (locked sp n).2
  | ps_closing r : process_step n (closing r n)
  | ps_removing r (sp : split (λ _, PID (conn r n)) (λ m, (tt, RemovePlayer cfg (PID (conn r n)) m))) :
      state (conn r n) = stateClosed → process_step n (locked sp n).2
  | ps_rehosting p (sp : split (λ _, p) (MigrerHebergementDepuis cfg p)) : process_step n (locked sp n).2
  | ps_other n' : idle n n' → process_step n n'.

(** A run in which the 32-bit connection counter does not wrap. *)
Definition process_run : Net → Net → Prop := rtc (λ n n', connCounter n < 2 ^ 32 - 1 ∧ process_step n n').

(** The process starts with an empty matchmaker; the endpoint may have been given its
    secure account. *)
Definition started n : Prop :=
  (∃ s a t x password p, n = NewEndpoint s a t x ∨ n = SetSecureAccount password p (NewEndpoint s a t x)) ∧
  mm n = NewMatchmaking.
Definition reachable n : Prop := ∃ n0, started n0 ∧ process_run n0 n.

(** A CONNECT packet from connection [r] that the endpoint accepts, under identity [q]. *)
Definition admits n r (p : Packet) (q : Z) : Prop :=
  p_Type p = PacketCONNECT ∧ HasFlag p FlagACK = false ∧
  Signature p = LitePacketSignature (AccessKey (settings n)) p (connectionSig (conn r n)) ∧
  ∃ resp n', processLoginRequest file r (Payload p) (upd r (set_lastSeen (clock n)) n) = (Ok resp, n') ∧ PID (conn r n') = q.

(** [q] was let in before the process came to [n]. *)
Definition logged_in (q : Z) n : Prop :=
  ∃ m r p, reachable m ∧ admits m r p q ∧
    process_run (handlePacket file rand16 table OnConnect OnDisconnect OnRMC custom r p m) n.
End process.
