(* ===== verification/ProcessFrames.v ===== *)
(** * What each handler of the package touches

    Handler by handler: it stays inside the frame, keeps the gatherings well-formed and gives
    its caller a turn in the lobbies of Lobby.v, which lists nobody else. *)

From S2P Require Export Process.

(** A session changed, its identities and the list left as they are. *)
Definition same_people (g g' : gathering) : Prop :=
  participants g' = participants g ∧ ms_OwnerPID (session g') = ms_OwnerPID (session g) ∧
  ms_HostPID (session g') = ms_HostPID (session g).
#[export] Instance same_people_equivalence : Equivalence same_people.
Proof.
  unfold same_people. split; [done|by intros g g' (-> & -> & ->)|]. by intros a b c (E1 & E2 & E3) (-> & -> & ->).
Qed.

(** ** The store's operations as runs of the lobbies *)
Section runs.
Implicit Types (m : MM) (g : gathering).
Context (H : Z → bool) (p : Z).
#[local] Abbreviation hrun m m' := (moves H p (hall_of m) (hall_of m')).
#[local] Abbreviation rrun g g' := (room_run H p (room_of g) (Some (room_of g'))).

Lemma run_same m m' : gatherings m' = gatherings m → nextGID m' = nextGID m → hrun m m'.
Proof. intros. rewrite (hall_of_same m m') by done. apply rtc_refl. Qed.

Lemma run_session g g' : same_people g g' → rrun g g'.
Proof.
  intros (E1 & E2 & E3). unfold room_of at 2. rewrite E1, E2, E3. apply room_once.
  apply (rm_resize _ _ (room_of g)).
Qed.

(** One gathering changed in place. *)
Lemma run_upd gid f m :
  (∀ g, gatherings m !! gid = Some g → rrun g (f g)) → hrun m (upd_gathering gid f m).
Proof.
  intros Hf. apply hall_of_run; [done|]. intros k. cbn. destruct (decide (k = gid)) as [->|Hne].
  - rewrite lookup_alter_eq. destruct (gatherings m !! gid); cbn; auto.
  - rewrite lookup_alter_ne by done. destruct (gatherings m !! k); [apply room_stay|done].
Qed.

Lemma run_session_upd gid f m : (∀ g, same_people g (f g)) → hrun m (upd_gathering gid f m).
Proof. intros. apply run_upd. intros. by apply run_session. Qed.

(** A gathering stored over the one that was there. *)
Lemma run_insert gid g0 g m :
  gatherings m !! gid = Some g0 → rrun g0 g → hrun m (set_gatherings (<[gid := g]> (gatherings m)) m).
Proof.
  intros Hg Hr. apply hall_of_run; [done|]. intros k. cbn. destruct (decide (k = gid)) as [->|Hne].
  - by rewrite lookup_insert_eq, Hg.
  - rewrite lookup_insert_ne by done. destruct (gatherings m !! k); [apply room_stay|done].
Qed.

Lemma run_delete gid m :
  (∀ g, gatherings m !! gid = Some g → ms_OwnerPID (session g) = p ∨ ∀ q, q ∈ participants g → q = p) →
  hrun m (set_gatherings (delete gid (gatherings m)) m).
Proof.
  intros Hc. apply hall_of_run; [done|]. intros k. cbn. destruct (decide (k = gid)) as [->|Hne].
  - rewrite lookup_delete_eq. destruct (gatherings m !! gid); [|done]. apply room_once, rm_close. cbn. auto.
  - rewrite lookup_delete_ne by done. destruct (gatherings m !! k); [apply room_stay|done].
Qed.

Lemma nextGID_release `{MO : MapOrder} q garde m : nextGID (releaseAbandonedSolo q garde m) = nextGID m.
Proof.
  unfold releaseAbandonedSolo. case_match; [done|]. generalize (range (gatherings m)) as l.
  intros l. revert m. induction l as [|e l IH]; intros m; [done|]. cbn [foldl]. rewrite IH.
  unfold release_one. by repeat case_match.
Qed.

Lemma run_release `{MO : MapOrder} garde m : hrun m (releaseAbandonedSolo p garde m).
Proof.
  destruct (decide (p = 0)) as [E|Hp]; [unfold releaseAbandonedSolo; rewrite E; apply rtc_refl|].
  apply hall_of_run; [apply nextGID_release|]. intros k. rewrite release_lookup by done.
  destruct (gatherings m !! k) as [g|]; [|done]. cbn.
  destruct (_ || negb (bool_decide (participants g = [p]))) eqn:E; [apply room_stay|]. apply room_once, rm_close.
  apply orb_false_elim in E as [_ E%negb_false_iff%bool_decide_eq_true_1]. right. cbn. rewrite E.
  by intros q ->%list_elem_of_singleton.
Qed.

Lemma nextGID_remember gid key m : nextGID (rememberSessionKey gid key m) = nextGID m.
Proof. unfold rememberSessionKey. destruct (recentKeys m !! gid); [done|]. by destruct (trim_recent _ _ _). Qed.

Lemma run_create `{MO : MapOrder} cfg key now connID src m :
  turn H p (hall_of m) (hall_of (createGathering cfg key now p connID src m).2).
Proof.
  unfold createGathering. cbn [snd]. eapply turn_r; [|apply run_release].
  set (g := mkG _ [p] connID []). apply (turn_open _ _ _ _ (ms_MaxParticipants (session g)) (hall_of m)); [apply rtc_refl|].
  assert (room_of g = mkRoom [p] p p (ms_MaxParticipants (session g))) as Hg.
  { unfold g, room_of, finalizeCreatedSession. cbn [session participants]. f_equal; by repeat case_match. }
  unfold hall_of, opened. cbn [set_gatherings gatherings nextGID rooms next_room].
  rewrite gatherings_remember, nextGID_remember, fmap_insert, Hg. apply rtc_refl.
Qed.
End runs.

(** ** Building blocks *)
Section blocks.
Context {App : Type} `{HM : !Substate MM App} `{MO : MapOrder}.
#[local] Abbreviation Net := (NetOf App).
Implicit Types (n : Net) (r : Ref) (req : RMCMessage).
Context (cfg : Config).

Lemma idle_same n n' : frame n n' → mm n' = mm n → idle n n'.
Proof. intros F E. split; [done|]. unfold quiet. by rewrite E. Qed.

(** A component that is not the matchmaker. *)
Lemma idle_comp {S} `{HS : !Substate S App} `{HI : !Independent MM S App} (f : S → S) n : idle n (upd_comp f n).
Proof. apply idle_same; [apply frame_app|]. unfold mm, upd_comp, set_comp. cbn. apply get_other. Qed.
Lemma idle_set_comp {S} `{HS : !Substate S App} `{HI : !Independent MM S App} (s : S) n : idle n (set_comp s n).
Proof. apply (idle_comp (λ _, s)). Qed.
Lemma idle_set_tstore `{HT : !Substate tournamentStore App} `{HI : !Independent MM tournamentStore App} st n :
  idle n (set_tstore st n).
Proof. apply idle_same; [apply frame_app|]. apply mm_set_tstore. Qed.

Lemma idle_SendRMC c m n : idle n (SendRMC c m n).
Proof. apply idle_same; [apply frame_SendRMC|apply mm_SendRMC]. Qed.

Lemma idle_upd r f n : (∀ c, credentials (f c) = credentials c) → idle n (upd r f n).
Proof. intros. apply idle_same; [by apply frame_upd|done]. Qed.

Lemma idle_foldl {A} (f : Net → A → Net) l n : (∀ n x, idle n (f n x)) → idle n (foldl f n l).
Proof. intros Hf. revert n. induction l as [|x l IH]; intros n; [done|]. cbn [foldl]. etrans; [apply Hf|apply IH]. Qed.

Lemma idle_mm f n :
  gatherings (f (mm n)) = gatherings (mm n) → byCode (f (mm n)) = byCode (mm n) → nextGID (f (mm n)) = nextGID (mm n) →
  idle n (upd_mm f n).
Proof. intros. split; [apply frame_app|]. unfold quiet. by rewrite mm_upd_mm. Qed.

Lemma idle_SendNotification c ev n : idle n (SendNotification cfg c ev n).
Proof. unfold SendNotification. etrans; [|apply idle_SendRMC]. by apply idle_mm. Qed.
Lemma idle_notify_pid p ev n : idle n (notify_pid cfg p ev n).
Proof. unfold notify_pid. case_match; [apply idle_SendNotification|done]. Qed.
Lemma idle_notify_all ps ev n : idle n (notify_all cfg ps ev n).
Proof. apply idle_foldl. intros. apply idle_notify_pid. Qed.

(** A callback the title may have set. *)
Lemma idle_callback {A} (o : option A) (k : A → Net) n m :
  idle n m → (∀ f, o = Some f → idle m (k f)) → idle n (match o with Some f => k f | None => m end).
Proof. intros H Hk. destruct o; [|done]. etrans; [done|auto]. Qed.

(** A change of the store, given its two obligations. *)
Lemma touches_set_mm p m n :
  (mm_ok (mm n) → mm_ok m) → turn (here n) p (hall_of (mm n)) (hall_of m) → touches p n (set_mm m n).
Proof. intros Hok Hl. split; [apply frame_app| |]; rewrite mm_set_mm; done. Qed.
Lemma touches_mm p f n :
  (mm_ok (mm n) → mm_ok (f (mm n))) → moves (here n) p (hall_of (mm n)) (hall_of (f (mm n))) →
  touches p n (upd_mm f n).
Proof. intros. by apply touches_set_mm, turn_moves. Qed.

(** One gathering changed in place. *)
Lemma touches_gathering p gid f n :
  (∀ g, gatherings (mm n) !! gid = Some g →
     (g_ok gid g → g_ok gid (f g)) ∧ room_run (here n) p (room_of g) (Some (room_of (f g)))) →
  touches p n (upd_mm (upd_gathering gid f) n).
Proof.
  intros Hf. apply touches_mm.
  - apply mm_ok_upd. intros g Hg. by apply Hf.
  - apply run_upd. intros g Hg. by apply Hf.
Qed.

(** Its people left as they are. *)
Lemma touches_session p gid f n :
  (∀ g, gatherings (mm n) !! gid = Some g → (g_ok gid g → g_ok gid (f g)) ∧ same_people g (f g)) →
  touches p n (upd_mm (upd_gathering gid f) n).
Proof. intros Hf. apply touches_gathering. intros g Hg. destruct (Hf g Hg). split; [done|by apply run_session]. Qed.

Lemma touches_delete p gid n :
  (∀ g, gatherings (mm n) !! gid = Some g → ms_OwnerPID (session g) = p ∨ ∀ q, q ∈ participants g → q = p) →
  touches p n (upd_mm (λ m, set_gatherings (delete gid (gatherings m)) m) n).
Proof. intros. apply touches_mm; [apply mm_ok_delete|by apply run_delete]. Qed.

End blocks.
#[export] Hint Resolve idle_SendRMC idle_SendNotification idle_notify_pid idle_notify_all : nex.

(** ** The matchmaker's handlers *)
Section matchmaker.
#[local] Set Default Proof Using "Type*".
Context {App : Type} `{HM : !Substate MM App} `{MO : MapOrder}.
#[local] Abbreviation Net := (NetOf App).
Implicit Types (n : Net) (r : Ref) (req : RMCMessage) (m : MM).
Context (cfg : Config).
Context (OnSessionReady : option (Z → list Z → Net → Net)).
Hypothesis Hready : ∀ f gid ps n, OnSessionReady = Some f → idle n (f gid ps n).

Lemma quiet_OnSessionReady f gid ps n : OnSessionReady = Some f → quiet n (f gid ps n).
Proof. intros. by apply Hready. Qed.

Lemma idle_notifyParticipation c ps gid j n : idle n (notifyParticipation cfg OnSessionReady c ps gid j n).
Proof.
  unfold notifyParticipation. etrans; [apply idle_notify_all|].
  apply idle_callback; [|intros; by apply Hready].
  apply idle_foldl. intros n' x. case_match; [reflexivity|apply idle_SendNotification].
Qed.

Lemma idle_notifyAfter c ps gid d n : idle n (notifyParticipationAfter cfg OnSessionReady c ps gid d n).
Proof.
  unfold notifyParticipationAfter. case_match; [apply idle_notifyParticipation|]. by apply idle_mm.
Qed.

Lemma run_prune p n g : room_run (here n) p (room_of g) (Some (room_of (prune p n g))).
Proof.
  unfold prune. cbv zeta. case_bool_decide; [apply room_stay|]. set (alive := filter _ _).
  replace alive with (filter (λ q, q = p ∨ here n q = true) (participants g)); [apply room_once, (rm_sweep _ _ (room_of g))|].
  subst alive. apply list_filter_iff. intros q. unfold here. by rewrite bool_decide_eq_true.
Qed.

Lemma touches_setParticipation r req b n : touches (PID (conn r n)) n (setParticipation r req b n).2.
Proof.
  apply touches_gathering. intros g _. split.
  - intros Hg. apply (g_ok_session _ _ (set_OpenParticipation b (session g))) in Hg; [|done..].
    destruct b; [done|]. by apply g_ok_prune.
  - destruct b; [apply room_stay|]. exact (run_prune (PID (conn r n)) n (set_session (set_OpenParticipation false (session g)) g)).
Qed.

(** A player added to a lobby that is not full. *)
Lemma run_join H p g :
  (p ∉ participants g → full (room_of g) = false) →
  room_run H p (room_of g) (Some (room_of (recount (add_participant p g)))).
Proof.
  intros Hf. unfold add_participant, containsPID. case_bool_decide; [apply room_stay|].
  apply room_once, (rm_join _ _ (room_of g)); auto.
Qed.

Lemma suits_not_full param r n g : suits cfg param r n g → full (room_of g) = false.
Proof. intros (_ & _ & _ & Hm & _). unfold full. cbn [members limit room_of]. lia. Qed.

(** The player's new gathering, whatever is then changed in it but the people. *)
Lemma run_create_for H rnd src r n gid m :
  create_for cfg rnd src r n = (gid, m) → turn H (PID (conn r n)) (hall_of (mm n)) (hall_of m).
Proof. intros E. replace m with (create_for cfg rnd src r n).2 by by rewrite E. apply run_create. Qed.

Lemma touches_autoMatchmake rnd r req n :
  touches (PID (conn r n)) n (autoMatchmake cfg rnd OnSessionReady r req n).2.
Proof.
  split.
  - unfold autoMatchmake. destruct (read_err n req _); [done|].
    destruct (match choose_lobby _ _ _ _ with Some gid => _ | None => _ end) as [gid m].
    destruct (gatherings (upd_gathering gid recount m) !! gid); cbn [snd]; [|apply frame_app].
    etrans; [apply frame_app|]. apply idle_notifyAfter.
  - apply (mm_ok_autoMatchmake cfg OnSessionReady None quiet_OnSessionReady ltac:(done)).
  - unfold autoMatchmake. destruct (read_err n req _); [apply turn_refl|].
    set (param := read_body n req _).
    lazymatch goal with |- context [let '(gid, m) := ?pick in _] =>
      assert (turn (here n) (PID (conn r n)) (hall_of (mm n)) (hall_of (upd_gathering pick.1 recount pick.2))) as Hm;
      [|destruct pick as [gid m]] end.
    { destruct (choose_lobby cfg param r n) as [gid|] eqn:Ec; cbn [fst snd].
      - rewrite upd_upd_gathering. apply turn_moves, run_upd. intros g Hg. apply run_join. intros _.
        apply choose_lobby_suits in Ec as (g' & Hg' & Hs). assert (g' = g) as -> by congruence.
        by eapply suits_not_full.
      - destruct (create_for cfg rnd (Session param) r n) as [gid m] eqn:E. cbn [fst snd].
        eapply turn_r; [by eapply run_create_for|]. etrans; [|by apply run_session_upd].
        destruct (isSoloPID cfg (PID (conn r n))); [by apply run_session_upd|apply rtc_refl]. }
    cbn [fst snd] in Hm. destruct (gatherings (upd_gathering gid recount m) !! gid) as [g|]; cbn [snd];
      [|by rewrite mm_set_mm].
    eapply turn_r; [exact Hm|]. set (n' := set_mm _ n).
    destruct (idle_notifyAfter r (participants g) (ms_ID (session g)) (ParticipationNotificationDelay cfg) n')
      as [_ (E & _ & E')]. subst n'. rewrite mm_set_mm in E, E'. by apply run_same.
Qed.

Lemma touches_joinSession r req n : touches (PID (conn r n)) n (joinSession cfg OnSessionReady r req n).2.
Proof.
  unfold joinSession. destruct (gatherings (mm n) !! _) as [g|] eqn:E; [|done]. cbv zeta.
  case_match eqn:Hj; [done|]. cbn [snd].
  lazymatch goal with |- context [upd_mm ?f n] => assert (touches (PID (conn r n)) n (upd_mm f n)) as Hm end.
  { apply touches_gathering. intros g' Hg'. assert (g' = g) as -> by congruence.
    split; [apply g_ok_join|]. apply run_join. intros Hin. unfold full. cbn [members limit room_of].
    unfold containsPID in Hj. rewrite bool_decide_false in Hj by done. exact Hj. }
  case_match; [|done]. eapply touches_idle; [exact Hm|apply idle_notifyAfter].
Qed.

Lemma touches_migrate r req b n :
  touches (PID (conn r n)) n (migrateGatheringOwnership cfg OnSessionReady r req b n).2.
Proof.
  unfold migrateGatheringOwnership. destruct (read_body n req _) as [gid cs]. cbn [snd].
  destruct (gatherings (mm n) !! gid) as [g|] eqn:E; [|done]. case_bool_decide; [done|]. cbv zeta.
  eapply touches_idle; [|apply idle_notifyParticipation]. apply touches_gathering. intros g' Hg'.
  assert (g' = g) as -> by congruence. pose proof (migrate_to_perm cs (participants g)) as Hp. split.
  - intros (Hnd & Hn & Hid). split_and!; cbn [participants session set_participants]; unfold zlen; by rewrite ?Hp.
  - by apply room_once, (rm_rearrange _ _ (room_of g)).
Qed.

Lemma idle_timer i n : idle n (fire_timer cfg OnSessionReady i n).
Proof.
  unfold fire_timer. destruct (timers (mm n) !! i) as [t|]; [|reflexivity]. cbv zeta.
  lazymatch goal with |- context [upd_mm ?f n] => assert (idle n (upd_mm f n)) as Hm by by apply idle_mm end.
  destruct (gatherings _ !! _); [|done]. case_match; [done|]. etrans; [exact Hm|apply idle_notifyParticipation].
Qed.

Context (OnFriendSessionCreated : option (Z → Z → Net → Net)).
Hypothesis Hcreated : ∀ f p gid n, OnFriendSessionCreated = Some f → idle n (f p gid n).

Lemma idle_created p gid n : idle n (match OnFriendSessionCreated with Some f => f p gid n | None => n end).
Proof. apply idle_callback; [done|]. intros. by apply Hcreated. Qed.

Lemma touches_createSession rnd r req n :
  touches (PID (conn r n)) n (createSession cfg rnd OnSessionReady OnFriendSessionCreated r req n).2.
Proof.
  unfold createSession. destruct (read_err n req _); [reflexivity|].
  set (src := Session _). destruct (create_for cfg rnd src r n) as [gid m] eqn:E. cbv zeta.
  set (m' := if NormalizeCreateSessionRV cfg then _ else _).
  assert (touches (PID (conn r n)) n (set_mm m' n)) as Hm.
  { apply touches_set_mm.
    - intros Hok. assert (mm_ok m) by by eapply mm_ok_create_for.
      unfold m'. case_match; [|done]. apply mm_ok_upd; [|done]. intros. by apply g_ok_normalize.
    - eapply turn_r; [by eapply run_create_for|]. unfold m'. case_match; [|apply rtc_refl]. apply run_session_upd.
      intros g. unfold normalize_rv. by repeat case_match. }
  destruct (gatherings m' !! gid); cbn [snd]; [|done].
  eapply touches_idle; [exact Hm|]. etrans; [apply idle_created|apply idle_notifyAfter].
Qed.
End matchmaker.

(** The handlers without callbacks. *)
Section matchmaker_plain.
Context {App : Type} `{HM : !Substate MM App} `{MO : MapOrder}.
#[local] Abbreviation Net := (NetOf App).
Implicit Types (n : Net) (r : Ref) (req : RMCMessage) (m : MM).
Context (cfg : Config).

Lemma touches_updateSessionPart r req n : touches (PID (conn r n)) n (updateSessionPart cfg r req n).2.
Proof.
  unfold updateSessionPart. cbn [snd]. destruct (SessionPartPersists cfg); [|done].
  destruct (read_err n req _); [done|]. apply touches_mm; [apply mm_ok_applySessionPart|].
  generalize (read_body n req (rExtract zero_Update)) as u. intros u. unfold applySessionPart.
  destruct (gatherings (mm n) !! u_GID u) as [g|] eqn:E; [|apply rtc_refl].
  lazymatch goal with |- context [let '(g, m) := ?pick in _] =>
    assert (gatherings pick.2 = gatherings (mm n) ∧ nextGID pick.2 = nextGID (mm n) ∧ same_people g pick.1) as (Hm & Hn & Hg);
    [|destruct pick as [g' m']] end.
  { case_match; [|done]. cbn [fst snd]. by destruct (bool_decide (u_Codeword u = [])). }
  cbn [fst snd] in *. etrans; [by apply (run_same _ _ (mm n) m')|]. apply (run_insert _ _ _ g); [by rewrite Hm|].
  apply run_session. etrans; [exact Hg|].
  destruct (bool_decide (Attributes u = [])), (bool_decide (ApplicationBuffer u = [])), (u_GameMode u =? 0),
    (u_MaxParticipants u =? 0), (Z.land (ModificationFlags u) modFlagOpenParticipation =? 0); done.
Qed.

Lemma touches_updateApplicationBuffer r req n : touches (PID (conn r n)) n (updateApplicationBuffer r req n).2.
Proof.
  unfold updateApplicationBuffer. destruct (read_body n req _) as [gid buf]. cbv zeta.
  destruct (gatherings (mm n) !! gid); [|done].
  lazymatch goal with |- context [if ?b =? ?c then _ else _] => destruct (b =? c) end; [|done].
  apply touches_session. intros. split; [by apply g_ok_session|done].
Qed.

Lemma touches_modify r req n res :
  modifyCurrentGameAttribute r req n = Some res → touches (PID (conn r n)) n res.2.
Proof.
  unfold modifyCurrentGameAttribute. destruct (read_body n req _) as [[gid idx] v].
  destruct (gatherings (mm n) !! gid) as [g|] eqn:E; [|by intros [= <-]].
  destruct (first_is (PID (conn r n)) g); [|by intros [= <-]].
  destruct (grow_attribs _ _ _) as [l|]; [|done]. intros [= <-].
  apply touches_session. intros g' Hg'. assert (g' = g) as -> by congruence. split; [by apply g_ok_session|done].
Qed.

Lemma touches_updateAttribs r req n : touches (PID (conn r n)) n (updateMatchmakeSessionAttribute r req n).2.
Proof.
  unfold updateMatchmakeSessionAttribute. cbv zeta. destruct (read_body n req _) as [gid attribs].
  cbn [snd]. destruct (gatherings (mm n) !! gid); [|done]. destruct (read_err n req _); [done|].
  destruct (first_is _ _); [|done]. apply touches_session. intros. split; [by apply g_ok_session|done].
Qed.

Lemma touches_privateRoomCreate r req n : touches (PID (conn r n)) n (privateRoomCreate r req n).2.
Proof.
  unfold privateRoomCreate, makeCode. cbn [snd]. apply touches_set_mm.
  - intros Hok. apply mm_ok_upd; [|by eapply mm_ok_same]. intros g _. done.
  - apply turn_moves. etrans; [|by apply run_session_upd]. by apply run_same.
Qed.

Lemma touches_unregister r req n : touches (PID (conn r n)) n (unregister r req n).
Proof.
  unfold unregister. cbv zeta. destruct (gatherings (mm n) !! _) as [g|] eqn:E; [|done]. case_match eqn:Eo; [|done].
  apply touches_delete. intros g' Hg'. assert (g' = g) as -> by congruence. left. lia.
Qed.

Lemma touches_endParticipation r req n : touches (PID (conn r n)) n (endParticipation r req n).
Proof.
  unfold endParticipation. cbv zeta. destruct (gatherings (mm n) !! _) as [g|] eqn:E; [|done].
  case_bool_decide as Hps.
  - apply touches_delete. intros g' Hg'. assert (g' = g) as -> by congruence. right. intros q Hq.
    apply dec_stable. intros Hne. apply (not_elem_of_nil q). rewrite <- Hps. by apply list_elem_of_filter.
  - apply touches_gathering. intros g' Hg'. assert (g' = g) as -> by congruence. split.
    + intros Hok. apply g_ok_recount; [by eapply g_ok_removePID|apply Hok].
    + apply room_once, (rm_leave _ _ (room_of g)).
Qed.

Lemma idle_delivery b r req n : idle n (MessageDeliveryHandler b r req n).2.
Proof.
  apply idle_foldl. intros n' p. unfold relay_one. case_match; [done|]. case_match; [apply idle_SendRMC|done].
Qed.

Lemma idle_updateNotificationData r req n : idle n (updateNotificationData cfg r req n).2.
Proof.
  unfold updateNotificationData. destruct (read_err n req _); [done|].
  destruct (read_body n req _) as [[[t a] b] c]. cbn [snd]. unfold pushNotifDataToFriends.
  destruct (FriendPIDs cfg); [etrans; [|apply idle_notify_all]|]; by apply idle_mm.
Qed.

Lemma idle_getFriendNotificationData r req b n : idle n (getFriendNotificationData cfg r req b n).2.
Proof.
  unfold getFriendNotificationData. cbv zeta. destruct (read_err n req _); [done|]. cbn [snd].
  apply idle_foldl. intros. apply idle_SendNotification.
Qed.
End matchmaker_plain.

(** ** Departures and changes of host *)
Section departures.
Context {App : Type} `{HM : !Substate MM App} `{MO : MapOrder}.
#[local] Abbreviation Net := (NetOf App).
Implicit Types (n : Net) (m : MM) (g : gathering).
Context (cfg : Config).

Lemma survivor_listed p g g' q : survivor cfg p g = Some g' → q ∈ participants g' → q ∈ participants g.
Proof.
  unfold survivor. destruct (containsPID _ _); [|by intros [= <-]].
  destruct (removePID (participants g) p) as [|next ps] eqn:E; [done|]. intros H Hq.
  assert (q ∈ removePID (participants g) p) as Hin by (rewrite E; revert H Hq; repeat case_match; try done; by intros [= <-]).
  by apply list_elem_of_filter in Hin as [_ Hin].
Qed.

Lemma frame_RemovePlayer p n : frame n (RemovePlayer cfg p n).
Proof.
  unfold RemovePlayer. case_match; [done|]. cbv zeta.
  etrans; [|apply idle_foldl; intros; apply idle_SendNotification].
  destruct (cfg_has_Endpoint cfg); [|etrans; apply frame_app].
  etrans; [|apply idle_foldl; intros; apply idle_notify_all].
  etrans; [|apply idle_foldl; intros; apply idle_notify_all]. etrans; apply frame_app.
Qed.

(** *** A departure *)
Lemma run_survivor H p g : room_run H p (room_of g) (room_of <$> survivor cfg p g).
Proof.
  unfold survivor. destruct (containsPID _ _) eqn:Hc; [|apply room_stay].
  destruct (removePID (participants g) p) as [|next ps] eqn:E.
  { apply room_once, rm_close. right. intros q Hq. apply dec_stable. intros Hne. apply (not_elem_of_nil q).
    rewrite <- E. by apply list_elem_of_filter. }
  assert (next ∈ participants g ∧ next ≠ p) as [Hin Hne].
  { assert (next ∈ removePID (participants g) p) as Hn by (rewrite E; by left). by apply list_elem_of_filter in Hn as []. }
  destruct (Z.eqb_spec (ms_OwnerPID (session g)) p) as [Eo|Eo].
  - destruct (_ && _); [|by apply room_once, rm_close; left]. cbn [fmap option_fmap option_map].
    rewrite <- E. by apply room_once, (rm_bequeath _ _ (room_of g)).
  - cbn [fmap option_fmap option_map]. rewrite <- E. apply room_once, (rm_leave _ _ (room_of g)).
Qed.

Lemma nextGID_RemovePlayer p n : nextGID (mm (RemovePlayer cfg p n)) = nextGID (mm n).
Proof.
  unfold RemovePlayer. case_match; [done|]. cbv zeta. set (n1 := upd_mm (notif_forget p) n).
  set (st := foldl (leave_one cfg p n1) _ _).
  transitivity (nextGID (lv_mm st)).
  - lazymatch goal with |- nextGID (mm ?n') = _ => assert (quiet (set_mm (lv_mm st) n1) n') as (_ & _ & ->) end;
      [|by rewrite mm_set_mm].
    etrans; [|apply quiet_foldl; intros; apply quiet_SendNotification]. destruct (cfg_has_Endpoint cfg); [|done].
    etrans; [|apply quiet_foldl; intros; apply quiet_notify_all]. apply quiet_foldl; intros; apply quiet_notify_all.
  - assert (∀ l st, nextGID (lv_mm (foldl (leave_one cfg p n1) st l)) = nextGID (lv_mm st)) as Hl.
    { induction l as [|[gid g] l IH]; intros [m a b c]; [done|]. cbn [foldl]. rewrite IH. unfold leave_one, drop_gathering.
      by repeat case_match. }
    subst st. rewrite Hl. cbn [lv_mm]. subst n1. by rewrite mm_upd_mm.
Qed.

Lemma run_RemovePlayer H p n : moves H p (hall_of (mm n)) (hall_of (mm (RemovePlayer cfg p n))).
Proof.
  destruct (decide (p = 0)) as [->|Hp]; [apply rtc_refl|]. apply hall_of_run; [apply nextGID_RemovePlayer|].
  intros gid. rewrite RemovePlayer_lookup by done. destruct (gatherings (mm n) !! gid); [apply run_survivor|done].
Qed.

Lemma touches_RemovePlayer p n : touches p n (RemovePlayer cfg p n).
Proof. split; [apply frame_RemovePlayer|apply mm_ok_RemovePlayer|apply turn_moves, run_RemovePlayer]. Qed.

Lemma RemovePlayer_listed p n q : listed q (mm (RemovePlayer cfg p n)) → listed q (mm n).
Proof.
  destruct (decide (p = 0)) as [->|Hp]; [done|]. intros (gid & g' & Hg & Hx). rewrite RemovePlayer_lookup in Hg by done.
  apply bind_Some in Hg as (g & Hg & Hs). exists gid, g. split; [done|]. by eapply survivor_listed.
Qed.

(** *** A change of host *)
Lemma run_rehosted p n g : room_run (here n) p (room_of g) (Some (room_of (rehosted p n g))).
Proof.
  unfold rehosted, taker. cbv zeta. destruct (_ && _) eqn:Ep; [apply room_stay|].
  destruct (list_find _ _) as [[i h]|] eqn:E; [|apply room_stay].
  destruct (FindConnectionByPID h n) eqn:Ef; [|apply room_stay]. apply list_find_Some in E as (Hi & [Hh _] & _).
  apply room_once, (rm_relieve _ _ (room_of g)); cbn [owner host members room_of]; [lia| |done|].
  - by eapply list_elem_of_lookup_2.
  - change (here n h = true). unfold here. by rewrite Ef.
Qed.

Lemma nextGID_rehost p n : nextGID (mm (MigrerHebergementDepuis cfg p n).2) = nextGID (mm n).
Proof.
  unfold MigrerHebergementDepuis. case_match; [done|].
  assert (∀ l acc, nextGID (foldl (rehost_one p n) acc l).1 = nextGID acc.1) as Hl.
  { induction l as [|[gid g] l IH]; intros [m faits]; [done|]. cbn [foldl]. rewrite IH. unfold rehost_one.
    by repeat case_match. }
  specialize (Hl (range (gatherings (mm n))) (mm n, [])). destruct (foldl _ _ _) as [m faits]. cbn [fst snd] in *.
  lazymatch goal with |- nextGID (mm ?n') = _ => assert (quiet (set_mm m n) n') as (_ & _ & ->) end;
    [apply quiet_foldl; intros; apply quiet_notify_all|]. by rewrite mm_set_mm.
Qed.

Lemma frame_rehost p n : frame n (MigrerHebergementDepuis cfg p n).2.
Proof.
  unfold MigrerHebergementDepuis. case_match; [done|]. destruct (foldl _ _ _) as [m faits]. cbn [snd].
  etrans; [apply frame_app|apply idle_foldl; intros; apply idle_notify_all].
Qed.

Lemma touches_rehost p n : touches p n (MigrerHebergementDepuis cfg p n).2.
Proof.
  split; [apply frame_rehost|apply mm_ok_rehost|apply turn_moves].
  destruct (decide (p = 0)) as [->|Hp]; [apply rtc_refl|]. destruct (cfg_has_Endpoint cfg) eqn:He;
    [|unfold MigrerHebergementDepuis; rewrite He, orb_true_r; apply rtc_refl].
  apply hall_of_run; [apply nextGID_rehost|]. intros gid. rewrite rehost_lookup by done.
  destruct (gatherings (mm n) !! gid); [apply run_rehosted|done].
Qed.

Lemma rehost_listed p n q : listed q (mm (MigrerHebergementDepuis cfg p n).2) → listed q (mm n).
Proof.
  destruct (decide (p = 0)) as [->|Hp]; [done|]. destruct (cfg_has_Endpoint cfg) eqn:He;
    [|by unfold MigrerHebergementDepuis; rewrite He, orb_true_r].
  intros (gid & g' & Hg & Hx). rewrite rehost_lookup in Hg by done. apply fmap_Some in Hg as (g & Hg & ->).
  exists gid, g. split; [done|]. revert Hx. unfold rehosted, taker. cbv zeta. case_match; [done|].
  destruct (list_find _ _) as [[i h]|] eqn:E; [|done]. destruct (FindConnectionByPID h n); [|done]. cbn.
  apply list_find_Some in E as (Hi & _).
  intros [->|Hq]%elem_of_cons; [by eapply list_elem_of_lookup_2|]. by apply list_elem_of_filter in Hq as [_ Hq].
Qed.
End departures.

(** ** The other components *)
Section others.
#[local] Set Default Proof Using "Type*".
Context {App : Type} `{HM : !Substate MM App} `{MO : MapOrder}.
#[local] Abbreviation Net := (NetOf App).
Implicit Types (n : Net) (r : Ref) (req : RMCMessage).
Context (cfg : Config).

(** Tournaments. *)
Section tournaments.
Context `{HT : !Substate tournamentStore App} `{HI : !Independent MM tournamentStore App}.
Lemma idle_createTournament rm rc r req n : idle n (createTournament rm rc r req n).2.
Proof.
  unfold createTournament. cbv zeta. case_match; [done|]. case_match; [done|].
  destruct (CreateTournament _ _ _ _ _ _) as [[t|] st]; cbn [snd]; apply idle_set_tstore.
Qed.
Lemma idle_removeTournament r req n : idle n (removeTournament r req n).2.
Proof. unfold removeTournament. cbn [snd]. case_match; [apply idle_set_tstore|done]. Qed.
Lemma idle_registerTournament r req n : idle n (registerTournament r req n).2.
Proof. unfold registerTournament. cbn [snd]. case_match; [apply idle_set_tstore|done]. Qed.
Lemma idle_tournamentsByIDs r req n : idle n (tournamentsByIDs r req n).2.
Proof. unfold tournamentsByIDs. by destruct (rU32 _). Qed.
End tournaments.

(** Stations and NAT traversal. *)
Lemma idle_secure scfg r req n : idle n (SecureConnectionHandlerWithConfig scfg r req n).2.
Proof.
  unfold SecureConnectionHandlerWithConfig, handleRegister, handleReplaceURLWithConfig. cbv zeta.
  destruct (_ || _); [destruct (register_stations _ _ _ _); by apply idle_upd|].
  destruct (Method req =? MethodReplaceURL); [by apply idle_upd|]. by case_match.
Qed.

Section nat.
Context `{HN : !Substate NatState App} `{HI : !Independent MM NatState App}.
Context (nat_file : Z → option bytes) (listen : Z → Z → bool).

Lemma idle_pair_relay a b ia ib n : idle n (pair_relay listen a b ia ib n).2.
Proof. unfold pair_relay. destruct (PairRelayFor _ _ _ _ _ _ _). apply idle_comp. Qed.
Lemma idle_nat_port ip n : idle n (nat_port nat_file ip n).2.
Proof. unfold nat_port. destruct (natPortForIP _ _ _ _). apply idle_comp. Qed.

Lemma idle_repoint b r st n : idle n (repoint nat_file b r st n).2.
Proof.
  unfold repoint. cbv zeta. case_match; [|done].
  pose proof (idle_nat_port (splitHostPortSafe (RemoteAddr (conn r n))).1 n) as Hs.
  by destruct (nat_port nat_file _ n).
Qed.

Lemma idle_probe_target r req a b n raw : idle n (probe_target listen r req a b n raw).
Proof.
  unfold probe_target. cbv zeta. case_match; [done|]. destruct (FindConnectionByID _ n) as [t|]; [|done].
  lazymatch goal with |- context [let '(relay, n) := ?p in _] => assert (idle n p.2) as Hs; [|destruct p as [relay m]] end.
  { case_match; [apply idle_pair_relay|done]. }
  etrans; [exact Hs|apply idle_SendRMC].
Qed.

Lemma idle_NATTraversal OnNATProperties probe vide server r req n :
  (∀ f p a b c n, OnNATProperties = Some f → idle n (f p a b c n)) →
  idle n (NATTraversalHandler nat_file listen probe vide server OnNATProperties r req n).2.
Proof.
  intros Hnat. unfold NATTraversalHandler. cbv zeta.
  repeat lazymatch goal with |- idle n (snd (if ?b then _ else _)) => destruct b end; try done; cbn [snd].
  - unfold pushInitiateProbe. destruct (read_err n req _); [done|]. destruct (read_body n req _) as [l st].
    pose proof (idle_repoint probe r st n) as Hs. destruct (repoint nat_file probe r st n) as [b m].
    etrans; [exact Hs|]. apply idle_foldl. intros. apply idle_probe_target.
  - unfold logNATResult. cbv zeta. destruct (read_err n req _); [done|]. destruct (read_body n req _) as [cid res].
    case_match; [done|apply idle_comp].
  - unfold noteNATProperties. cbv zeta. destruct (read_err n req _); [done|].
    destruct (read_body n req _) as [[a b] c]. apply idle_callback; [by apply idle_upd|]. intros. by apply Hnat.
Qed.

Context (bcfg : BridgeConfig).
Lemma idle_bridge_pair j h n : idle n (bridge_pair bcfg nat_file j h n).2.
Proof. unfold bridge_pair. destruct (bridgeSessionStationsForPair _ _ _ _ _ _). apply idle_comp. Qed.
Lemma idle_relayedFor j h urls n : idle n (relayedFor listen j h urls n).2.
Proof.
  unfold relayedFor. case_match; [done|].
  pose proof (idle_pair_relay (PID (conn j n)) (PID (conn h n)) (PublicIPOf (conn j n)) (PublicIPOf (conn h n)) n) as Hs.
  by destruct (pair_relay _ _ _ _ _ n) as [[[a b]|] m].
Qed.

Lemma idle_getSessionURLs SessionStations r req n :
  idle n (getSessionURLs cfg bcfg nat_file listen SessionStations r req n).2.
Proof.
  unfold getSessionURLs. cbv zeta. destruct (gatherings (mm n) !! _) as [g|]; [|by case_match].
  destruct (FindConnectionByID _ n) as [h|]; [|done]. destruct SessionStations; [done|].
  pose proof (idle_bridge_pair r h n) as Hs. destruct (bridge_pair bcfg nat_file r h n) as [[urls st] m].
  cbn [snd] in Hs. case_decide; [etrans; [exact Hs|apply idle_comp]|].
  pose proof (idle_relayedFor r h urls m) as Hs'. destruct (relayedFor listen r h urls m). cbn [snd] in *. by etrans.
Qed.

Lemma idle_waiter i n : idle n (waiter_wakes bcfg nat_file listen i n).
Proof.
  unfold waiter_wakes. cbv zeta. destruct (ns_waiting (ns n) !! i) as [w|]; [|done].
  assert (∀ urls m, idle n m →
    idle n (let '(urls, m) := relayedFor listen (w_joiner w) (w_host w) urls m in
            SendRMC (w_joiner w) (sessionURLsResponse (w_req w) urls m) m)) as Hans.
  { intros urls m Hm. pose proof (idle_relayedFor (w_joiner w) (w_host w) urls m) as Hs.
    destruct (relayedFor _ _ _ _ m) as [u k]. etrans; [exact Hm|]. etrans; [exact Hs|apply idle_SendRMC]. }
  pose proof (idle_bridge_pair (w_joiner w) (w_host w) n) as Hs.
  destruct (bridge_pair bcfg nat_file _ _ n) as [[urls st] m]. cbn [snd] in Hs.
  case_decide; [apply Hans; etrans; [exact Hs|apply idle_comp]|]. case_match; [done|].
  apply Hans. etrans; [exact Hs|apply idle_comp].
Qed.
End nat.
End others.

(** Rankings, referee, profiles. *)
Section boards.
#[local] Set Default Proof Using "Type*".
Context {App : Type} `{HM : !Substate MM App}.
#[local] Abbreviation Net := (NetOf App).
Implicit Types (n : Net) (r : Ref) (req : RMCMessage).

Lemma idle_Ranking `{HK : !Substate RankState App} `{HI : !Independent MM RankState App}
    `{HT : !Substate tournamentStore App} commonFile boardFile `{SS : SliceSort} (o1 o2 : MapOrder) `{MO : MapOrder} r req n :
  idle n (RankingHandler commonFile boardFile o1 o2 r req n).2.
Proof.
  unfold RankingHandler. cbv zeta.
  repeat lazymatch goal with |- idle n (snd (if ?b then _ else _)) => destruct b end; try done.
  - unfold uploadCommonData. cbn [snd]. destruct (read_err n req rBuffer); [done|apply idle_comp].
  - unfold commonDataByPIDs. cbv zeta. case_match; [done|]. destruct (rU32 _) as [k i]. case_match; [done|].
    destruct (profiles _ _ _ _ _) as [[w|] st]; apply idle_set_comp.
  - unfold competitionRanking. cbv zeta. case_match; [done|]. destruct (boardFor _ _ _ _) as [[|e l] st]; apply idle_set_comp.
  - unfold submitScore. cbn [snd]. case_match; [etrans; [apply idle_comp|]|]; apply idle_comp.
Qed.

Lemma idle_Ranking2 `{HR : !Substate Ranking2Store App} `{HI : !Independent MM Ranking2Store App}
    `{MO : MapOrder} `{SS : SliceSort} persiste written r req n :
  idle n (Ranking2Handler persiste written r req n).2.
Proof.
  unfold Ranking2Handler. cbv zeta.
  repeat lazymatch goal with |- idle n (snd (if ?b then _ else _)) => destruct b end; try done; cbn [snd].
  - unfold PutScore. destruct (read_body n req rPutScore) as [[l u]|]; [|done].
    destruct (read_err n req rPutScore); [done|apply idle_comp].
  - apply idle_comp.
  - apply idle_comp.
Qed.

Lemma idle_Referee `{HR : !Substate RefereeState App} `{HI : !Independent MM RefereeState App} `{MO : MapOrder}
    cfg persiste written joinable r req n :
  idle n (MatchmakeRefereeHandler cfg persiste written joinable r req n).2.
Proof.
  assert (∀ f m, idle m (upd_stats f m)) as Hstats by (intros; apply idle_comp).
  assert (∀ f m, idle m (save_stats persiste written (upd_stats f m))) as Hsave by (intros; etrans; apply Hstats).
  unfold MatchmakeRefereeHandler. cbv zeta.
  repeat lazymatch goal with |- idle n (snd (if ?b then _ else _)) => destruct b end; try done; cbn [snd];
    try apply Hsave.
  unfold startRound. cbv zeta. cbn [snd]. etrans; [apply idle_comp|].
  apply idle_foldl. intros m p. destruct joinable; [apply idle_notify_pid|done].
Qed.

Lemma idle_SMM2 `{HD : !Substate SMM2State App} `{HI : !Independent MM SMM2State App} `{MO : MapOrder}
    cb persiste written r req n :
  idle n (DataStoreSMM2Handler cb persiste written r req n).2.
Proof.
  unfold DataStoreSMM2Handler. cbv zeta.
  repeat lazymatch goal with |- idle n (snd (if ?b then _ else _)) => destruct b end; try done.
  - unfold handleDataStoreRegisterUser. destruct (read_body n req _) as [[p i] [e|]]; [done|apply idle_comp].
  - unfold handleDataStoreSyncUserProfile. destruct (SMM2ProfilDe _ _) as [p|]; [|done].
    destruct (sync_profil req n p); [apply idle_comp|done].
Qed.
End boards.

(** ** The package's handlers are polite *)
Section package.
Context {G : Type} (order1 order2 : MapOrder) `{MO : MapOrder} `{SS : SliceSort}.
#[local] Abbreviation Net := (NetOf (Process G)).
Implicit Types (n : Net) (r : Ref) (req : RMCMessage).
Context (rnd32 rnd_mark rnd_code : Net → bytes).
Context (cfg : Config) (bcfg : BridgeConfig) (scfg : SecureConnectionConfig) (uenv : UtilityEnv) (cb : SMM2Callbacks).
Context (nat_file : Z → option bytes) (listen : Z → Z → bool).
Context (relaiInclutSource probeRepoint relaySigVide persiste joinable : bool) (relaySigServer : Z).
Context (written : Net → bool).
Context (commonFile : option (gmap bytes bytes)) (boardFile : option (list boardPersisted)).
Context (OnSessionReady : option (Z → list Z → Net → Net)) (OnFriendSessionCreated : option (Z → Z → Net → Net)).
Context (OnNATProperties : option (Z → Z → Z → Z → Net → Net)).
Context (SessionStations : option (Ref → Ref → Net → list StationURL)).
Context (OnConnect : option (Ref → Net → Net)) (OnRMC : option (Ref → RMCMessage → Net → Net)).
Context (custom : gmap Z (Ref → Packet → Net → Net)).
Hypothesis Hcb : callbacks_idle OnSessionReady OnFriendSessionCreated OnNATProperties OnConnect OnRMC custom.

Lemma touches_ExtensionHandler r req n res :
  ExtensionHandler cfg rnd32 rnd_mark rnd_code OnSessionReady OnFriendSessionCreated r req n = Some res →
  touches (PID (conn r n)) n res.2.
Proof using Hcb.
  destruct Hcb as [H1 H2 _ _ _ _]. unfold ExtensionHandler.
  destruct (quiet_lookup_handlers cfg r req n) as (E1 & E2 & E3 & E4 & E5 & E6 & E7 & E8).
  repeat lazymatch goal with
  | |- (if ?b then modifyCurrentGameAttribute _ _ _ else _) = _ → _ =>
      destruct b; [apply touches_modify|]
  | |- (if ?b then _ else _) = _ → _ =>
      destruct b; [intros [= <-]; try case_match; rewrite ?E1, ?E2, ?E3, ?E4, ?E5, ?E6, ?E7, ?E8;
        first [ reflexivity
              | solve [eauto using touches_setParticipation, touches_autoMatchmake, touches_createSession,
                touches_joinSession, touches_privateRoomCreate, touches_updateSessionPart,
                touches_updateApplicationBuffer, touches_updateAttribs]
              | apply idle_touches; first [apply idle_updateNotificationData | apply idle_getFriendNotificationData
                | apply idle_tournamentsByIDs | apply idle_createTournament | apply idle_removeTournament
                | apply idle_registerTournament] ] |]
  end.
  by intros [= <-].
Qed.

(** What the title's table may hold is polite, the package's handlers first. *)
#[local] Instance idle_polite (h : RMCHandler Net) : (∀ r req n, idle n (h r req n).2) → Polite h.
Proof. intros H r req n. apply idle_touches, H. Qed.

#[local] Abbreviation serve := (serve_extension rnd32 rnd_mark rnd_code cfg OnSessionReady OnFriendSessionCreated).

Lemma polite_extension : Polite serve.
Proof using Hcb.
  intros r req n. unfold serve_extension. destruct (ExtensionHandler _ _ _ _ _ _ _ _ _) as [res|] eqn:E; [|reflexivity].
  by apply touches_ExtensionHandler in E.
Qed.

Lemma polite_matchmaking_ext : Polite (App := Process G) MatchMakingExtHandler.
Proof. intros r req n. unfold MatchMakingExtHandler. case_match; [apply touches_endParticipation|reflexivity]. Qed.

Lemma polite_matchmaking :
  Polite (MatchMakingHandler cfg bcfg nat_file listen OnSessionReady SessionStations).
Proof using Hcb.
  intros r req n. unfold MatchMakingHandler. cbv zeta.
  repeat lazymatch goal with |- touches _ n (snd (if ?b then _ else _)) => destruct b end; try reflexivity; cbn [snd].
  - apply idle_touches, idle_getSessionURLs; apply _.
  - apply touches_unregister.
  - apply touches_migrate, Hcb.
  - apply touches_migrate, Hcb.
  - unfold findBySingleID15. by destruct (gatherings (mm n) !! _).
Qed.

Lemma package_polite k h :
  package order1 order2 rnd32 rnd_mark rnd_code cfg bcfg scfg uenv cb nat_file listen relaiInclutSource probeRepoint
    relaySigVide persiste joinable relaySigServer written commonFile boardFile OnSessionReady OnFriendSessionCreated
    OnNATProperties SessionStations k h → Polite h.
Proof using Hcb.
  intros []; [apply polite_extension|apply polite_matchmaking_ext|apply polite_matchmaking|..]; apply idle_polite; intros r req n.
  - apply idle_delivery.
  - apply idle_NATTraversal. intros. by eapply cb_nat.
  - apply idle_secure.
  - reflexivity.
  - apply idle_Ranking.
  - apply idle_Ranking2.
  - apply idle_Referee.
  - apply idle_SMM2.
Qed.
End package.
