(* ===== verification/ProcessProps.v ===== *)
(** * What holds of the whole process

    Whatever arrives on whatever connection, in whatever order the goroutines, the timers and
    the reaper run: the registry and the gatherings stay consistent, an identity comes from a
    login and from nowhere else, lobbies list nobody else, and every step plays by the rules of
    the lobbies. *)

From S2P Require Export ProcessFrames.

(** ** Identities across the endpoint's own operations *)
Section identities.
Context {App : Type} `{HM : !Substate MM App} `{MO : MapOrder}.
#[local] Abbreviation Net := (NetOf App).
Implicit Types (n : Net).

(** Nothing happens to the identities and in the lobbies. *)
Definition still n n' : Prop := (∀ r, PID (conn r n') = PID (conn r n)) ∧ quiet n n'.
#[export] Instance still_preorder : PreOrder still.
Proof. split; [by split|]. intros a b c [P Q] [P' Q']. split; [intros r; by rewrite P'|by etrans]. Qed.

Lemma idle_still n n' : idle n n' → still n n'.
Proof. intros [F Q]. split; [intros r; by apply frame_pid|done]. Qed.

(** An operation of the endpoint that keeps the PIDs. *)
Lemma still_net n n' : (∀ r, PID (conn r n') = PID (conn r n)) → app_state n' = app_state n → still n n'.
Proof. intros P E. split; [done|]. unfold quiet, mm. by rewrite E. Qed.
Lemma still_frame n n' : frame n n' → app_state n' = app_state n → still n n'.
Proof. intros F. apply still_net. intros r. by apply frame_pid. Qed.

Lemma still_upd r f n : (∀ c, PID (f c) = PID c) → still n (upd r f n).
Proof. intros Hf. apply still_net; [|done]. intros r'. rewrite conn_upd. case_decide; subst; [apply Hf|done]. Qed.

Lemma unregister_conn r n r' : conn r' (unregisterConnection r n) = conn r' n.
Proof. unfold unregisterConnection. by case_match. Qed.
Lemma unregister_app r n : app_state (unregisterConnection r n) = app_state n.
Proof. unfold unregisterConnection. by case_match. Qed.

Lemma still_register r n : still n (registerConnection r n).
Proof.
  apply still_net; [|done]. intros r'. change (PID (conn r' (upd r (set_ID (u32 (connCounter n + 1))) n)) = PID (conn r' n)).
  rewrite conn_upd. by case_decide; subst.
Qed.

Lemma still_send r b n : still n (send r b n).
Proof. by apply still_net. Qed.

Lemma still_SYN rand16 r pk n : still n (processSYN rand16 r pk n).
Proof.
  unfold processSYN. cbv zeta. etrans; [|apply still_send].
  do 5 (etrans; [|by apply still_upd]). by apply still_upd.
Qed.

(** The acknowledgement and the duplicate window of a data packet. *)
Lemma frame_dejaRecu r pk n : frame n (upd r (λ _, (dejaRecu (PacketID pk) (conn r (sendAck r pk n))).2) (sendAck r pk n)).
Proof.
  split; [done..|]. intros r'. rewrite conn_upd. case_decide; subst; [|done].
  change (conn r (sendAck r pk n)) with (conn r n). unfold dejaRecu. by destruct (existsb _ _).
Qed.

(** No identity changes; the gatherings stay well-formed and [p] has a turn in the lobbies,
    with the connections there were. *)
Record evolves (p : Z) n n' : Prop := mkEvolves {
  ev_pids : ∀ r, PID (conn r n') = PID (conn r n);
  ev_ok : mm_ok (mm n) → mm_ok (mm n');
  ev_lobby : turn (here n) p (hall_of (mm n)) (hall_of (mm n'))
}.

Lemma touches_evolves p n n' : touches p n n' → evolves p n n'.
Proof. intros [F O L]. split; [intros r; by apply frame_pid|done..]. Qed.

Lemma evolves_still_r p a b c : evolves p a b → still b c → evolves p a c.
Proof.
  intros [P O L] [P' Q]. split; [intros r; by rewrite P'|intros Ha; apply (mm_ok_same (mm b)); [apply Q|auto]|].
  by rewrite (hall_of_quiet b c).
Qed.
Lemma still_evolves p n n' : still n n' → evolves p n n'.
Proof. apply evolves_still_r. split; [done|auto|apply turn_refl]. Qed.

(** What comes before may change the endpoint, as long as it keeps who has a connection. *)
Lemma evolves_still_l p a b c : still a b → (∀ q, here b q = here a q) → evolves p b c → evolves p a c.
Proof.
  intros [P Q] E [P' O L]. split; [intros r; by rewrite P'|intros Ha; apply O, (mm_ok_same (mm a)); [apply Q|done]|].
  rewrite <- (hall_of_quiet a b) by done. by eapply turn_here.
Qed.

(** A login request changes the PID of its own connection only, when it is accepted. *)
Lemma login_evolves file r payload n :
  let '(res, n') := processLoginRequest file r payload n in
  app_state n' = app_state n ∧
  ∀ r', r' ≠ r ∨ (∃ e, res = Err e) → PID (conn r' n') = PID (conn r' n).
Proof.
  unfold processLoginRequest. destruct (negb (Secure n)); [by split|]. case_bool_decide.
  - destruct (RecallAuthPID _ _ _ _) as [[q|] a]; (split; [done|]); [|done].
    intros r' [Hr|[e [=]]]. by rewrite conn_upd_ne.
  - cbv zeta. destruct (result_bind _ _) as [[[[q cid] check] key]|e]; (split; [done|]); [|done].
    intros r' [Hr|[e [=]]]. by rewrite conn_upd_ne.
Qed.
End identities.

(** ** The end of a connection *)
Section ends.
Context {G : Type} `{MO : MapOrder}.
#[local] Abbreviation Net := (NetOf (Process G)).
Implicit Types (n : Net).

(** The end of a connection: its player leaves. *)
Lemma close_cases cfg r n :
  close (OnDisconnect cfg) r n = n ∨
  ∃ n1, close (OnDisconnect cfg) r n = RemovePlayer cfg (PID (conn r n)) n1 ∧
        (∀ r', PID (conn r' n1) = PID (conn r' n)) ∧ app_state n1 = app_state n.
Proof.
  unfold close. case_match; [by left|]. cbv zeta. right. set (n0 := upd r (set_state stateClosed) n).
  exists (unregisterConnection r n0). cbn [OnDisconnect]. rewrite !unregister_conn, unregister_app.
  assert (∀ r', PID (conn r' n0) = PID (conn r' n)) as Hp
    by (intros r'; subst n0; rewrite conn_upd; by case_decide; subst).
  rewrite Hp. split_and!; [done|intros r'; by rewrite unregister_conn|done].
Qed.

Lemma evolves_close cfg r n : evolves (PID (conn r n)) n (close (OnDisconnect cfg) r n).
Proof.
  destruct (close_cases cfg r n) as [->|(n1 & -> & Hp & Ha)]; [by apply still_evolves|].
  assert (mm n1 = mm n) as E by (unfold mm; by rewrite Ha). set (p := PID (conn r n)).
  destruct (touches_RemovePlayer cfg p n1) as [F O _]. rewrite E in O.
  split; [intros r'; by rewrite (frame_pid _ _ _ F)|done|]. rewrite <- E. apply turn_moves, run_RemovePlayer.
Qed.

Lemma close_listed cfg r n q : listed q (mm (close (OnDisconnect cfg) r n)) → listed q (mm n).
Proof.
  destruct (close_cases cfg r n) as [->|(n1 & -> & _ & Ha)]; [done|].
  assert (mm n1 = mm n) as <- by (unfold mm; by rewrite Ha). apply RemovePlayer_listed.
Qed.
End ends.

(** ** The whole process *)
Section process.
#[local] Set Default Proof Using "Type*".
Context {G : Type} (order1 order2 : MapOrder) `{MO : MapOrder} `{SS : SliceSort}.
#[local] Abbreviation Net := (NetOf (Process G)).
Implicit Types (n : Net) (r : Ref) (req : RMCMessage).
Context (file : option (gmap bytes authRecallPersisted)) (rand16 rnd32 rnd_mark rnd_code : Net → bytes).
Context (cfg : Config) (bcfg : BridgeConfig) (scfg : SecureConnectionConfig) (uenv : UtilityEnv) (cb : SMM2Callbacks).
Context (nat_file : Z → option bytes) (listen : Z → Z → bool).
Context (relaiInclutSource probeRepoint relaySigVide persiste joinable : bool) (relaySigServer : Z).
Context (written : Net → bool).
Context (commonFile : option (gmap bytes bytes)) (boardFile : option (list boardPersisted)).
Context (OnSessionReady : option (Z → list Z → Net → Net)) (OnFriendSessionCreated : option (Z → Z → Net → Net)).
Context (OnNATProperties : option (Z → Z → Z → Z → Net → Net)).
Context (SessionStations : option (Ref → Ref → Net → list StationURL)).
Context (OnConnect : option (Ref → Net → Net)) (OnRMC : option (Ref → RMCMessage → Net → Net)).
Context (custom : gmap Z (Ref → Packet → Net → Net)).
Context (table : HandlerTable Net).
Hypothesis Hcb : callbacks_idle OnSessionReady OnFriendSessionCreated OnNATProperties OnConnect OnRMC custom.
Hypothesis Hwired : wired order1 order2 rnd32 rnd_mark rnd_code cfg bcfg scfg uenv cb nat_file listen relaiInclutSource
  probeRepoint relaySigVide persiste joinable relaySigServer written commonFile boardFile OnSessionReady
  OnFriendSessionCreated OnNATProperties SessionStations table.

#[local] Abbreviation handle := (handlePacket file rand16 table OnConnect (OnDisconnect cfg) OnRMC custom).
#[local] Abbreviation step :=
  (process_step file rand16 cfg bcfg nat_file listen OnSessionReady OnConnect OnRMC custom table).
#[local] Abbreviation run :=
  (process_run file rand16 cfg bcfg nat_file listen OnSessionReady OnConnect OnRMC custom table).
#[local] Abbreviation reach :=
  (reachable file rand16 cfg bcfg nat_file listen OnSessionReady OnConnect OnRMC custom table).
#[local] Abbreviation known :=
  (logged_in file rand16 cfg bcfg nat_file listen OnSessionReady OnConnect OnRMC custom table).

Lemma handler_polite k h : handler table k = Some h → Polite h.
Proof. intros [H|H]%Hwired; [|done]. eapply (package_polite order1 order2); [exact Hcb|exact H]. Qed.

(** The callbacks' obligation towards the endpoint, from their frames. *)
Lemma process_callbacks_ok : callbacks_ok table OnConnect (OnDisconnect cfg) OnRMC custom.
Proof.
  assert (∀ n n', frame n n' → registry_ok n → registry_ok n') as Hf by (intros n n' F; by rewrite F).
  split_and!.
  - intros f r n Hc. apply Hf. by eapply cb_connect.
  - intros f r n [= <-]. apply Hf, frame_RemovePlayer.
  - intros f r m n Hc. apply Hf. by eapply cb_rmc.
  - intros k h r p n Hc. apply Hf. by eapply cb_custom.
  - intros k h r m n Hh. apply Hf. by apply (handler_polite k h Hh).
Qed.

Lemma registry_ok_process n n' : connCounter n < 2 ^ 32 - 1 → step n n' → registry_ok n → registry_ok n'.
Proof.
  assert (∀ n n', frame n n' → registry_ok n → registry_ok n') as Hf by (intros m m' F; by rewrite F).
  intros Hlt [n1 Hs|i|i|p|r req h sp _|r|r sp _|p sp|n1 [F _]].
  - eapply registry_ok_step; [apply process_callbacks_ok|done|exact Hs].
  - apply Hf, (idle_timer cfg OnSessionReady), Hcb.
  - apply Hf, idle_waiter.
  - apply Hf, frame_rehost.
  - apply Hf, locked_touches.
  - intros Hok. unfold closing. apply registry_ok_unregister; [by apply registry_ok_upd|by rewrite conn_upd_eq].
  - apply Hf, locked_touches.
  - apply Hf, locked_touches.
  - by apply Hf.
Qed.

(** *** One packet *)
Lemma evolves_dispatch r payload n : evolves (PID (conn r n)) n (dispatchRMC table OnRMC r payload n).
Proof.
  unfold dispatchRMC. destruct (ParseRMC _ _) as [[req|] [e|]]; try by apply still_evolves.
  case_match; [by apply still_evolves|]. cbv zeta. set (m := match OnRMC with Some f => f r req n | None => n end).
  assert (idle n m) as Hm.
  { subst m. apply idle_callback; [reflexivity|]. intros. by eapply cb_rmc. }
  apply (evolves_still_l _ _ m); [by apply idle_still|intros q; by apply here_frame, Hm|].
  rewrite <- (frame_pid r n m) by apply Hm.
  destruct (handler table (Protocol req)) as [h|] eqn:E; [|apply touches_evolves, idle_touches, idle_SendRMC].
  pose proof (touches_evolves _ _ _ (handler_polite _ _ E r req m)) as Hh.
  destruct (h r req m) as [[resp|] m']; cbn [snd] in Hh; [|exact Hh].
  eapply evolves_still_r; [exact Hh|apply idle_still, idle_SendRMC].
Qed.

Lemma evolves_data r p n : evolves (PID (conn r n)) n (processData table OnRMC r p n).
Proof.
  unfold processData. case_match; [case_match; apply still_evolves; [by apply still_upd|done]|].
  case_match; [by apply still_evolves, still_upd|]. cbv zeta.
  set (pick := if HasFlag p FlagNeedACK then _ else _).
  assert (frame n pick.2 ∧ app_state pick.2 = app_state n) as [Hp Ha].
  { subst pick. destruct (HasFlag p FlagNeedACK); [|done]. pose proof (frame_dejaRecu r p n) as Hd.
    destruct (dejaRecu _ _) as [dup c]. by split. }
  destruct pick as [[] m]; cbn [snd] in Hp, Ha; [by apply still_evolves, still_frame|].
  assert (frame n (upd r (λ c, set_fragBuf (fragBuf c ++ Payload p) c) m)) as F by (etrans; [exact Hp|by apply frame_upd]).
  case_match; [|by apply still_evolves, still_frame].
  set (m1 := upd r (λ c, set_fragBuf _ c) m). assert (frame n (upd r (set_fragBuf []) m1)) as F1
    by (etrans; [exact F|by apply frame_upd]).
  eapply evolves_still_l; [by apply (still_frame n (upd r (set_fragBuf []) m1))|intros q; by apply here_frame|].
  rewrite <- (frame_pid r n _ F1). apply evolves_dispatch.
Qed.

(** What one packet does to who is who: nothing, or a login of its own connection; and to the
    lobbies: what its player may do there. *)
Definition packet_outcome r (p : Packet) n n' : Prop :=
  (∀ r', r' ≠ r → PID (conn r' n') = PID (conn r' n)) ∧
  (PID (conn r n') = PID (conn r n) ∨ admits file n r p (PID (conn r n'))) ∧
  (mm_ok (mm n) → mm_ok (mm n')) ∧
  turn (here n) (PID (conn r n)) (hall_of (mm n)) (hall_of (mm n')).

Lemma evolves_outcome r p n n' : evolves (PID (conn r n)) n n' → packet_outcome r p n n'.
Proof. intros [P O L]. split_and!; [by intros|by left|done|done]. Qed.

Lemma still_connected r b n :
  let n' := set_tasks (tasks (registerConnection r (upd r (set_state stateConnected) (send r b n))) ++ [RetransmitLoop r])
              (registerConnection r (upd r (set_state stateConnected) (send r b n))) in
  still n (match OnConnect with Some f => f r n' | None => n' end).
Proof.
  cbv zeta. set (s := send r b n). set (c := upd r (set_state stateConnected) s). set (g := registerConnection r c).
  transitivity g; [etrans; [|apply still_register]; etrans; [apply still_send|by apply still_upd]|].
  transitivity (set_tasks (tasks g ++ [RetransmitLoop r]) g); [by apply still_net|].
  apply idle_still, idle_callback; [reflexivity|]. intros. by eapply cb_connect.
Qed.

Lemma CONNECT_outcome r p n :
  p_Type p = PacketCONNECT → HasFlag p FlagACK = false →
  packet_outcome r p n (processCONNECT file OnConnect r p (upd r (set_lastSeen (clock n)) n)).
Proof.
  intros Ht Hf. set (n1 := upd r (set_lastSeen (clock n)) n).
  assert (still n n1) as H1 by by apply still_upd.
  unfold processCONNECT. destruct (equalBytes _ (Signature p)) eqn:Es; cbn [negb]; [|by apply evolves_outcome, still_evolves].
  pose proof (login_evolves file r (Payload p) n1) as Hl.
  destruct (processLoginRequest file r (Payload p) n1) as [[resp|e] n2] eqn:El; destruct Hl as [Happ Hpid].
  - cbv zeta. set (n3 := match OnConnect with Some f => _ | None => _ end).
    assert (still n2 n3) as [P Q] by (subst n3; apply still_connected).
    assert (quiet n n3) as Hq by (etrans; [apply H1|]; etrans; [|exact Q]; unfold quiet, mm; by rewrite Happ).
    split_and!; [|right|by apply mm_ok_quiet|rewrite (hall_of_quiet n n3 Hq); apply turn_refl].
    + intros r' Hr. rewrite P, Hpid by (by left). apply H1.
    + split_and!; [done|done| |].
      * revert Es. unfold equalBytes, bytes_eqb. subst n1. rewrite conn_upd_eq. cbn [connectionSig set_lastSeen].
        intros Es%bool_decide_eq_true_1. done.
      * exists resp, n2. split; [exact El|]. by rewrite P.
  - apply evolves_outcome, still_evolves. etrans; [exact H1|]. apply still_net; [|done]. intros r'. apply Hpid. right. by eexists.
Qed.

Lemma packet_outcome_ok r p n : packet_outcome r p n (handle r p n).
Proof.
  unfold handlePacket. cbv zeta. set (n1 := upd r (set_lastSeen (clock n)) n).
  assert (still n n1) as H1 by by apply still_upd. pose proof (proj1 H1 r) as E1.
  assert (∀ q, here n1 q = here n q) as Eh.
  { intros q. unfold here. rewrite (FindConnectionByPID_same q n n1); [done|done|apply H1|].
    intros r'. subst n1. rewrite conn_upd. by case_decide; subst. }
  assert (∀ m, evolves (PID (conn r n)) n1 m → packet_outcome r p n m) as Hout
    by (intros m Hm; by apply evolves_outcome, (evolves_still_l _ _ n1)).
  destruct (Z.eqb_spec (p_Type p) PacketSYN).
  { apply Hout, still_evolves. case_match; [done|apply still_SYN]. }
  destruct (Z.eqb_spec (p_Type p) PacketCONNECT).
  { destruct (HasFlag p FlagACK) eqn:Ef; [by apply Hout, still_evolves|]. by apply CONNECT_outcome. }
  destruct (p_Type p =? PacketDATA).
  { apply Hout. rewrite <- E1. apply evolves_data. }
  apply Hout. destruct (p_Type p =? PacketPING).
  { apply still_evolves. unfold processPing. case_match; [done|]. case_match; [apply still_send|done]. }
  destruct (p_Type p =? PacketDISCONNECT).
  { case_match; [by apply still_evolves|]. set (m := if HasFlag p FlagNeedACK then sendAck r p n1 else n1).
    assert (frame n1 m ∧ app_state m = app_state n1) as [F Ha] by (subst m; case_match; [by split|done]).
    apply (evolves_still_l _ _ m); [by apply still_frame|intros q; by apply here_frame|].
    rewrite <- E1, <- (frame_pid r n1 m F). apply evolves_close. }
  destruct (custom !! p_Type p) as [h|] eqn:Eh'; [|by apply still_evolves]. apply touches_evolves, idle_touches. by eapply cb_custom.
Qed.

(** On whose behalf a step moves players: the packet's, the request's or the closed
    connection's, or the host's whose lobbies change hands. *)
Inductive on_behalf n n' : Z → Prop :=
  | ob_packet r p : n' = handle r p n → on_behalf n n' (PID (conn r n))
  | ob_evicted r : n' = close (OnDisconnect cfg) r n → on_behalf n n' (PID (conn r n))
  | ob_rehost p : n' = (MigrerHebergementDepuis cfg p n).2 → on_behalf n n' p
  | ob_request r req h (sp : split (λ n, PID (conn r n)) (h r req)) :
      handler table (Protocol req) = Some h → n' = (locked sp n).2 → on_behalf n n' (PID (conn r n))
  | ob_removing r (sp : split (λ _, PID (conn r n)) (λ m, (tt, RemovePlayer cfg (PID (conn r n)) m))) :
      state (conn r n) = stateClosed → n' = (locked sp n).2 → on_behalf n n' (PID (conn r n))
  | ob_rehosting p (sp : split (λ _, p) (MigrerHebergementDepuis cfg p)) : n' = (locked sp n).2 → on_behalf n n' p.

(** What is listed after the first piece is listed after the whole. *)
Lemma locked_listed {A} pl (f : Net → A * Net) (sp : split pl f) n x :
  listed x (mm (locked sp n).2) → listed x (mm (f n).2).
Proof.
  rewrite (split_whole _ _ sp n). intros (gid & g & Hg & Hx). exists gid, g. split; [|done].
  rewrite (proj1 (proj2 (unlocked_idle _ _ sp _ _))). exact Hg.
Qed.

(** The other steps change nobody's identity, and list nobody new but their player, who is
    the player of some connection. *)
Lemma step_outcome n n' :
  step n n' → (∃ r p, n' = handle r p n) ∨ still n n' ∨
    ∃ q, on_behalf n n' q ∧ evolves q n n' ∧ ∀ x, listed x (mm n') → listed x (mm n) ∨ ∃ r, x = PID (conn r n).
Proof.
  intros [n1 [addr|r b|r p|i|r m|r|t]|i|i|p|r req h sp Hh|r|r sp Hr|p sp|n1 Hi];
    [right; left|right; left|by left; eauto|..].
  - apply still_net; [|done]. intros r'. unfold conn, alloc. cbn [snd heap set_heap].
    set (r := fresh _). destruct (decide (r' = r)) as [->|Hne]; [|by rewrite lookup_insert_ne].
    rewrite lookup_insert_eq. assert (heap n !! r = None) as -> by apply not_elem_of_dom, is_fresh. done.
  - by apply still_upd.
  - right; left. apply still_frame; [apply frame_run_task|apply app_run_task].
  - right; left. apply idle_still, idle_SendRMC.
  - right; right. exists (PID (conn r n)). split_and!; [by eapply ob_evicted|apply evolves_close|].
    intros x Hx. left. by eapply close_listed.
  - right; left. by apply still_net.
  - right; left. apply idle_still, (idle_timer cfg OnSessionReady), Hcb.
  - right; left. apply idle_still, idle_waiter.
  - right; right. exists p. split_and!; [by apply ob_rehost|apply touches_evolves, touches_rehost|].
    intros x Hx. left. by eapply rehost_listed.
  - right; right. pose proof (locked_touches sp n) as T. exists (PID (conn r n)).
    split_and!; [by eapply ob_request|by apply touches_evolves|].
    intros x [->|Hx]%(t_listed _ _ _ T); [right; by exists r|by left].
  - right; left. apply still_net; [|unfold closing; by rewrite unregister_app]. intros r'. unfold closing. rewrite unregister_conn, conn_upd.
    by case_decide; subst.
  - right; right. pose proof (locked_touches sp n) as T. exists (PID (conn r n)).
    split_and!; [by eapply ob_removing|by apply touches_evolves|].
    intros x [->|Hx]%(t_listed _ _ _ T); [right; by exists r|by left].
  - right; right. exists p. split_and!; [by eapply ob_rehosting|apply touches_evolves, (locked_touches sp)|].
    intros x Hx%locked_listed. left. by eapply rehost_listed.
  - right; left. by apply idle_still.
Qed.

Lemma step_pids n n' : step n n' → (∃ r p, n' = handle r p n) ∨ ∀ r, PID (conn r n') = PID (conn r n).
Proof. intros [Hp|[[P _]|(q & _ & [P _ _] & _)]]%step_outcome; auto. Qed.

(** Every step is some player's turn in the lobbies, or none. *)
Lemma step_turn n n' :
  step n n' → hall_of (mm n') = hall_of (mm n) ∨
    ∃ p, on_behalf n n' p ∧ turn (here n) p (hall_of (mm n)) (hall_of (mm n')).
Proof.
  intros [(r & p & ->)|[[_ Q]|(q & Hb & [_ _ L] & _)]]%step_outcome; [right|by left; apply hall_of_quiet|right; eauto].
  exists (PID (conn r n)). split; [by eapply ob_packet|]. apply (packet_outcome_ok r p n).
Qed.

(** *** The invariant of the process *)
Definition process_ok n : Prop :=
  registry_ok n ∧ mm_ok (mm n) ∧
  (∀ r, PID (conn r n) = 0 ∨ known (PID (conn r n)) n) ∧
  (∀ q, listed q (mm n) → q = 0 ∨ known q n).

Lemma known_step q n n' : connCounter n < 2 ^ 32 - 1 → step n n' → known q n → known q n'.
Proof.
  intros Hlt Hs (m & r & p & Hm & Ha & Hr). exists m, r, p. split_and!; [done|done|].
  eapply rtc_r; [exact Hr|]. by split.
Qed.

Lemma process_ok_step n n' :
  connCounter n < 2 ^ 32 - 1 → reach n → step n n' → process_ok n → process_ok n'.
Proof.
  intros Hlt Hreach Hs (Hreg & Hok & Hpid & Hlist).
  assert (∀ q, q = 0 ∨ known q n → q = 0 ∨ known q n') as Hmono
    by (intros q [->|Hq]; [by left|right; by eapply known_step]).
  split; [by eapply registry_ok_process|].
  assert (∀ r, PID (conn r n') = PID (conn r n) → PID (conn r n') = 0 ∨ known (PID (conn r n')) n') as Hpid'
    by (intros r ->; auto).
  destruct (step_outcome n n' Hs) as [(r & p & ->)|[[P Q]|(q & _ & [P O _] & L)]].
  - destruct (packet_outcome_ok r p n) as (H1 & H2 & H3 & H4). split_and!; [auto| |].
    + intros r'. destruct (decide (r' = r)) as [->|Hne]; [|auto]. destruct H2 as [|Ha]; [auto|].
      right. exists n, r, p. split_and!; [done|done|]. apply rtc_refl.
    + intros q Hq. destruct (hall_listed _ _ _ _ q H4 Hq) as [->|Hq']; auto.
  - split_and!; [by apply (mm_ok_quiet n)|auto|]. intros q (gid & g & Hg & Hq). rewrite (proj1 Q) in Hg.
    apply Hmono, Hlist. by exists gid, g.
  - split_and!; [auto|auto|]. intros x [Hx|[r ->]]%L; auto.
Qed.

Lemma process_ok_reachable n : reach n → process_ok n.
Proof.
  intros (n0 & [Hst Hmm] & Hrun). assert (process_ok n0) as H0.
  { assert (registry_ok n0 ∧ ∀ r, PID (conn r n0) = 0) as [Hr Hp].
    { destruct Hst as (s & a & t & x & pw & p & [->| ->]); (split; [apply (registry_ok_proper (NewEndpoint s a t x));
        try done; apply registry_ok_start|intros r; unfold conn; cbn; by rewrite lookup_empty]). }
    split_and!; [done| | |].
    - rewrite Hmm. intros gid g Hg. cbn in Hg. by rewrite lookup_empty in Hg.
    - intros r. left. apply Hp.
    - intros q (gid & g & Hg & _). rewrite Hmm in Hg. cbn in Hg. by rewrite lookup_empty in Hg. }
  assert (reach n0) as Hreach by (exists n0; split; [by split|apply rtc_refl]).
  clear Hst Hmm. induction Hrun as [|n0 n1 n2 [Hlt Hs] _ IH]; [done|].
  apply IH; [by eapply process_ok_step|]. destruct Hreach as (m & Hm & Hr). exists m. split; [done|].
  eapply rtc_r; [exact Hr|]. by split.
Qed.

(** C3: The state of a game server's process, whatever arrives on its connections and in whatever
    order its goroutines, timers and reaper run.  The process is the endpoint with any of the
    package's handlers, handlers of the title's own that keep to their interface, and
    RemovePlayer on disconnection.  Live registered connections are found under identifiers
    of their own; in every gathering nobody is listed twice, the announced number of
    participants is the list's, and the session carries the gathering's number. *)
Theorem process_stays_consistent n :
  reach n →
  (∀ r, ID (conn r n) ≠ 0 → state (conn r n) ≠ stateClosed → FindConnectionByID (ID (conn r n)) n = Some r) ∧
  (∀ r r', ID (conn r n) ≠ 0 → ID (conn r n) = ID (conn r' n) → r = r') ∧
  (∀ gid g, gatherings (mm n) !! gid = Some g →
     NoDup (participants g) ∧ NumParticipants (session g) = u32 (zlen (participants g)) ∧ ms_ID (session g) = gid).
Proof.
  intros ((_ & H2 & H3 & _) & Hok & _)%process_ok_reachable. split_and!; [|done|exact Hok].
  intros r Hne Hst. by destruct (H2 r Hne) as (_ & [|]).
Qed.

(** C2: An identity comes from a login.  Across any step of the process — any packet, any
    method of any handler, a timer, an eviction, a change of host — the PID of a connection
    changes in one case only: the step is that connection's own CONNECT packet, and its login
    is accepted under that PID.  When the CONNECT asks for an acknowledgement it carries the
    signature made with the access key over the endpoint's challenge; when it does not, it has
    to be unsigned, and nothing but its login is checked. *)
Theorem identity_only_by_login n n' r :
  step n n' → PID (conn r n') ≠ PID (conn r n) →
  ∃ p, n' = handle r p n ∧ admits file n r p (PID (conn r n')) ∧
    Signature p = if HasFlag p FlagNeedACK
                  then let key := md5Sum (AccessKey (settings n)) in hmacMD5 key (key ++ connectionSig (conn r n))
                  else [].
Proof.
  intros Hs Hne. destruct (step_pids n n' Hs) as [(r' & p & ->)|He]; [|by rewrite He in Hne].
  destruct (packet_outcome_ok r' p n) as (H1 & H2 & _).
  destruct (decide (r = r')) as [->|Hr]; [|by rewrite H1 in Hne]. exists p. split; [done|].
  destruct H2 as [|H2]; [done|]. split; [done|]. destruct H2 as (Ht & _ & -> & _).
  unfold LitePacketSignature. by rewrite Ht.
Qed.

(** C1: Who is in a lobby logged in.  In every state of the process, everybody a gathering
    lists — the players, and with them whom notifications, departures and session addresses
    are about — is a PID some CONNECT was admitted under earlier in the run, or 0, the PID of a
    connection that has not logged in. *)
Theorem participants_logged_in n gid g q :
  reach n → gatherings (mm n) !! gid = Some g → q ∈ participants g → q = 0 ∨ known q n.
Proof. intros (_ & _ & _ & Hl)%process_ok_reachable Hg Hq. apply Hl. by exists gid, g. Qed.

(** *** The lobbies *)

(** C4: The process implements the lobbies of Lobby.v.  Each of its steps leaves the halls of
    rooms as they are, or is one player's turn there: a packet or a request moves the player of
    its own connection, an eviction the evicted player, a change of host relieves a host who
    cannot be reached; and the turn is made of the machine's moves — enter a room that is not
    full, leave, pass on one's own room, close it, rearrange, strike off those without a
    connection — with one new room at most, under the next number.  The steps are whole packets
    and evictions, and also requests and departures that others interrupt after they have
    released the matchmaker's lock: the turn is taken under the lock. *)
Theorem process_refines_lobbies n n' :
  step n n' →
  hall_of (mm n') = hall_of (mm n) ∨
  ∃ p, on_behalf n n' p ∧ turn (here n) p (hall_of (mm n)) (hall_of (mm n')).
Proof. apply step_turn. Qed.

(** C5: Nobody is put out of a lobby by others.  A listed player with a connection is still
    listed in that lobby after any step of the process, unless the step is their own or is made
    on behalf of the lobby's owner, or the numbering has come round to the lobby's number. *)
Theorem members_stay n n' gid g q :
  step n n' → gatherings (mm n) !! gid = Some g → gid ≠ nextGID (mm n) →
  q ∈ participants g → is_Some (FindConnectionByPID q n) →
  (∃ g', gatherings (mm n') !! gid = Some g' ∧ q ∈ participants g') ∨
  on_behalf n n' q ∨ on_behalf n n' (ms_OwnerPID (session g)).
Proof.
  intros Hs Hg Hne Hq Hh. destruct (step_turn n n' Hs) as [E|(p & Hb & Ht)].
  - left. assert (rooms (hall_of (mm n')) !! gid = Some (room_of g)) as Hr by by rewrite E, hall_room, Hg.
    rewrite hall_room in Hr. apply fmap_Some in Hr as (g' & Hg' & Er). exists g'. split; [done|].
    change (q ∈ members (room_of g')). by rewrite <- Er.
  - destruct (decide (q = p)) as [->|Hqp]; [by right; left|].
    destruct (decide (ms_OwnerPID (session g) = p)) as [<-|Ho]; [by right; right|]. left.
    destruct (turn_stays (here n) p q gid (hall_of (mm n)) (hall_of (mm n'))) as (x & Hx & Hin & _); try done.
    + by apply bool_decide_eq_true.
    + exists (room_of g). by rewrite hall_room, Hg.
    + rewrite hall_room in Hx. apply fmap_Some in Hx as (g' & Hg' & ->). by exists g'.
Qed.

(** Until 2^32 lobbies have been opened the numbering does not come round. *)
Lemma numbers_in_order n0 n :
  started n0 → rtc (λ n n', 0 < nextGID (mm n) < 2 ^ 32 - 1 ∧ step n n') n0 n →
  ∀ gid, is_Some (gatherings (mm n) !! gid) → 0 < gid < nextGID (mm n).
Proof.
  intros [_ Hmm] Hrun. assert (numbered (hall_of (mm n))) as Hn.
  - assert (numbered (hall_of (mm n0))) as H0.
    { rewrite Hmm. intros gid [x Hx]. rewrite hall_room in Hx. cbn in Hx. by rewrite lookup_empty in Hx. }
    clear Hmm. induction Hrun as [|n0 n1 n2 [Hb Hs] _ IH]; [done|]. apply IH.
    destruct (step_turn n0 n1 Hs) as [->|(p & _ & Ht)]; [done|]. by apply (turn_numbered (here n0) p (hall_of (mm n0)) (hall_of (mm n1))).

  - intros gid [g Hg]. apply Hn. exists (room_of g). by rewrite hall_room, Hg.
Qed.
End process.
