(* ===== verification/Pieces.v ===== *)
(** * The requests that announce something, in two pieces

    What AutoMatchmake, CreateMatchmakeSession, JoinMatchmakeSession, MigrateGatheringOwnership,
    RemovePlayer and MigrerHebergementDepuis do under the matchmaker's lock, and what they do
    after they have released it: each is the one after the other.  The steps of Process.v let
    anything happen in between. *)

From S2P Require Export ProcessProps.

(** ** Splits from their two pieces *)
Section splits.
Context {App : Type} `{HM : !Substate MM App} `{MO : MapOrder}.
#[local] Abbreviation Net := (NetOf App).
Implicit Types (n : Net).

(** A request is answered as it was found under the lock; [announce] is what remains. *)
Definition answer_after {L} (announce : L → Net → Net) (l : option RMCMessage * option L) (n : Net)
    : option RMCMessage * Net :=
  (l.1, match l.2 with Some x => announce x n | None => n end).

(** A split from its two pieces: the first one stays inside the frame, and the whole is a
    player's turn. *)
Lemma locked_touches_of {A L} (p : Net → Z) (f : Net → A * Net) (lock : Net → L * Net) (rest : L → Net → A * Net) n :
  f n = rest (lock n).1 (lock n).2 → (∀ l n, idle n (rest l n).2) → frame n (lock n).2 →
  touches (p n) n (f n).2 → touches (p n) n (lock n).2.
Proof.
  intros Hw Hi F [_ O L']. rewrite Hw in O, L'. destruct (Hi (lock n).1 (lock n).2) as [_ Q]. split; [done| |].
  - intros Hok. apply (mm_ok_same (mm (rest (lock n).1 (lock n).2).2)); [|auto]. symmetry. apply Q.
  - by rewrite (hall_of_quiet _ _ Q) in L'.
Qed.

Definition split_of {A L} (p : Net → Z) (f : Net → A * Net) (lock : Net → L * Net) (rest : L → Net → A * Net)
    (Hw : ∀ n, f n = rest (lock n).1 (lock n).2) (Hi : ∀ l n, idle n (rest l n).2) (Hf : ∀ n, frame n (lock n).2)
    (Ht : ∀ n, touches (p n) n (f n).2) : split p f :=
  {| Local := L; locked := lock; unlocked := rest; split_whole := Hw; unlocked_idle := Hi;
     locked_touches := λ n, locked_touches_of p f lock rest n (Hw n) Hi (Hf n) (Ht n) |}.

(** In one piece, with nothing to announce. *)
Definition split_trivial {A} (p : Net → Z) (f : Net → A * Net) (Ht : ∀ n, touches (p n) n (f n).2) : split p f :=
  {| Local := A; locked := f; unlocked := pair; split_whole := λ n, surjective_pairing (f n);
     locked_touches := Ht; unlocked_idle := λ l n, reflexivity (R := idle) n |}.

Definition split_ext {A} {p : Net → Z} {f g : Net → A * Net} (E : ∀ n, g n = f n) (sp : split p f) : split p g :=
  {| Local := Local _ _ sp; locked := locked sp; unlocked := unlocked sp;
     split_whole := λ n, eq_trans (E n) (split_whole _ _ sp n);
     locked_touches := locked_touches sp; unlocked_idle := unlocked_idle _ _ sp |}.

Lemma idle_answer_after {L} (announce : L → Net → Net) l n :
  (∀ x n, idle n (announce x n)) → idle n (answer_after announce l n).2.
Proof. intros H. unfold answer_after. destruct l as [resp [x|]]; cbn [fst snd]; [apply H|done]. Qed.
End splits.

Section pieces.
Context {App : Type} `{HM : !Substate MM App} `{MO : MapOrder}.
#[local] Abbreviation Net := (NetOf App).
Implicit Types (n : Net) (r : Ref) (req : RMCMessage) (m : MM).
Context (cfg : Config) (rnd32 : Net → bytes).
Context (OnSessionReady : option (Z → list Z → Net → Net)).
Context (OnFriendSessionCreated : option (Z → Z → Net → Net)).
Hypothesis Hready : ∀ f gid ps n, OnSessionReady = Some f → idle n (f gid ps n).
Hypothesis Hcreated : ∀ f p gid n, OnFriendSessionCreated = Some f → idle n (f p gid n).

(** ** AutoMatchmake *)
Definition autoMatchmake_locked (r : Ref) (req : RMCMessage) (n : Net)
    : (option RMCMessage * option (list Z * Z)) * Net :=
  match read_err n req (rExtract zero_Auto) with
  | Some _ => ((Some (fail n ProtocolMatchmakeExtension req ResultCoreInvalidArgument), None), n)
  | None =>
      let param := read_body n req (rExtract zero_Auto) in
      let p := PID (conn r n) in
      let '(gid, m) :=
        match choose_lobby cfg param r n with
        | Some gid => (gid, upd_gathering gid (add_participant p) (mm n))
        | None =>
            let '(gid, m) := create_for cfg rnd32 (Session param) r n in
            (gid, if isSoloPID cfg p
                  then upd_gathering gid
                         (λ g, set_session (set_limits 1 (ms_MaxParticipants (session g)) (session g)) g) m
                  else m)
        end in
      let m := upd_gathering gid recount m in
      let n := set_mm m n in
      match gatherings m !! gid with
      | None => ((None, None), n)
      | Some g => ((Some (reply n ProtocolMatchmakeExtension req (wAdd (session g))),
                    Some (participants g, ms_ID (session g))), n)
      end
  end.
Definition join_announced (r : Ref) (l : list Z * Z) : Net → Net :=
  notifyParticipationWithDelay cfg OnSessionReady r l.1 l.2.

Definition autoMatchmake_split r req :
  split (λ n, PID (conn r n)) (autoMatchmake cfg rnd32 OnSessionReady r req).
Proof using Type Hready.
  refine (split_of _ _ (autoMatchmake_locked r req) (answer_after (join_announced r)) _ _ _ _).
  - intros n. unfold autoMatchmake, autoMatchmake_locked. destruct (read_err n req _); [done|].
    destruct (match choose_lobby _ _ _ _ with Some gid => _ | None => _ end) as [gid m].
    by destruct (gatherings (upd_gathering gid recount m) !! gid).
  - intros l n. apply idle_answer_after. intros x m. apply (idle_notifyAfter cfg OnSessionReady Hready).
  - intros n. unfold autoMatchmake_locked. destruct (read_err n req _); [done|].
    destruct (match choose_lobby _ _ _ _ with Some gid => _ | None => _ end) as [gid m].
    destruct (gatherings (upd_gathering gid recount m) !! gid); apply frame_app.
  - intros n. by apply touches_autoMatchmake.
Defined.

(** ** CreateMatchmakeSession *)
Definition createSession_locked (r : Ref) (req : RMCMessage) (n : Net)
    : (option RMCMessage * option (list Z * Z)) * Net :=
  match read_err n req (rExtract zero_Auto) with
  | Some _ => ((Some (fail n ProtocolMatchmakeExtension req ResultCoreInvalidArgument), None), n)
  | None =>
      let param := read_body n req (rExtract zero_Auto) in
      let '(gid, m) := create_for cfg rnd32 (Session param) r n in
      let m := if NormalizeCreateSessionRV cfg then upd_gathering gid normalize_rv m else m in
      let n := set_mm m n in
      match gatherings m !! gid with
      | None => ((None, None), n)
      | Some g => ((Some (reply n ProtocolMatchmakeExtension req (wAdd (session g))), Some (participants g, gid)), n)
      end
  end.
Definition creation_announced (r : Ref) (l : list Z * Z) (n : Net) : Net :=
  let n := match OnFriendSessionCreated with Some f => f (PID (conn r n)) l.2 n | None => n end in
  let delay := if 0 <? CreateSessionNotificationDelay cfg then CreateSessionNotificationDelay cfg
               else ParticipationNotificationDelay cfg in
  notifyParticipationAfter cfg OnSessionReady r l.1 l.2 delay n.

Definition createSession_split r req :
  split (λ n, PID (conn r n)) (createSession cfg rnd32 OnSessionReady OnFriendSessionCreated r req).
Proof using Type Hready Hcreated.
  refine (split_of _ _ (createSession_locked r req) (answer_after (creation_announced r)) _ _ _ _).
  - intros n. unfold createSession, createSession_locked. destruct (read_err n req _); [done|].
    destruct (create_for cfg rnd32 _ r n) as [gid m]. cbv zeta.
    by destruct (gatherings (if NormalizeCreateSessionRV cfg then _ else _) !! gid).
  - intros l n. apply idle_answer_after. intros x m. unfold creation_announced.
    etrans; [eapply idle_created; eauto|apply (idle_notifyAfter cfg OnSessionReady Hready)].
  - intros n. unfold createSession_locked. destruct (read_err n req _); [done|].
    destruct (create_for cfg rnd32 _ r n) as [gid m]. cbv zeta.
    destruct (gatherings (if NormalizeCreateSessionRV cfg then _ else _) !! gid); apply frame_app.
  - intros n. by apply touches_createSession.
Defined.

(** ** JoinMatchmakeSession *)
Definition joinSession_locked (r : Ref) (req : RMCMessage) (n : Net)
    : (option RMCMessage * option (list Z * Z)) * Net :=
  let gid := read_body n req (skip! rU8 in read! sub := rSubstream in rret ((rU32 sub).1)) in
  let p := PID (conn r n) in
  match gatherings (mm n) !! gid with
  | None => ((Some (fail n ProtocolMatchmakeExtension req ResultRendezVousSessionVoid), None), n)
  | Some g =>
      let joined := negb (containsPID (participants g) p) in
      if joined && (0 <? ms_MaxParticipants (session g)) &&
         (ms_MaxParticipants (session g) <=? u16 (zlen (participants g)))
      then ((Some (fail n ProtocolMatchmakeExtension req ResultRendezVousSessionFull), None), n)
      else
        let g' := recount (add_participant p g) in
        let n := upd_mm (upd_gathering gid (λ _, g')) n in
        let result :=
          if JoinRespExistingCount cfg && joined
          then set_NumParticipants (u32 (zlen (participants g))) (session g') else session g' in
        ((Some (reply n ProtocolMatchmakeExtension req (wAdd result)),
          if joined then Some (participants g', gid) else None), n)
  end.

Definition joinSession_split r req : split (λ n, PID (conn r n)) (joinSession cfg OnSessionReady r req).
Proof using Type Hready.
  refine (split_of _ _ (joinSession_locked r req) (answer_after (join_announced r)) _ _ _ _).
  - intros n. unfold joinSession, joinSession_locked. destruct (gatherings (mm n) !! _) as [g|]; [|done]. cbv zeta.
    case_match; [done|]. by destruct (negb (containsPID (participants g) _)).
  - intros l n. apply idle_answer_after. intros x m. apply (idle_notifyAfter cfg OnSessionReady Hready).
  - intros n. unfold joinSession_locked. destruct (gatherings (mm n) !! _) as [g|]; [|done]. cbv zeta.
    case_match; [done|]. apply frame_app.
  - intros n. by apply touches_joinSession.
Defined.

(** ** MigrateGatheringOwnership *)
Definition migrate_locked (r : Ref) (req : RMCMessage) (hasParticipantsOnly : bool) (n : Net)
    : option (list Z * Z) * Net :=
  let '(gid, candidates) :=
    read_body n req (read! g := rU32 in read! l := ReadList rPID in
                     if hasParticipantsOnly then skip! rBool in rret (g, l) else rret (g, l)) in
  match gatherings (mm n) !! gid with
  | Some g =>
      if bool_decide (participants g = []) then (None, n)
      else
        let g' := set_participants (migrate_to candidates (participants g)) g in
        (Some (participants g', gid), upd_mm (upd_gathering gid (λ _, g')) n)
  | None => (None, n)
  end.
Definition migration_announced (r : Ref) (req : RMCMessage) (l : option (list Z * Z)) (n : Net)
    : option RMCMessage * Net :=
  let n' := match l with Some (ps, gid) => notifyParticipation cfg OnSessionReady r ps gid [] n | None => n end in
  (Some (ack n' ProtocolMatchMaking req), n').

Definition migrate_split r req b :
  split (λ n, PID (conn r n)) (migrateGatheringOwnership cfg OnSessionReady r req b).
Proof using Type Hready.
  refine (split_of _ _ (migrate_locked r req b) (migration_announced r req) _ _ _ _).
  - intros n. unfold migrateGatheringOwnership, migrate_locked, migration_announced.
    destruct (read_body n req _) as [gid cs]. cbv zeta. destruct (gatherings (mm n) !! gid) as [g|]; [|done].
    by case_bool_decide.
  - intros l n. unfold migration_announced. cbv zeta. cbn [snd]. destruct l as [[ps gid]|]; [|done].
    apply (idle_notifyParticipation cfg OnSessionReady Hready).
  - intros n. unfold migrate_locked. destruct (read_body n req _) as [gid cs].
    destruct (gatherings (mm n) !! gid) as [g|]; [|done]. case_bool_decide; [done|apply frame_app].
  - intros n. by apply touches_migrate.
Defined.
End pieces.

(** ** Departures and changes of host *)
Section departures.
Context {App : Type} `{HM : !Substate MM App} `{MO : MapOrder}.
#[local] Abbreviation Net := (NetOf App).
Implicit Types (n : Net).
Context (cfg : Config).

Definition RemovePlayer_locked (p : Z) (n : Net) : option leaving * Net :=
  if p =? 0 then (None, n)
  else
    let n := upd_mm (notif_forget p) n in
    let st := foldl (leave_one cfg p n) (mkLeaving (mm n) [] [] []) (range (gatherings (mm n))) in
    (Some st, set_mm (lv_mm st) n).
Definition departure_announced (p : Z) (l : option leaving) (n : Net) : unit * Net :=
  (tt, match l with
       | None => n
       | Some st =>
           let n :=
             if cfg_has_Endpoint cfg then
               let n := foldl (λ n d, notify_all cfg (d_participants d)
                          (mkEvent (d_ancien d) NotificationOwnershipChanged (d_gid d) (d_nouveau d) [] 0) n)
                          n (lv_migrer st) in
               foldl (λ n d, notify_all cfg (d_participants d)
                          (mkEvent (d_ancien d) NotificationGatheringUnregistered (d_gid d) 0 [] 0) n)
                          n (lv_orphans st)
             else n in
           foldl (λ n a, SendNotification cfg a.1
                    (mkEvent p NotificationParticipantDisconnected a.2 p [] 0) n) n (lv_prevenir st)
       end).

Definition RemovePlayer_split p : split (λ _, p) (λ n, (tt, RemovePlayer cfg p n)).
Proof.
  refine (split_of _ _ (RemovePlayer_locked p) (departure_announced p) _ _ _ _).
  - intros n. unfold RemovePlayer, RemovePlayer_locked, departure_announced. by destruct (p =? 0).
  - intros [st|] n; cbn [snd departure_announced]; [|done].
    etrans; [|apply idle_foldl; intros; apply idle_SendNotification]. destruct (cfg_has_Endpoint cfg); [|done].
    etrans; [|apply idle_foldl; intros; apply idle_notify_all]. apply idle_foldl. intros. apply idle_notify_all.
  - intros n. unfold RemovePlayer_locked. destruct (p =? 0); [done|]. etrans; apply frame_app.
  - intros n. apply touches_RemovePlayer.
Defined.

Definition MigrerHebergementDepuis_locked (p : Z) (n : Net) : option (list departure) * Net :=
  if (p =? 0) || negb (cfg_has_Endpoint cfg) then (None, n)
  else let '(m, faits) := foldl (rehost_one p n) (mm n, []) (range (gatherings (mm n))) in (Some faits, set_mm m n).
Definition rehosting_announced (l : option (list departure)) (n : Net) : Z * Net :=
  match l with
  | None => (0, n)
  | Some faits =>
      (zlen faits,
       foldl (λ n d, notify_all cfg
                (match gatherings (mm n) !! d_gid d with Some g => participants g | None => [] end)
                (mkEvent (d_ancien d) NotificationOwnershipChanged (d_gid d) (d_nouveau d) [] 0) n) n faits)
  end.

Definition MigrerHebergementDepuis_split p : split (λ _, p) (MigrerHebergementDepuis cfg p).
Proof.
  refine (split_of _ _ (MigrerHebergementDepuis_locked p) rehosting_announced _ _ _ _).
  - intros n. unfold MigrerHebergementDepuis, MigrerHebergementDepuis_locked. destruct (_ || _); [done|].
    by destruct (foldl _ _ _).
  - intros [faits|] n; cbn [snd rehosting_announced]; [|done]. apply idle_foldl. intros. apply idle_notify_all.
  - intros n. unfold MigrerHebergementDepuis_locked. destruct (_ || _); [done|]. destruct (foldl _ _ _).
    apply frame_app.
  - intros n. apply touches_rehost.
Defined.
End departures.


(** ** The handlers of the package *)
Section package.
#[local] Set Default Proof Using "Type*".
Context {G : Type} `{MO : MapOrder}.
#[local] Abbreviation Net := (NetOf (Process G)).
Implicit Types (n : Net) (r : Ref) (req : RMCMessage).
Context (cfg : Config) (bcfg : BridgeConfig) (rnd32 rnd_mark rnd_code : Net → bytes).
Context (nat_file : Z → option bytes) (listen : Z → Z → bool).
Context (OnSessionReady : option (Z → list Z → Net → Net)) (OnFriendSessionCreated : option (Z → Z → Net → Net)).
Context (OnNATProperties : option (Z → Z → Z → Z → Net → Net)) (SessionStations : option (Ref → Ref → Net → list StationURL)).
Context (OnConnect : option (Ref → Net → Net)) (OnRMC : option (Ref → RMCMessage → Net → Net)).
Context (custom : gmap Z (Ref → Packet → Net → Net)).
Hypothesis Hcb : callbacks_idle OnSessionReady OnFriendSessionCreated OnNATProperties OnConnect OnRMC custom.

Definition extension_split r req :
  split (λ n, PID (conn r n)) (serve_extension rnd32 rnd_mark rnd_code cfg OnSessionReady OnFriendSessionCreated r req).
Proof.
  destruct (decide (Method req = MethodAutoMatchmakeWithParamPostpone)) as [E|_].
  { refine (split_ext _ (autoMatchmake_split cfg rnd32 OnSessionReady (cb_ready _ _ _ _ _ _ Hcb) r req)).
    intros n. unfold serve_extension, ExtensionHandler. by rewrite E. }
  destruct (decide (Method req = MethodCreateMatchmakeSessionWithParam)) as [E|_].
  { refine (split_ext _ (createSession_split cfg rnd32 OnSessionReady OnFriendSessionCreated
      (cb_ready _ _ _ _ _ _ Hcb) (cb_created _ _ _ _ _ _ Hcb) r req)).
    intros n. unfold serve_extension, ExtensionHandler. by rewrite E. }
  destruct (decide (Method req = MethodJoinMatchmakeSessionWithParam)) as [E|_].
  { refine (split_ext _ (joinSession_split cfg OnSessionReady (cb_ready _ _ _ _ _ _ Hcb) r req)).
    intros n. unfold serve_extension, ExtensionHandler. by rewrite E. }
  apply split_trivial. intros n. by eapply polite_extension.
Defined.

Definition matchmaking_split r req :
  split (λ n, PID (conn r n)) (MatchMakingHandler cfg bcfg nat_file listen OnSessionReady SessionStations r req).
Proof.
  destruct (decide (Method req = MethodMigrateGatheringOwnership)) as [E|_].
  { refine (split_ext _ (migrate_split cfg OnSessionReady (cb_ready _ _ _ _ _ _ Hcb) r req true)).
    intros n. unfold MatchMakingHandler. by rewrite E. }
  destruct (decide (Method req = MethodMigrateGatheringOwnershipV1)) as [E|_].
  { refine (split_ext _ (migrate_split cfg OnSessionReady (cb_ready _ _ _ _ _ _ Hcb) r req false)).
    intros n. unfold MatchMakingHandler. by rewrite E. }
  apply split_trivial. intros n. by eapply polite_matchmaking.
Defined.
End package.
