(* ===== verification/Departures.v ===== *)
(** * Eviction and the lobbies (src/reaper.go with RemovePlayer of src/matchmaking_handlers.go)

    The reaper and the kicks close the connections they pick, and each departure runs
    RemovePlayer, while the loop goes over a snapshot of the registry that may name a
    connection twice or one that is closed by now. *)

From S2P Require Export ProcessProps.

Section departures.
#[local] Set Default Proof Using "Type".
Context {G : Type} `{MO : MapOrder}.
#[local] Abbreviation Net := (NetOf (Process G)).
Implicit Types (n m : Net) (r : Ref).
Context (cfg : Config).

(** What one departure does. *)
Lemma close_departs r n :
  state (conn r n) ≠ stateClosed →
  let n' := close (OnDisconnect cfg) r n in
  (∀ r', r' ≠ r → credentials (conn r' n') = credentials (conn r' n)) ∧
  state (conn r n') = stateClosed ∧ PID (conn r n') = PID (conn r n) ∧ ID (conn r n') = ID (conn r n) ∧
  (ID (conn r n) ≠ 0 → connections n' = delete (ID (conn r n)) (connections n)) ∧
  ∀ gid, gatherings (mm n') !! gid =
    if PID (conn r n) =? 0 then gatherings (mm n) !! gid else gatherings (mm n) !! gid ≫= survivor cfg (PID (conn r n)).
Proof.
  intros Hst. unfold close. rewrite (proj2 (Z.eqb_neq _ _)) by done. cbv zeta. cbn [OnDisconnect].
  set (n1 := upd r (set_state stateClosed) n). set (n2 := unregisterConnection r n1).
  assert (∀ r', conn r' n2 = conn r' n1) as Hc by (intros r'; subst n2; unfold unregisterConnection; by case_match).
  assert (mm n2 = mm n) as Hm by (subst n2; unfold unregisterConnection; by case_match).
  assert (PID (conn r n2) = PID (conn r n)) as Hp by (rewrite Hc; subst n1; by rewrite conn_upd_eq).
  pose proof (frame_RemovePlayer cfg (PID (conn r n2)) n2) as F. set (n3 := RemovePlayer cfg _ n2) in *.
  split_and!.
  - intros r' Hr. rewrite (fr_credentials _ _ F), Hc. subst n1. by rewrite conn_upd_ne.
  - transitivity (state (conn r n2)); [symmetry; apply (frame_state r _ _ F)|]. rewrite Hc. subst n1. by rewrite conn_upd_eq.
  - by rewrite (frame_pid _ _ _ F).
  - transitivity (ID (conn r n2)); [symmetry; apply (frame_ID r _ _ F)|]. rewrite Hc. subst n1. by rewrite conn_upd_eq.
  - intros Hid. rewrite (fr_connections _ _ F). subst n2. unfold unregisterConnection. subst n1. rewrite conn_upd_eq.
    cbn [ID set_state]. by rewrite (proj2 (Z.eqb_neq _ _)) by done.
  - intros gid. subst n3. rewrite Hp. destruct (Z.eqb_spec (PID (conn r n)) 0) as [E|E].
    + unfold RemovePlayer. rewrite E. cbn [Z.eqb]. by rewrite Hm.
    + by rewrite RemovePlayer_lookup, Hm.
Qed.

Lemma survivor_gone p g g' : survivor cfg p g = Some g' → p ∉ participants g'.
Proof.
  unfold survivor, containsPID, removePID. case_bool_decide as Hin; [|by intros [= <-]].
  destruct (filter _ (participants g)) as [|x l] eqn:E; [done|].
  assert (p ∉ x :: l) as Hp by (rewrite <- E, list_elem_of_filter; naive_solver).
  destruct (_ =? p); [destruct (_ && _)|]; intros [=]; subst; cbn; by rewrite ?E.
Qed.

Lemma survivor_stranger p g : p ∉ participants g → survivor cfg p g = Some g.
Proof. intros H. unfold survivor, containsPID. by rewrite bool_decide_false. Qed.

(** ** The loop

    [out] are the connections closed so far. *)
Record evicted (out : Ref → bool) n m : Prop := mkEvicted {
  ev_out : ∀ r, out r = true →
    state (conn r m) = stateClosed ∧ PID (conn r m) = PID (conn r n) ∧ FindConnectionByID (ID (conn r n)) m = None;
  ev_in : ∀ r, out r = false →
    credentials (conn r m) = credentials (conn r n) ∧
    (FindConnectionByID (ID (conn r n)) n = Some r → FindConnectionByID (ID (conn r n)) m = Some r);
  ev_left : ∀ gid g', gatherings (mm m) !! gid = Some g' →
    (∃ g, gatherings (mm n) !! gid = Some g ∧ ∀ q, q ∈ participants g' → q ∈ participants g) ∧
    ∀ r, out r = true → PID (conn r n) ≠ 0 → PID (conn r n) ∉ participants g';
  ev_kept : ∀ gid g, gatherings (mm n) !! gid = Some g →
    (∀ r, out r = true → PID (conn r n) ≠ 0 → PID (conn r n) ∉ participants g) → gatherings (mm m) !! gid = Some g
}.

Lemma evicted_start n : evicted (λ _, false) n n.
Proof. split; try done. intros gid g' H. split; [by exists g'|done]. Qed.

Lemma evicted_ext out out' n m : (∀ r, out r = out' r) → evicted out n m → evicted out' n m.
Proof.
  intros E [H1 H2 H3 H4]. split.
  - intros r Hr. apply H1. by rewrite E.
  - intros r Hr. apply H2. by rewrite E.
  - intros gid g' Hg. destruct (H3 gid g' Hg) as [Hs Ho]. split; [done|]. intros r Hr. apply Ho. by rewrite E.
  - intros gid g Hg Ho. apply H4; [done|]. intros r Hr. apply Ho. by rewrite <- E.
Qed.

Lemma evicted_close out n m r :
  registry_ok n → evicted out n m → out r = false → state (conn r n) ≠ stateClosed → ID (conn r n) ≠ 0 →
  evicted (λ r', out r' || bool_decide (r' = r)) n (close (OnDisconnect cfg) r m).
Proof.
  intros (_ & _ & Huniq & _) [H1 H2 H3 H4] Hr Hst Hid.
  destruct (H2 r Hr) as [Hcr _]. unfold credentials in Hcr. injection Hcr as _ Hid' Hpid _ _ _ Hst' _.
  destruct (close_departs r m) as (C1 & C2 & C3 & C4 & C5 & C6); [congruence|]. cbv zeta in *.
  set (m' := close _ r m) in *. rewrite Hid' in C4, C5. specialize (C5 Hid). rewrite Hpid in C3, C6.
  split; cbv beta.
  - intros r' Ho. destruct (decide (r' = r)) as [->|Hne].
    + split_and!; [done|done|]. unfold FindConnectionByID. rewrite C5. apply lookup_delete_eq.
    + rewrite bool_decide_false, orb_false_r in Ho by done. destruct (H1 r' Ho) as (A & B & C).
      pose proof (C1 r' Hne) as Hc. unfold credentials in Hc. injection Hc as _ _ E2 _ _ _ E3 _.
      split_and!; [congruence|congruence|]. unfold FindConnectionByID in *. rewrite C5, lookup_delete. by case_decide.
  - intros r' Ho. apply orb_false_elim in Ho as [Ho Hne%bool_decide_eq_false_1]. destruct (H2 r' Ho) as [A B].
    split; [by rewrite C1|]. intros Hf. unfold FindConnectionByID in *. rewrite C5, lookup_delete_ne; [auto|].
    intros E. by apply Hne, eq_sym, Huniq.
  - intros gid g' Hg. rewrite C6 in Hg. destruct (Z.eqb_spec (PID (conn r n)) 0) as [E|E].
    + destruct (H3 gid g' Hg) as [Hs Ho]. split; [done|]. intros r' Hr' Hp'.
      destruct (decide (r' = r)) as [->|Hne]; [done|]. rewrite bool_decide_false, orb_false_r in Hr' by done. by apply Ho.
    + apply bind_Some in Hg as (g1 & Hg1 & Hs). destruct (H3 gid g1 Hg1) as [(g & Hg & Hsub) Ho]. split.
      * exists g. split; [done|]. intros q Hq. eapply Hsub, survivor_listed; [exact Hs|done].
      * intros r' Hr' Hp' Hin. destruct (decide (r' = r)) as [->|Hne]; [by apply survivor_gone in Hs|].
        rewrite bool_decide_false, orb_false_r in Hr' by done. apply (Ho r' Hr' Hp'). eapply survivor_listed; [exact Hs|done].
  - intros gid g Hg Ho. assert (gatherings (mm m) !! gid = Some g) as Hm.
    { apply H4; [done|]. intros r' Hr'. apply Ho. by rewrite Hr'. }
    rewrite C6, Hm. case_match eqn:E; [done|]. cbn. apply survivor_stranger, Ho; [by rewrite bool_decide_true, orb_true_r|lia].
Qed.

(** *** The loop over the snapshot *)
Section loop.
Context (pred : Connection → bool) (n : Net).

Definition to_close r : bool := pred (conn r n) && negb (state (conn r n) =? stateClosed).
Definition picked (past : list Ref) r : bool := bool_decide (r ∈ past) && to_close r.

Lemma picked_snoc past r r' : picked (past ++ [r]) r' = picked past r' || (bool_decide (r' = r) && to_close r).
Proof.
  unfold picked. destruct (decide (r' = r)) as [->|Hne].
  - rewrite (bool_decide_true (r ∈ _ ++ _)), (bool_decide_true (r = r)) by set_solver.
    by destruct (bool_decide _), (to_close r).
  - rewrite (bool_decide_false (r' = r)) by done. cbn [andb]. rewrite orb_false_r.
    f_equal. apply bool_decide_ext. set_solver.
Qed.

Hypothesis Hreg : registry_ok n.
Hypothesis Hpred : ∀ c c', credentials c = credentials c' → pred c = pred c'.

Lemma evicted_step past m r :
  ID (conn r n) ≠ 0 → evicted (picked past) n m →
  evicted (picked (past ++ [r])) n (if pred (conn r m) then close (OnDisconnect cfg) r m else m).
Proof using All.
  intros Hid Hm. destruct (picked past r) eqn:Ep.
  - assert (close (OnDisconnect cfg) r m = m) as ->.
    { unfold close. by rewrite (proj1 (ev_out _ _ _ Hm r Ep)). }
    assert (evicted (picked (past ++ [r])) n m).
    { apply (evicted_ext (picked past)); [|done]. intros r'. rewrite picked_snoc.
      destruct (decide (r' = r)) as [->|Hne]; [by rewrite Ep|]. rewrite (bool_decide_false (r' = r)) by done. by rewrite orb_false_r. }
    by case_match.
  - destruct (ev_in _ _ _ Hm r Ep) as [Hc _]. rewrite (Hpred _ _ Hc). destruct (to_close r) eqn:Et.
    + pose proof Et as [-> Hst%negb_true_iff%Z.eqb_neq]%andb_true_iff.
      apply (evicted_ext (λ r', picked past r' || bool_decide (r' = r))); [intros r'; rewrite picked_snoc, Et; by rewrite andb_true_r|].
      by apply evicted_close.
    + assert (evicted (picked (past ++ [r])) n m) as He by
        (apply (evicted_ext (picked past)); [|done]; intros r'; rewrite picked_snoc, Et, andb_false_r; by rewrite orb_false_r).
      destruct (pred (conn r n)) eqn:E; [|exact He]. unfold to_close in Et. rewrite E in Et. cbn in Et.
      apply negb_false_iff, Z.eqb_eq in Et. unfold credentials in Hc. injection Hc as _ _ _ _ _ _ Hs _.
      unfold close. rewrite Hs, Et. exact He.
Qed.

(** Whatever the test is, as long as it looks at what a departure leaves alone. *)
Lemma close_matching_evicts :
  evicted (picked (snapshotConns n)) n (close_matching (OnDisconnect cfg) pred n).2.
Proof using All.
  unfold close_matching.
  assert (Forall (λ r, ID (conn r n) ≠ 0) (snapshotConns n)) as Hids.
  { apply Forall_fmap, Forall_forall. intros [id r] Hr%elem_of_range. exact (proj2 (proj1 Hreg id r Hr)). }
  assert (∀ todo past m k, Forall (λ r, ID (conn r n) ≠ 0) todo → evicted (picked past) n m →
    evicted (picked (past ++ todo)) n (foldl (λ acc r, let '(k, n) := acc in
      if pred (conn r n) then (k + 1, close (OnDisconnect cfg) r n) else (k, n)) (k, m) todo).2) as H.
  { induction todo as [|r todo IH]; intros past m k Ht Hm; [by rewrite app_nil_r|].
    apply Forall_cons in Ht as [Hr Ht]. cbn [foldl]. change (r :: todo) with ([r] ++ todo). rewrite app_assoc.
    pose proof (evicted_step past m r Hr Hm) as Hs. destruct (pred (conn r m)); by apply IH. }
  apply (H _ [] n 0 Hids). apply (evicted_ext (λ _, false)); [done|apply evicted_start].
Qed.
End loop.

(** ** The reaper and the kick *)

(** A connection that is open and found under its identifier; one that has been silent. *)
Definition live r n : Prop := FindConnectionByID (ID (conn r n)) n = Some r ∧ state (conn r n) ≠ stateClosed.
Definition silent (maxIdle : Z) r n : Prop := maxIdle ≤ IdleFor (clock n) (conn r n).

Lemma snapshot_live r n :
  registry_ok n → state (conn r n) ≠ stateClosed → r ∈ snapshotConns n ↔ live r n.
Proof.
  intros (H1 & H2 & _) Hst. unfold snapshotConns, live. split.
  - intros ([id r'] & -> & Hr%elem_of_range)%list_elem_of_fmap. cbn in *. split; [|done].
    by destruct (H2 r' (proj2 (H1 id r' Hr))) as [_ [|]].
  - intros [Hr _]. apply list_elem_of_fmap. exists (ID (conn r n), r). split; [done|]. by apply elem_of_range.
Qed.

(** What closing the live connections that [pred] picks comes to. *)
Lemma close_matching_spec (pred : Connection → bool) n :
  registry_ok n → (∀ c c', credentials c = credentials c' → pred c = pred c') →
  let n' := (close_matching (OnDisconnect cfg) pred n).2 in
  (∀ r, live r n → pred (conn r n) = true →
     state (conn r n') = stateClosed ∧ FindConnectionByID (ID (conn r n)) n' = None ∧
     (PID (conn r n) ≠ 0 → ¬ listed (PID (conn r n)) (mm n'))) ∧
  (∀ r, live r n → pred (conn r n) = false → live r n') ∧
  (∀ gid g, gatherings (mm n) !! gid = Some g →
     (∀ r, live r n → pred (conn r n) = true → PID (conn r n) ∉ participants g) → gatherings (mm n') !! gid = Some g) ∧
  (∀ q, listed q (mm n') → listed q (mm n)).
Proof.
  intros Hreg Hpred. cbv zeta. destruct (close_matching_evicts pred n Hreg Hpred) as [H1 H2 H3 H4].
  assert (∀ r, live r n → picked pred n (snapshotConns n) r = pred (conn r n)) as Hpick.
  { intros r Hr. unfold picked, to_close. rewrite bool_decide_true by exact (proj2 (snapshot_live r n Hreg (proj2 Hr)) Hr).
    rewrite (proj2 (Z.eqb_neq _ _)) by apply Hr. by rewrite andb_true_r. }
  split_and!.
  - intros r Hr Hp. rewrite <- Hpick in Hp by done. destruct (H1 r Hp) as (A & _ & C). split_and!; [done|done|].
    intros Hpid (gid & g' & Hg & Hin). by apply (proj2 (H3 gid g' Hg) r Hp).
  - intros r Hr Hp. rewrite <- Hpick in Hp by done. destruct (H2 r Hp) as [Hc Hf]. unfold credentials in Hc.
    injection Hc as _ Hid _ _ _ _ Hst _. split; [rewrite Hid; by apply Hf, Hr|]. rewrite Hst. apply Hr.
  - intros gid g Hg Ho. apply H4; [done|]. intros r Hr _. unfold picked, to_close in Hr.
    apply andb_true_iff in Hr as [Hs%bool_decide_eq_true_1 [Hp Hst%negb_true_iff%Z.eqb_neq]%andb_true_iff].
    apply Ho; [by apply snapshot_live|done].
  - intros q (gid & g' & Hg & Hq). destruct (H3 gid g' Hg) as [(g & Hg0 & Hsub) _]. exists gid, g. auto.
Qed.

(** C9: One turn of the reaper.  Exactly the live connections silent for the threshold are
    closed and leave the registry, and their players are in no gathering any more; the other
    connections stay live, a gathering none of them was in is the same as before, and nobody
    is listed who was not. *)
Theorem evicted_players_leave maxIdle n :
  0 < maxIdle → registry_ok n →
  let n' := (ReapIdle (OnDisconnect cfg) maxIdle n).2 in
  (∀ r, live r n → silent maxIdle r n →
     state (conn r n') = stateClosed ∧ FindConnectionByID (ID (conn r n)) n' = None ∧
     (PID (conn r n) ≠ 0 → ¬ listed (PID (conn r n)) (mm n'))) ∧
  (∀ r, live r n → ¬ silent maxIdle r n → live r n') ∧
  (∀ gid g, gatherings (mm n) !! gid = Some g →
     (∀ r, live r n → silent maxIdle r n → PID (conn r n) ∉ participants g) → gatherings (mm n') !! gid = Some g) ∧
  (∀ q, listed q (mm n') → listed q (mm n)).
Proof.
  intros Hmax Hreg. cbv zeta. unfold ReapIdle. rewrite (proj2 (Z.leb_gt _ _)) by done.
  set (pred := λ c : Connection, let idle := IdleFor (clock n) c in (0 <? idle) && (maxIdle <=? idle)).
  assert (∀ r, pred (conn r n) = true ↔ silent maxIdle r n) as Hp by (intros r; unfold pred, silent; lia).
  destruct (close_matching_spec pred n Hreg) as (H1 & H2 & H3 & H4).
  { intros c c' [= _ _ _ _ _ _ _ E]. unfold pred, IdleFor. by rewrite E. }
  split_and!.
  - intros r Hr Hs. by apply H1, Hp.
  - intros r Hr Hs. apply H2; [done|]. apply not_true_iff_false. by rewrite Hp.
  - intros gid g Hg Ho. apply H3; [done|]. intros r Hr Hs. by apply Ho, Hp.
  - done.
Qed.

(** A player who is kicked has no live connection and is in no gathering. *)
Theorem kicked_player_leaves p n :
  p ≠ 0 → registry_ok n → (∃ r, live r n ∧ PID (conn r n) = p) →
  let n' := (KickPID (OnDisconnect cfg) p n).2 in
  ¬ listed p (mm n') ∧ ∀ r, live r n → PID (conn r n) = p → state (conn r n') = stateClosed.
Proof.
  intros Hp Hreg (r0 & Hr0 & E0). cbv zeta. unfold KickPID. rewrite (proj2 (Z.eqb_neq _ _)) by done.
  destruct (close_matching_spec (λ c, PID c =? p) n Hreg) as (H1 & _).
  { intros c c' [= _ _ E _ _ _ _ _]. by rewrite E. }
  split.
  - destruct (H1 r0 Hr0) as (_ & _ & H); [lia|]. rewrite E0 in H. by apply H.
  - intros r Hr E. apply (H1 r Hr). lia.
Qed.
End departures.
