(* ===== verification/SessionProps.v ===== *)
(** * Every joiner is answered

    A joiner that asks for its host's stations before the host has reported them waits; it is
    answered as soon as the bridge is ready, and at the latest when its time is over, once. *)

From S2P Require Export MatchFacts SessionURLs.

Section sessions.
Context {App : Type} `{HM : !Substate MM App} `{HN : !Substate NatState App} `{MO : MapOrder}.
#[local] Abbreviation Net := (NetOf App).
Implicit Types (n : Net) (r : Ref) (req : RMCMessage) (w : Waiter).
Context (cfg : Config) (bcfg : BridgeConfig).
Context (nat_file : Z → option bytes) (listen : Z → Z → bool).
Context (SessionStations : option (Ref → Ref → Net → list StationURL)).

(** The joiners that wait. *)
Definition waiting n : list Waiter := ns_waiting (ns n).

Lemma waiting_upd f n : waiting (upd_comp f n) = ns_waiting (f (ns n)).
Proof. unfold waiting, ns. by rewrite comp_upd. Qed.
Lemma waiting_send c m n : waiting (SendRMC c m n) = waiting n.
Proof. unfold waiting, ns, comp. by rewrite app_SendRMC. Qed.
Lemma waiting_pair_relay a b ipA ipB n : waiting (pair_relay listen a b ipA ipB n).2 = waiting n.
Proof. unfold pair_relay. destruct (PairRelayFor _ _ _ _ _ _ _). simpl. by rewrite waiting_upd. Qed.
Lemma waiting_relayed j h urls n : waiting (relayedFor listen j h urls n).2 = waiting n.
Proof.
  unfold relayedFor. case_match; [done|].
  pose proof (waiting_pair_relay (PID (conn j n)) (PID (conn h n)) (PublicIPOf (conn j n)) (PublicIPOf (conn h n)) n) as E.
  destruct (pair_relay _ _ _ _ _ _) as [[[]|] n']; done.
Qed.
Lemma waiting_bridge j h n : waiting (bridge_pair bcfg nat_file j h n).2 = waiting n.
Proof. unfold bridge_pair. destruct (bridgeSessionStationsForPair _ _ _ _ _ _). simpl. by rewrite waiting_upd. Qed.

(** The bridge of the pair, as it stands now. *)
Definition bridge_status j h n : bridgeStatus := (bridge_pair bcfg nat_file j h n).1.2.

(** The stations a waiting joiner is given: those of the bridge once it is ready, those the host
    has reported when the time is over. *)
Definition given w n : list StationURL :=
  if decide (bridge_status (w_joiner w) (w_host w) n = bridgeOK)
  then (bridge_pair bcfg nat_file (w_joiner w) (w_host w) n).1.1 else stations (conn (w_host w) n).

(** Off the list, with what the bridge has learnt. *)
Definition settled (i : nat) w n : Net :=
  upd_comp (λ st, set_waiting (delete i (ns_waiting st)) st) (bridge_pair bcfg nat_file (w_joiner w) (w_host w) n).2.

(** From [n] to [n'] one message goes out, on the joiner's connection: the answer to its request,
    under its call, with the stations it is given, through the relay when the pair has a port
    there. *)
Definition answers (i : nat) w n n' : Prop := ∃ m,
  sent m = sent n ∧ tasks m = tasks n ∧ heap m = heap n ∧ settings m = settings n ∧
  n' = SendRMC (w_joiner w)
         (sessionURLsResponse (w_req w) (relayedFor listen (w_joiner w) (w_host w) (given w n) (settled i w n)).1 m) m.

(** Nothing goes out. *)
Definition nothing_sent n n' : Prop :=
  sent n' = sent n ∧ tasks n' = tasks n ∧ heap n' = heap n ∧ settings n' = settings n ∧ clock n' = clock n.
#[local] Instance nothing_sent_preorder : PreOrder nothing_sent.
Proof. unfold nothing_sent. split; [done|]. intros a b c (-> & -> & -> & -> & ->) (-> & -> & -> & -> & ->). done. Qed.

Lemma nothing_sent_comp {S} `{HS : !Substate S App} (f : S → S) n : nothing_sent n (upd_comp f n).
Proof. done. Qed.
Lemma bridge_keeps j h n : nothing_sent n (bridge_pair bcfg nat_file j h n).2.
Proof. unfold bridge_pair. by destruct (bridgeSessionStationsForPair _ _ _ _ _ _). Qed.
Lemma relayed_keeps j h urls n : nothing_sent n (relayedFor listen j h urls n).2.
Proof.
  unfold relayedFor, pair_relay. case_match; [done|].
  destruct (PairRelayFor _ _ _ _ _ _ _) as [[[a b]|] st]; apply nothing_sent_comp.
Qed.

Lemma answer_spec i w n l :
  waiting n = l →
  let n' := (let '(urls, n) := relayedFor listen (w_joiner w) (w_host w) (given w n) (settled i w n) in
             SendRMC (w_joiner w) (sessionURLsResponse (w_req w) urls n) n) in
  answers i w n n' ∧ waiting n' = delete i l.
Proof.
  intros <- n'. unfold n'. pose proof (waiting_relayed (w_joiner w) (w_host w) (given w n) (settled i w n)) as Hr.
  assert (nothing_sent n (relayedFor listen (w_joiner w) (w_host w) (given w n) (settled i w n)).2) as (H1 & H2 & H3 & H4 & _).
  { etrans; [|apply relayed_keeps]. etrans; [apply bridge_keeps|apply nothing_sent_comp]. }
  unfold answers. destruct (relayedFor _ _ _ _ _) as [us m]. cbn [fst snd] in *. split; [by exists m|].
  rewrite waiting_send, Hr. unfold settled. rewrite waiting_upd. cbn [ns_waiting set_waiting]. fold (waiting (bridge_pair bcfg nat_file (w_joiner w) (w_host w) n).2).
  by rewrite waiting_bridge.
Qed.

(** C15: GetSessionURLs answers, and sends nothing itself, unless the host of the gathering has
    still to report its stations: then the joiner waits, behind those who wait already, and
    nothing goes out.  When its goroutine wakes and the bridge is ready or its two and a half
    seconds are over, one message goes out: on the joiner's connection, the answer to its
    request, with the bridge's stations in the first case and those the host has reported in
    the second, through the relay when it takes the pair.  The joiner leaves the list, so it is
    answered once; before that the goroutine only sleeps on, and nobody else's waiting is
    touched. *)
Theorem joiners_are_answered r req n i w :
  (match getSessionURLs cfg bcfg nat_file listen SessionStations r req n with
   | (Some _, n') => waiting n' = waiting n ∧ nothing_sent n n'
   | (None, n') => nothing_sent n n' ∧ ∃ g host,
       gatherings (mm n) !! read_body n req rU32 = Some g ∧ FindConnectionByID (hostConnID g) n = Some host ∧
       bridge_status r host n = bridgeNoRVCID ∧
       waiting n' = waiting n ++ [mkWaiter r req host (clock n + hostReplaceURLWait)]
   end) ∧
  (waiting n !! i = Some w →
   let n' := waiter_wakes bcfg nat_file listen i n in
   if decide (bridge_status (w_joiner w) (w_host w) n = bridgeOK ∨ w_deadline w ≤ clock n)
   then answers i w n n' ∧ waiting n' = delete i (waiting n)
   else waiting n' = waiting n ∧ nothing_sent n n').
Proof.
  split.
  - unfold getSessionURLs. destruct (gatherings (mm n) !! _) as [g|] eqn:Eg; [|by destruct (OwnerLeaveUnregisters cfg)].
    destruct (FindConnectionByID _ n) as [host|] eqn:Eh; [|done]. destruct SessionStations as [f|]; [done|].
    pose proof (waiting_bridge r host n) as Hb. pose proof (bridge_keeps r host n) as Hk.
    unfold bridge_status. destruct (bridge_pair _ _ _ _ _) as [[urls status] n1] eqn:Ep. cbn [fst snd] in *.
    destruct (decide (status = bridgeNoRVCID)) as [->|].
    + split; [etrans; [exact Hk|apply nothing_sent_comp]|]. exists g, host. split; [done|]. split; [done|].
      split; [by rewrite Ep|]. rewrite waiting_upd. cbn [ns_waiting set_waiting]. fold (waiting n1).
      destruct Hk as (_ & _ & _ & _ & Hc). by rewrite Hb, Hc.
    + pose proof (waiting_relayed r host urls n1) as Hr. pose proof (relayed_keeps r host urls n1) as Hk'.
      destruct (relayedFor _ _ _ _ _) as [us n2]. cbn [snd] in *. split; [congruence|by etrans].
  - intros Hw n'. unfold n', waiter_wakes. fold (waiting n). rewrite Hw. clear n'.
    pose proof (answer_spec i w n (waiting n) eq_refl) as Ha. cbv zeta in Ha. unfold given, settled in Ha.
    pose proof (waiting_bridge (w_joiner w) (w_host w) n) as Hb. pose proof (bridge_keeps (w_joiner w) (w_host w) n) as Hk.
    unfold bridge_status in *. destruct (bridge_pair _ _ _ _ _) as [[urls status] n1] eqn:Ep. cbn [fst snd] in *.
    assert (conn (w_host w) n1 = conn (w_host w) n) as Hh by (unfold conn; by destruct Hk as (_ & _ & -> & _)).
    assert (clock n1 = clock n) as -> by apply Hk. rewrite Hh.
    destruct (decide (status = bridgeOK)) as [->|Hne].
    + rewrite decide_True by auto. exact Ha.
    + destruct (Z.ltb_spec (clock n) (w_deadline w)).
      * rewrite decide_False by (intros [?|?]; [done|lia]). done.
      * rewrite decide_True by auto. exact Ha.
Qed.
End sessions.

(** A joiner waits for a host that has reported nothing. *)
Definition waiter0 : Waiter := mkWaiter 1%nat (NewRMCRequest (NewSwitchSettings [] 40302) ProtocolMatchMaking MethodGetSessionURLs 9 []) 2%nat 100.
Definition waiting_net (now : Z) : NetOf (MM * NatState) :=
  NewEndpoint (NewSwitchSettings [] 40302) auth_start now (NewMatchmaking, set_waiting [waiter0] nat0).

#[local] Existing Instance canonical_order.
Definition waiting_cfg : Config :=
  mkConfig false 0 0 false false None false false false false false true false true None true false ∅.

Lemma joiners_are_answered_witness :
  let n := waiting_net 100 in
  let file := λ _ : Z, @None bytes in
  let n' := waiter_wakes (mkBridge false false false false) file (λ _ _, true) 0 n in
  waiting n !! 0%nat = Some waiter0 ∧ answers (mkBridge false false false false) file (λ _ _, true) 0 waiter0 n n' ∧ waiting n' = [].
Proof.
  cbv zeta. set (n := waiting_net 100).
  assert (waiting n !! 0%nat = Some waiter0) as Hw by reflexivity. split; [exact Hw|].
  destruct (joiners_are_answered waiting_cfg (mkBridge false false false false) (λ _ : Z, @None bytes) (λ _ _, true) None
              1%nat (w_req waiter0) n 0 waiter0) as [_ H1].
  specialize (H1 Hw). cbv zeta in H1. rewrite decide_True in H1 by (right; vm_compute; discriminate). exact H1.
Defined.
