(* ===== verification/Pushes.v ===== *)
(** * What the handlers send on their own

    Apart from the answers they return, the handlers of the package send requests and nothing
    else: notifications, probes, messages to deliver.  They leave the receiving half of every
    connection alone. *)

From S2P Require Export ProcessFrames Delivery SessionProps.

Section pushes.
Context {App : Type}.
#[local] Abbreviation Net := (NetOf App).
Implicit Types (n : Net) (r : Ref).

(** A step that sends nothing, or a request put on a connection. *)
Inductive push_step n : Net → Prop :=
  | push_local n' : sent n' = sent n → tasks n' = tasks n →
      (∀ r, receiver (conn r n') = receiver (conn r n)) → push_step n n'
  | push_request c m : Mode m = RMCRequest → push_step n (SendRMC c m n).

Definition pushes : Net → Net → Prop := rtc push_step.

Lemma pushes_local n n' :
  sent n' = sent n → tasks n' = tasks n → (∀ r, receiver (conn r n') = receiver (conn r n)) → pushes n n'.
Proof. intros. by apply rtc_once, push_local. Qed.
Lemma pushes_app x n : pushes n (set_app x n).
Proof. by apply pushes_local. Qed.
Lemma pushes_request c m n : Mode m = RMCRequest → pushes n (SendRMC c m n).
Proof. intros. by apply rtc_once, push_request. Qed.

Lemma pushes_upd r f n : (∀ c, receiver (f c) = receiver c) → pushes n (upd r f n).
Proof. intros Hf. apply pushes_local; [done..|]. intros r'. rewrite conn_upd. case_decide; subst; [apply Hf|done]. Qed.

Lemma pushes_foldl {A} (f : Net → A → Net) l n : (∀ n x, pushes n (f n x)) → pushes n (foldl f n l).
Proof. intros Hf. revert n. induction l as [|x l IH]; intros n; [apply rtc_refl|]. cbn [foldl]. etrans; [apply Hf|apply IH]. Qed.

Lemma pushes_callback {A} (o : option A) (k : A → Net) n m :
  pushes n m → (∀ f, o = Some f → pushes m (k f)) → pushes n (match o with Some f => k f | None => m end).
Proof. intros H Hk. destruct o; [|done]. etrans; [done|auto]. Qed.

(** Every packet sent on the way carries the whole of a request, or the goroutine started does. *)
Lemma pushes_packets n n' :
  pushes n n' →
  ∃ l, sent n' = sent n ++ l ∧
    Forall (λ x, ∃ c k m, Mode m = RMCRequest ∧
      x.2 = EncodePacket (from_conn c PacketDATA (Z.lor FlagReliable FlagNeedACK) 0 k (Encode m))) l.
Proof.
  induction 1 as [n|n m n' Hs _ (l & E & Hl)]; [exists []; by rewrite app_nil_r|]. rewrite E.
  destruct Hs as [m -> _ _|c q Hq]; [by exists l|]. unfold SendRMC, sendData. case_match; [|by exists l].
  eexists (_ :: l). unfold sendOneFragment. autorewrite with net_rw. rewrite <- app_assoc. split; [reflexivity|].
  constructor; [|done]. by eexists _, _, q.
Qed.

Lemma pushes_receiver n n' : pushes n n' → ∀ r, receiver (conn r n') = receiver (conn r n).
Proof.
  induction 1 as [|n m n' Hs _ IH]; [done|]. intros r. rewrite IH. destruct Hs as [m _ _ H|c q _]; [apply H|].
  apply receiver_SendRMC.
Qed.
End pushes.
#[export] Hint Resolve pushes_app pushes_request : nex.

(** A handler's branches that only change a component. *)
Ltac push_branches :=
  repeat (cbn [snd];
    lazymatch goal with
    | |- pushes _ (snd (if ?b then _ else _)) => destruct b
    | |- pushes _ (snd (match ?x with _ => _ end)) => destruct x
    | |- pushes _ (if ?b then _ else _) => destruct b
    | |- pushes _ (match ?x with _ => _ end) => destruct x
    end);
  try first [apply rtc_refl | apply pushes_app].

(** ** The matchmaker *)
Section matchmaker.
#[local] Set Default Proof Using "Type*".
Context {App : Type} `{HM : !Substate MM App} `{MO : MapOrder}.
#[local] Abbreviation Net := (NetOf App).
Implicit Types (n : Net) (r : Ref) (req : RMCMessage).
Context (cfg : Config).

Lemma pushes_SendNotification c ev n : pushes n (SendNotification cfg c ev n).
Proof. unfold SendNotification. etrans; [apply pushes_app|by apply pushes_request]. Qed.
Lemma pushes_notify_pid p ev n : pushes n (notify_pid cfg p ev n).
Proof. unfold notify_pid. case_match; [apply pushes_SendNotification|apply rtc_refl]. Qed.
Lemma pushes_notify_all ps ev n : pushes n (notify_all cfg ps ev n).
Proof. apply pushes_foldl. intros. apply pushes_notify_pid. Qed.

Lemma pushes_updateNotificationData r req n : pushes n (updateNotificationData cfg r req n).2.
Proof.
  unfold updateNotificationData. destruct (read_err n req _); [apply rtc_refl|].
  destruct (read_body n req _) as [[[t a] b] c]. cbn [snd]. unfold pushNotifDataToFriends.
  destruct (FriendPIDs cfg); [etrans; [apply pushes_app|apply pushes_notify_all]|apply pushes_app].
Qed.

Lemma pushes_getFriendNotificationData r req b n : pushes n (getFriendNotificationData cfg r req b n).2.
Proof.
  unfold getFriendNotificationData. cbv zeta. destruct (read_err n req _); [apply rtc_refl|]. cbn [snd].
  apply pushes_foldl. intros. apply pushes_SendNotification.
Qed.

Lemma pushes_modify r req n res : modifyCurrentGameAttribute r req n = Some res → pushes n res.2.
Proof.
  unfold modifyCurrentGameAttribute. destruct (read_body n req _) as [[gid idx] v].
  destruct (gatherings (mm n) !! gid); [|intros [= <-]; apply rtc_refl].
  destruct (first_is _ _); [|intros [= <-]; apply rtc_refl].
  destruct (grow_attribs _ _ _); [|done]. intros [= <-]. apply pushes_app.
Qed.

Lemma pushes_delivery b r req n : pushes n (MessageDeliveryHandler b r req n).2.
Proof.
  apply pushes_foldl. intros n' p. unfold relay_one. case_match; [apply rtc_refl|].
  case_match; [by apply pushes_request|apply rtc_refl].
Qed.

Lemma pushes_matchmaking_ext r req n : pushes n (MatchMakingExtHandler r req n).2.
Proof. unfold MatchMakingExtHandler, endParticipation. cbv zeta. push_branches. Qed.
Context (OnSessionReady : option (Z → list Z → Net → Net)).
Hypothesis Hready : ∀ f gid ps n, OnSessionReady = Some f → pushes n (f gid ps n).

Lemma pushes_participation c ps gid j n : pushes n (notifyParticipation cfg OnSessionReady c ps gid j n).
Proof.
  unfold notifyParticipation. etrans; [apply pushes_notify_all|]. apply pushes_callback; [|auto].
  apply pushes_foldl. intros m x. case_match; [apply rtc_refl|apply pushes_SendNotification].
Qed.
Lemma pushes_after c ps gid d n : pushes n (notifyParticipationAfter cfg OnSessionReady c ps gid d n).
Proof. unfold notifyParticipationAfter. case_match; [apply pushes_participation|apply pushes_app]. Qed.

Lemma pushes_autoMatchmake rnd r req n : pushes n (autoMatchmake cfg rnd OnSessionReady r req n).2.
Proof.
  unfold autoMatchmake. destruct (read_err n req _); [apply rtc_refl|].
  destruct (match choose_lobby _ _ _ _ with Some gid => _ | None => _ end) as [gid m].
  destruct (gatherings (upd_gathering gid recount m) !! gid); cbn [snd]; [|apply pushes_app].
  etrans; [apply pushes_app|apply pushes_after].
Qed.

Lemma pushes_joinSession r req n : pushes n (joinSession cfg OnSessionReady r req n).2.
Proof.
  unfold joinSession. destruct (gatherings (mm n) !! _); [|apply rtc_refl]. cbv zeta. case_match; [apply rtc_refl|].
  cbn [snd]. case_match; [|apply pushes_app]. etrans; [apply pushes_app|apply pushes_after].
Qed.

Lemma pushes_migrate r req b n : pushes n (migrateGatheringOwnership cfg OnSessionReady r req b n).2.
Proof.
  unfold migrateGatheringOwnership. destruct (read_body n req _) as [gid cs]. cbn [snd].
  destruct (gatherings (mm n) !! gid); [|apply rtc_refl]. case_bool_decide; [apply rtc_refl|]. cbv zeta.
  etrans; [apply pushes_app|apply pushes_participation].
Qed.

Context (OnFriendSessionCreated : option (Z → Z → Net → Net)).
Hypothesis Hcreated : ∀ f p gid n, OnFriendSessionCreated = Some f → pushes n (f p gid n).

Lemma pushes_createSession rnd r req n :
  pushes n (createSession cfg rnd OnSessionReady OnFriendSessionCreated r req n).2.
Proof.
  unfold createSession. destruct (read_err n req _); [apply rtc_refl|].
  destruct (create_for cfg rnd _ r n) as [gid m]. cbv zeta. set (m' := if NormalizeCreateSessionRV cfg then _ else _).
  destruct (gatherings m' !! gid); cbn [snd]; [|apply pushes_app].
  etrans; [|apply pushes_after]. apply pushes_callback; [apply pushes_app|auto].
Qed.

End matchmaker.

(** ** Stations, sessions, probes *)
Section nat.
#[local] Set Default Proof Using "Type*".
Context {App : Type} `{HM : !Substate MM App} `{HN : !Substate NatState App} `{MO : MapOrder}.
#[local] Abbreviation Net := (NetOf App).
Implicit Types (n : Net) (r : Ref) (req : RMCMessage).
Context (nat_file : Z → option bytes) (listen : Z → Z → bool).

Lemma pushes_secure scfg r req n : pushes n (SecureConnectionHandlerWithConfig scfg r req n).2.
Proof.
  unfold SecureConnectionHandlerWithConfig, handleRegister, handleReplaceURLWithConfig. cbv zeta.
  destruct (_ || _); [destruct (register_stations _ _ _ _); by apply pushes_upd|].
  destruct (Method req =? MethodReplaceURL); [by apply pushes_upd|]. case_match; apply rtc_refl.
Qed.

Lemma pushes_pair_relay a b ia ib n : pushes n (pair_relay listen a b ia ib n).2.
Proof. unfold pair_relay. destruct (PairRelayFor _ _ _ _ _ _ _). apply pushes_app. Qed.
Lemma pushes_repoint b r st n : pushes n (repoint nat_file b r st n).2.
Proof.
  unfold repoint, nat_port. cbv zeta. case_match; [|apply rtc_refl].
  destruct (natPortForIP _ _ _ _). apply pushes_app.
Qed.
Lemma pushes_bridge bcfg j h n : pushes n (bridge_pair bcfg nat_file j h n).2.
Proof. unfold bridge_pair. destruct (bridgeSessionStationsForPair _ _ _ _ _ _). apply pushes_app. Qed.
Lemma pushes_relayedFor j h urls n : pushes n (relayedFor listen j h urls n).2.
Proof.
  unfold relayedFor. case_match; [apply rtc_refl|].
  pose proof (pushes_pair_relay (PID (conn j n)) (PID (conn h n)) (PublicIPOf (conn j n)) (PublicIPOf (conn h n)) n) as Hs.
  by destruct (pair_relay _ _ _ _ _ n) as [[[a b]|] m].
Qed.

Lemma pushes_probe_target r req a b n raw : pushes n (probe_target listen r req a b n raw).
Proof.
  unfold probe_target. cbv zeta. case_match; [apply rtc_refl|].
  destruct (FindConnectionByID _ n) as [t|]; [|apply rtc_refl].
  lazymatch goal with |- context [let '(relay, n) := ?p in _] =>
    assert (pushes n p.2) as Hs; [|destruct p as [relay m]; etrans; [exact Hs|by apply pushes_request]] end.
  case_match; [apply pushes_pair_relay|apply rtc_refl].
Qed.

Lemma pushes_traversal OnNATProperties probe vide server r req n :
  (∀ f p a b c n, OnNATProperties = Some f → pushes n (f p a b c n)) →
  pushes n (NATTraversalHandler nat_file listen probe vide server OnNATProperties r req n).2.
Proof.
  intros Hnat. unfold NATTraversalHandler. cbv zeta.
  repeat lazymatch goal with |- pushes n (snd (if ?b then _ else _)) => destruct b end; try apply rtc_refl; cbn [snd].
  - unfold pushInitiateProbe. destruct (read_err n req _); [apply rtc_refl|]. destruct (read_body n req _) as [l st].
    pose proof (pushes_repoint probe r st n) as Hs. destruct (repoint nat_file probe r st n) as [b m].
    etrans; [exact Hs|]. apply pushes_foldl. intros. apply pushes_probe_target.
  - unfold logNATResult. cbv zeta. destruct (read_err n req _); [apply rtc_refl|].
    destruct (read_body n req _) as [cid res]. case_match; [apply rtc_refl|apply pushes_app].
  - unfold noteNATProperties. cbv zeta. destruct (read_err n req _); [apply rtc_refl|].
    destruct (read_body n req _) as [[a b] c]. apply pushes_callback; [by apply pushes_upd|auto].
Qed.

Lemma pushes_matchmaking cfg bcfg ready SessionStations r req n :
  (∀ f gid ps n, ready = Some f → pushes n (f gid ps n)) →
  pushes n (MatchMakingHandler cfg bcfg nat_file listen ready SessionStations r req n).2.
Proof.
  intros Hready. unfold MatchMakingHandler. cbv zeta.
  repeat lazymatch goal with |- pushes n (snd (if ?b then _ else _)) => destruct b end; try apply rtc_refl; cbn [snd].
  - unfold getSessionURLs. cbv zeta. destruct (gatherings (mm n) !! _) as [g|]; [|case_match; apply rtc_refl].
    destruct (FindConnectionByID _ n) as [h|]; [|apply rtc_refl]. destruct SessionStations; [apply rtc_refl|].
    pose proof (pushes_bridge bcfg r h n) as Hs. destruct (bridge_pair bcfg nat_file r h n) as [[urls st] m].
    cbn [snd] in Hs. case_decide; [etrans; [exact Hs|apply pushes_app]|].
    pose proof (pushes_relayedFor r h urls m) as Hs'. destruct (relayedFor listen r h urls m). cbn [snd] in *. by etrans.
  - unfold unregister. cbv zeta. push_branches.
  - by apply pushes_migrate.
  - by apply pushes_migrate.
  - unfold findBySingleID15. push_branches.
Qed.
End nat.

(** ** Boards, records, profiles *)
Section boards.
#[local] Set Default Proof Using "Type*".
Context {App : Type} `{MO : MapOrder} `{SS : SliceSort}.
#[local] Abbreviation Net := (NetOf App).
Implicit Types (n : Net) (r : Ref) (req : RMCMessage).

Lemma pushes_ranking `{HK : !Substate RankState App} `{HT : !Substate tournamentStore App}
    commonFile boardFile (o1 o2 : MapOrder) r req n :
  pushes n (RankingHandler (MO := MO) commonFile boardFile o1 o2 r req n).2.
Proof.
  unfold RankingHandler, uploadCommonData, commonDataByPIDs, competitionRanking, submitScore. cbv zeta.
  push_branches. etrans; apply pushes_app.
Qed.

Lemma pushes_ranking2 `{HR : !Substate Ranking2Store App} persiste written r req n :
  pushes n (Ranking2Handler persiste written r req n).2.
Proof. unfold Ranking2Handler, PutScore. cbv zeta. push_branches. Qed.

Lemma pushes_referee `{HM : !Substate MM App} `{HR : !Substate RefereeState App} cfg persiste written joinable r req n :
  pushes n (MatchmakeRefereeHandler cfg persiste written joinable r req n).2.
Proof.
  assert (∀ f m, pushes m (save_stats persiste written (upd_stats f m))) as Hsave
    by (intros; etrans; apply pushes_app).
  unfold MatchmakeRefereeHandler. cbv zeta.
  repeat lazymatch goal with |- pushes n (snd (if ?b then _ else _)) => destruct b end; try apply rtc_refl; cbn [snd];
    try apply Hsave.
  unfold startRound. cbv zeta. cbn [snd]. etrans; [apply pushes_app|].
  apply pushes_foldl. intros m p. destruct joinable; [apply pushes_notify_pid|apply rtc_refl].
Qed.

Lemma pushes_smm2 `{HD : !Substate SMM2State App} cb persiste written r req n :
  pushes n (DataStoreSMM2Handler cb persiste written r req n).2.
Proof.
  unfold DataStoreSMM2Handler. cbv zeta.
  repeat lazymatch goal with |- pushes n (snd (if ?b then _ else _)) => destruct b end; try apply rtc_refl.
  - unfold handleDataStoreRegisterUser. push_branches.
  - unfold handleDataStoreSyncUserProfile. destruct (SMM2ProfilDe _ _) as [p|]; [|apply rtc_refl].
    destruct (sync_profil req n p); [apply pushes_app|apply rtc_refl].
Qed.
End boards.

(** ** The package's handlers

    The last lemma says that they are such handlers as a message may be delivered to
    (Delivery.v). *)
Section package.
#[local] Set Default Proof Using "Type*".
Context {G : Type} (order1 order2 : MapOrder) `{MO : MapOrder} `{SS : SliceSort}.
#[local] Abbreviation Net := (NetOf (Process G)).
Implicit Types (n : Net) (r : Ref) (req : RMCMessage).
Context (rnd32 rnd_mark rnd_code : Net → bytes).
Context (cfg : Config) (bcfg : BridgeConfig) (scfg : SecureConnectionConfig) (uenv : UtilityEnv) (cb : SMM2Callbacks).
Context (nat_file : Z → option bytes) (listen : Z → Z → bool).
Context (relaiInclutSource probeRepoint relaySigVide persiste joinable : bool) (relaySigServer : Z).
Context (written : Net → bool).
Context (commonFile : option (gmap bytes bytes)) (boardFile : option (list boardPersisted)).
Context (OnSessionReady : option (Z → list Z → Net → Net)) (OnFriendSessionCreated : option (Z → Z → Net → Net)).
Context (OnNATProperties : option (Z → Z → Z → Z → Net → Net)).
Context (SessionStations : option (Ref → Ref → Net → list StationURL)).

(** What the title's callbacks must keep to: they may notify, but answer nobody. *)
Record callbacks_push : Prop := mkCallbacksPush {
  cp_ready : ∀ f gid ps n, OnSessionReady = Some f → pushes n (f gid ps n);
  cp_created : ∀ f p gid n, OnFriendSessionCreated = Some f → pushes n (f p gid n);
  cp_nat : ∀ f p a b c n, OnNATProperties = Some f → pushes n (f p a b c n)
}.
Hypothesis Hcb : callbacks_push.

Lemma pushes_ExtensionHandler r req n res :
  ExtensionHandler cfg rnd32 rnd_mark rnd_code OnSessionReady OnFriendSessionCreated r req n = Some res → pushes n res.2.
Proof.
  destruct Hcb as [H1 H2 _]. unfold ExtensionHandler.
  destruct (quiet_lookup_handlers cfg r req n) as (E1 & E2 & E3 & E4 & E5 & E6 & E7 & E8).
  repeat lazymatch goal with
  | |- (if ?b then modifyCurrentGameAttribute _ _ _ else _) = _ → _ => destruct b; [apply pushes_modify|]
  | |- (if ?b then _ else _) = _ → _ =>
      destruct b; [intros [= <-]; try case_match; rewrite ?E1, ?E2, ?E3, ?E4, ?E5, ?E6, ?E7, ?E8;
        first [ apply rtc_refl | by apply pushes_autoMatchmake | by apply pushes_createSession | by apply pushes_joinSession
              | apply pushes_updateNotificationData | apply pushes_getFriendNotificationData
              | unfold setParticipation, privateRoomCreate, updateSessionPart, updateApplicationBuffer,
                  updateMatchmakeSessionAttribute, tournamentsByIDs, createTournament, removeTournament, registerTournament;
                cbv zeta; push_branches ] |]
  end.
  intros [= <-]. apply rtc_refl.
Qed.

Lemma package_pushes k h r req n :
  package order1 order2 rnd32 rnd_mark rnd_code cfg bcfg scfg uenv cb nat_file listen relaiInclutSource probeRepoint
    relaySigVide persiste joinable relaySigServer written commonFile boardFile OnSessionReady OnFriendSessionCreated
    OnNATProperties SessionStations k h → pushes n (h r req n).2.
Proof.
  intros [].
  - unfold serve_extension. destruct (ExtensionHandler _ _ _ _ _ _ _ _ _) eqn:E; [|apply rtc_refl].
    by apply pushes_ExtensionHandler in E.
  - apply pushes_matchmaking_ext.
  - apply pushes_matchmaking, Hcb.
  - apply pushes_delivery.
  - apply pushes_traversal, Hcb.
  - apply pushes_secure.
  - apply rtc_refl.
  - apply pushes_ranking.
  - apply pushes_ranking2.
  - apply pushes_referee.
  - apply pushes_smm2.
Qed.

Lemma package_keeps_receiver k h r r' req n :
  package order1 order2 rnd32 rnd_mark rnd_code cfg bcfg scfg uenv cb nat_file listen relaiInclutSource probeRepoint
    relaySigVide persiste joinable relaySigServer written commonFile boardFile OnSessionReady OnFriendSessionCreated
    OnNATProperties SessionStations k h → receiver (conn r' (h r req n).2) = receiver (conn r' n).
Proof. intros Hk. by apply pushes_receiver, (package_pushes k). Qed.
End package.
