(* ===== verification/Introduction.v ===== *)
(** * Two players introduced through the relay

    The composition behind a relayed session: the matchmaker answers a joiner with the host's
    stations (SessionURLs.v), the relay gives the pair a port (RelayRegistry.v), and the port
    passes datagrams on (RelayProps.v).  The two players then meet on the port the joiner was
    told. *)

From S2P Require Export StationProps RelayRegistry SessionProps.

(** The socket has received [h] since it was opened, for the addresses of its two places. *)
Definition heard (places : bytes * bytes) (h : list (Z * UDPAddr)) (ps : pairSocket) : Prop :=
  vus ps = (last_from places.1 h, last_from places.2 h) ∧
  rejets ps = u64 (zlen (filter (stranger places.1 places.2) h)).

(** The datagrams [h] received in order. *)
Definition receive_all (h : list (Z * UDPAddr)) (ps : pairSocket) : pairSocket :=
  foldl (λ ps v, (boucle_step v.1 v.2 ps).2) ps h.

Lemma receive_all_rel ipA ipB h0 h ps :
  distincts ipA ipB → pair_rel ipA ipB h0 ps → pair_rel ipA ipB (h0 ++ h) (receive_all h ps).
Proof.
  intros D. revert h0 ps. induction h as [|[t src] h IH]; intros h0 ps Hr; [by rewrite app_nil_r|].
  replace (h0 ++ (t, src) :: h) with ((h0 ++ [(t, src)]) ++ h) by by rewrite <- app_assoc.
  apply IH. by apply boucle_rel.
Qed.

Lemma distincts_sym ipA ipB : distincts ipA ipB → distincts ipB ipA.
Proof. intros [? ?]. split; [by rewrite memeReseau_sym|done]. Qed.

(** The relayed list has the relay's address and port on its public station. *)
Lemma RelayStations_public urls host port u :
  (selectStations urls).2 = Some u → isPrivateIP (address u) = false →
  ∃ u', u' ∈ RelayStations urls host port ∧ address u' = host ∧ Get u' (str "port") = Itoa port.
Proof.
  unfold selectStations, RelayStations. destruct (select_indices urls) as [l [j|]]; [|done]. cbn.
  destruct (urls !! j) as [p|] eqn:Ej; [|done]. intros [= <-] Hpr. cbn. rewrite Hpr.
  exists (relayPointStation host port p). split.
  - apply list_elem_of_lookup. exists j. rewrite list_lookup_imap, Ej. cbn. by rewrite decide_True.
  - unfold address. rewrite !relayPointStation_spec. split.
    + rewrite decide_False by (intros [E _]; revert E; keys_differ). by rewrite decide_False by keys_differ.
    + by rewrite decide_False by (intros [E _]; revert E; keys_differ).
Qed.

Section introduction.
Context {App : Type} `{HN : !Substate NatState App} `{MO : MapOrder}.
#[local] Abbreviation Net := (NetOf App).
Implicit Types (n : Net).
Context (listen : Z → Z → bool).

(** The addresses of a pair in the order of its places: the smaller PID first. *)
Definition places (j h : Ref) n : bytes * bytes :=
  if PID (conn h n) <? PID (conn j n) then (PublicIPOf (conn h n), PublicIPOf (conn j n))
  else (PublicIPOf (conn j n), PublicIPOf (conn h n)).

Lemma places_distinct_networks j h n :
  distincts (PublicIPOf (conn j n)) (PublicIPOf (conn h n)) → distincts (places j h n).1 (places j h n).2.
Proof. intros D. unfold places. case_match; [by apply distincts_sym|done]. Qed.

(** Where the pair's port sends a datagram: to the other player's last endpoint. *)
Lemma places_target j h n src hist :
  distincts (PublicIPOf (conn j n)) (PublicIPOf (conn h n)) →
  target (places j h n).1 (places j h n).2 src hist =
    (if admis (PublicIPOf (conn j n)) (IPString (u_IP src)) then last_from (PublicIPOf (conn h n)) hist
     else if admis (PublicIPOf (conn h n)) (IPString (u_IP src)) then last_from (PublicIPOf (conn j n)) hist else None).
Proof.
  intros D. unfold places, target. destruct (PID (conn h n) <? PID (conn j n)); [|done]. cbn [fst snd].
  destruct (admis (PublicIPOf (conn j n)) _) eqn:E; [|done].
  by rewrite (admis_one_side _ _ _ D E).
Qed.

(** A pair is given a port only when the relay is armed. *)
Lemma pair_relay_active a b ipA ipB n x :
  (pair_relay listen a b ipA ipB n).1 = Some x → relay_active n = true.
Proof.
  unfold pair_relay, relay_active, PairRelayFor. cbv zeta.
  by destruct (PairRelayActive (r_pairs (ns_relay (ns n)))).
Qed.

(** C7: Players of two networks introduced through the relay meet.  When the relay takes a pair
    whose addresses differ and are not of one /24, the joiner's answer names the relay — host
    and port — as the host's public station.  On that port, whatever datagrams arrive from then
    on and whoever sends them, a datagram from the joiner's network goes to the endpoint the
    host last sent from, one from the host's network goes to the joiner's last endpoint, and
    anybody else's goes nowhere; "last" counts from the opening of the port, and on a port the
    pair had already, from the datagrams [h0] its two places have heard.  For two players of
    one network the relay does not follow ports, and this is not about them. *)
Theorem introduced_players_meet j h urls n host port h0 :
  rtc relay_step relay0 (ns_relay (ns n)) →
  distincts (PublicIPOf (conn j n)) (PublicIPOf (conn h n)) →
  urls ≠ [] →
  (pair_relay listen (PID (conn j n)) (PID (conn h n)) (PublicIPOf (conn j n)) (PublicIPOf (conn h n)) n).1 =
    Some (host, port) →
  match pairSocks (r_pairs (ns_relay (ns n))) !! port with Some old => heard (places j h n) h0 old | None => h0 = [] end →
  let '(urls', n') := relayedFor listen j h urls n in
  (∀ u, (selectStations urls).2 = Some u → isPrivateIP (address u) = false →
     ∃ u', u' ∈ urls' ∧ address u' = host ∧ Get u' (str "port") = Itoa port) ∧
  ∃ ps, pairSocks (r_pairs (ns_relay (ns n'))) !! port = Some ps ∧
    ∀ hist t src,
      (boucle_step t src (receive_all hist ps)).1 =
        if admis (PublicIPOf (conn j n)) (IPString (u_IP src)) then last_from (PublicIPOf (conn h n)) (h0 ++ hist)
        else if admis (PublicIPOf (conn h n)) (IPString (u_IP src)) then last_from (PublicIPOf (conn j n)) (h0 ++ hist)
        else None.
Proof.
  intros I D Hurls Hpair Hheard. unfold relayedFor.
  assert (relay_active n = true) as Hact by by eapply pair_relay_active.
  rewrite Hact, bool_decide_false by done. cbn [negb orb].
  destruct (pair_relay listen _ _ _ _ n) as [res n'] eqn:E. cbn [fst] in Hpair. subst res.
  split; [intros u; apply RelayStations_public|].
  unfold pair_relay in E. destruct (PairRelayFor _ _ _ _ _ _ _) as [res st'] eqn:Er. injection E as -> <-.
  destruct (PairRelayFor_socket _ _ _ _ _ _ _ _ _ _ (registry_reached _ I) Er) as ((ps & Hs & _ & Ha & Hv) & _).
  exists ps. unfold ns. rewrite comp_upd. cbn [ns_relay set_relay]. split; [exact Hs|]. intros hist t src.
  rewrite <- places_target by done.
  assert (pair_rel (places j h n).1 (places j h n).2 h0 ps) as Hrel.
  { split; [rewrite Ha; unfold places; by destruct (PID (conn h n) <? PID (conn j n))|].
    destruct (pairSocks (r_pairs (ns_relay (ns n))) !! port) as [old|].
    - destruct Hheard as [H1 H2], Hv as (_ & H3 & H4). by rewrite H3, H4.
    - destruct Hv as [H3 H4]. by rewrite H3, H4, Hheard. }
  apply boucle_rel; [by apply places_distinct_networks|].
  apply receive_all_rel; [by apply places_distinct_networks|exact Hrel].
Qed.
End introduction.

(** ** Players 9 and 5, on two networks, with the relay armed *)
#[local] Existing Instance canonical_order.

Definition meeting : NetOf NatState :=
  set_heap {[0%nat := set_PID 9 (NewConnection (str "25.0.0.1:5000")); 1%nat := set_PID 5 (NewConnection (str "24.0.0.1:4000"))]}
    (NewEndpoint (NewSwitchSettings [] 40302) auth_start 0 (set_relay relay_open_1 nat0)).
Definition host_station : StationURL :=
  StationURL.Set_ (str "type") (str "11") (StationURL.Set_ (str "address") (str "24.0.0.1") (NewStationURL (str "prudp"))).

Lemma introduced_players_meet_witness :
  rtc relay_step relay0 (ns_relay (ns meeting)) ∧
  let '(urls', n') := relayedFor (λ _ _, true) 0%nat 1%nat [host_station] meeting in
  (∃ u', u' ∈ urls' ∧ address u' = str "relay" ∧ Get u' (str "port") = str "40817") ∧
  ∃ ps, pairSocks (r_pairs (ns_relay (ns n'))) !! 40817 = Some ps ∧
    (boucle_step 3 (mkUDP [x19; x00; x00; x01] 5001)
       (receive_all [(1, mkUDP [x18; x00; x00; x01] 4000); (2, mkUDP [x63; x00; x00; x01] 1)] ps)).1 =
      Some (mkUDP [x18; x00; x00; x01] 4000).
Proof.
  assert (rtc relay_step relay0 (ns_relay (ns meeting))) as Hr by exact relay_open_1_reached. split; [exact Hr|].
  assert (distincts (PublicIPOf (conn 0%nat meeting)) (PublicIPOf (conn 1%nat meeting))) as D
    by (split; vm_compute; [reflexivity|discriminate]).
  pose proof (introduced_players_meet (λ _ _, true) 0%nat 1%nat [host_station] meeting (str "relay") 40817 [] Hr D
    ltac:(discriminate) ltac:(vm_compute; reflexivity) ltac:(vm_compute; reflexivity)) as H.
  destruct (relayedFor (λ _ _, true) 0%nat 1%nat [host_station] meeting) as [urls' n'].
  destruct H as [Hu (ps & Hps & Hm)]. split; [|exists ps; split; [exact Hps|]].
  - apply (Hu host_station); vm_compute; reflexivity.
  - rewrite Hm. vm_compute. reflexivity.
Defined.
