(* ===== verification/MatchProps.v ===== *)
(** * What the matchmaker guarantees

    Of every state it reaches: nobody is listed twice and the announced counts are right.
    AutoMatchmake joins a lobby only when it suits and opens a new one only when none does; a
    lobby never grows past its capacity; who leaves is gone from everywhere; a room code leads
    to its room; a relayed message goes to the largest room; looking around reveals no key. *)

From S2P Require Export MatchFacts.

Section props.
Context {App : Type} `{HM : !Substate MM App} `{HT : !Substate tournamentStore App} `{MO : MapOrder}.
#[local] Abbreviation Net := (NetOf App).
Implicit Types (n : Net) (r : Ref) (req : RMCMessage) (m : MM) (g : gathering).
Context (cfg : Config).

(** In every state the matchmaker reaches from an empty store, through any requests on
    any connections, timers, departures and changes of host, in any order, and whatever order
    Go visits its maps in: nobody takes part twice in a gathering, the number of participants
    a session announces is the length of its list, and a session carries the identifier it is
    stored under. *)
Theorem reachable_well_formed `{HI : !Independent MM tournamentStore App} ready created rnd32 mark code_ relai n :
  (∀ f gid ps n, ready = Some f → quiet n (f gid ps n)) →
  (∀ f p gid n, created = Some f → quiet n (f p gid n)) →
  mm_reachable cfg rnd32 mark code_ ready created relai n →
  ∀ gid g, gatherings (mm n) !! gid = Some g →
    NoDup (participants g) ∧ NumParticipants (session g) = u32 (zlen (participants g)) ∧
    ms_ID (session g) = gid.
Proof.
  intros Hr Hc (n0 & H0 & Hsteps). assert (mm_ok (mm n0)) as Hok by (rewrite H0; apply map_Forall_empty).
  clear H0. cut (mm_ok (mm n)); [by intros H gid g; apply H|].
  induction Hsteps as [|n1 n2 n3 Hstep _ IH]; [done|]. apply IH. by eapply mm_ok_step.
Qed.

(** ** AutoMatchmake *)

(** C13: Which lobby AutoMatchmake joins.  It is one of the stored gatherings and it suits the
    search; its owner is connected, unless no suiting gathering's owner is.  No lobby is
    picked, so that one is created, only for the players kept alone or when nothing suits:
    whatever order the map is visited in. *)
Theorem choose_lobby_spec param r n :
  match choose_lobby cfg param r n with
  | Some gid => ∃ g, gatherings (mm n) !! gid = Some g ∧ suits cfg param r n g ∧
      (owner_there n g ∨
       ∀ gid' g', gatherings (mm n) !! gid' = Some g' → suits cfg param r n g' → ¬ owner_there n g')
  | None => isSoloPID cfg (PID (conn r n)) = true ∨
      ∀ gid g, gatherings (mm n) !! gid = Some g → ¬ suits cfg param r n g
  end.
Proof.
  unfold choose_lobby. destruct (isSoloPID _ _); [by left|].
  pose proof (find_lobby_spec cfg param r n (range (gatherings (mm n))) None) as H.
  destruct (find_lobby _ _ _ _ _ _ None) as [[gid|] repli].
  - destruct H as (g & Hin%elem_of_range & Hs & Ho). exists g. auto.
  - destruct H as (Hno & Hr). setoid_rewrite elem_of_range in Hno. setoid_rewrite elem_of_range in Hr.
    destruct Hr as [[-> Hr]|(_ & gid & g & -> & Hg & Hs)]; [right; by apply Hr|].
    exists g. split_and!; [done|done|by right].
Qed.

(** ** Creating and joining *)
Lemma create_lookup key now p c src m gid' :
  gatherings (createGathering cfg key now p c src m).2 !! gid' =
    if decide (gid' = nextGID m)
    then Some (mkG (finalizeCreatedSession cfg key now (nextGID m) p src) [p] c [])
    else gatherings m !! gid' ≫= λ g,
           if negb (p =? 0) && bool_decide (participants g = [p]) then None else Some g.
Proof.
  unfold createGathering. cbn [snd].
  set (m0 := set_gatherings _ _).
  assert (∀ k, gatherings m0 !! k = if decide (k = nextGID m) then
     Some (mkG (finalizeCreatedSession cfg key now (nextGID m) p src) [p] c []) else gatherings m !! k) as Hm0.
  { intros k. subst m0. cbn [gatherings set_gatherings]. rewrite gatherings_remember. cbn [gatherings set_nextGID].
    case_decide; subst; by rewrite ?lookup_insert_eq, ?lookup_insert_ne. }
  destruct (decide (p = 0)) as [->|Hp].
  - unfold releaseAbandonedSolo. cbn [Z.eqb negb andb]. rewrite Hm0. case_decide; [done|].
    by destruct (gatherings m !! gid').
  - rewrite release_lookup, Hm0 by done. rewrite (proj2 (Z.eqb_neq p 0)) by done. cbn [negb andb].
    case_decide as Hd; cbn [mbind option_bind].
    + subst. by rewrite Z.eqb_refl.
    + destruct (gatherings m !! gid') as [g|]; cbn [mbind option_bind]; [|done].
      rewrite (proj2 (Z.eqb_neq gid' (nextGID m))) by done. cbn [orb]. by destruct (bool_decide _).
Qed.

(** Opening a gathering.  The new one holds its creator alone, under the next identifier;
    every gathering the creator had been left alone in is gone; all the others are as they
    were. *)
Theorem createGathering_spec key now p c src m gid' :
  p ≠ 0 →
  let m' := (createGathering cfg key now p c src m).2 in
  let gid := (createGathering cfg key now p c src m).1 in
  (∃ g, gatherings m' !! gid = Some g ∧ participants g = [p] ∧ hostConnID g = c ∧
        ms_OwnerPID (session g) = p ∧ ms_ID (session g) = gid) ∧
  (gid' ≠ gid →
   gatherings m' !! gid' = gatherings m !! gid' ≫= λ g, if bool_decide (participants g = [p]) then None else Some g).
Proof.
  intros Hp. cbv zeta. change (createGathering cfg key now p c src m).1 with (nextGID m). split.
  - eexists. rewrite create_lookup, decide_True by done. split_and!; try done;
      unfold finalizeCreatedSession; repeat case_match; done.
  - intros Hne. rewrite create_lookup, decide_False by done.
    by rewrite (proj2 (Z.eqb_neq p 0)) by done.
Qed.

(** What AutoMatchmake answers and stores, from the state [m] it settles on. *)
Lemma autoMatchmake_answer ready r req n m gid g :
  (∀ f gid ps n, ready = Some f → quiet n (f gid ps n)) →
  gatherings m !! gid = Some g →
  let n1 := set_mm m n in
  let res := match gatherings m !! gid with
    | None => (None, n1)
    | Some g => (Some (reply n1 ProtocolMatchmakeExtension req (wAdd (session g))),
                 notifyParticipationWithDelay cfg ready r (participants g) (ms_ID (session g)) n1)
    end in
  res.1 = Some (reply n ProtocolMatchmakeExtension req (wAdd (session g))) ∧
  gatherings (mm res.2) = gatherings m.
Proof.
  intros Hready Hg. cbv zeta. rewrite Hg. cbn [fst snd]. split; [done|].
  destruct (quiet_notifyAfter cfg ready None Hready (λ f p gid n H, ltac:(done)) r (participants g)
    (ms_ID (session g)) (ParticipationNotificationDelay cfg) (set_mm m n)) as (Hq & _).
  unfold notifyParticipationWithDelay. by rewrite Hq, mm_set_mm.
Qed.

(** C28: Whoever asks AutoMatchmake ends up in a gathering and is told which: the session in the
    answer is that of a stored gathering they take part in, its count right.  It is the lobby
    that was picked, with the player added to it, or else a new gathering of their own. *)
Theorem autoMatchmake_joins ready rnd r req n :
  (∀ f gid ps n, ready = Some f → quiet n (f gid ps n)) →
  read_err n req (rExtract zero_Auto) = None →
  let p := PID (conn r n) in
  let '(resp, n') := autoMatchmake cfg rnd ready r req n in
  ∃ gid g, gatherings (mm n') !! gid = Some g ∧
    resp = Some (reply n ProtocolMatchmakeExtension req (wAdd (session g))) ∧
    p ∈ participants g ∧ NumParticipants (session g) = u32 (zlen (participants g)) ∧
    match choose_lobby cfg (read_body n req (rExtract zero_Auto)) r n with
    | Some gid' => gid = gid' ∧ ∃ g0, gatherings (mm n) !! gid = Some g0 ∧
        participants g = if decide (p ∈ participants g0) then participants g0 else participants g0 ++ [p]
    | None => gid = nextGID (mm n) ∧ participants g = [p] ∧ ms_OwnerPID (session g) = p
    end.
Proof.
  intros Hready Herr p. unfold autoMatchmake. rewrite Herr. set (param := read_body _ _ _). fold p.
  destruct (choose_lobby cfg param r n) as [gid|] eqn:Ec.
  - destruct (choose_lobby_suits _ _ _ _ _ Ec) as (g0 & Hg0 & _).
    set (m := upd_gathering gid recount _). set (g := recount (add_participant p g0)).
    assert (gatherings m !! gid = Some g) as Hg.
    { subst m. rewrite upd_upd_gathering. cbn [gatherings upd_gathering set_gatherings].
      by rewrite lookup_alter_eq, Hg0. }
    destruct (autoMatchmake_answer ready r req n m gid g Hready Hg) as [H1 H2]. cbv zeta in H1, H2.
    destruct (match gatherings m !! gid with Some _ => _ | None => _ end) as [resp n']. cbn [fst snd] in *.
    exists gid, g. rewrite H2. split_and!; [done|done| |done|done|exists g0; split; [done|]];
      subst g; unfold add_participant, containsPID; case_bool_decide; cbn; rewrite ?decide_True, ?decide_False by done;
      try done; set_solver.
  - destruct (create_for cfg rnd (Session param) r n) as [gid m0] eqn:E. unfold create_for in E.
    pose proof (f_equal fst E) as Egid. cbn [fst] in Egid. change (nextGID (mm n) = gid) in Egid. subst gid.
    pose proof (create_lookup (rnd n) (DateTime.NowDateTime (clock n)) (PID (conn r n)) (ID (conn r n))
      (Session param) (mm n) (nextGID (mm n))) as Hl. rewrite E, decide_True in Hl by done. cbn [snd] in Hl.
    set (m := upd_gathering _ recount _).
    assert (∃ g, gatherings m !! nextGID (mm n) = Some g ∧ participants g = [p] ∧
      NumParticipants (session g) = u32 (zlen (participants g)) ∧ ms_OwnerPID (session g) = p) as (g & Hg & Hps & Hn & Ho).
    { subst m. destruct (isSoloPID cfg p); rewrite ?upd_upd_gathering; cbn [gatherings upd_gathering set_gatherings];
        rewrite lookup_alter_eq, Hl; (eexists; split; [reflexivity|]); split_and!; try done;
        unfold finalizeCreatedSession; repeat case_match; done. }
    destruct (autoMatchmake_answer ready r req n m (nextGID (mm n)) g Hready Hg) as [H1 H2]. cbv zeta in H1, H2.
    destruct (match gatherings m !! _ with Some _ => _ | None => _ end) as [resp n']. cbn [fst snd] in *.
    exists (nextGID (mm n)), g. rewrite H2, Hps. split_and!; try done; [set_solver|by rewrite Hn, Hps].
Qed.

(** The gathering identifier of a join request. *)
Definition joined_gid (req : RMCMessage) (n : Net) : Z :=
  read_body n req (skip! rU8 in read! sub := rSubstream in rret ((rU32 sub).1)).

(** C27: A lobby never outgrows its capacity by a join.  A newcomer is appended when there is
    room and refused with SessionFull, the store unchanged, when there is none; who was there
    already stays where they were; nobody else moves. *)
Theorem joinSession_capacity ready r req n resp n' g :
  (∀ f gid ps n, ready = Some f → quiet n (f gid ps n)) →
  joinSession cfg ready r req n = (resp, n') →
  gatherings (mm n) !! joined_gid req n = Some g →
  zlen (participants g) ≤ ms_MaxParticipants (session g) < 2 ^ 16 →
  let p := PID (conn r n) in
  (p ∉ participants g ∧ 0 < zlen (participants g) ∧
   zlen (participants g) = ms_MaxParticipants (session g) ∧ n' = n ∧
   resp = Some (fail n ProtocolMatchmakeExtension req ResultRendezVousSessionFull)) ∨
  (∃ g', gatherings (mm n') = <[joined_gid req n := g']> (gatherings (mm n)) ∧ p ∈ participants g' ∧
     (0 < ms_MaxParticipants (session g) → zlen (participants g') ≤ ms_MaxParticipants (session g')) ∧
     participants g' = (if decide (p ∈ participants g) then participants g else participants g ++ [p])).
Proof.
  intros Hready Hj Hg Hcap p. revert Hj. unfold joinSession. fold (joined_gid req n). rewrite Hg. fold p.
  assert (u16 (zlen (participants g)) = zlen (participants g)) as ->.
  { unfold u16. apply Z.mod_small. unfold zlen in *. lia. }
  unfold add_participant, containsPID. case_bool_decide as Hin; cbn [negb andb].
  - intros [= _ <-]. right. exists (recount g). rewrite mm_upd_mm. cbn [gatherings upd_gathering set_gatherings].
    rewrite decide_True by done. split_and!; [|done| |done].
    + apply map_eq. intros k. destruct (decide (k = joined_gid req n)) as [->|];
        [by rewrite lookup_alter_eq, lookup_insert_eq, Hg|by rewrite lookup_alter_ne, lookup_insert_ne].
    + intros _. by apply Hcap.
  - destruct (_ && _) eqn:Efull.
    + apply andb_true_iff in Efull as [? ?]. intros [= <- <-]. left. split_and!; try done; lia.
    + intros [= _ <-]. right. apply andb_false_iff in Efull.
      set (g' := recount (set_participants (participants g ++ [p]) g)). set (n1 := upd_mm _ n).
      assert (quiet n1 (notifyParticipationWithDelay cfg ready r (participants g ++ [p]) (joined_gid req n) n1)) as (Hq & _).
      { apply (quiet_notifyAfter cfg ready None); [done|done]. }
      exists g'. rewrite Hq. subst n1. rewrite mm_upd_mm, decide_False by done. split_and!.
      * apply map_eq. intros k. cbn [gatherings upd_gathering set_gatherings].
        destruct (decide (k = joined_gid req n)) as [->|];
        [by rewrite lookup_alter_eq, lookup_insert_eq, Hg|by rewrite lookup_alter_ne, lookup_insert_ne].
      * cbn. set_solver.
      * intros Hmax. change (zlen (participants g ++ [p]) ≤ ms_MaxParticipants (session g)).
        unfold zlen in *. rewrite length_app. cbn [length]. destruct Efull; lia.
      * done.
Qed.

(** ** Departures *)

(** A gathering is handed over when its owner leaves: the title announces departures and the
    gathering's flag 0x10 allows it. *)
Definition passes_on (g : gathering) : Prop := NotifierDeparts cfg = true ∧ Z.land (ms_Flags (session g)) 0x10 ≠ 0.
#[export] Instance passes_on_dec g : Decision (passes_on g).
Proof. unfold passes_on. apply _. Defined.

(** C22: What a departure does to each gathering.  Those the player was not in are untouched.
    One they were in is closed when nobody else is left, and when they owned it and it is not
    to be handed over; in every other case it goes on with all the others, in the same order
    and counted, under its code and its host's connection: the owner and the host are the ones
    there were, or the next in line when it was the owner who left.  The order in which the
    map is visited does not matter. *)
Theorem RemovePlayer_spec p n gid :
  p ≠ 0 →
  let after := gatherings (mm (RemovePlayer cfg p n)) !! gid in
  match gatherings (mm n) !! gid with
  | None => after = None
  | Some g =>
      let others := filter (λ q, q ≠ p) (participants g) in
      if decide (p ∉ participants g) then after = Some g
      else if decide (others = [] ∨ ms_OwnerPID (session g) = p ∧ ¬ passes_on g) then after = None
      else ∃ g', after = Some g' ∧ participants g' = others ∧ NumParticipants (session g') = u32 (zlen others) ∧
        code g' = code g ∧ hostConnID g' = hostConnID g ∧ ms_ID (session g') = ms_ID (session g) ∧
        if decide (ms_OwnerPID (session g) = p)
        then head others = Some (ms_OwnerPID (session g')) ∧ ms_HostPID (session g') = ms_OwnerPID (session g')
        else ms_OwnerPID (session g') = ms_OwnerPID (session g) ∧ ms_HostPID (session g') = ms_HostPID (session g)
  end.
Proof.
  intros Hp. cbv zeta. rewrite RemovePlayer_lookup by done. destruct (gatherings (mm n) !! gid) as [g|]; [|done].
  cbn [mbind option_bind]. unfold survivor, containsPID. fold (removePID (participants g) p).
  case_bool_decide as Hin; [rewrite decide_False by auto|by rewrite decide_True].
  destruct (removePID (participants g) p) as [|next ps] eqn:Eps; [by rewrite decide_True by auto|].
  assert (NotifierDeparts cfg && negb (Z.land (ms_Flags (session g)) 0x10 =? 0) = bool_decide (passes_on g)) as ->.
  { apply eq_bool_prop_intro. rewrite bool_decide_spec. unfold passes_on. destruct (NotifierDeparts cfg); simpl; [|naive_solver].
    destruct (Z.eqb_spec (Z.land (ms_Flags (session g)) 16) 0); simpl; naive_solver. }
  destruct (Z.eqb_spec (ms_OwnerPID (session g)) p) as [Eo|Eo]; cbn [andb].
  - case_bool_decide as Hpass; [rewrite decide_False by naive_solver|by rewrite decide_True by auto].
    eexists. split; [reflexivity|]. by rewrite decide_True.
  - rewrite decide_False by naive_solver. eexists. split; [reflexivity|]. by rewrite decide_False.
Qed.

(** ** Looking around *)
Lemma recipients_best p (l : list (Z * gathering)) :
  match foldl (best_room p) ([], 0) l with
  | ([], gid) => gid = 0 ∧ ∀ k g, (k, g) ∈ l → p ∉ participants g
  | (ps, gid) =>
      (∃ g, (gid, g) ∈ l ∧ participants g = ps) ∧ p ∈ ps ∧
      ∀ k g, (k, g) ∈ l → p ∈ participants g →
        (length (participants g) < length ps)%nat ∨ (length (participants g) = length ps ∧ k ≤ gid)
  end.
Proof.
  induction l as [|[k g] l IH] using rev_ind.
  { split; [done|]. by intros ?? ?%elem_of_nil. }
  rewrite foldl_app. cbn [foldl]. destruct (foldl _ _ l) as [ps gid]. unfold best_room. cbn [fst snd].
  destruct (containsPID (participants g) p) eqn:Ep; cbn [andb]; [|];
    unfold containsPID in Ep; [apply bool_decide_eq_true in Ep|apply bool_decide_eq_false in Ep].
  - destruct (_ || _) eqn:E.
    + destruct (participants g) as [|x ps'] eqn:Eg; [by apply elem_of_nil in Ep|]. rewrite <- Eg in *.
      split_and!; [exists g; set_solver|done|]. intros k' g' [Hin|[= -> ->]%list_elem_of_singleton]%elem_of_app Hp; [|right; split; [done|lia]].
      destruct ps as [|y ps].
      * destruct IH as [_ Hno]. by destruct (Hno k' g').
      * destruct IH as (_ & _ & Hmax). specialize (Hmax k' g' Hin Hp). cbn [length] in *.
        apply orb_true_iff in E as [?%Nat.ltb_lt|[?%Nat.eqb_eq ?]%andb_true_iff]; cbn [length] in *; lia.
    + destruct ps as [|y ps].
      * destruct (participants g); [by apply elem_of_nil in Ep|done].
      * destruct IH as ((g0 & Hg0 & Hps) & Hp & Hmax). split_and!; [exists g0; set_solver|done|].
        intros k' g' [Hin|[= -> ->]%list_elem_of_singleton]%elem_of_app Hp'; [by eauto|].
        apply orb_false_iff in E as [?%Nat.ltb_ge [?%Nat.eqb_neq|?]%andb_false_iff]; cbn [length] in *; lia.
  - destruct ps as [|y ps].
    + destruct IH as [-> Hno]. split; [done|]. set_solver.
    + destruct IH as ((g0 & Hg0 & Hps) & Hp & Hmax). split_and!; [exists g0; set_solver|done|].
      intros k' g' [Hin|[= -> ->]%list_elem_of_singleton]%elem_of_app Hp'; [by eauto|done].
Qed.

(** To whom a message is relayed: the participants of the largest gathering the sender
    takes part in, the one with the highest identifier among equals, and nobody if there is
    none.  Those conditions name one gathering, so the order in which Go visits the map does
    not matter. *)
Theorem recipients_spec p n :
  (recipients p n = ([], 0) ∧ ∀ k g, gatherings (mm n) !! k = Some g → p ∉ participants g) ∨
  (∃ gid g, recipients p n = (participants g, gid) ∧ gatherings (mm n) !! gid = Some g ∧ p ∈ participants g ∧
     ∀ k g', gatherings (mm n) !! k = Some g' → p ∈ participants g' → k ≠ gid →
       (length (participants g') < length (participants g))%nat ∨
       (length (participants g') = length (participants g) ∧ k < gid)).
Proof.
  unfold recipients. pose proof (recipients_best p (range (gatherings (mm n)))) as H.
  destruct (foldl _ _ _) as [[|y ps] gid].
  - left. destruct H as [-> H]. split; [done|]. intros k g Hk%elem_of_range. eauto.
  - right. destruct H as ((g & Hg%elem_of_range & Hps) & Hp & Hmax). exists gid, g. rewrite Hps.
    split_and!; try done. intros k g' Hk%elem_of_range Hp' Hne. destruct (Hmax k g' Hk Hp') as [?|[??]]; [by left|right; split; [done|lia]].
Qed.

(** Browsing gives nothing away.  A closed gathering is never shown; without a code one
    under a password is not either, and the session key is blanked; with a code only the
    gatherings that carry it are shown; the password is never sent. *)
Theorem browse_one_spec want g :
  match browse_one want g with
  | Some x =>
      OpenParticipation (session g) = true ∧ UserPassword x = [] ∧ ms_ID x = ms_ID (session g) ∧
      Attribs x = Attribs (session g) ∧
      (want = [] → UserPasswordEnabled x = false ∧ ms_SessionKey x = []) ∧
      (want ≠ [] → (Codeword (session g) = want ∨ code g = want) ∧ ms_SessionKey x = ms_SessionKey (session g))
  | None =>
      OpenParticipation (session g) = false ∨
      (want = [] ∧ UserPasswordEnabled (session g) = true) ∨
      (want ≠ [] ∧ Codeword (session g) ≠ want ∧ code g ≠ want)
  end.
Proof.
  unfold browse_one. destruct (OpenParticipation (session g)) eqn:Eo; cbn [negb]; [|by left].
  case_bool_decide as Hw.
  - destruct (UserPasswordEnabled (session g)) eqn:Eu; [by auto|]. split_and!; try done.
  - destruct (decide (Codeword (session g) = want)), (decide (code g = want));
      repeat first [rewrite bool_decide_true by done|rewrite bool_decide_false by done]; cbn [negb andb];
      [split_and!; auto; done..|by auto].
Qed.

(** [sessionOfParticipant]'s loop keeps the latest start. *)
Lemma latest_best p (l : list (Z * gathering)) :
  match foldl (latest p) None l with
  | Some g => (∃ gid, (gid, g) ∈ l) ∧ p ∈ participants g ∧
      ∀ k g', (k, g') ∈ l → p ∈ participants g' → StartedTime (session g') ≤ StartedTime (session g)
  | None => ∀ k g', (k, g') ∈ l → p ∉ participants g'
  end.
Proof.
  induction l as [|[k g] l IH] using rev_ind; [by intros ?? ?%elem_of_nil|].
  rewrite foldl_app. cbn [foldl]. generalize dependent (foldl (latest p) None l). intros best IH.
  unfold latest. cbn [snd]. unfold containsPID.
  case_bool_decide as Hp.
  - assert (∀ x, (∀ k g', (k, g') ∈ l → p ∈ participants g' → StartedTime (session g') ≤ StartedTime (session x)) →
      StartedTime (session g) ≤ StartedTime (session x) →
      ∀ k' g', (k', g') ∈ l ++ [(k, g)] → p ∈ participants g' → StartedTime (session g') ≤ StartedTime (session x))
      as Hle by (intros x ? ? k' g' [Hin|[= -> ->]%list_elem_of_singleton]%elem_of_app ?; eauto).
    destruct best as [b|].
    + destruct IH as ((gid & Hb) & Hpb & Hmax).
      destruct (Z.ltb_spec (StartedTime (session b)) (StartedTime (session g))); split_and!;
        [exists k; set_solver|done| |exists gid; set_solver|done|by apply Hle].
      apply Hle; [|done]. intros k' g' Hin Hp'. specialize (Hmax k' g' Hin Hp'). lia.
    + split_and!; [exists k; set_solver|done|]. apply Hle; [|done]. intros k' g' Hin ?. by destruct (IH k' g').
  - destruct best as [b|].
    + destruct IH as ((gid & Hb) & Hpb & Hmax). split_and!; [exists gid; set_solver|done|].
      intros k' g' [Hin|[= -> ->]%list_elem_of_singleton]%elem_of_app ?; [eauto|done].
    + intros k' g' [Hin|[= -> ->]%list_elem_of_singleton]%elem_of_app; [eauto|done].
Qed.

(** ** Attributes *)
Lemma grow_stuck fuel l : grow_attribs fuel 0xFFFFFFFF l = None.
Proof.
  revert l. induction fuel as [|fuel IH]; intros l; cbn [grow_attribs]; rewrite ?IH;
    (destruct (Z.leb_spec (u32 (zlen l)) 0xFFFFFFFF) as [|H]; [done|]);
    pose proof (Z.mod_pos_bound (zlen l) (2 ^ 32)); unfold wrap in H; lia.
Qed.

Lemma grow_returns idx fuel l :
  0 ≤ idx < 0xFFFFFFFF → idx - u32 (zlen l) < Z.of_nat fuel →
  ∃ k, grow_attribs fuel idx l = Some (l ++ replicate k 0) ∧ idx < zlen (l ++ replicate k 0).
Proof.
  intros Hidx. revert l. induction fuel as [|fuel IH]; intros l Hf; cbn [grow_attribs];
    destruct (Z.leb_spec (u32 (zlen l)) idx) as [H|H].
  - lia.
  - exists 0%nat. cbn [replicate]. rewrite app_nil_r. split; [done|].
    pose proof (Z.mod_le (zlen l) (2 ^ 32) (Zle_0_nat _)). unfold wrap in H. lia.
  - assert (u32 (zlen (l ++ [0])) = u32 (zlen l) + 1) as E.
    { unfold zlen, wrap in *. rewrite length_app. cbn [length].
      rewrite Nat2Z.inj_add, Zplus_mod. change (Z.of_nat 1 mod 2 ^ 32) with 1.
      pose proof (Z.mod_pos_bound (Z.of_nat (length l)) (2 ^ 32)). rewrite Z.mod_small; lia. }
    destruct (IH (l ++ [0])) as (k & Hk & Hlen); [lia|]. exists (S k). cbn [replicate].
    by rewrite <- app_assoc in Hk, Hlen.
  - exists 0%nat. cbn [replicate]. rewrite app_nil_r. split; [done|].
    pose proof (Z.mod_le (zlen l) (2 ^ 32) (Zle_0_nat _)). unfold wrap in H. lia.
Qed.

(** The arguments of ModifyCurrentGameAttribute. *)
Definition modify_args (req : RMCMessage) (n : Net) : Z * Z * Z :=
  read_body n req (read! g := rU32 in read! i := rU32 in read! v := rU32 in rret (g, i, v)).

Lemma modify_args_range req n : is_u32 (modify_args req n).1.2.
Proof.
  unfold modify_args, read_body, rbind, rret. destruct (rU32 _) as [g i1].
  pose proof (rU32_range i1) as H. destruct (rU32 i1) as [idx i2]. by destruct (rU32 i2).
Qed.

(** C39: What ModifyCurrentGameAttribute does.  For a gathering that does not exist, and for
    whoever is not its first participant, nothing: the call is acknowledged and the state is
    left as it is, whatever the index.  For the first participant of a gathering: whatever
    index but the last 32-bit one, the call is acknowledged, the attribute is set, the ones
    there were are kept, and nothing else of the store moves; for index 0xFFFFFFFF the loop
    that makes room never ends, whatever time it is given: the handler does not return, and
    holds the matchmaker's lock. *)
Theorem modifyCurrentGameAttribute_spec r req n :
  let '(gid, idx, v) := modify_args req n in
  let done n' := Some (Some (ack n' ProtocolMatchmakeExtension req), n') in
  match gatherings (mm n) !! gid with
  | None => modifyCurrentGameAttribute r req n = done n
  | Some g =>
      if negb (first_is (PID (conn r n)) g) then modifyCurrentGameAttribute r req n = done n
      else if decide (idx = 0xFFFFFFFF)
      then modifyCurrentGameAttribute r req n = None ∧
           (∀ fuel, grow_attribs fuel idx (Attribs (session g)) = None)
      else ∃ n' g',
           modifyCurrentGameAttribute r req n = done n' ∧
           gatherings (mm n') = <[gid := g']> (gatherings (mm n)) ∧ participants g' = participants g ∧
           Attribs (session g') !! Z.to_nat idx = Some v ∧
           (∀ k a, k ≠ Z.to_nat idx → Attribs (session g) !! k = Some a → Attribs (session g') !! k = Some a)
  end.
Proof.
  pose proof (modify_args_range req n) as Hr. unfold modifyCurrentGameAttribute.
  unfold modify_args in *. destruct (read_body n req _) as [[gid idx] v]. cbn [fst snd] in Hr. cbv zeta.
  destruct (gatherings (mm n) !! gid) as [g|] eqn:Hg; [|done].
  destruct (first_is _ g) eqn:Hfirst; cbn [negb]; [|done].
  case_decide as Hd; [subst; split; [by rewrite grow_stuck|intros; apply grow_stuck]|].
  unfold is_u in Hr. destruct (grow_returns idx (S (Z.to_nat idx)) (Attribs (session g))) as (k & -> & Hlen).
  { lia. } { pose proof (wrap_is_u 32 (zlen (Attribs (session g)))) as H. unfold is_u in H. lia. }
  set (l := _ ++ _) in *. eexists _, (set_session (set_Attribs (<[Z.to_nat idx := v]> l) (session g)) g).
  split; [reflexivity|]. rewrite mm_upd_mm. cbn [gatherings upd_gathering set_gatherings].
  unfold zlen in Hlen. split_and!; [|done| |].
  - apply map_eq. intros k'. destruct (decide (k' = gid)) as [->|];
      [by rewrite lookup_alter_eq, lookup_insert_eq, Hg|by rewrite lookup_alter_ne, lookup_insert_ne].
  - cbn. apply list_lookup_insert_eq. lia.
  - intros k' a Hne Ha. cbn. rewrite list_lookup_insert_ne by done. subst l. by apply lookup_app_l_Some.
Qed.

(** ** Room codes *)
Lemma length_code_chars k x : length (code_chars k x) = k.
Proof. revert x. induction k as [|k IH]; intros x; [done|]. cbn [code_chars length]. by rewrite IH. Qed.

(** A room code leads to its room.  The answer to CreatePrivateRoom carries a code of five
    characters, and from then on whoever asks for that code is given the gathering. *)
Theorem room_code_resolves r req n r' req' :
  ∃ c, length c = 5%nat ∧
    let n' := (privateRoomCreate r req n).2 in
    (privateRoomCreate r req n).1 =
      Some (reply n ProtocolMatchmakeExtension req
              (wU8 0 ;;; wBuffer (Bytes_ ((wString c ;;; wU64 0) (NewStreamOut (settings n)))))) ∧
    (Body req' = Bytes_ (wString c (NewStreamOut (settings n))) →
     resolveCode r' req' n' =
       (Some (reply n' ProtocolMatchmakeExtension req' (wU32 (read_body n req rU32))), n')).
Proof.
  set (gid := read_body n req rU32). exists (makeCode gid (mm n)).1.
  assert (length (makeCode gid (mm n)).1 = 5%nat) as Hlen by apply length_code_chars.
  split; [done|]. cbv zeta. unfold privateRoomCreate. fold gid.
  destruct (makeCode gid (mm n)) as [c m] eqn:E. cbn [fst snd] in *. split; [done|].
  intros Hbody. unfold resolveCode. set (n' := set_mm m n). change (settings n) with (settings n') in Hbody.
  assert (str_ok c) as Hok by (unfold str_ok, zlen; lia).
  destruct (rt_whole (settings n') _ _ c (rt1_rt _ _ _ _ (rt1_String _ c Hok))) as (i & Hi & _).
  unfold read_body. rewrite Hbody, Hi. cbn [fst]. rewrite Hlen. cbn [Nat.eqb negb andb].
  do 3 f_equal. subst n'. rewrite mm_set_mm. unfold makeCode in E. injection E as <- <-.
  cbn [byCode upd_gathering set_gatherings set_byCode]. by rewrite lookup_insert_eq.
Qed.

(** Closing a room by hand leaves its code behind: neither unregistering a gathering nor
    leaving it last takes its code out of the table, so the code goes on resolving to a
    gathering that is gone. *)
Theorem closing_keeps_the_code r req n :
  byCode (mm (unregister r req n)) = byCode (mm n) ∧ byCode (mm (endParticipation r req n)) = byCode (mm n).
Proof.
  unfold unregister, endParticipation. destruct (gatherings (mm n) !! _); [|done]. split.
  - case_match; [by rewrite mm_upd_mm|done].
  - case_bool_decide; by rewrite mm_upd_mm.
Qed.
End props.

(** ** Session keys kept for captures *)
Definition recent_ok (m : MM) : Prop :=
  NoDup (recentKeysOrder m) ∧ (length (recentKeysOrder m) ≤ 16)%nat ∧
  ∀ gid, is_Some (recentKeys m !! gid) ↔ gid ∈ recentKeysOrder m.

Lemma trim_recent_spec order keys k :
  NoDup order →
  (trim_recent order keys k).1 = drop k order ∧
  ∀ gid, (trim_recent order keys k).2 !! gid = if decide (gid ∈ take k order) then None else keys !! gid.
Proof.
  revert order keys. induction k as [|k IH]; intros [|x order] keys Hnd; cbn [trim_recent take drop];
    try (split; [done|intros gid; by rewrite decide_False by by intros ?%elem_of_nil]).
  apply NoDup_cons in Hnd as [Hx Hnd]. destruct (IH order (delete x keys) Hnd) as [H1 H2]. split; [done|].
  intros gid. rewrite H2. destruct (decide (gid = x)) as [->|Hne].
  - rewrite lookup_delete_eq. rewrite (decide_True (P := x ∈ x :: _)) by by left. by case_decide.
  - rewrite lookup_delete_ne by done. apply decide_ext. rewrite elem_of_cons. naive_solver.
Qed.

(** The session keys kept for captures are those of the last sixteen gatherings to have
    got one: a new gathering's key displaces the oldest when there are sixteen, a renewed key
    replaces its own, and the one just stored is always found. *)
Theorem rememberSessionKey_spec gid key m :
  recent_ok m →
  let m' := rememberSessionKey gid key m in
  recent_ok m' ∧ recentKeys m' !! gid = Some key ∧
  recentKeysOrder m' = (if decide (gid ∈ recentKeysOrder m) then recentKeysOrder m
                        else last_n 16 (recentKeysOrder m ++ [gid])) ∧
  ∀ gid', gid' ≠ gid → gid' ∈ recentKeysOrder m' → recentKeys m' !! gid' = recentKeys m !! gid'.
Proof.
  intros (Hnd & Hlen & Hdom). cbv zeta. unfold rememberSessionKey.
  destruct (recentKeys m !! gid) as [old|] eqn:E; cbn [recentKeys recentKeysOrder set_recent].
  - assert (gid ∈ recentKeysOrder m) by (apply Hdom; by rewrite E).
    rewrite decide_True by done. split_and!; [split_and!; [done|done|]|by rewrite lookup_insert_eq|done|].
    + intros gid'. rewrite <- Hdom. cbn. destruct (decide (gid' = gid)) as [->|];
        [rewrite lookup_insert_eq, E; by split|by rewrite lookup_insert_ne].
    + intros gid' Hne _. by rewrite lookup_insert_ne.
  - assert (gid ∉ recentKeysOrder m) as Hni by (rewrite <- Hdom, E; by intros []%is_Some_None).
    rewrite decide_False by done. set (order := recentKeysOrder m ++ [gid]).
    assert (NoDup order) as Hnd' by (apply NoDup_app; split_and!; [done|set_solver|apply NoDup_singleton]).
    destruct (trim_recent_spec order (recentKeys m) (length order - 16) Hnd') as [H1 H2].
    destruct (trim_recent _ _ _) as [o ks]. cbn [fst snd recentKeys recentKeysOrder set_recent] in *. subst o.
    fold (last_n 16 order). assert (length order = S (length (recentKeysOrder m))) as Hl
      by (subst order; rewrite length_app; cbn [length]; lia).
    assert (order = take (length order - 16) order ++ last_n 16 order) as Hsplit
      by (unfold last_n; by rewrite take_drop).
    rewrite Hsplit in Hnd'. apply NoDup_app in Hnd' as (_ & Hdisj & Hnd').
    assert (gid ∈ last_n 16 order) as Hgid.
    { unfold last_n, order. rewrite drop_app_le by (fold order; lia). set_solver. }
    unfold recent_ok. cbn [recentKeys recentKeysOrder set_recent].
    split_and!; [done|rewrite last_n_length; lia| |by rewrite lookup_insert_eq|done|].
    + intros gid'. destruct (decide (gid' = gid)) as [->|Hne]; [rewrite lookup_insert_eq; by split|].
      rewrite lookup_insert_ne, H2 by done. case_decide as Ht.
      * split; [by intros []%is_Some_None|]. intros Hin. by destruct (Hdisj gid').
      * rewrite Hdom. split; [|intros Hin; assert (gid' ∈ order) by (rewrite Hsplit; set_solver); set_solver].
        intros Hin. assert (gid' ∈ order) as Ho by (subst order; set_solver).
        rewrite Hsplit in Ho. set_solver.
    + intros gid' Hne Hin. rewrite lookup_insert_ne, H2 by done. rewrite decide_False; [done|].
      intros Ht. by destruct (Hdisj gid').
Qed.
