(* ===== verification/Answers.v ===== *)
(** * What the handlers answer

    Every handler of the package answers the call it was given, once: in its protocol, under its
    call identifier and, when it succeeds, its method, and sends no other answer meanwhile.
    The three methods that send none at once are told apart. *)

From S2P Require Export Process MatchProps SessionProps Pushes.

(** [resp] answers [req] in protocol [k]. *)
Definition answer_to (k : Z) (req resp : RMCMessage) : Prop :=
  Mode resp = RMCResponse ∧ Protocol resp = k ∧ CallID resp = CallID req ∧
  (m_IsError resp = true ∨ m_IsError resp = false ∧ Method resp = Method req).

(** A handler's result that carries an answer. *)
Definition answered {App} (k : Z) (req : RMCMessage) (res : option RMCMessage * NetOf App) : Prop :=
  ∃ resp, res.1 = Some resp ∧ answer_to k req resp.

Section answers.
Context {App : Type}.
#[local] Abbreviation Net := (NetOf App).
Implicit Types (n : Net) (r : Ref) (req : RMCMessage).

Lemma answered_success k req s b n : answered k req (Some (NewRMCSuccess s k (Method req) (CallID req) b), n).
Proof. eexists. split; [reflexivity|]. split_and!; [done..|by right]. Qed.
Lemma answered_error k req s code n : answered k req (Some (NewRMCError s k (CallID req) code), n).
Proof. eexists. split; [reflexivity|]. split_and!; [done..|by left]. Qed.
End answers.

(** One answer of the usual shapes. *)
Ltac answer := first [exact (answered_success _ _ _ _ _) | exact (answered_error _ _ _ _ _)].

(** The branches of a dispatch on the method. *)
Ltac by_method :=
  repeat match goal with
  | |- context [answered _ _ (if ?b then _ else _)] => destruct b; [try answer|]
  | |- answered _ _ (if ?b then _ else _) => destruct b; [try answer|]
  end; try answer.

Section matchmaker.
Context {App : Type} `{HM : !Substate MM App} `{MO : MapOrder}.
#[local] Abbreviation Net := (NetOf App).
Implicit Types (n : Net) (r : Ref) (req : RMCMessage).
Context (cfg : Config) (rnd : Net → bytes) (ready : option (Z → list Z → Net → Net)).

Lemma answered_autoMatchmake r req n : answered ProtocolMatchmakeExtension req (autoMatchmake cfg rnd ready r req n).
Proof.
  unfold autoMatchmake. destruct (read_err n req _); [answer|]. set (param := read_body _ _ _).
  lazymatch goal with |- context [let '(gid, m) := ?pick in _] =>
    assert (is_Some (gatherings pick.2 !! pick.1)) as Hp; [|destruct pick as [gid m]] end.
  { destruct (choose_lobby cfg param r n) as [gid|] eqn:Ec.
    - cbn [fst snd upd_gathering gatherings set_gatherings].
      destruct (choose_lobby_suits _ _ _ _ _ Ec) as (g & Hg & _). rewrite lookup_alter_eq, Hg. by eexists.
    - pose proof (create_lookup cfg (rnd n) (DateTime.NowDateTime (clock n)) (PID (conn r n)) (ID (conn r n))
        (Session param) (mm n) (nextGID (mm n))) as Hl. rewrite decide_True in Hl by done.
      unfold create_for. change (createGathering _ _ _ _ _ _ _) with (nextGID (mm n), (createGathering cfg (rnd n)
        (DateTime.NowDateTime (clock n)) (PID (conn r n)) (ID (conn r n)) (Session param) (mm n)).2).
      cbn [fst snd]. case_match; cbn [upd_gathering gatherings set_gatherings]; rewrite ?lookup_alter_eq, Hl; by eexists. }
  cbn [fst snd] in Hp. destruct Hp as [g Hg].
  cbn [upd_gathering gatherings set_gatherings]. rewrite lookup_alter_eq, Hg. cbn. answer.
Qed.

Lemma answered_createSession created r req n :
  answered ProtocolMatchmakeExtension req (createSession cfg rnd ready created r req n).
Proof.
  unfold createSession. destruct (read_err n req _); [answer|]. set (src := Session _).
  pose proof (create_lookup cfg (rnd n) (DateTime.NowDateTime (clock n)) (PID (conn r n)) (ID (conn r n))
    src (mm n) (nextGID (mm n))) as Hl. rewrite decide_True in Hl by done.
  unfold create_for. change (createGathering _ _ _ _ _ _ _) with (nextGID (mm n), (createGathering cfg (rnd n)
    (DateTime.NowDateTime (clock n)) (PID (conn r n)) (ID (conn r n)) src (mm n)).2). cbv beta iota zeta.
  set (m' := if NormalizeCreateSessionRV cfg then _ else _).
  assert (is_Some (gatherings m' !! nextGID (mm n))) as [g Hg].
  { subst m'. case_match; cbn [upd_gathering gatherings set_gatherings]; rewrite ?lookup_alter_eq, Hl; by eexists. }
  rewrite Hg. answer.
Qed.

Lemma answered_joinSession r req n : answered ProtocolMatchmakeExtension req (joinSession cfg ready r req n).
Proof. unfold joinSession. destruct (gatherings (mm n) !! _); [|answer]. cbv zeta. case_match; answer. Qed.

(** The one method of the matchmaker that may not return. *)
Lemma answered_modify r req n :
  match modifyCurrentGameAttribute r req n with
  | Some res => answered ProtocolMatchmakeExtension req res
  | None => (modify_args req n).1.2 = 0xFFFFFFFF
  end.
Proof.
  pose proof (modify_args_range req n) as Hr. unfold modifyCurrentGameAttribute. unfold modify_args in *.
  destruct (read_body n req _) as [[gid idx] v]. cbn [fst snd] in *.
  destruct (gatherings (mm n) !! gid) as [g|]; [|answer]. destruct (first_is _ g); [|answer].
  destruct (grow_attribs _ _ _) as [l|] eqn:E; [answer|].
  destruct (decide (idx = 0xFFFFFFFF)) as [|Hne]; [done|]. exfalso. unfold is_u in Hr.
  destruct (grow_returns idx (S (Z.to_nat idx)) (Attribs (session g))) as (k & Hk & _); [lia| |congruence].
  pose proof (wrap_is_u 32 (zlen (Attribs (session g)))) as H. unfold is_u in H. lia.
Qed.

Context `{HT : !Substate tournamentStore App}.

Lemma answered_tournaments mark code_ r req n :
  answered ProtocolMatchmakeExtension req (createTournament mark code_ r req n) ∧
  answered ProtocolMatchmakeExtension req (tournamentsByIDs r req n).
Proof.
  split.
  - unfold createTournament. cbv zeta. case_match; [answer|]. case_match; [answer|].
    destruct (CreateTournament _ _ _ _ _ _) as [[t|] st]; answer.
  - unfold tournamentsByIDs. destruct (rU32 _). answer.
Qed.

Lemma answered_extension mark code_ created r req n :
  match ExtensionHandler cfg rnd mark code_ ready created r req n with
  | Some res => answered ProtocolMatchmakeExtension req res
  | None => Method req = MethodModifyCurrentGameAttribute ∧ (modify_args req n).1.2 = 0xFFFFFFFF
  end.
Proof.
  destruct (answered_tournaments mark code_ r req n) as [Ht1 Ht2].
  unfold ExtensionHandler. cbv zeta.
  repeat lazymatch goal with
  | |- match (if ?b then modifyCurrentGameAttribute _ _ _ else _) with Some _ => _ | None => _ end =>
      destruct (Z.eqb_spec (Method req) MethodModifyCurrentGameAttribute);
        [pose proof (answered_modify r req n) as Hm; by destruct (modifyCurrentGameAttribute r req n)|]
  | |- match (if ?b then _ else _) with Some _ => _ | None => _ end =>
      destruct b; [first [ answer | exact Ht1 | exact Ht2 | apply answered_autoMatchmake
        | apply answered_createSession | apply answered_joinSession
        | unfold findBySingleID, findByGatheringIDDetail, playingSession, updateNotificationData,
            getFriendNotificationData, updateApplicationBuffer, updateMatchmakeSessionAttribute, privateRoomCreate,
            findByParticipant;
          cbv zeta; repeat first [answer | exact Ht2 | case_match] ]|]
  end.
  answer.
Qed.
End matchmaker.

(** ** The other protocols *)
Section protocols.
Context {App : Type} `{MO : MapOrder}.
#[local] Abbreviation Net := (NetOf App).
Implicit Types (n : Net) (r : Ref) (req : RMCMessage).

Lemma answered_matchmaking_ext `{HM : !Substate MM App} r req n :
  answered ProtocolMatchMakingExt req (MatchMakingExtHandler r req n).
Proof. unfold MatchMakingExtHandler. by_method. Qed.

Lemma answered_traversal `{HN : !Substate NatState App} nat_file listen probe vide server OnNAT r req n :
  answered ProtocolNATTraversal req (NATTraversalHandler nat_file listen probe vide server OnNAT r req n).
Proof. unfold NATTraversalHandler. cbv zeta. by_method. Qed.

Lemma answered_secure scfg r req n :
  answered ProtocolSecureConnection req (SecureConnectionHandlerWithConfig scfg r req n).
Proof.
  unfold SecureConnectionHandlerWithConfig. cbv zeta. by_method.
  unfold handleRegister. destruct (register_stations _ _ _ _). answer.
Qed.

Lemma answered_utility env r req n : answered ProtocolUtility req (UtilityHandler env r req n, n).
Proof.
  unfold UtilityHandler. cbv zeta.
  repeat match goal with |- answered _ _ (if ?b then _ else _, _) => destruct b; [try answer|] end; [|answer].
  unfold getSettings. destruct (utilityReglagesPour _ _). answer.
Qed.

Lemma answered_ranking `{HK : !Substate RankState App} `{HT : !Substate tournamentStore App} `{SS : SliceSort}
    commonFile boardFile o1 o2 r req n :
  answered ProtocolRanking req (RankingHandler (MO := MO) commonFile boardFile o1 o2 r req n).
Proof.
  unfold RankingHandler. cbv zeta. by_method.
  - unfold commonDataByPIDs. cbv zeta. case_match; [answer|]. destruct (rU32 _) as [k i]. case_match; [answer|].
    destruct (profiles _ _ _ _ _) as [[w|] st]; answer.
  - unfold competitionRanking. cbv zeta. case_match; [answer|]. destruct (boardFor _ _ _ _) as [[|e l] st]; answer.
Qed.

Lemma answered_ranking2 `{HR : !Substate Ranking2Store App} `{SS : SliceSort} persiste written r req n :
  answered ProtocolRanking2 req (Ranking2Handler persiste written r req n).
Proof.
  unfold Ranking2Handler. cbv zeta. by_method. unfold GetRankingByPIDs. destruct (read_body n req rVoulus). answer.
Qed.

Lemma answered_referee `{HM : !Substate MM App} `{HR : !Substate RefereeState App} cfg persiste written joinable r req n :
  answered ProtocolMatchmakeReferee req (MatchmakeRefereeHandler cfg persiste written joinable r req n).
Proof.
  unfold MatchmakeRefereeHandler. cbv zeta. by_method.
  - unfold getStartRoundParam. case_match; answer.
  - unfold getStatsPrimaries. case_match; answer.
Qed.

Lemma answered_smm2 `{HD : !Substate SMM2State App} cb persiste written r req n :
  answered ProtocolDataStoreSMM2 req (DataStoreSMM2Handler cb persiste written r req n).
Proof.
  unfold DataStoreSMM2Handler. cbv zeta. by_method.
  - unfold handleDataStoreRegisterUser. destruct (read_body n req _) as [[p i] [e|]]; answer.
  - unfold handleDataStoreSyncUserProfile. destruct (SMM2ProfilDe _ _) as [p|]; [|answer].
    destruct (sync_profil req n p); answer.
Qed.

Context `{HM : !Substate MM App} `{HN : !Substate NatState App}.

(** The joiner that waits for its host is on the list; nothing else of 0x15 is left
    unanswered. *)
Lemma answered_matchmaking cfg bcfg nat_file listen ready SessionStations r req n :
  let res := MatchMakingHandler cfg bcfg nat_file listen ready SessionStations r req n in
  answered ProtocolMatchMaking req res ∨
  res.1 = None ∧ Method req = MethodGetSessionURLs ∧
    ∃ host, waiting res.2 = waiting n ++ [mkWaiter r req host (clock n + hostReplaceURLWait)].
Proof.
  cbv zeta. unfold MatchMakingHandler. cbv zeta.
  destruct (Z.eqb_spec (Method req) MethodGetSessionURLs) as [Hm|_].
  - unfold getSessionURLs. destruct (gatherings (mm n) !! _) as [g|]; [|left; case_match; answer].
    destruct (FindConnectionByID _ n) as [host|]; [|left; answer]. destruct SessionStations as [f|]; [left; answer|].
    pose proof (waiting_bridge bcfg nat_file r host n) as Hb. destruct (bridge_keeps bcfg nat_file r host n) as (_ & _ & _ & _ & Hc).
    destruct (bridge_pair _ _ _ _ _) as [[urls status] n1]. cbn [snd] in Hb, Hc. case_decide.
    + right. split_and!; [done|done|]. exists host. cbn [snd]. rewrite waiting_upd. cbn [ns_waiting set_waiting].
      fold (waiting n1). by rewrite Hb, Hc.
    + left. destruct (relayedFor _ _ _ _ _) as [us n2]. answer.
  - left. by_method.
    + unfold migrateGatheringOwnership. destruct (read_body n req _). answer.
    + unfold migrateGatheringOwnership. destruct (read_body n req _). answer.
    + unfold findBySingleID15. case_match; answer.
Qed.
End protocols.

(** ** Every request *)
Section dispatch.
Context {G : Type} (order1 order2 : MapOrder) `{MO : MapOrder} `{SS : SliceSort}.
#[local] Abbreviation Net := (NetOf (Process G)).
Implicit Types (n : Net) (r : Ref) (req : RMCMessage).
Context (rnd32 rnd_mark rnd_code : Net → bytes).
Context (cfg : Config) (bcfg : BridgeConfig) (scfg : SecureConnectionConfig) (uenv : UtilityEnv) (cb : SMM2Callbacks).
Context (nat_file : Z → option bytes) (listen : Z → Z → bool).
Context (relaiInclutSource probeRepoint relaySigVide persiste joinable : bool) (relaySigServer : Z).
Context (written : Net → bool).
Context (commonFile : option (gmap bytes bytes)) (boardFile : option (list boardPersisted)).
Context (OnSessionReady : option (Z → list Z → Net → Net)) (OnFriendSessionCreated : option (Z → Z → Net → Net)).
Context (OnNATProperties : option (Z → Z → Z → Z → Net → Net)).
Context (SessionStations : option (Ref → Ref → Net → list StationURL)).
Context (OnRMC : option (Ref → RMCMessage → Net → Net)) (table : HandlerTable Net).

#[local] Abbreviation pkg := (package order1 order2 rnd32 rnd_mark rnd_code cfg bcfg scfg uenv cb nat_file listen
  relaiInclutSource probeRepoint relaySigVide persiste joinable relaySigServer written commonFile boardFile
  OnSessionReady OnFriendSessionCreated OnNATProperties SessionStations).

(** The requests that are not answered at once. *)
Definition unanswered (k : Z) (r : Ref) (req : RMCMessage) (n n' : Net) : Prop :=
  k = ProtocolMessageDelivery ∨
  (k = ProtocolMatchMaking ∧ Method req = MethodGetSessionURLs ∧
     ∃ host, waiting n' = waiting n ++ [mkWaiter r req host (clock n + hostReplaceURLWait)]) ∨
  (k = ProtocolMatchmakeExtension ∧ Method req = MethodModifyCurrentGameAttribute ∧
     (modify_args req n).1.2 = 0xFFFFFFFF).

Lemma package_answers k h r req n :
  pkg k h → answered k req (h r req n) ∨ (h r req n).1 = None ∧ unanswered k r req n (h r req n).2.
Proof.
  unfold unanswered. intros [].
  - pose proof (answered_extension cfg rnd32 OnSessionReady rnd_mark rnd_code OnFriendSessionCreated r req n) as H.
    unfold serve_extension. destruct (ExtensionHandler _ _ _ _ _ _ _ _ _) as [res|]; [by left|]. right. cbn.
    split; [done|]. right; right. tauto.
  - left. apply answered_matchmaking_ext.
  - destruct (answered_matchmaking cfg bcfg nat_file listen OnSessionReady SessionStations r req n) as [H|(H1 & H2 & H3)];
      [by left|]. right. split; [exact H1|]. right; left. split_and!; [done|exact H2|exact H3].
  - right. split; [done|]. by left.
  - left. apply answered_traversal.
  - left. apply answered_secure.
  - left. apply answered_utility.
  - left. apply answered_ranking.
  - left. apply answered_ranking2.
  - left. apply answered_referee.
  - left. apply answered_smm2.
Qed.

(** C6: Every request is answered, once.  When a connection's bytes read as a request for a
    protocol of the package, the endpoint sends one answer on that connection, in the request's
    protocol and under its call identifier, an error or a success of its method; whatever else
    goes out meanwhile, on that connection or another, is a request — a notification, a probe, a
    message to deliver.  Three requests are not answered at once, and then no answer goes out
    at all: a message to deliver, which asks for none; the session addresses of a host that has
    not reported its own yet, whose joiner is then on the waiting list; and
    ModifyCurrentGameAttribute with the last 32-bit index, which never returns. *)
Theorem every_request_is_answered r payload req h n :
  callbacks_push OnSessionReady OnFriendSessionCreated OnNATProperties →
  ParseRMC (settings n) payload = (Some req, None) → Mode req = RMCRequest →
  handler table (Protocol req) = Some h → pkg (Protocol req) h →
  let m := match OnRMC with Some f => f r req n | None => n end in
  let n' := dispatchRMC table OnRMC r payload n in
  (∃ resp m', answer_to (Protocol req) req resp ∧ pushes m m' ∧ n' = SendRMC r resp m') ∨
  (unanswered (Protocol req) r req m n' ∧ pushes m n').
Proof.
  intros Hcb Hp Hm Hh Hk m. cbv zeta. unfold dispatchRMC. rewrite Hp, Hm, Hh. cbn [negb Z.eqb RMCRequest]. fold m.
  assert (pushes m (h r req m).2) as Hpush by exact (package_pushes order1 order2 rnd32 rnd_mark rnd_code cfg bcfg scfg uenv
    cb nat_file listen relaiInclutSource probeRepoint relaySigVide persiste joinable relaySigServer written commonFile
    boardFile OnSessionReady OnFriendSessionCreated OnNATProperties SessionStations Hcb _ h r req m Hk).
  destruct (package_answers _ h r req m Hk) as [(resp & Hr & Ha)|[Hr Hu]];
    destruct (h r req m) as [o m']; cbn [fst snd] in *; subst o; [left; by exists resp, m'|right; by split].
Qed.
End dispatch.
