(* ===== verification/MatchScenario.v ===== *)
(** * A lobby on concrete inputs

    Three connected consoles, a host that opens a lobby of two places, a guest that joins it:
    the theorems of MatchProps.v at the states this goes through, and what becomes of a lobby
    whose owner changes or leaves. *)

From S2P Require Export MatchProps.

#[local] Existing Instance canonical_order.

Definition Proc : Type := MM * tournamentStore.

(** A title that announces departures, with the session callback set. *)
Definition cfg0 : Config :=
  mkConfig false 0 0 false false None false false false false false true false true None true false ∅.
Definition ready0 : option (Z → list Z → NetOf Proc → NetOf Proc) := Some (λ _ _ n, n).
Definition rnd0 : NetOf Proc → bytes := λ _, replicate 32 x01.

Lemma ready0_quiet f gid ps (n : NetOf Proc) : ready0 = Some f → quiet n (f gid ps n).
Proof. by intros [= <-]. Qed.

Definition connect_pid (p : Z) (n : NetOf Proc) : NetOf Proc :=
  let '(r, n) := alloc (set_PID p (NewConnection (str "203.0.113.7:50000"))) n in registerConnection r n.

Definition hall0 : NetOf Proc :=
  foldr connect_pid (NewEndpoint switch0 auth_start (1000 * second) (NewMatchmaking, tournaments0)) [300; 200; 100].
Definition ref_of (p : Z) : Ref := default 0%nat (FindConnectionByPID p hall0).
Definition lobby (n : NetOf Proc) (gid : Z) : gathering :=
  default (mkG zero_Session [] 0 []) (gatherings (mm n) !! gid).

(** A request of the matchmaking extension whose body is what [w] writes. *)
Definition ext_req (method : Z) (w : Writer) : RMCMessage :=
  NewRMCRequest switch0 ProtocolMatchmakeExtension method 7 (Bytes_ (w (NewStreamOut switch0))).
Definition search_req (method : Z) : RMCMessage :=
  ext_req method (wAdd (mkAuto (set_limits 1 2 zero_Session) [])).
Definition join_req (gid : Z) : RMCMessage := ext_req MethodJoinMatchmakeSessionWithParam (wU8 0 ;;; wBuffer (le_bytes 4 gid)).
Definition modify_req (gid idx v : Z) : RMCMessage :=
  ext_req MethodModifyCurrentGameAttribute (wU32 gid ;;; wU32 idx ;;; wU32 v).

(** Console 100 opens lobby 1; console 200 joins it. *)
Definition hall1 : NetOf Proc :=
  (createSession cfg0 rnd0 ready0 None (ref_of 100) (search_req MethodCreateMatchmakeSessionWithParam) hall0).2.
Definition hall2 : NetOf Proc := (joinSession cfg0 ready0 (ref_of 200) (join_req 1) hall1).2.

Example hall2_lobby : participants (lobby hall2 1) = [100; 200] ∧ length (sent hall2) = 4%nat.
Proof. vm_compute. done. Qed.

(** Two rows of the dispatch. *)
Lemma dispatch_create r req (n : NetOf Proc) :
  Method req = MethodCreateMatchmakeSessionWithParam →
  ExtensionHandler cfg0 rnd0 rnd0 rnd0 ready0 None r req n = Some (createSession cfg0 rnd0 ready0 None r req n).
Proof. intros Hm. unfold ExtensionHandler. by rewrite Hm. Qed.
Lemma dispatch_join r req (n : NetOf Proc) :
  Method req = MethodJoinMatchmakeSessionWithParam →
  ExtensionHandler cfg0 rnd0 rnd0 rnd0 ready0 None r req n = Some (joinSession cfg0 ready0 r req n).
Proof. intros Hm. unfold ExtensionHandler. by rewrite Hm. Qed.

(** The states above are reachable, so the invariant is about them. *)
Lemma reachable_well_formed_witness :
  mm_reachable cfg0 rnd0 rnd0 rnd0 ready0 None false hall2 ∧
  NoDup (participants (lobby hall2 1)) ∧ NumParticipants (session (lobby hall2 1)) = 2.
Proof.
  assert (mm_reachable cfg0 rnd0 rnd0 rnd0 ready0 None false hall2) as Hr.
  { exists hall0. split; [done|].
    eapply rtc_l, rtc_once.
    - eapply (step_ext _ _ _ _ _ _ _ _ (ref_of 100) (search_req MethodCreateMatchmakeSessionWithParam)).
      etrans; [by apply dispatch_create|]. apply f_equal, surjective_pairing.
    - eapply (step_ext _ _ _ _ _ _ _ _ (ref_of 200) (join_req 1)).
      etrans; [by apply dispatch_join|]. apply f_equal, surjective_pairing. }
  split; [exact Hr|].
  destruct (reachable_well_formed cfg0 ready0 None rnd0 rnd0 rnd0 false hall2 ready0_quiet ltac:(done) Hr
    1 (lobby hall2 1)) as (Hnd & Hn & _); [vm_compute; reflexivity|].
  split; [exact Hnd|]. rewrite Hn. vm_compute. reflexivity.
Defined.

(** A player who had been left alone in gathering 1 opens another. *)
Definition alone : MM :=
  set_nextGID 2 (set_gatherings {[1 := mkG (set_identity 1 100 100 zero_Session) [100] 1 []]} NewMatchmaking).

Lemma createGathering_spec_witness :
  (100 ≠ 0)%Z ∧
  let m' := (createGathering cfg0 [x01] 0 100 1 zero_Session alone).2 in
  participants <$> gatherings m' !! 2 = Some [100] ∧ gatherings m' !! 1 = None.
Proof.
  split; [lia|]. cbv zeta.
  assert ((createGathering cfg0 [x01] 0 100 1 zero_Session alone).1 = 2) as E by (vm_compute; reflexivity).
  destruct (createGathering_spec cfg0 [x01] 0 100 1 zero_Session alone 1 ltac:(lia)) as [(g & Hg & Hp & _) H2].
  rewrite E in Hg, H2. split; [rewrite Hg; cbn; by rewrite Hp|].
  rewrite H2 by lia. vm_compute. reflexivity.
Defined.

Lemma autoMatchmake_joins_witness :
  read_err hall1 (search_req MethodAutoMatchmakeWithParamPostpone) (rExtract zero_Auto) = None ∧
  ∃ gid g, gatherings (mm (autoMatchmake cfg0 rnd0 ready0 (ref_of 200)
             (search_req MethodAutoMatchmakeWithParamPostpone) hall1).2) !! gid = Some g ∧ 200 ∈ participants g.
Proof.
  assert (read_err hall1 (search_req MethodAutoMatchmakeWithParamPostpone) (rExtract zero_Auto) = None) as He
    by (vm_compute; reflexivity).
  split; [exact He|].
  pose proof (autoMatchmake_joins cfg0 ready0 rnd0 (ref_of 200) (search_req MethodAutoMatchmakeWithParamPostpone)
    hall1 ready0_quiet He) as H. cbv zeta in H.
  destruct (autoMatchmake _ _ _ _ _ _) as [resp n']. destruct H as (gid & g & Hg & _ & Hp & _).
  exists gid, g. split; [exact Hg|]. replace 200 with (PID (conn (ref_of 200) hall1)) by (vm_compute; reflexivity).
  exact Hp.
Defined.

(** The second console finds a place. *)
Lemma joinSession_capacity_witness :
  zlen (participants (lobby hall1 1)) ≤ ms_MaxParticipants (session (lobby hall1 1)) < 2 ^ 16 ∧
  ∃ g', gatherings (mm (joinSession cfg0 ready0 (ref_of 200) (join_req 1) hall1).2) =
          <[joined_gid (join_req 1) hall1 := g']> (gatherings (mm hall1)) ∧
        PID (conn (ref_of 200) hall1) ∈ participants g'.
Proof.
  assert (zlen (participants (lobby hall1 1)) ≤ ms_MaxParticipants (session (lobby hall1 1)) < 2 ^ 16) as Hc
    by (vm_compute; done).
  split; [exact Hc|].
  assert (gatherings (mm hall1) !! joined_gid (join_req 1) hall1 = Some (lobby hall1 1)) as Hg
    by (vm_compute; reflexivity).
  destruct (joinSession_capacity cfg0 ready0 (ref_of 200) (join_req 1) hall1 _ _ (lobby hall1 1)
    ready0_quiet (surjective_pairing _) Hg Hc) as [(_ & _ & H & _)|(g' & Hm & Hp & _)].
  - exfalso. revert H. vm_compute. discriminate.
  - exists g'. split; [exact Hm|exact Hp].
Defined.

(** The host leaves.  The lobby closes, unless its flag 0x10 is set: then the guest takes over. *)
Definition hall2_flagged : NetOf Proc :=
  upd_mm (upd_gathering 1 (λ g, let x := session g in let y := ms_Gathering x in
    set_session (set_ms_Gathering (mkGathering (g_ID y) (OwnerPID y) (HostPID y) (MinParticipants y) (MaxParticipants y)
      (ParticipationPolicy y) (PolicyArgument y) 0x210 (g_State y) (Description y)) x) g)) hall2.

Lemma RemovePlayer_spec_witness :
  (100 ≠ 0)%Z ∧
  gatherings (mm (RemovePlayer cfg0 100 hall2)) !! 1 = None ∧
  ∃ g', gatherings (mm (RemovePlayer cfg0 100 hall2_flagged)) !! 1 = Some g' ∧
    participants g' = [200] ∧ ms_OwnerPID (session g') = 200.
Proof.
  assert (gatherings (mm hall2) !! 1 = Some (lobby hall2 1)) as H1 by (vm_compute; reflexivity).
  assert (gatherings (mm hall2_flagged) !! 1 = Some (lobby hall2_flagged 1)) as H2 by (vm_compute; reflexivity).
  assert (participants (lobby hall2 1) = [100; 200]) as P1 by (vm_compute; reflexivity).
  assert (participants (lobby hall2_flagged 1) = [100; 200]) as P2 by (vm_compute; reflexivity).
  assert (ms_OwnerPID (session (lobby hall2 1)) = 100) as O1 by (vm_compute; reflexivity).
  assert (ms_OwnerPID (session (lobby hall2_flagged 1)) = 100) as O2 by (vm_compute; reflexivity).
  assert (¬ passes_on cfg0 (lobby hall2 1)) as F1 by (intros [_ F]; apply F; vm_compute; reflexivity).
  assert (passes_on cfg0 (lobby hall2_flagged 1)) as F2 by (split; [reflexivity|vm_compute; discriminate]).
  split; [lia|]. split.
  - pose proof (RemovePlayer_spec cfg0 100 hall2 1 ltac:(lia)) as H. cbv zeta in H. rewrite H1, P1, O1 in H.
    rewrite decide_False in H by (intros N; apply N; by left). rewrite decide_True in H by (right; split; [reflexivity|exact F1]).
    exact H.
  - pose proof (RemovePlayer_spec cfg0 100 hall2_flagged 1 ltac:(lia)) as H. cbv zeta in H. rewrite H2, P2, O2 in H.
    rewrite decide_False in H by (intros N; apply N; by left).
    rewrite decide_False in H by (intros [N|[_ N]]; [vm_compute in N; discriminate N|exact (N F2)]).
    destruct H as (g' & Hg & Hps & _ & _ & _ & _ & Ho). exists g'. split; [exact Hg|]. split; [exact Hps|].
    rewrite decide_True in Ho by reflexivity. destruct Ho as [Ho _]. injection Ho as Ho. by rewrite <- Ho.
Defined.

(** The host sets an attribute, and hangs the server with the last index; the guest's call is only
    acknowledged. *)
Lemma modifyCurrentGameAttribute_spec_witness :
  modifyCurrentGameAttribute (ref_of 100) (modify_req 1 0xFFFFFFFF 5) hall2 = None ∧
  (∃ n' g', modifyCurrentGameAttribute (ref_of 100) (modify_req 1 7 5) hall2 =
              Some (Some (ack n' ProtocolMatchmakeExtension (modify_req 1 7 5)), n') ∧
            Attribs (session g') !! Z.to_nat 7 = Some 5) ∧
  modifyCurrentGameAttribute (ref_of 200) (modify_req 1 0xFFFFFFFF 5) hall2 =
    Some (Some (ack hall2 ProtocolMatchmakeExtension (modify_req 1 0xFFFFFFFF 5)), hall2).
Proof.
  assert (modify_args (modify_req 1 0xFFFFFFFF 5) hall2 = (1, 0xFFFFFFFF, 5)) as Ha by (vm_compute; reflexivity).
  assert (modify_args (modify_req 1 7 5) hall2 = (1, 7, 5)) as Ha7 by (vm_compute; reflexivity).
  assert (gatherings (mm hall2) !! 1 = Some (lobby hall2 1)) as Hg by (vm_compute; reflexivity).
  assert (first_is (PID (conn (ref_of 100) hall2)) (lobby hall2 1) = true) as Hhost by (vm_compute; reflexivity).
  assert (first_is (PID (conn (ref_of 200) hall2)) (lobby hall2 1) = false) as Hguest by (vm_compute; reflexivity).
  split; [|split].
  - pose proof (modifyCurrentGameAttribute_spec (ref_of 100) (modify_req 1 0xFFFFFFFF 5) hall2) as H.
    rewrite Ha in H. cbv zeta in H. rewrite Hg, Hhost in H. cbn [negb] in H.
    rewrite decide_True in H by reflexivity. destruct H as [H _]. exact H.
  - pose proof (modifyCurrentGameAttribute_spec (ref_of 100) (modify_req 1 7 5) hall2) as H.
    rewrite Ha7 in H. cbv zeta in H. rewrite Hg, Hhost in H. cbn [negb] in H.
    rewrite decide_False in H by discriminate. destruct H as (n' & g' & H1 & _ & _ & H2 & _).
    exists n', g'. split; [exact H1|exact H2].
  - pose proof (modifyCurrentGameAttribute_spec (ref_of 200) (modify_req 1 0xFFFFFFFF 5) hall2) as H.
    rewrite Ha in H. cbv zeta in H. rewrite Hg, Hguest in H. cbn [negb] in H. exact H.
Defined.

Lemma rememberSessionKey_spec_witness :
  recent_ok alone ∧ recentKeys (rememberSessionKey 1 [x01] alone) !! 1 = Some [x01].
Proof.
  assert (recent_ok alone) as Hok.
  { split_and!; [constructor|cbn; lia|]. intros gid. cbn. rewrite lookup_empty.
    split; [by intros []%is_Some_None|by intros ?%elem_of_nil]. }
  split; [exact Hok|]. by destruct (rememberSessionKey_spec 1 [x01] alone Hok) as (_ & H & _).
Defined.

(** ** Who owns a lobby

    Three places of the code decide it: the first participant (the owner-only updates), the
    session's owner (unregister, departures, AutoMatchmake).  They part. *)
Definition mm_req (method : Z) (w : Writer) : RMCMessage :=
  NewRMCRequest switch0 ProtocolMatchMaking method 7 (Bytes_ (w (NewStreamOut switch0))).
Definition migrate_req : RMCMessage :=
  mm_req MethodMigrateGatheringOwnership (wU32 1 ;;; WriteList [200] wPID ;;; wBool false).
(** The players and the owner of lobby 1, while it stands. *)
Definition people (n : NetOf Proc) : option (list Z * Z) :=
  (λ g, (participants g, ms_OwnerPID (session g))) <$> gatherings (mm n) !! 1.
Definition hall3 : NetOf Proc := (migrateGatheringOwnership cfg0 ready0 (ref_of 100) migrate_req true hall2).2.

(** The host hands the lobby over to the guest, who is its first participant from then on; but
    the session keeps its owner: the guest cannot close the lobby, and the lobby is removed
    when the former owner leaves. *)
Example migrated_lobby_dies_with_its_old_owner :
  people hall3 = Some ([200; 100], 100) ∧
  people (unregister (ref_of 200) (mm_req MethodUnregisterGathering (wU32 1)) hall3) = Some ([200; 100], 100) ∧
  people (RemovePlayer cfg0 100 hall3) = None.
Proof. vm_compute. repeat split. Qed.

(** Nor is it asked who migrates: a console that is not in the lobby may. *)
Example anyone_migrates :
  people (migrateGatheringOwnership cfg0 ready0 (ref_of 300) migrate_req true hall2).2 = Some ([200; 100], 100).
Proof. vm_compute. repeat split. Qed.

(** An owner who ends their participation is owner still of the lobby they are not in; their
    departure, later, does not find them there. *)
Definition hall4 : NetOf Proc := endParticipation (ref_of 100) (mm_req MethodEndParticipation (wU32 1)) hall2.
Example ended_participation_keeps_the_owner :
  people hall4 = Some ([200], 100) ∧ people (RemovePlayer cfg0 100 hall4) = Some ([200], 100).
Proof. vm_compute. repeat split. Qed.

(** A lobby whose only player has lost their connection, closed by someone else: nobody is
    listed any more, and no departure removes it. *)
Definition hall5 : NetOf Proc := unregisterConnection (ref_of 100) hall1.
Definition hall6 : NetOf Proc :=
  (setParticipation (ref_of 300) (ext_req MethodCloseParticipation (wU32 1)) false hall5).2.
Example closed_lobby_stays_empty :
  people hall5 = Some ([100], 100) ∧ people hall6 = Some ([], 100) ∧ people (RemovePlayer cfg0 100 hall6) = Some ([], 100).
Proof. vm_compute. repeat split. Qed.
