(* ===== verification/ProcessScenario.v ===== *)
(** * A game server on concrete inputs

    A secure endpoint with every handler of the package, from the bytes of a console to the
    lobbies: a login, a lobby, a departure; and two requests the endpoint should not have
    listened to. *)

From S2P Require Export ProcessProps Pieces Departures Answers MatchScenario Transport.

#[local] Existing Instance canonical_order.
#[local] Existing Instance merge_slices.

#[local] Abbreviation Net := (NetOf (Process unit)).
#[local] Abbreviation Server := (@Server (Process unit)).

Definition process0 : Process unit :=
  mkProcess NewMatchmaking tournaments0 nat0 rank0 (NewRanking2Store false None) referee0 smm2_0 tt.
Definition cb0 : SMM2Callbacks := DataStore.mkCallbacks None None None None None None None None.
Definition rnd1 : Net → bytes := λ _, replicate 32 x01.

Definition serve0 : RMCHandler Net := serve_extension rnd1 rnd1 rnd1 cfg0 None None.

(** The table of a title that speaks every protocol of the package. *)
Definition table0 : HandlerTable Net :=
  Register ProtocolMatchmakeExtension serve0
  (Register ProtocolMatchMakingExt MatchMakingExtHandler
  (Register ProtocolMatchMaking
     (MatchMakingHandler cfg0 (mkBridge false false false false) (λ _, None) (λ _ _, false) None None)
  (Register ProtocolMessageDelivery (MessageDeliveryHandler false)
  (Register ProtocolNATTraversal (NATTraversalHandler (λ _, None) (λ _ _, false) false false 0 None)
  (Register ProtocolSecureConnection (SecureConnectionHandlerWithConfig SwitchPia519Config)
  (Register ProtocolUtility (λ r req n, (UtilityHandler (mkUtilityEnv (λ _, []) ∅) r req n, n))
  (Register ProtocolRanking (RankingHandler None None canonical_order canonical_order)
  (Register ProtocolRanking2 (Ranking2Handler false (λ _, true))
  (Register ProtocolMatchmakeReferee (MatchmakeRefereeHandler cfg0 false (λ _, true) true)
  (Register ProtocolDataStoreSMM2 (DataStoreSMM2Handler cb0 false (λ _, true)) (mkTable ∅ None))))))))))).

Lemma handler_Register {St} k h (t : HandlerTable St) k' :
  handler (Register k h t) k' = if decide (k' = k) then Some h else handler t k'.
Proof.
  unfold handler, Register. cbn [handlers fallbackHandler]. case_decide; subst.
  - by rewrite lookup_insert_eq.
  - by rewrite lookup_insert_ne.
Qed.

Lemma table0_wired :
  wired canonical_order canonical_order rnd1 rnd1 rnd1 cfg0 (mkBridge false false false false) SwitchPia519Config
    (mkUtilityEnv (λ _, []) ∅) cb0 (λ _, None) (λ _ _, false) false false false false true 0 (λ _, true)
    None None None None None None table0.
Proof.
  intros k h. unfold table0. rewrite !handler_Register.
  repeat (case_decide as E; [intros [= <-]; left; rewrite E; constructor|clear E]). done.
Qed.

Lemma no_callbacks : callbacks_idle (G := unit) None None None None None ∅.
Proof. by split. Qed.

(** The endpoint: the console at 203.0.113.7 logged in as 42 a minute ago. *)
Definition desk : Net :=
  SetSecureAccount (str "password") 2
    (NewEndpoint switch0 (RememberAuthPID None (1000 * second) (str "203.0.113.7:50000") 42 auth_start)
       (1060 * second) process0).

(** *** The transport's events *)
Definition OnMessage0 : Z → Z → bytes → Server → Server :=
  OnMessage None (λ _, []) table0 None (OnDisconnect cfg0) None ∅.
Definition receive (b : bytes) (s : Server) : Server := OnMessage0 1 OpcodeBinary b s.
Definition opened : Server := OnOpen 1 (str "203.0.113.7:50000") (NewServer desk).

(** A request in one packet of the reliable stream. *)
Definition request (seq : Z) (req : RMCMessage) : bytes := EncodePacket (small_data 0 seq (Encode req)).
Definition open_lobby : RMCMessage := search_req MethodCreateMatchmakeSessionWithParam.
Definition lobbies (s : Server) : list (Z * list Z) :=
  (λ e, (e.1, participants e.2)) <$> range (gatherings (mm (net s))).

(** A console logs in, opens a lobby and leaves: the lobby goes with it. *)
Definition playing : Server :=
  receive (request 1 open_lobby) (receive (connect_once switch0) (receive client_syn opened)).

Example a_session :
  lobbies playing = [(1, [42])] ∧ lobbies (receive client_disconnect playing) = [].
Proof. vm_compute. done. Qed.

(** *** What the connection's state does not stop

    processData does not look at the connection's state.  A peer that never sent a CONNECT —
    no signature, no ticket, no login — has its requests served, as player 0, by the secure
    endpoint. *)
Example stranger_is_served :
  let s := receive (request 1 open_lobby) (OnOpen 1 (str "198.51.100.9:4000") (NewServer desk)) in
  lobbies s = [(1, [0])] ∧ connections (net s) = ∅ ∧ length (sent (net s)) = 2%nat.
Proof. vm_compute. done. Qed.

(** And a console whose DISCONNECT and a request arrive together is served after its
    departure: the lobby it opens outlives it, the socket's end included, and nothing
    removes it any more — the reaper only sees registered connections. *)
Example served_after_departure :
  let s := receive (client_disconnect ++ request 1 open_lobby) (receive (connect_once switch0) (receive client_syn opened)) in
  let s := OnClose (OnDisconnect cfg0) 1 s in
  lobbies s = [(1, [42])] ∧ connections (net s) = ∅ ∧
  lobbies (mkServer ∅ (reaper_turn (OnDisconnect cfg0) (60 * second) (600 * second) (net s))) = [(1, [42])].
Proof. vm_compute. done. Qed.

(** A player may have two connections for a while, as FindConnectionByPID expects of one who
    reconnects.  RemovePlayer goes by the PID: when the old socket is closed, the player is
    taken out of the lobby they are in with the new connection, which is live. *)
Example reconnected_player_is_removed :
  let s := OnOpen 2 (str "203.0.113.7:50001") playing in
  let s := OnMessage0 2 OpcodeBinary client_syn s in
  let s := OnMessage0 2 OpcodeBinary (client_connect switch0 (ConnectionSignature [] (str "203.0.113.7:50001"))) s in
  let s' := OnClose (OnDisconnect cfg0) 1 s in
  lobbies s = [(1, [42])] ∧ lobbies s' = [] ∧
  FindConnectionByPID 42 (net s) = Some 1%nat ∧ FindConnectionByPID 42 (net s') = Some 1%nat ∧
  state (conn 1%nat (net s')) = stateConnected.
Proof. vm_compute. done. Qed.

(** ** The theorems of ProcessProps.v on this server *)

(** The same session, packet by packet. *)
Definition handle0 : Ref → Packet → Net → Net :=
  handlePacket None (λ _, []) table0 None (OnDisconnect cfg0) None ∅.
Definition step0 : Net → Net → Prop :=
  process_step None (λ _, []) cfg0 (mkBridge false false false false) (λ _, None) (λ _ _, false) None None None ∅ table0.
Definition reach0 : Net → Prop :=
  reachable None (λ _, []) cfg0 (mkBridge false false false false) (λ _, None) (λ _ _, false) None None None ∅ table0.

Definition syn_packet : Packet := mkPacket PacketSYN FlagNeedACK 10 1 10 1 0 0 [] [] 4 0 [].
Definition connect_packet : Packet :=
  let sig := LitePacketSignature (AccessKey switch0) (mkPacket PacketCONNECT FlagNeedACK 10 1 10 1 0 1 [] [] 4 0 [])
               (ConnectionSignature [] (str "203.0.113.7:50000")) in
  mkPacket PacketCONNECT FlagNeedACK 10 1 10 1 0 1 sig [] 4 0 [].

Definition desk1 : Net := (alloc (NewConnection (str "203.0.113.7:50000")) desk).2.
Definition desk2 : Net := handle0 0%nat syn_packet desk1.
Definition desk3 : Net := handle0 0%nat connect_packet desk2.
Definition desk4 : Net := handle0 0%nat (small_data 0 1 (Encode open_lobby)) desk3.

Lemma desk_step2 : step0 desk2 desk3.
Proof. apply ps_net, net_packet. Qed.

Lemma desk4_reachable : reach0 desk4.
Proof.
  assert (∀ n : Net, Z.ltb (connCounter n) (2 ^ 32 - 1) = true → connCounter n < 2 ^ 32 - 1) as Hlt by (intros n; lia).
  exists desk. split.
  - split; [|reflexivity]. exists switch0, (RememberAuthPID None (1000 * second) (str "203.0.113.7:50000") 42 auth_start),
      (1060 * second), process0, (str "password"), 2. by right.
  - apply (rtc_l _ desk desk1); [split; [apply Hlt; vm_compute; reflexivity|apply ps_net, net_accept]|].
    apply (rtc_l _ desk1 desk2); [split; [apply Hlt; vm_compute; reflexivity|apply ps_net, net_packet]|].
    apply (rtc_l _ desk2 desk3); [split; [apply Hlt; vm_compute; reflexivity|apply ps_net, net_packet]|].
    apply (rtc_l _ desk3 desk4); [split; [apply Hlt; vm_compute; reflexivity|apply ps_net, net_packet]|].
    apply rtc_refl.
Qed.

Lemma desk4_lobby : ∃ g, gatherings (mm desk4) !! 1 = Some g ∧ participants g = [42].
Proof.
  assert (participants <$> gatherings (mm desk4) !! 1 = Some [42]) as E by (vm_compute; reflexivity).
  apply fmap_Some in E as (g & Hg & Hp). exists g. split; [exact Hg|symmetry; exact Hp].
Qed.

Lemma process_stays_consistent_witness :
  reach0 desk4 ∧ FindConnectionByID (ID (conn 0%nat desk4)) desk4 = Some 0%nat ∧
  ∃ g, gatherings (mm desk4) !! 1 = Some g ∧ NoDup (participants g).
Proof.
  split; [exact desk4_reachable|].
  destruct (process_stays_consistent canonical_order canonical_order None (λ _, []) rnd1 rnd1 rnd1 cfg0 (mkBridge false false false false)
    SwitchPia519Config (mkUtilityEnv (λ _, []) ∅) cb0 (λ _, None) (λ _ _, false) false false false false true 0 (λ _, true)
    None None None None None None None None ∅ table0 no_callbacks table0_wired desk4 desk4_reachable) as (H1 & _ & H3).
  split; [apply H1; vm_compute; discriminate|].
  destruct desk4_lobby as (g & E & _). exists g. split; [exact E|]. exact (proj1 (H3 1 g E)).
Defined.

Lemma identity_only_by_login_witness :
  step0 desk2 desk3 ∧ PID (conn 0%nat desk3) = 42 ∧ PID (conn 0%nat desk2) = 0 ∧
  ∃ p, desk3 = handle0 0%nat p desk2 ∧ admits None desk2 0%nat p 42.
Proof.
  assert (PID (conn 0%nat desk3) = 42) as E3 by (vm_compute; reflexivity).
  assert (PID (conn 0%nat desk2) = 0) as E2 by (vm_compute; reflexivity).
  split; [exact desk_step2|]. split; [exact E3|]. split; [exact E2|].
  destruct (identity_only_by_login canonical_order canonical_order None (λ _, []) rnd1 rnd1 rnd1 cfg0 (mkBridge false false false false)
    SwitchPia519Config (mkUtilityEnv (λ _, []) ∅) cb0 (λ _, None) (λ _ _, false) false false false false true 0 (λ _, true)
    None None None None None None None None ∅ table0 no_callbacks table0_wired desk2 desk3 0%nat desk_step2) as (p & H1 & H2 & _);
    [rewrite E3, E2; discriminate|].
  exists p. rewrite E3 in H2. split; [exact H1|exact H2].
Defined.

Lemma participants_logged_in_witness :
  reach0 desk4 ∧
  logged_in None (λ _, []) cfg0 (mkBridge false false false false) (λ _, None) (λ _ _, false) None None None ∅ table0 42 desk4.
Proof.
  split; [exact desk4_reachable|].
  destruct desk4_lobby as (g & E & Hp). assert (42 ∈ participants g) as Hq by (rewrite Hp; by left).
  destruct (participants_logged_in canonical_order canonical_order None (λ _, []) rnd1 rnd1 rnd1 cfg0 (mkBridge false false false false)
    SwitchPia519Config (mkUtilityEnv (λ _, []) ∅) cb0 (λ _, None) (λ _ _, false) false false false false true 0 (λ _, true)
    None None None None None None None None ∅ table0 no_callbacks table0_wired desk4 1 g 42 desk4_reachable E Hq) as [Hz|Hk];
    [discriminate Hz|exact Hk].
Defined.

(** A peer that did not log in asks to close the lobby: whoever has no connection is struck
    off, and the player in it stays. *)
Definition desk6 : Net := (alloc (NewConnection (str "198.51.100.9:4000")) desk4).2.
Definition close_lobby : RMCMessage := ext_req MethodCloseParticipation (wU32 1).
Definition desk7 : Net := handle0 1%nat (small_data 0 1 (Encode close_lobby)) desk6.

Lemma desk_step6 : step0 desk6 desk7.
Proof. apply ps_net, net_packet. Qed.

Lemma desk6_lobby : ∃ g, gatherings (mm desk6) !! 1 = Some g ∧ participants g = [42].
Proof.
  assert (participants <$> gatherings (mm desk6) !! 1 = Some [42]) as E by (vm_compute; reflexivity).
  apply fmap_Some in E as (g & Hg & Hp). exists g. split; [exact Hg|symmetry; exact Hp].
Qed.

Example desk7_lobby : (λ g, (participants g, OpenParticipation (session g))) <$> gatherings (mm desk7) !! 1 = Some ([42], false).
Proof. vm_compute. reflexivity. Qed.

#[local] Abbreviation on_behalf0 := (on_behalf (G := unit) None (λ _, []) cfg0 None None ∅ table0).

Lemma process_refines_lobbies_witness :
  step0 desk3 desk4 ∧
  (hall_of (mm desk4) = hall_of (mm desk3) ∨
   ∃ p, on_behalf0 desk3 desk4 p ∧ turn (here desk3) p (hall_of (mm desk3)) (hall_of (mm desk4))).
Proof.
  assert (step0 desk3 desk4) as Hs by apply ps_net, net_packet. split; [exact Hs|].
  exact (process_refines_lobbies canonical_order canonical_order None (λ _, []) rnd1 rnd1 rnd1 cfg0 (mkBridge false false false false)
    SwitchPia519Config (mkUtilityEnv (λ _, []) ∅) cb0 (λ _, None) (λ _ _, false) false false false false true 0 (λ _, true)
    None None None None None None None None ∅ table0 no_callbacks table0_wired desk3 desk4 Hs).
Defined.

Lemma members_stay_witness :
  step0 desk6 desk7 ∧
  ∃ g, gatherings (mm desk6) !! 1 = Some g ∧ 42 ∈ participants g ∧ is_Some (FindConnectionByPID 42 desk6) ∧
    ((∃ g', gatherings (mm desk7) !! 1 = Some g' ∧ 42 ∈ participants g') ∨
     on_behalf0 desk6 desk7 42 ∨ on_behalf0 desk6 desk7 (ms_OwnerPID (session g))).
Proof.
  split; [exact desk_step6|]. destruct desk6_lobby as (g & E & Hp). exists g.
  assert (42 ∈ participants g) as Hq by (rewrite Hp; by left).
  assert (FindConnectionByPID 42 desk6 = Some 0%nat) as Hf by (vm_compute; reflexivity).
  assert (nextGID (mm desk6) = 2) as Hn by (vm_compute; reflexivity).
  split; [exact E|]. split; [exact Hq|]. split; [rewrite Hf; exists 0%nat; reflexivity|].
  refine (members_stay canonical_order canonical_order None (λ _, []) rnd1 rnd1 rnd1 cfg0 (mkBridge false false false false)
    SwitchPia519Config (mkUtilityEnv (λ _, []) ∅) cb0 (λ _, None) (λ _ _, false) false false false false true 0 (λ _, true)
    None None None None None None None None ∅ table0 no_callbacks table0_wired desk6 desk7 1 g 42 desk_step6 E _ Hq _).
  - rewrite Hn. discriminate.
  - rewrite Hf. exists 0%nat. reflexivity.
Defined.

(** *** Two searches at once

    Console 100 has its lobby, and before it is told, console 200 is put in it and told: both
    are in one lobby whatever the order of the announcements. *)
Definition search0 : RMCMessage := search_req MethodAutoMatchmakeWithParamPostpone.
Definition first_locked := autoMatchmake_locked cfg0 rnd0 (ref_of 100) search0 hall0.
Definition second_locked := autoMatchmake_locked cfg0 rnd0 (ref_of 200) search0 first_locked.2.
Definition second_told := (answer_after (join_announced cfg0 ready0 (ref_of 200)) second_locked.1 second_locked.2).2.
Definition first_told := (answer_after (join_announced cfg0 ready0 (ref_of 100)) first_locked.1 second_told).2.

Example searches_interleaved :
  people first_locked.2 = Some ([100], 100) ∧ people second_locked.2 = Some ([100; 200], 100) ∧
  people first_told = Some ([100; 200], 100) ∧
  length (sent hall0) = 0%nat ∧ length (sent second_told) = 3%nat ∧ length (sent first_told) = 4%nat.
Proof. vm_compute. repeat split. Qed.

Lemma every_request_is_answered_witness :
  ParseRMC (settings desk3) (Encode open_lobby) = (Some open_lobby, None) ∧
  ∃ resp m', answer_to ProtocolMatchmakeExtension open_lobby resp ∧ pushes desk3 m' ∧
    dispatchRMC table0 None 0%nat (Encode open_lobby) desk3 = SendRMC 0%nat resp m'.
Proof.
  assert (ParseRMC (settings desk3) (Encode open_lobby) = (Some open_lobby, None)) as Hp by (vm_compute; reflexivity).
  split; [exact Hp|].
  assert (callbacks_push (G := unit) None None None) as Hcb by (split; intros; discriminate).
  destruct (every_request_is_answered canonical_order canonical_order rnd1 rnd1 rnd1 cfg0 (mkBridge false false false false)
    SwitchPia519Config (mkUtilityEnv (λ _, []) ∅) cb0 (λ _, None) (λ _ _, false) false false false false true 0 (λ _, true)
    None None None None None None None table0 0%nat (Encode open_lobby) open_lobby serve0 desk3 Hcb Hp eq_refl eq_refl
    (pkg_extension _ _ _ _ _ _ _ _ _ _ _ _ _ _ _ _ _ _ _ _ _ _ _ _ _)) as [(resp & m' & Ha & Hm & Hd)|[[E|[[E _]|[_ [E _]]]] _]];
    [|discriminate E|discriminate E|discriminate E].
  exists resp, m'. split; [exact Ha|]. split; [exact Hm|exact Hd].
Defined.

(** Ten minutes of silence after the lobby was opened. *)
Definition desk5 : Net := set_clock (clock desk4 + 601 * second) desk4.

Lemma registry_ok_clock t (n : Net) : registry_ok n → registry_ok (set_clock t n).
Proof. done. Qed.

Lemma mm_set_clock t (n : Net) : mm (set_clock t n) = mm n.
Proof. done. Qed.

Lemma evicted_players_leave_witness :
  registry_ok desk5 ∧ live 0%nat desk5 ∧ listed 42 (mm desk5) ∧
  ¬ listed 42 (mm (ReapIdle (OnDisconnect cfg0) (600 * second) desk5).2).
Proof.
  assert (registry_ok desk5) as Hreg.
  { apply registry_ok_clock.
    refine (proj1 (process_ok_reachable canonical_order canonical_order None (λ _, []) rnd1 rnd1 rnd1 cfg0 (mkBridge false false false false)
      SwitchPia519Config (mkUtilityEnv (λ _, []) ∅) cb0 (λ _, None) (λ _ _, false) false false false false true 0 (λ _, true)
      None None None None None None None None ∅ table0 no_callbacks table0_wired desk4 desk4_reachable)). }
  assert (live 0%nat desk5) as Hlive by (split; [vm_compute; reflexivity|vm_compute; discriminate]).
  split; [exact Hreg|]. split; [exact Hlive|]. split.
  - unfold desk5. rewrite mm_set_clock. destruct desk4_lobby as (g & Hg & E). exists 1, g. split; [exact Hg|]. rewrite E. apply list_elem_of_singleton. reflexivity.
  - destruct (evicted_players_leave cfg0 (600 * second) desk5 ltac:(reflexivity) Hreg) as (H & _).
    assert (silent (600 * second) 0%nat desk5) as Hs by (vm_compute; discriminate).
    assert (PID (conn 0%nat desk5) = 42) as Ep by (vm_compute; reflexivity).
    destruct (H 0%nat Hlive Hs) as (_ & _ & Hgone). rewrite Ep in Hgone. apply Hgone. discriminate.
Defined.
